(** * DiskANN product-quantisation core and aligned reader

    A shallow embedding of [src/pq.cpp] and
    [src/linux_aligned_file_reader.cpp].

    Conventions.
    - [unsigned] / [uint32_t] values are integers with the wrap-around of
      32-bit arithmetic written out ([wrap32]); container sizes and loop
      counters that only count elements of a list are [nat].
    - C arrays are lists; a store [a[i] = v] is stdpp's [<[i:=v]>].
    - Undefined behaviour of the source (an access outside an array) is
      the result [None], or [Undef] where the code can also throw.
    - Files are lists of bytes; the file system is a finite map from
      paths to files. *)

From Stdlib Require Import ZArith Lia SpecFloat.
From Stdlib.Strings Require Import Byte.
From stdpp Require Import base option list strings gmap pretty.

Local Open Scope nat_scope.

(** 32-bit and 64-bit unsigned wrap-around. *)
Definition wrap32 (z : Z) : Z := (z mod 2 ^ 32)%Z.
Definition wrap64 (z : Z) : Z := (z mod 2 ^ 64)%Z.

(** ** The load-balanced chunk partition
    ([generate_pq_pivots], lines 358-399; the same text is in
    [generate_opq_pivots], lines 519-560). *)
Module Partition.

(** [std::numeric_limits<float>::max()], which is the integer
    [2^128 - 2^104]. The loads compared with it are all [0]. *)
Definition FLT_MAX : Z := (2 ^ 128 - 2 ^ 104)%Z.

(** [(size_t) std::floor((double) dim / (double) num_pq_chunks)].
    Both operands are 32-bit, hence exact doubles, and the rounding error
    of the quotient is below the distance [1 / num_pq_chunks] of a
    non-integral quotient to the next integer: floor and ceil of the
    double quotient are those of the rational one. *)
Definition low_val (dim num_pq_chunks : nat) : nat := dim / num_pq_chunks.

(** [(size_t) std::ceil((double) dim / (double) num_pq_chunks)]. *)
Definition high_val (dim num_pq_chunks : nat) : nat :=
  if dim mod num_pq_chunks =? 0 then dim / num_pq_chunks
  else S (dim / num_pq_chunks).

(** [size_t max_num_high = dim - (low_val * num_pq_chunks)]. *)
Definition max_num_high (dim num_pq_chunks : nat) : nat :=
  dim - low_val dim num_pq_chunks * num_pq_chunks.

(** The variables the loop over [d] changes. *)
Record bins := Bins {
  bin_to_dims : list (list nat);
  cur_num_high : nat;
  cur_bin_threshold : nat
}.

(** The loop over [b]: the pair [(cur_best, cur_best_load)] after it. *)
Definition choose_bin (num_pq_chunks : nat) (bin_loads : list Z)
    (st : bins) : nat * Z :=
  fold_left
    (fun (cur : nat * Z) (b : nat) =>
       if ((bin_loads !!! b <? cur.2)%Z
           && (length (bin_to_dims st !!! b) <? cur_bin_threshold st))%bool
       then (b, bin_loads !!! b)
       else cur)
    (seq 0 num_pq_chunks) (num_pq_chunks + 1, FLT_MAX).

(** One round of the loop over [d]. [dim_to_bin] is never written, so
    the [continue] is never taken; [bin_to_dims[cur_best]] outside the
    vector is undefined. *)
Definition assign_dim (dim num_pq_chunks : nat) (dim_to_bin : list (nat * nat))
    (bin_loads : list Z) (st : bins) (d : nat) : option bins :=
  if existsb (fun kv => kv.1 =? d) dim_to_bin then Some st
  else
    let cur_best := (choose_bin num_pq_chunks bin_loads st).1 in
    match bin_to_dims st !! cur_best with
    | None => None
    | Some dims =>
        let dims' := dims ++ [d] in
        let bin_to_dims' := <[cur_best := dims']> (bin_to_dims st) in
        if length dims' =? high_val dim num_pq_chunks then
          let cur_num_high' := S (cur_num_high st) in
          Some (Bins bin_to_dims' cur_num_high'
                  (if cur_num_high' =? max_num_high dim num_pq_chunks
                   then low_val dim num_pq_chunks
                   else cur_bin_threshold st))
        else Some (Bins bin_to_dims' (cur_num_high st) (cur_bin_threshold st))
    end.

Fixpoint assign_dims (dim num_pq_chunks : nat) (dim_to_bin : list (nat * nat))
    (bin_loads : list Z) (ds : list nat) (st : bins) : option bins :=
  match ds with
  | [] => Some st
  | d :: ds' =>
      match assign_dim dim num_pq_chunks dim_to_bin bin_loads st d with
      | None => None
      | Some st' => assign_dims dim num_pq_chunks dim_to_bin bin_loads ds' st'
      end
  end.

(** The loop that fills [chunk_offsets] after [push_back(0)]; the sum is
    an [unsigned] one. *)
Definition push_offsets (num_pq_chunks : nat) (bin_to_dims : list (list nat))
    : list Z :=
  fold_left
    (fun (chunk_offsets : list Z) (b : nat) =>
       if 0 <? b
       then chunk_offsets ++
              [wrap32 (chunk_offsets !!! (b - 1)
                       + Z.of_nat (length (bin_to_dims !!! (b - 1))))]
       else chunk_offsets)
    (seq 0 num_pq_chunks) [0%Z].

(** Lines 358-399: the chunk offsets for [dim] and [num_pq_chunks]. With
    no chunks the quotient is infinite or not a number and its conversion
    to [size_t] is undefined. *)
Definition chunk_partition (dim num_pq_chunks : nat) : option (list Z) :=
  if num_pq_chunks =? 0 then None else
  let st0 := Bins (replicate num_pq_chunks [])
               0 (high_val dim num_pq_chunks) in
  match assign_dims dim num_pq_chunks [] (replicate num_pq_chunks 0%Z)
          (seq 0 dim) st0 with
  | None => None
  | Some st =>
      Some (push_offsets num_pq_chunks (bin_to_dims st) ++ [Z.of_nat dim])
  end.

(** The sizes of the bins while the axes are dealt out, with the values
    of [cur_num_high] and [cur_bin_threshold] that go with them: bins are
    filled to [h] one after the other until [r] of them are full, then to
    [l]. *)
Inductive fill_shape (h l r M : nat) : list nat -> nat -> nat -> Prop :=
| shape_high a s c :
    s < h -> a + 1 + c = M -> r = 0 \/ a < r ->
    fill_shape h l r M (replicate a h ++ s :: replicate c 0) a h
| shape_high_full :
    r = 0 -> fill_shape h l r M (replicate M h) M h
| shape_low b s c :
    r <> 0 -> h = S l -> s < l -> r + b + 1 + c = M ->
    fill_shape h l r M
      (replicate r h ++ replicate b l ++ s :: replicate c 0) r l
| shape_low_full :
    r <> 0 -> h = S l -> r <= M ->
    fill_shape h l r M (replicate r h ++ replicate (M - r) l) r l.

Definition sizes (st : bins) : list nat := length <$> bin_to_dims st.

(** Width of group [i] of an offset array. *)
Definition width (O : list Z) (i : nat) : Z :=
  let hi := O !!! (i + 1) in
  let lo := O !!! i in
  (hi - lo)%Z.

(** Number of groups [i < M] of width [w]. *)
Definition count_width (O : list Z) (M : nat) (w : Z) : nat :=
  length (filter (fun i => width O i = w) (seq 0 M)).

End Partition.


(** ** Floating point

    The operations of [float] and [double] the sources use. [F] is
    [float], [Dbl] is [double]. *)
Class FloatOps (F Dbl : Type) := {
  fzero : F;                    (* the value of four zero bytes, [0.0f] *)
  fadd : F -> F -> F;
  fsub : F -> F -> F;
  fmul : F -> F -> F;
  fdiv : F -> F -> F;
  fneg : F -> F;
  fneq : F -> F -> bool;        (* [!=] *)
  f_of_int : Z -> F;            (* conversion of an integer to [float] *)
  to_double : F -> Dbl;         (* widening *)
  dmul : Dbl -> Dbl -> Dbl;
  to_float : Dbl -> F           (* [(float)] of a [double] *)
}.

#[global] Instance float_inhabited {F Dbl : Type} {O : FloatOps F Dbl}
  : Inhabited F := populate fzero.

(** IEEE 754 binary32 and binary64, round to nearest even, from the
    Standard Library's specification of floating-point arithmetic. *)
Module B32.
Definition prec : Z := 24.
Definition emax : Z := 128.
Definition of_Z (z : Z) : spec_float := binary_normalize prec emax z 0 false.
Definition neq (x y : spec_float) : bool := negb (SFeqb x y).
Definition narrow (x : spec_float) : spec_float :=
  match x with
  | S754_finite s m e => binary_round prec emax s m e
  | _ => x
  end.
#[global] Instance ops : FloatOps spec_float spec_float := {|
  fzero := S754_zero false;
  fadd := SFadd prec emax;
  fsub := SFsub prec emax;
  fmul := SFmul prec emax;
  fdiv := SFdiv prec emax;
  fneg := SFopp;
  fneq := neq;
  f_of_int := of_Z;
  to_double := fun x => x;
  dmul := SFmul 53 1024;
  to_float := narrow
|}.
End B32.

(** Arithmetic without rounding: the integers. *)
Module ExactZ.
#[global] Instance ops : FloatOps Z Z := {|
  fzero := 0%Z;
  fadd := Z.add;
  fsub := Z.sub;
  fmul := Z.mul;
  fdiv := Z.div;
  fneg := Z.opp;
  fneq := fun x y => negb (x =? y)%Z;
  f_of_int := fun z => z;
  to_double := fun x => x;
  dmul := Z.mul;
  to_float := fun x => x
|}.
End ExactZ.

(** What holds of the operations when nothing is rounded. *)
Class ExactArith {F Dbl : Type} (O : FloatOps F Dbl) : Prop := {
  fadd_assoc : forall x y z : F, fadd x (fadd y z) = fadd (fadd x y) z;
  fadd_0_l : forall x : F, fadd fzero x = x;
  fadd_0_r : forall x : F, fadd x fzero = x;
  fsub_fadd : forall x y : F, fsub x y = fadd x (fneg y);
  fneg_fadd : forall x y : F, fneg (fadd x y) = fadd (fneg x) (fneg y);
  fneg_0 : fneg fzero = (fzero : F);
  double_square : forall x : F,
    to_float (dmul (to_double x) (to_double x)) = fmul x x;
  double_round_trip : forall x : F, to_float (to_double x) = x
}.

(** What holds of binary32 as of arithmetic that does not round: a
    square taken through [double] and added to zero is the square. *)
Class SquareFromZero {F Dbl : Type} (O : FloatOps F Dbl) : Prop :=
  square_from_zero : forall d : F,
    fadd fzero (to_float (dmul (to_double d) (to_double d))) = fmul d d.

(** A result of the rounding of binary32: of sign [s], and finite only
    with a mantissa and an exponent binary32 has bits for. *)
Definition rounded (s : bool) (y : spec_float) : Prop :=
  match y with
  | S754_zero s' | S754_infinity s' => s' = s
  | S754_nan => True
  | S754_finite s' m e =>
      s' = s /\ (Zpos m < 2 ^ 24)%Z /\ (-149 <= e <= 104)%Z
  end.

(** A binary32 number: 24 bits of mantissa, all of them used unless the
    number is subnormal. *)
Definition valid32 (x : spec_float) : Prop :=
  match x with
  | S754_finite s m e =>
      (Zpos m < 2 ^ 24)%Z /\ (-149 <= e <= 104)%Z
      /\ (2 ^ 23 <= Zpos m \/ e = -149)%Z
  | _ => True
  end.

(** Two floats that are the same, or that compare equal, as the zeros
    of either sign do. *)
Definition alike {F Dbl : Type} {O : FloatOps F Dbl} (x y : F) : Prop :=
  x = y \/ fneq x y = false.

(** What holds of binary32, where rounding does not look at the sign:
    a product passes through [double] unchanged, and adding up the
    opposite terms gives the opposite sum, up to the sign of zero. *)
Class RoundsSymmetrically {F Dbl : Type} (O : FloatOps F Dbl) : Prop := {
  product_through_double : forall c q : F,
    to_float (to_double (fmul c q)) = fmul c q;
  zero_alike_its_opposite : alike (fzero : F) (fneg fzero);
  from_zero_opposite : forall p : F, alike (fsub fzero p) (fneg p);
  opposite_sums : forall T D u p : F,
    alike T (fneg D) -> alike u (fneg p) ->
    alike (fadd T u) (fneg (fadd D p))
}.

Definition SF_is_zero (x : spec_float) : Prop :=
  match x with S754_zero _ => True | _ => False end.

(** The same number: the same value of the specification, or two zeros. *)
Definition SF_close (x y : spec_float) : Prop :=
  x = y \/ (SF_is_zero x /\ SF_is_zero y).

(** A value binary32 has bits for. *)
Definition encodable (y : spec_float) : Prop :=
  match y with
  | S754_finite _ m e => (Zpos m < 2 ^ 24)%Z /\ (-149 <= e <= 104)%Z
  | _ => True
  end.

(** A number whose mantissa has fewer than 24 bits is stored as a
    subnormal number. *)
Definition normal_form (y : spec_float) : spec_float :=
  match y with
  | S754_finite s m e =>
      S754_finite s m (if (Zpos m <? 2 ^ 23)%Z then (-149)%Z else e)
  | _ => y
  end.

(** A loop whose body can be undefined. *)
Fixpoint for_each {A B : Type} (f : A -> B -> option A) (l : list B) (a : A)
    : option A :=
  match l with
  | [] => Some a
  | b :: l' =>
      match f a b with
      | Some a' => for_each f l' a'
      | None => None
      end
  end.

(** ** The PQ table and the query-side helpers ([pq.cpp], lines 169-292) *)
Section PQTable.
Context {F Dbl : Type} {O : FloatOps F Dbl}.

(** The data members of [FixedChunkPQTable]. *)
Record FixedChunkPQTable := {
  tables : list F;
  tables_tr : list F;
  centroid : list F;
  chunk_offsets : list Z;
  ndims : Z;
  n_chunks : Z;
  use_rotation : bool;
  rotmat_tr : list F
}.

(** [memset(buf, 0, n * sizeof(float))]. *)
Definition memset_zero (n : nat) (buf : list F) : option (list F) :=
  if decide (n <= length buf)
  then Some (replicate n fzero ++ drop n buf)
  else None.

(** The axes [j] of a chunk:
    [for (j = chunk_offsets[chunk]; j < chunk_offsets[chunk + 1]; j++)]. *)
Definition chunk_axes (t : FixedChunkPQTable) (chunk : nat)
    : option (list nat) :=
  lo ← chunk_offsets t !! chunk;
  hi ← chunk_offsets t !! (chunk + 1);
  Some (seq (Z.to_nat lo) (Z.to_nat hi - Z.to_nat lo)).

Definition get_num_chunks (t : FixedChunkPQTable) : Z := wrap32 (n_chunks t).

(** Lines 189-204. *)
Definition populate_chunk_distances (t : FixedChunkPQTable)
    (query_vec dist_vec : list F) : option (list F) :=
  dist_vec ← memset_zero (256 * Z.to_nat (n_chunks t)) dist_vec;
  for_each
    (fun dist_vec chunk =>
       axes ← chunk_axes t chunk;
       for_each
         (fun dist_vec j =>
            for_each
              (fun dist_vec idx =>
                 c ← tables_tr t !! (256 * j + idx);
                 q ← query_vec !! j;
                 old ← dist_vec !! (256 * chunk + idx);
                 let diff := to_double (fsub c q) in
                 Some (<[256 * chunk + idx :=
                          fadd old (to_float (dmul diff diff))]> dist_vec))
              (seq 0 256) dist_vec)
         axes dist_vec)
    (seq 0 (Z.to_nat (n_chunks t))) dist_vec.

(** Lines 206-216. *)
Definition l2_distance (t : FixedChunkPQTable)
    (query_vec : list F) (base_vec : list nat) : option F :=
  for_each
    (fun res chunk =>
       axes ← chunk_axes t chunk;
       for_each
         (fun res j =>
            code ← base_vec !! chunk;
            c ← tables_tr t !! (256 * j + code);
            q ← query_vec !! j;
            let diff := fsub c q in
            Some (fadd res (fmul diff diff)))
         axes res)
    (seq 0 (Z.to_nat (n_chunks t))) fzero.

(** Lines 218-232. *)
Definition inner_product (t : FixedChunkPQTable)
    (query_vec : list F) (base_vec : list nat) : option F :=
  res ← for_each
    (fun res chunk =>
       axes ← chunk_axes t chunk;
       for_each
         (fun res j =>
            code ← base_vec !! chunk;
            c ← tables_tr t !! (256 * j + code);
            q ← query_vec !! j;
            let diff := fmul c q in
            Some (fadd res diff))
         axes res)
    (seq 0 (Z.to_nat (n_chunks t))) fzero;
  Some (fneg res).

(** Lines 244-265. *)
Definition populate_chunk_inner_products (t : FixedChunkPQTable)
    (query_vec dist_vec : list F) : option (list F) :=
  dist_vec ← memset_zero (256 * Z.to_nat (n_chunks t)) dist_vec;
  for_each
    (fun dist_vec chunk =>
       axes ← chunk_axes t chunk;
       for_each
         (fun dist_vec j =>
            for_each
              (fun dist_vec idx =>
                 c ← tables_tr t !! (256 * j + idx);
                 q ← query_vec !! j;
                 old ← dist_vec !! (256 * chunk + idx);
                 let prod := to_double (fmul c q) in
                 Some (<[256 * chunk + idx :=
                          fsub old (to_float prod)]> dist_vec))
              (seq 0 256) dist_vec)
         axes dist_vec)
    (seq 0 (Z.to_nat (n_chunks t))) dist_vec.

(** Lines 274-292; the prefetches change nothing. *)
Definition pq_dist_lookup (pq_ids : list nat) (n_pts pq_nchunks : nat)
    (pq_dists dists_out : list F) : option (list F) :=
  dists_out ← memset_zero n_pts dists_out;
  for_each
    (fun dists_out chunk =>
       for_each
         (fun dists_out idx =>
            pq_centerid ← pq_ids !! (pq_nchunks * idx + chunk);
            d ← pq_dists !! (256 * chunk + pq_centerid);
            old ← dists_out !! idx;
            Some (<[idx := fadd old d]> dists_out))
         (seq 0 n_pts) dists_out)
    (seq 0 pq_nchunks) dists_out.

(** The sum of the specification, [Σ_{c < M} chunk_dists[c·K + codes[i·M + c]]],
    added up from [0] in the order of [c]. *)
Definition lookup_sum (K M : nat) (chunk_dists : list F) (codes : list nat)
    (i : nat) : option F :=
  for_each
    (fun acc c =>
       code ← codes !! (i * M + c);
       d ← chunk_dists !! (c * K + code);
       Some (fadd acc d))
    (seq 0 M) fzero.

(** The arguments [pq_dist_lookup] expects: the codes are bytes and the table has 256 entries per chunk. *)
Definition lookup_ready (pq_ids : list nat) (n_pts pq_nchunks : nat)
    (pq_dists dists_out : list F) : Prop :=
  length pq_ids = n_pts * pq_nchunks /\
  Forall (fun c => c < 256) pq_ids /\
  length pq_dists = 256 * pq_nchunks /\
  n_pts <= length dists_out.

(** The table entry chunk [c] adds to point [i]. *)
Definition lookup_term (pq_ids : list nat) (M : nat) (pq_dists : list F)
    (c i : nat) : F :=
  pq_dists !!! (256 * c + pq_ids !!! (M * i + c)).

(** What the distance functions expect of a table and a query: [n_chunks + 1]
    offsets that stay within [ndims], [256 * ndims] transposed centroids and
    a query of [ndims] coordinates. *)
Definition table_ready (t : FixedChunkPQTable) (query_vec : list F) : Prop :=
  Z.to_nat (n_chunks t) + 1 <= length (chunk_offsets t) /\
  (forall chunk hi, chunk < Z.to_nat (n_chunks t) ->
     chunk_offsets t !! (chunk + 1) = Some hi -> (hi <= ndims t)%Z) /\
  length (tables_tr t) = 256 * Z.to_nat (ndims t) /\
  length query_vec = Z.to_nat (ndims t).

(** The axes of a chunk, none when the offsets are missing. *)
Definition axes_of (t : FixedChunkPQTable) (chunk : nat) : list nat :=
  default [] (chunk_axes t chunk).

(** The squared difference on axis [j] to centre [c], as
    [populate_chunk_distances] and as [l2_distance] compute it. *)
Definition table_sq (t : FixedChunkPQTable) (query_vec : list F)
    (j c : nat) : F :=
  let diff := to_double (fsub (tables_tr t !!! (256 * j + c)) (query_vec !!! j)) in
  to_float (dmul diff diff).

Definition direct_sq (t : FixedChunkPQTable) (query_vec : list F)
    (j c : nat) : F :=
  let diff := fsub (tables_tr t !!! (256 * j + c)) (query_vec !!! j) in
  fmul diff diff.

(** The product on axis [j] with centre [c]. *)
Definition table_prod (t : FixedChunkPQTable) (query_vec : list F)
    (j c : nat) : F :=
  to_float (to_double (fmul (tables_tr t !!! (256 * j + c)) (query_vec !!! j))).

Definition direct_prod (t : FixedChunkPQTable) (query_vec : list F)
    (j c : nat) : F :=
  fmul (tables_tr t !!! (256 * j + c)) (query_vec !!! j).

(** The two orders of adding up the terms of a code. Through the table:
    one sum per chunk, from zero, over the axes of the chunk, with [step]
    adding or subtracting a term; then the sums of the chunks added up,
    from zero. *)
Definition chunkwise (t : FixedChunkPQTable) (step : F -> F -> F)
    (term : nat -> nat -> F) (code : list nat) : F :=
  fold_left
    (fun acc chunk =>
       fadd acc
         (fold_left (fun acc' j => step acc' (term j (code !!! chunk)))
            (axes_of t chunk) fzero))
    (seq 0 (Z.to_nat (n_chunks t))) fzero.

(** Directly: one running sum, from zero, over the axes of all chunks. *)
Definition running (t : FixedChunkPQTable) (term : nat -> nat -> F)
    (code : list nat) : F :=
  fold_left
    (fun res chunk =>
       fold_left (fun res' j => fadd res' (term j (code !!! chunk)))
         (axes_of t chunk) res)
    (seq 0 (Z.to_nat (n_chunks t))) fzero.

(** Every chunk holds one axis. *)
Definition one_axis_per_chunk (t : FixedChunkPQTable) : Prop :=
  forall chunk, chunk < Z.to_nat (n_chunks t) ->
    length (axes_of t chunk) = 1.

End PQTable.

(** ** Test data of the specification's scenario for [pq_dist_lookup]:
    [M = 3], [chunk_dists[c·K + k] = c·10 + k],
    [gathered_codes = [[1,2,3],[0,0,0]]]. *)
Definition scenario_codes : list nat := [1; 2; 3; 0; 0; 0].

(** The distance table with [K = 4] entries per chunk. *)
Definition scenario_dists (K : nat) : list spec_float :=
  c ← seq 0 3; k ← seq 0 K; [B32.of_Z (Z.of_nat (c * 10 + k))].

(** A table of 768 distinct entries: entry [k] is [k]. *)
Definition index_dists : list spec_float :=
  (fun k => B32.of_Z (Z.of_nat k)) <$> seq 0 768.

(** ** A small table for examples: two chunks of two axes each;
    centre [0] is [(4096, 1, 1, 1)], the other centres are [0]. *)
Section SmallTable.
Context {F Dbl : Type} {O : FloatOps F Dbl}.

(** The centres, one after the other. *)
Definition small_tables : list F :=
  (f_of_int <$> [4096; 1; 1; 1]%Z) ++ replicate 1020 fzero.

(** The centres, axis by axis. *)
Definition small_tables_tr : list F :=
  j ← [4096; 1; 1; 1]%Z; f_of_int j :: replicate 255 fzero.

Definition small_table : FixedChunkPQTable := {|
  tables := small_tables;
  tables_tr := small_tables_tr;
  centroid := replicate 4 fzero;
  chunk_offsets := [0; 2; 4]%Z;
  ndims := 4;
  n_chunks := 2;
  use_rotation := false;
  rotmat_tr := []
|}.

(** The same centres in four chunks of one axis each. *)
Definition fine_table : FixedChunkPQTable := {|
  tables := small_tables;
  tables_tr := small_tables_tr;
  centroid := replicate 4 fzero;
  chunk_offsets := [0; 1; 2; 3; 4]%Z;
  ndims := 4;
  n_chunks := 4;
  use_rotation := false;
  rotmat_tr := []
|}.

Definition small_query : list F := replicate 4 fzero.

End SmallTable.

(** ** Outcomes of code that can throw *)
Inductive result (A : Type) : Type :=
| Ok (a : A)
| Throw (what : string)          (* an exception leaves the function *)
| Exit (code : Z)                (* [exit(code)] *)
| Undef.                         (* undefined behaviour *)
Arguments Ok {A} a.
Arguments Throw {A} what.
Arguments Exit {A} code.
Arguments Undef {A}.

#[global] Instance result_ret : MRet result := fun A a => Ok a.
#[global] Instance result_bind : MBind result := fun A B f m =>
  match m with
  | Ok a => f a
  | Throw what => Throw what
  | Exit code => Exit code
  | Undef => Undef
  end.

Definition of_option {A : Type} (o : option A) : result A :=
  match o with
  | Some a => Ok a
  | None => Undef
  end.

(** ** Bytes and files *)
Local Open Scope Z_scope.

Definition byte_of_Z (z : Z) : byte :=
  default Byte.x00 (Byte.of_N (Z.to_N (z mod 256))).
Definition Z_of_byte (b : byte) : Z := Z.of_N (Byte.to_N b).

(** Little-endian integers of [n] bytes. *)
Fixpoint le_bytes (n : nat) (z : Z) : list byte :=
  match n with
  | O => []
  | S n' => byte_of_Z z :: le_bytes n' (z / 256)
  end.

Fixpoint le_value (bs : list byte) : Z :=
  match bs with
  | [] => 0
  | b :: bs' => Z_of_byte b + 256 * le_value bs'
  end.

(** How the elements of a matrix are laid out in a file. *)
Record codec (T : Type) := Codec {
  csize : nat;
  encode : T -> list byte;
  decode : list byte -> T
}.
Arguments Codec {T} csize encode decode.
Arguments csize {T} c.
Arguments encode {T} c x.
Arguments decode {T} c bs.

Definition u32 : codec Z := Codec 4 (le_bytes 4) le_value.
Definition u64 : codec Z := Codec 8 (le_bytes 8) le_value.

(** The values of [uint32_t] and of [uint64_t]. *)
Definition is_u32 (z : Z) : Prop := 0 <= z < 2 ^ 32.
Definition is_u64 (z : Z) : Prop := 0 <= z < 2 ^ 64.

(** The four bytes of a [float]. *)
Class FloatBytes (F : Type) := {
  f_bytes : F -> list byte;
  f_of_bytes : list byte -> F
}.

Class FloatBytesOk (F : Type) {B : FloatBytes F} : Prop := {
  f_bytes_length : forall x : F, length (f_bytes x) = 4%nat;
  f_of_bytes_of : forall x : F, f_of_bytes (f_bytes x) = x
}.

Definition f32 {F : Type} {B : FloatBytes F} : codec F :=
  Codec 4 f_bytes f_of_bytes.

Fixpoint decode_array {T : Type} (c : codec T) (n : nat) (bs : list byte)
    : list T :=
  match n with
  | O => []
  | S n' => decode c (take (csize c) bs) :: decode_array c n' (drop (csize c) bs)
  end.

Definition encode_array {T : Type} (c : codec T) (data : list T) : list byte :=
  mjoin (encode c <$> data).

Definition write_at (offset : nat) (bytes file : list byte) : list byte :=
  resize offset Byte.x00 file ++ bytes ++ drop (offset + length bytes) file.

Definition read_at (offset len : nat) (file : list byte)
    : option (list byte) :=
  if decide (offset + len <= length file)%nat
  then Some (take len (drop offset file))
  else None.

Definition file_exists (fs : gmap string (list byte)) (name : string) : bool :=
  bool_decide (is_Some (fs !! name)).

(** Modelled from the spec: [save_bin] of utils.h, which is not among the
    sources: "reads/writes a sequence of typed 2-D matrices with
    <rows:u32, cols:u32, payload> headers at caller-specified byte offsets
    within one file". It writes the header and [npts * ndims] elements of
    [data] at [offset], keeps the other bytes of the file, and returns the
    number of bytes written. Reading [data] beyond its end is undefined. *)
Definition save_bin {T : Type} (c : codec T) (fs : gmap string (list byte))
    (filename : string) (data : list T) (npts ndims offset : Z)
    : result (gmap string (list byte) * Z) :=
  let n := Z.to_nat (wrap64 (npts * ndims)) in
  if decide (n <= length data)%nat then
    let bytes := le_bytes 4 npts ++ le_bytes 4 ndims
                   ++ encode_array c (take n data) in
    Ok (<[filename := write_at (Z.to_nat offset) bytes
                        (default [] (fs !! filename))]> fs,
        wrap64 (npts * ndims * Z.of_nat (csize c) + 8))
  else Undef.

(** The bytes [save_bin] writes when [npts * ndims] does not wrap. *)
Definition saved_bytes {T : Type} (c : codec T) (data : list T)
    (npts ndims : Z) : list byte :=
  le_bytes 4 npts ++ le_bytes 4 ndims
    ++ encode_array c (take (Z.to_nat (npts * ndims)) data).

(** Modelled from the spec: [load_bin] of utils.h, the "typed blob reader
    with metadata header": the matrix at [offset], with its numbers of
    rows and columns. It throws when the file or some of the bytes are
    missing. *)
Definition load_bin {T : Type} (c : codec T) (fs : gmap string (list byte))
    (filename : string) (offset : Z) : result (list T * Z * Z) :=
  match fs !! filename with
  | None => Throw "load_bin: cannot open the file"
  | Some file =>
      match read_at (Z.to_nat offset) 8 file with
      | None => Throw "load_bin: the header is missing"
      | Some header =>
          let npts := le_value (take 4 header) in
          let ndims := le_value (drop 4 header) in
          let n := Z.to_nat (npts * ndims) in
          match read_at (Z.to_nat offset + 8) (n * csize c) file with
          | None => Throw "load_bin: the matrix is incomplete"
          | Some payload => Ok (decode_array c n payload, npts, ndims)
          end
      end
  end.

Local Close Scope Z_scope.

(** Modelled from the spec: [NUM_PQ_CENTROIDS] of pq.h, which is not among
    the sources: "[K] must equal 256 on load". *)
Definition NUM_PQ_CENTROIDS : Z := 256.

(** ** Loading a pivot file ([pq.cpp], lines 37-167) *)
Section Load.
Context {F Dbl : Type} {O : FloatOps F Dbl} {B : FloatBytes F}.

(** What [new float[n]] holds before it is written: cell [i] holds
    [indeterminate i]. *)
Variable indeterminate : nat -> F.

Definition new_floats (n : nat) : list F := indeterminate <$> seq 0 n.

(** Lines 160-166: [tables_tr[j * 256 + i] = tables[i * ndims + j]]. *)
Definition transpose_tables (tables : list F) (ndims : nat)
    (tables_tr : list F) : option (list F) :=
  for_each
    (fun tables_tr i =>
       for_each
         (fun tables_tr j =>
            v ← tables !! (i * ndims + j);
            if decide (j * 256 + i < length tables_tr)
            then Some (<[j * 256 + i := v]> tables_tr)
            else None)
         (seq 0 ndims) tables_tr)
    (seq 0 256) tables_tr.

(** [load_pq_centroid_bin], without [EXEC_ENV_OLS]; what it prints is
    left out, but not the array reads of the printing. *)
Definition load_pq_centroid_bin (fs : gmap string (list byte))
    (pq_table_file : string) (num_chunks : Z)
    : result FixedChunkPQTable :=
  let rotmat_file := pq_table_file +:+ "_rotation_matrix.bin" in
  '(file_offset_data, nr, nc) ← load_bin u64 fs pq_table_file 0;
  if (negb (nr =? 4) && negb (nr =? 5))%Z
  then Throw "Error reading pq_pivots file at offsets data."
  else
    let use_old_filetype := (nr =? 5)%Z in
    _ ← of_option
          (mapM (fun i => file_offset_data !! i)
             (if use_old_filetype then [0; 1; 2; 3; 4] else [0; 1; 2; 3]));
    offset0 ← of_option (file_offset_data !! 0);
    '(tables, nr, nc) ← load_bin f32 fs pq_table_file offset0;
    if negb (nr =? NUM_PQ_CENTROIDS)%Z
    then Throw "Error reading pq_pivots file at pivots data."
    else
      let ndims := nc in
      offset1 ← of_option (file_offset_data !! 1);
      '(centroid, nr, nc) ← load_bin f32 fs pq_table_file offset1;
      if (negb (nr =? ndims) || negb (nc =? 1))%Z
      then Throw "Error reading pq_pivots file at centroid data."
      else
        let chunk_offsets_index := if use_old_filetype then 3 else 2 in
        offset2 ← of_option (file_offset_data !! chunk_offsets_index);
        '(chunk_offsets, nr, nc) ← load_bin u32 fs pq_table_file offset2;
        if (negb (nc =? 1)
            || (negb (nr =? wrap64 (num_chunks + 1))
                && negb (num_chunks =? 0)))%Z
        then Throw "Error loading chunk offsets file"
        else
          let n_chunks := wrap64 (nr - 1) in
          '(rotmat_tr, use_rotation) ←
            (if file_exists fs rotmat_file
             then
               '(rotmat_tr, nr, nc) ← load_bin f32 fs rotmat_file 0;
               if (negb (nr =? ndims) || negb (nc =? ndims))%Z
               then Throw "Error loading rotation matrix file"
               else Ok (rotmat_tr, true)
             else Ok ([], false));
          tables_tr ← of_option
            (transpose_tables tables (Z.to_nat ndims)
               (new_floats (256 * Z.to_nat ndims)));
          Ok {| tables := tables;
                tables_tr := tables_tr;
                centroid := centroid;
                chunk_offsets := chunk_offsets;
                ndims := ndims;
                n_chunks := n_chunks;
                use_rotation := use_rotation;
                rotmat_tr := rotmat_tr |}.

(** The rotation file beside a pivot file is missing, or it holds a
    [dim x dim] matrix. *)
Definition rotation_file_ok (fs : gmap string (list byte))
    (pq_table_file : string) (dim : Z) : Prop :=
  fs !! (pq_table_file +:+ "_rotation_matrix.bin") = None \/
  exists r : list F,
    load_bin f32 fs (pq_table_file +:+ "_rotation_matrix.bin") 0
      = Ok (r, dim, dim).

End Load.

(** ** The trainers ([pq.cpp], lines 299-685) and the encoder's loading of
    the pivots (lines 693-782)

    The arrays of floats the functions work on are named cells of a
    store; [passed_train_data] is the caller's array. *)
Module Trainer.

Inductive buffer :=
| passed_train_data
| train_data
| rotated_train_data
| rotated_and_quantized_train_data
| full_pivot_data
| rotmat_tr
| Umat
| Vmat_T
| singular_values
| correlation_matrix
| centroid
| cur_pivot_data
| cur_data.

#[global] Instance buffer_eq_dec : EqDecision buffer.
Proof. solve_decision. Defined.

Section WithFloats.
Context {F Dbl : Type} {O : FloatOps F Dbl} {B : FloatBytes F}.

(** The arrays, the files, and what was written to [diskann::cout] and
    [std::cout], one entry per line. *)
Record state := State {
  heap : buffer -> list F;
  files : gmap string (list byte);
  cout : list string
}.

Definition M (A : Type) : Type := state -> result A * state.

#[global] Instance M_ret : MRet M := fun A a s => (Ok a, s).
#[global] Instance M_bind : MBind M := fun A B f m s =>
  match m s with
  | (Ok a, s') => f a s'
  | (Throw what, s') => (Throw what, s')
  | (Exit code, s') => (Exit code, s')
  | (Undef, s') => (Undef, s')
  end.

Definition lift {A : Type} (r : result A) : M A := fun s => (r, s).

(** The store with array [b] replaced by [l]. *)
Definition upd (b : buffer) (l : list F) (h : buffer -> list F)
    : buffer -> list F :=
  fun b' => if decide (b' = b) then l else h b'.

Definition set_heap (b : buffer) (l : list F) (s : state) : state :=
  State (upd b l (heap s)) (files s) (cout s).

(** [b.reset(...)], [b = make_unique<float[]>(...)]. *)
Definition set_buf (b : buffer) (l : list F) : M unit :=
  fun s => (Ok (), set_heap b l s).

(** The whole array [b], as an external routine is given it. *)
Definition get_buf (b : buffer) : M (list F) :=
  fun s => (Ok (heap s b), s).

(** [b[i]]. *)
Definition rd (b : buffer) (i : nat) : M F :=
  fun s => (of_option (heap s b !! i), s).

(** [b[i] = v]. *)
Definition wr (b : buffer) (i : nat) (v : F) : M unit :=
  fun s =>
    if decide (i < length (heap s b))
    then (Ok (), set_heap b (<[i := v]> (heap s b)) s)
    else (Undef, s).

(** [memcpy(dst + doff, src + soff, n * sizeof(float))]. *)
Definition memcpy (dst : buffer) (doff : nat) (src : buffer) (soff n : nat)
    : M unit :=
  fun s =>
    if decide (soff + n <= length (heap s src)
               /\ doff + n <= length (heap s dst))
    then (Ok (),
          set_heap dst
            (take doff (heap s dst) ++ take n (drop soff (heap s src))
               ++ drop (doff + n) (heap s dst)) s)
    else (Undef, s).

(** An external routine has filled [b]; it cannot change its size. *)
Definition filled (b : buffer) (l : list F) : M unit :=
  fun s =>
    if decide (length l = length (heap s b))
    then (Ok (), set_heap b l s)
    else (Undef, s).

Definition print (line : string) : M unit :=
  fun s => (Ok (), State (heap s) (files s) (cout s ++ [line])).

Definition m_file_exists (name : string) : M bool :=
  fun s => (Ok (file_exists (files s) name), s).

Definition m_load_bin {T : Type} (c : codec T) (name : string) (offset : Z)
    : M (list T * Z * Z) :=
  fun s => (load_bin c (files s) name offset, s).

Fixpoint for_M {A : Type} (l : list A) (body : A -> M unit) : M unit :=
  match l with
  | [] => mret ()
  | a :: l' => body a;; for_M l' body
  end.

(** A property of the store that a computation keeps, however it ends. *)
Definition preserves (I : (buffer -> list F) -> Prop) {A : Type} (m : M A)
    : Prop :=
  forall s, I (heap s) -> I (heap (m s).2).

(** [I] does not depend on array [b]; [I] depends on no more than the
    length of array [b]. *)
Definition ignores (I : (buffer -> list F) -> Prop) (b : buffer) : Prop :=
  forall h l, I h -> I (upd b l h).

Definition ignores_contents (I : (buffer -> list F) -> Prop) (b : buffer)
    : Prop :=
  forall h l, I h -> length l = length (h b) -> I (upd b l h).

(** The caller's array holds [v]. *)
Definition passed_is (v : list F) (h : buffer -> list F) : Prop :=
  h passed_train_data = v.

(** Array [b] has [n] cells. *)
Definition has_length (b : buffer) (n : nat) (h : buffer -> list F) : Prop :=
  length (h b) = n.

(** The constants and routines of other files. *)
Variable METADATA_SIZE : Z.
Variable MAX_OPQ_ITERS : nat.
Variable indeterminate : nat -> F.

(** [kmeans::kmeanspp_selecting_pivots(data, num_points, dim, pivot_data,
    num_centers)]: what it leaves in [pivot_data]. *)
Variable kmeanspp_selecting_pivots :
  list F -> nat -> nat -> list F -> nat -> list F.

(** [kmeans::run_lloyds(data, num_points, dim, centers, num_centers,
    max_reps, NULL, closest_center)]: what it leaves in [centers] and in
    [closest_center]. *)
Variable run_lloyds :
  list F -> nat -> nat -> list F -> nat -> nat -> list F * list Z.

(** [cblas_sgemm(CblasRowMajor, transA, CblasNoTrans, m, n, k, 1.0f, a, lda,
    b, ldb, 0.0f, c, ldc)]: what it leaves in [c]. *)
Variable cblas_sgemm :
  bool -> nat -> nat -> nat -> list F -> nat -> list F -> nat
  -> list F -> nat -> list F.

(** [LAPACKE_sgesdd(LAPACK_ROW_MAJOR, 'A', m, n, a, lda, s, u, ldu, vt,
    ldvt)]: its value and what it leaves in [a], [s], [u] and [vt]. *)
Variable LAPACKE_sgesdd :
  nat -> nat -> list F -> nat
  -> Z * list F * list F * list F * list F.

(** Lines 311-319 (and 474-477): the private copy, and the check of it
    in [generate_pq_pivots]. *)
Definition copy_train_data (num_train dim : nat) : M unit :=
  set_buf train_data (replicate (num_train * dim) fzero);;
  memcpy train_data 0 passed_train_data 0 (num_train * dim).

Definition check_copy (num_train dim : nat) : M unit :=
  for_M (seq 0 num_train) (fun i =>
    for_M (seq 0 dim) (fun j =>
      a ← rd passed_train_data (i * dim + j);
      b ← rd train_data (i * dim + j);
      if fneq a b then print "error in copy" else mret ())).

(** Lines 334-356 (and 496-517). *)
Definition center_train_data (num_train dim : nat) (make_zero_mean : bool)
    : M unit :=
  set_buf centroid (replicate dim fzero);;
  for_M (seq 0 dim) (fun d => wr centroid d fzero);;
  if make_zero_mean then
    for_M (seq 0 dim) (fun d =>
      for_M (seq 0 num_train) (fun p =>
        c ← rd centroid d;
        x ← rd train_data (p * dim + d);
        wr centroid d (fadd c x));;
      c ← rd centroid d;
      wr centroid d (fdiv c (f_of_int (Z.of_nat num_train))));;
    for_M (seq 0 dim) (fun d =>
      for_M (seq 0 num_train) (fun p =>
        x ← rd train_data (p * dim + d);
        c ← rd centroid d;
        wr train_data (p * dim + d) (fsub x c)))
  else mret ().

(** [chunk_offsets[i + 1] - chunk_offsets[i]], an [unsigned] difference. *)
Definition chunk_size (chunk_offsets : list Z) (i : nat) : M (nat * nat) :=
  lo ← lift (of_option (chunk_offsets !! i));
  hi ← lift (of_option (chunk_offsets !! (i + 1)));
  mret (Z.to_nat lo, Z.to_nat (wrap32 (hi - lo))).

Definition processing_chunk (chunk_offsets : list Z) (i : nat) : string :=
  "Processing chunk " +:+ pretty i +:+ " with dimensions ["
    +:+ pretty (chunk_offsets !!! i) +:+ ", "
    +:+ pretty (chunk_offsets !!! (i + 1)) +:+ ")".

(** Lines 441-456 (and 660-675): the four matrices of the pivot file. *)
Definition save_pivots (pivots_path : string) (chunk_offsets : list Z)
    (num_centers dim : nat) : M (list Z) :=
  fun s =>
    let cumul_bytes0 := METADATA_SIZE in
    match save_bin f32 (files s) pivots_path (heap s full_pivot_data)
            (Z.of_nat num_centers) (Z.of_nat dim) cumul_bytes0 with
    | Ok (fs1, w1) =>
        let cumul_bytes1 := wrap64 (cumul_bytes0 + w1) in
        match save_bin f32 fs1 pivots_path (heap s centroid)
                (Z.of_nat dim) 1 cumul_bytes1 with
        | Ok (fs2, w2) =>
            let cumul_bytes2 := wrap64 (cumul_bytes1 + w2) in
            match save_bin u32 fs2 pivots_path chunk_offsets
                    (Z.of_nat (length chunk_offsets)) 1 cumul_bytes2 with
            | Ok (fs3, w3) =>
                let cumul_bytes3 := wrap64 (cumul_bytes2 + w3) in
                let cumul_bytes :=
                  [cumul_bytes0; cumul_bytes1; cumul_bytes2; cumul_bytes3] in
                match save_bin u64 fs3 pivots_path cumul_bytes 4 1 0 with
                | Ok (fs4, _) =>
                    (Ok cumul_bytes, State (heap s) fs4 (cout s))
                | Throw what => (Throw what, State (heap s) fs3 (cout s))
                | Exit code => (Exit code, State (heap s) fs3 (cout s))
                | Undef => (Undef, State (heap s) fs3 (cout s))
                end
            | Throw what => (Throw what, State (heap s) fs2 (cout s))
            | Exit code => (Exit code, State (heap s) fs2 (cout s))
            | Undef => (Undef, State (heap s) fs2 (cout s))
            end
        | Throw what => (Throw what, State (heap s) fs1 (cout s))
        | Exit code => (Exit code, State (heap s) fs1 (cout s))
        | Undef => (Undef, State (heap s) fs1 (cout s))
        end
    | Throw what => (Throw what, s)
    | Exit code => (Exit code, s)
    | Undef => (Undef, s)
    end.

(** Lines 299-462. *)
Definition generate_pq_pivots (num_train dim num_centers num_pq_chunks
    max_k_means_reps : nat) (pq_pivots_path : string) (make_zero_mean : bool)
    : M Z :=
  if dim <? num_pq_chunks then
    print " Error: number of chunks more than dimension";;
    mret (-1)%Z
  else
    copy_train_data num_train dim;;
    check_copy num_train dim;;
    present ← m_file_exists pq_pivots_path;
    again ←
      (if (present : bool) then
         '(data, file_num_centers, file_dim) ←
           m_load_bin f32 pq_pivots_path METADATA_SIZE;
         set_buf full_pivot_data data;;
         if ((file_dim =? Z.of_nat dim)
             && (file_num_centers =? Z.of_nat num_centers))%Z
         then print "PQ pivot file exists. Not generating again";;
              mret true
         else mret false
       else mret false);
    if (again : bool) then mret (-1)%Z
    else
      center_train_data num_train dim make_zero_mean;;
      chunk_offsets ←
        lift (of_option (Partition.chunk_partition dim num_pq_chunks));
      set_buf full_pivot_data
        (indeterminate <$>
           seq 0 (Z.to_nat (wrap32 (Z.of_nat num_centers * Z.of_nat dim))));;
      for_M (seq 0 num_pq_chunks) (fun i =>
        '(lo, cur_chunk_size) ← chunk_size chunk_offsets i;
        if cur_chunk_size =? 0 then mret ()
        else
          set_buf cur_pivot_data
            (replicate (num_centers * cur_chunk_size) fzero);;
          set_buf cur_data (replicate (num_train * cur_chunk_size) fzero);;
          print (processing_chunk chunk_offsets i);;
          for_M (seq 0 num_train) (fun j =>
            memcpy cur_data (j * cur_chunk_size)
              train_data (j * dim + lo) cur_chunk_size);;
          data ← get_buf cur_data;
          pivots ← get_buf cur_pivot_data;
          filled cur_pivot_data
            (kmeanspp_selecting_pivots data num_train cur_chunk_size
               pivots num_centers);;
          pivots ← get_buf cur_pivot_data;
          filled cur_pivot_data
            (run_lloyds data num_train cur_chunk_size pivots num_centers
               max_k_means_reps).1;;
          for_M (seq 0 num_centers) (fun j =>
            memcpy full_pivot_data (j * dim + lo)
              cur_pivot_data (j * cur_chunk_size) cur_chunk_size));;
      cumul_bytes ← save_pivots pq_pivots_path chunk_offsets num_centers dim;
      print ("Saved pq pivot data to " +:+ pq_pivots_path +:+ " of size "
             +:+ pretty (cumul_bytes !!! 3%nat) +:+ "B.");;
      mret 0%Z.

(** [memset(b, 0, n * sizeof(float))]. *)
Definition clear (b : buffer) (n : nat) : M unit :=
  l ← get_buf b;
  l' ← lift (of_option (memset_zero n l));
  set_buf b l'.

Definition throw {A : Type} (what : string) : M A := lift (Throw what).

Definition m_save_bin {T : Type} (c : codec T) (name : string)
    (data : list T) (npts ndims offset : Z) : M Z :=
  fun s =>
    match save_bin c (files s) name data npts ndims offset with
    | Ok (fs, w) => (Ok w, State (heap s) fs (cout s))
    | Throw what => (Throw what, s)
    | Exit code => (Exit code, s)
    | Undef => (Undef, s)
    end.

(** Lines 464-685. *)
Definition generate_opq_pivots (num_train dim num_centers num_pq_chunks : nat)
    (opq_pivots_path : string) (make_zero_mean : bool) : M Z :=
  if dim <? num_pq_chunks then
    print " Error: number of chunks more than dimension";;
    mret (-1)%Z
  else
    let dim_dim := Z.to_nat (wrap32 (Z.of_nat dim * Z.of_nat dim)) in
    copy_train_data num_train dim;;
    set_buf rotated_train_data (replicate (num_train * dim) fzero);;
    set_buf rotated_and_quantized_train_data
      (replicate (num_train * dim) fzero);;
    set_buf Umat (replicate dim_dim fzero);;
    set_buf Vmat_T (replicate dim_dim fzero);;
    set_buf singular_values (replicate dim fzero);;
    set_buf correlation_matrix (replicate dim_dim fzero);;
    center_train_data num_train dim make_zero_mean;;
    chunk_offsets ←
      lift (of_option (Partition.chunk_partition dim num_pq_chunks));
    set_buf full_pivot_data
      (indeterminate <$>
         seq 0 (Z.to_nat (wrap32 (Z.of_nat num_centers * Z.of_nat dim))));;
    set_buf rotmat_tr (indeterminate <$> seq 0 dim_dim);;
    clear rotmat_tr dim_dim;;
    for_M (seq 0 dim) (fun d1 =>
      wr rotmat_tr
        (Z.to_nat (wrap32 (Z.of_nat d1 * Z.of_nat dim)) + d1) (f_of_int 1));;
    for_M (seq 0 MAX_OPQ_ITERS) (fun rnd =>
      a ← get_buf train_data;
      b ← get_buf rotmat_tr;
      c ← get_buf rotated_train_data;
      filled rotated_train_data
        (cblas_sgemm false num_train dim dim a dim b dim c dim);;
      for_M (seq 0 num_pq_chunks) (fun i =>
        '(lo, cur_chunk_size) ← chunk_size chunk_offsets i;
        if cur_chunk_size =? 0 then mret ()
        else
          set_buf cur_pivot_data
            (replicate (num_centers * cur_chunk_size) fzero);;
          set_buf cur_data (replicate (num_train * cur_chunk_size) fzero);;
          print (processing_chunk chunk_offsets i);;
          for_M (seq 0 num_train) (fun j =>
            memcpy cur_data (j * cur_chunk_size)
              rotated_train_data (j * dim + lo) cur_chunk_size);;
          (if rnd =? 0 then
             data ← get_buf cur_data;
             pivots ← get_buf cur_pivot_data;
             filled cur_pivot_data
               (kmeanspp_selecting_pivots data num_train cur_chunk_size
                  pivots num_centers)
           else
             for_M (seq 0 num_centers) (fun j =>
               memcpy cur_pivot_data (j * cur_chunk_size)
                 full_pivot_data (j * dim + lo) cur_chunk_size));;
          data ← get_buf cur_data;
          pivots ← get_buf cur_pivot_data;
          let lloyds := run_lloyds data num_train cur_chunk_size pivots
                          num_centers 8 in
          filled cur_pivot_data lloyds.1;;
          for_M (seq 0 num_centers) (fun j =>
            memcpy full_pivot_data (j * dim + lo)
              cur_pivot_data (j * cur_chunk_size) cur_chunk_size);;
          for_M (seq 0 num_train) (fun j =>
            closest ← lift (of_option (lloyds.2 !! j));
            memcpy rotated_and_quantized_train_data (j * dim + lo)
              cur_pivot_data (Z.to_nat closest * cur_chunk_size)
              cur_chunk_size));;
      a ← get_buf train_data;
      b ← get_buf rotated_and_quantized_train_data;
      c ← get_buf correlation_matrix;
      filled correlation_matrix
        (cblas_sgemm true dim dim num_train a dim b dim c dim);;
      a ← get_buf correlation_matrix;
      let '(errcode, a', s', u', vt') := LAPACKE_sgesdd dim dim a dim in
      filled correlation_matrix a';;
      filled singular_values s';;
      filled Umat u';;
      filled Vmat_T vt';;
      (if (0 <? wrap32 errcode)%Z then
         print "SVD failed to converge.";;
         lift (Exit (-1))
       else mret ());;
      a ← get_buf Umat;
      b ← get_buf Vmat_T;
      c ← get_buf rotmat_tr;
      filled rotmat_tr (cblas_sgemm false dim dim dim a dim b dim c dim));;
    cumul_bytes ← save_pivots opq_pivots_path chunk_offsets num_centers dim;
    print ("Saved opq pivot data to " +:+ opq_pivots_path +:+ " of size "
           +:+ pretty (cumul_bytes !!! 3%nat) +:+ "B.");;
    let rotmat_path := opq_pivots_path +:+ "_rotation_matrix.bin" in
    r ← get_buf rotmat_tr;
    m_save_bin f32 rotmat_path r (Z.of_nat dim) (Z.of_nat dim) 0;;
    mret 0%Z.

(** Lines 784-923 of [generate_pq_data_from_pivots], the streaming of
    the base vectors into codes, given the numbers of points and of
    dimensions and the chunk offsets. *)
Variable write_codes : Z -> Z -> list Z -> M Z.

(** Modelled from the spec: [cached_ifstream] is not among the sources;
    the base-vector file starts with "Header u32 N, u32 D". *)
Definition read_base_header (data_file : string) : M (Z * Z) :=
  fun s =>
    match files s !! data_file with
    | None => (Throw "cached_ifstream: cannot open the file", s)
    | Some file =>
        match read_at 0 8 file with
        | None => (Throw "cached_ifstream: the header is missing", s)
        | Some header =>
            (Ok (le_value (take 4 header), le_value (drop 4 header)), s)
        end
    end.

(** Lines 693-782, and the rest as [write_codes]. *)
Definition generate_pq_data_from_pivots (data_file : string)
    (num_centers num_pq_chunks : nat) (pq_pivots_path : string)
    (use_opq : bool) : M Z :=
  '(num_points, dim) ← read_base_header data_file;
  present ← m_file_exists pq_pivots_path;
  if negb present then
    print "ERROR: PQ k-means pivot file not found";;
    throw "PQ k-means pivot file not found"
  else
    '(file_offset_data, nr, nc) ← m_load_bin u64 pq_pivots_path 0;
    if negb (nr =? 4)%Z
    then
      print ("Error reading pq_pivots file " +:+ pq_pivots_path
             +:+ ". Offsets dont contain correct metadata, # offsets = "
             +:+ pretty nr +:+ ", but expecting 4.");;
      throw "Error reading pq_pivots file at offsets data."
    else
      offset0 ← lift (of_option (file_offset_data !! 0));
      '(pivots, nr, nc) ← m_load_bin f32 pq_pivots_path offset0;
      set_buf full_pivot_data pivots;;
      if (negb (nr =? Z.of_nat num_centers) || negb (nc =? dim))%Z
      then
        print ("Error reading pq_pivots file " +:+ pq_pivots_path
               +:+ ". file_num_centers  = " +:+ pretty nr
               +:+ ", file_dim = " +:+ pretty nc +:+ " but expecting "
               +:+ pretty num_centers +:+ " centers in " +:+ pretty dim
               +:+ " dimensions.");;
        throw "Error reading pq_pivots file at pivots data."
      else
        offset1 ← lift (of_option (file_offset_data !! 1));
        '(mean, nr, nc) ← m_load_bin f32 pq_pivots_path offset1;
        set_buf centroid mean;;
        if (negb (nr =? dim) || negb (nc =? 1))%Z
        then
          print ("Error reading pq_pivots file " +:+ pq_pivots_path
                 +:+ ". file_dim  = " +:+ pretty nr +:+ ", file_cols = "
                 +:+ pretty nc +:+ " but expecting " +:+ pretty dim
                 +:+ " entries in 1 dimension.");;
          throw "Error reading pq_pivots file at centroid data."
        else
          offset2 ← lift (of_option (file_offset_data !! 2));
          '(chunk_offsets, nr, nc) ← m_load_bin u32 pq_pivots_path offset2;
          if (negb (nr =? Z.of_nat num_pq_chunks + 1) || negb (nc =? 1))%Z
          then
            print ("Error reading pq_pivots file at chunk offsets; "
                   +:+ "file has nr=" +:+ pretty nr +:+ ",nc=" +:+ pretty nc
                   +:+ ", expecting nr="
                   +:+ pretty (wrap32 (Z.of_nat num_pq_chunks + 1))
                   +:+ ", nc=1.");;
            throw "Error reading pq_pivots file at chunk offsets."
          else
            (if use_opq then
               let rotmat_path := pq_pivots_path +:+ "_rotation_matrix.bin" in
               '(rotmat, nr, nc) ← m_load_bin f32 rotmat_path 0;
               set_buf rotmat_tr rotmat;;
               if (negb (nr =? dim) || negb (nc =? dim))%Z
               then
                 print "Error reading rotation matrix file.";;
                 throw "Error reading rotation matrix file."
               else mret ()
             else mret ());;
            print "Loaded PQ pivot information";;
            write_codes num_points dim chunk_offsets.

(** Modelled from the spec: a pivot file of the legacy layout, with five
    offsets and "an extra intermediate block" between the mean and the
    chunk offsets. *)
Definition save_legacy_pivots (fs : gmap string (list byte))
    (pivots_path : string) (pivots mean : list F) (extra chunk_offsets : list Z)
    (num_centers dim : nat) : result (gmap string (list byte)) :=
  let off0 := METADATA_SIZE in
  '(fs, w) ← save_bin f32 fs pivots_path pivots
               (Z.of_nat num_centers) (Z.of_nat dim) off0;
  let off1 := wrap64 (off0 + w) in
  '(fs, w) ← save_bin f32 fs pivots_path mean (Z.of_nat dim) 1 off1;
  let off2 := wrap64 (off1 + w) in
  '(fs, w) ← save_bin u32 fs pivots_path extra
               (Z.of_nat (length extra)) 1 off2;
  let off3 := wrap64 (off2 + w) in
  '(fs, w) ← save_bin u32 fs pivots_path chunk_offsets
               (Z.of_nat (length chunk_offsets)) 1 off3;
  let off4 := wrap64 (off3 + w) in
  '(fs, _) ← save_bin u64 fs pivots_path [off0; off1; off2; off3; off4] 5 1 0;
  Ok fs.

End WithFloats.
End Trainer.

(** ** A [float] as its four bytes: binary32 in memory *)
Module F32.

Definition t : Type := byte * byte * byte * byte.

Definition to_bytes (x : t) : list byte := [x.1.1.1; x.1.1.2; x.1.2; x.2].

Definition of_bytes (bs : list byte) : t :=
  match bs with
  | [a; b; c; d] => (a, b, c, d)
  | _ => (Byte.x00, Byte.x00, Byte.x00, Byte.x00)
  end.

(** Sign, eight bits of exponent, 23 bits of fraction. *)
Definition to_spec (x : t) : spec_float :=
  let n := le_value (to_bytes x) in
  let s := Z.testbit n 31 in
  let e := ((n / 2 ^ 23) mod 256)%Z in
  let m := (n mod 2 ^ 23)%Z in
  if (e =? 0)%Z then
    match m with
    | Zpos p => S754_finite s p (-149)
    | _ => S754_zero s
    end
  else if (e =? 255)%Z then
    if (m =? 0)%Z then S754_infinity s else S754_nan
  else
    match (m + 2 ^ 23)%Z with
    | Zpos p => S754_finite s p (e - 150)
    | _ => S754_nan
    end.

(** A NaN that an operation produces is the default NaN of x86-64 (SSE),
    [0xFFC00000]: the sign bit and the top bit of the fraction are set.
    The specification has one NaN: the payload of a NaN operand is not
    carried to the result. *)
Definition of_spec (f : spec_float) : t :=
  let sign (s : bool) : Z := (if s then 2 ^ 31 else 0)%Z in
  of_bytes (le_bytes 4
    match f with
    | S754_zero s => sign s
    | S754_infinity s => sign s + 255 * 2 ^ 23
    | S754_nan => 2 ^ 31 + 255 * 2 ^ 23 + 2 ^ 22
    | S754_finite s m e =>
        if (Zpos m <? 2 ^ 23)%Z then sign s + Zpos m
        else sign s + (e + 150) * 2 ^ 23 + (Zpos m - 2 ^ 23)
    end%Z).

Definition lift2 (op : spec_float -> spec_float -> spec_float) (x y : t) : t :=
  of_spec (op (to_spec x) (to_spec y)).

#[global] Instance ops : FloatOps t spec_float := {|
  fzero := of_bytes (le_bytes 4 0);
  fadd := lift2 (SFadd B32.prec B32.emax);
  fsub := lift2 (SFsub B32.prec B32.emax);
  fmul := lift2 (SFmul B32.prec B32.emax);
  fdiv := lift2 (SFdiv B32.prec B32.emax);
  fneg := fun x => of_spec (SFopp (to_spec x));
  fneq := fun x y => B32.neq (to_spec x) (to_spec y);
  f_of_int := fun z => of_spec (B32.of_Z z);
  to_double := to_spec;
  dmul := SFmul 53 1024;
  to_float := fun d => of_spec (B32.narrow d)
|}.

#[global] Instance bytes : FloatBytes t := {|
  f_bytes := to_bytes;
  f_of_bytes := of_bytes
|}.

End F32.

(** ** A small training run, for examples: two points of two dimensions,
    one chunk; the pivots are seeded with the first points and left as
    they are. *)
Module Example.

Definition kmeanspp (data : list F32.t) (num_points dim : nat)
    (pivot_data : list F32.t) (num_centers : nat) : list F32.t :=
  resize (length pivot_data) fzero data.

Definition lloyds (data : list F32.t) (num_points dim : nat)
    (centers : list F32.t) (num_centers max_reps : nat)
    : list F32.t * list Z :=
  (centers, replicate num_points 0%Z).

Definition sgemm (transA : bool) (m n k : nat) (a : list F32.t) (lda : nat)
    (b : list F32.t) (ldb : nat) (c : list F32.t) (ldc : nat) : list F32.t :=
  c.

Definition start (fs : gmap string (list byte)) : Trainer.state :=
  Trainer.State
    (fun b =>
       match b with
       | Trainer.passed_train_data => f_of_int <$> [1; 2; 3; 5]%Z
       | _ => []
       end)
    fs [].

Definition METADATA_SIZE : Z := 4096.

(** [generate_pq_pivots] for [num_centers] centres and [num_pq_chunks]
    chunks. *)
Definition train (num_centers num_pq_chunks : nat)
    (fs : gmap string (list byte)) : result Z * Trainer.state :=
  Trainer.generate_pq_pivots METADATA_SIZE (fun _ => fzero) kmeanspp lloyds
    2 2 num_centers num_pq_chunks 1 "pq_pivots.bin" true (start fs).

(** The files after a first training run for 256 centres. *)
Definition trained_files : gmap string (list byte) :=
  Trainer.files (train 256 1 ∅).2.

(** A pivot file of the legacy layout: 256 centres of two axes, one
    chunk, and three words between the mean and the chunk offsets. *)
Definition legacy_pivots : list F32.t :=
  (fun i => f_of_int (Z.of_nat i)) <$> seq 0 512.

Definition legacy_files : gmap string (list byte) :=
  match
    Trainer.save_legacy_pivots METADATA_SIZE ∅ "pq_pivots.bin"
      legacy_pivots [fzero; fzero] [7; 7; 7]%Z [0; 2]%Z 256 2
  with
  | Ok fs => <["base.bin" := le_bytes 4 1 ++ le_bytes 4 2]> fs
  | _ => ∅
  end.

(** The encoder on the legacy file; nothing is streamed. *)
Definition encode_legacy : result Z * Trainer.state (F := F32.t) :=
  Trainer.generate_pq_data_from_pivots (fun _ _ _ => mret 0%Z)
    "base.bin" 256 1 "pq_pivots.bin" false (start legacy_files).

End Example.

(** * The aligned reader ([linux_aligned_file_reader.cpp])

    [execute_io] talks to the kernel through [io_submit] and
    [io_getevents]. What the kernel answers is not the program's to
    choose: a run is a function of the list of the values the two calls
    return, in the order in which they return. The trace lists what the
    program does: the descriptors it prepares, the calls it makes and the
    lines it writes to [diskann::cerr]. *)
Module AlignedFileReader.
Local Open Scope Z_scope.

Definition MAX_EVENTS : Z := 1024.

(** Modelled from the spec: the macro [ROUND_UP] of utils.h is not among
    the sources; "the batch is split into windows of at most [MAX_EVENTS]
    requests", so [X] is rounded up to a multiple of [Y], in 64 bits. *)
Definition ROUND_UP (X Y : Z) : Z :=
  wrap64 ((X / Y + (if X mod Y =? 0 then 0 else 1)) * Y).

(** [errno.h] of Linux. *)
Definition EINTR : Z := 4.

Inductive primitive : Type := io_submit | io_getevents.

(** [syscall io_submit nr first] is [io_submit(ctx, nr, cbs.data() + first)]
    and [syscall io_getevents nr first] is
    [io_getevents(ctx, nr, nr, evts.data() + first, nullptr)];
    [io_prep_pread j req] prepares [cb.data() + j] from [read_reqs[req]]. *)
Inductive event : Type :=
  | io_prep_pread (j req : Z)
  | syscall (p : primitive) (nr first : Z)
  | cerr (line : string)
  | cout (line : string).

(** A run returns, throws, or waits in a call the kernel has not
    answered. *)
Inductive outcome : Type :=
  | Returned
  | Thrown (what : string)
  | Pending.

Definition name (p : primitive) : string :=
  match p with io_submit => "io_submit" | io_getevents => "io_getevents" end.

Definition counted (p : primitive) : string :=
  match p with io_submit => "submit" | io_getevents => "read" end.

Section ExecuteIO.
Variable strerror : Z -> string.

(** Lines 56-83 for [io_submit] and lines 87-114 for [io_getevents]: the
    same loop over the two calls, from [num_submitted] ([num_read])
    descriptors done and [submit_retry] ([read_retry]) partial counts seen.
    A negative answer that is [-EINTR] goes round the inner [while]: the
    same call again. The kernel's answers are [int]s and the count stays
    below [n_ops + 2 ^ 31]: no 64-bit operation wraps. *)
Fixpoint retry_loop (p : primitive) (n_retries n_ops num_submitted
    submit_retry : Z) (kernel : list Z) : outcome * list event * list Z :=
  if negb (num_submitted <? n_ops) then (Returned, [], kernel)
  else
    let call := syscall p (n_ops - num_submitted) num_submitted in
    match kernel with
    | [] => (Pending, [call], [])
    | ret :: kernel =>
        if ret <? 0 then
          if negb (- ret =? EINTR) then
            (Thrown ("Unknown error occur in " +:+ name p +:+ ", errno: "
                     +:+ pretty (- ret) +:+ ", " +:+ strerror (- ret)),
             [call], kernel)
          else
            let '(o, t, k) :=
              retry_loop p n_retries n_ops num_submitted submit_retry kernel in
            (o, call :: t, k)
        else
          let num_submitted := num_submitted + ret in
          if num_submitted <? n_ops then
            let submit_retry := submit_retry + 1 in
            if submit_retry <=? n_retries then
              let '(o, t, k) :=
                retry_loop p n_retries n_ops num_submitted submit_retry
                  kernel in
              (o,
               call
               :: cerr (name p +:+ "() failed; " +:+ counted p +:+ ": "
                        +:+ pretty num_submitted +:+ ", expected: "
                        +:+ pretty n_ops +:+ ", retry: "
                        +:+ pretty submit_retry)
               :: t, k)
            else
              (Thrown (name p +:+ " failed after retried "
                       +:+ pretty n_retries +:+ " times"),
               [call], kernel)
          else
            let '(o, t, k) :=
              retry_loop p n_retries n_ops num_submitted submit_retry kernel in
            (o, call :: t, k)
    end.

(** Line 32. *)
Definition n_iters (size : Z) : Z := ROUND_UP size MAX_EVENTS / MAX_EVENTS.

(** Line 35. *)
Definition n_ops (size iter : Z) : Z :=
  Z.min (wrap64 (size - iter * MAX_EVENTS)) MAX_EVENTS.

(** Lines 39-43: the descriptors of the window, from the requests
    [iter * MAX_EVENTS] onwards. *)
Definition prepare (size iter : Z) : list event :=
  (fun j => io_prep_pread j (j + iter * MAX_EVENTS))
    <$> seqZ 0 (n_ops size iter).

(** The body of the loop of line 33, for the iterations [iters]. *)
Fixpoint for_iter (n_retries size : Z) (iters : list Z) (kernel : list Z)
    : outcome * list event :=
  match iters with
  | [] => (Returned, [])
  | iter :: iters =>
      match retry_loop io_submit n_retries (n_ops size iter) 0 0 kernel with
      | (Returned, submitted, kernel) =>
          match
            retry_loop io_getevents n_retries (n_ops size iter) 0 0 kernel
          with
          | (Returned, read, kernel) =>
              let '(o, t) := for_iter n_retries size iters kernel in
              (o, prepare size iter ++ submitted ++ read ++ t)
          | (o, read, _) => (o, prepare size iter ++ submitted ++ read)
          end
      | (o, submitted, _) => (o, prepare size iter ++ submitted)
      end
  end.

(** [execute_io] on a batch of [size] requests. *)
Definition execute_io (size n_retries : Z) (kernel : list Z)
    : outcome * list event :=
  for_iter n_retries size (seqZ 0 (n_iters size)) kernel.

(** [LinuxAlignedFileReader::read]: [n_retries] is left at its default. *)
Definition read (size : Z) (async : bool) (kernel : list Z)
    : outcome * list event :=
  let '(o, t) := execute_io size 10 kernel in
  (o,
   (if async then [cout "Async currently not supported in linux."] else [])
   ++ t).

(** ** What the kernel may answer, and what is then called *)

(** Each round is some interrupted calls and then a count. *)
Definition round_script (rounds : list (nat * Z)) : list Z :=
  rounds ≫= (fun kr => replicate kr.1 (- EINTR) ++ [kr.2]).

(** The calls of the rounds, each of them partial: after a count [r] the
    next call is for what remains, from the descriptor after the last one
    taken. *)
Fixpoint round_calls (p : primitive) (n num_submitted submit_retry : Z)
    (rounds : list (nat * Z)) : list event :=
  match rounds with
  | [] => []
  | (k, r) :: rounds =>
      replicate (S k) (syscall p (n - num_submitted) num_submitted)
      ++ cerr (name p +:+ "() failed; " +:+ counted p +:+ ": "
               +:+ pretty (num_submitted + r) +:+ ", expected: "
               +:+ pretty n +:+ ", retry: " +:+ pretty (submit_retry + 1))
         :: round_calls p n (num_submitted + r) (submit_retry + 1) rounds
  end.

Definition counts (rounds : list (nat * Z)) : Z :=
  foldr Z.add 0 (rounds.*2).

(** A kernel that takes each of the windows [iters] at once. *)
Definition quiet_kernel (size : Z) (iters : list Z) : list Z :=
  iters ≫= (fun iter => [n_ops size iter; n_ops size iter]).

Definition quiet_trace (size : Z) (iters : list Z) : list event :=
  iters ≫= (fun iter =>
    prepare size iter
    ++ [syscall io_submit (n_ops size iter) 0;
        syscall io_getevents (n_ops size iter) 0]).

(** The answers that complete one of the two loops of a window of [n]
    descriptors: rounds of partial counts, no more than [n_retries] of
    them, and a last round whose count reaches [n]. *)
Definition completing (n_retries n : Z) (a : list (nat * Z) * (nat * Z))
    : Prop :=
  Forall (fun kr => 0 <= kr.2) a.1 /\
  counts a.1 < n /\
  Z.of_nat (length a.1) <= n_retries /\
  n <= counts a.1 + a.2.2.

Definition phase_script (a : list (nat * Z) * (nat * Z)) : list Z :=
  round_script (a.1 ++ [a.2]).

Definition phase_calls (p : primitive) (n : Z)
    (a : list (nat * Z) * (nat * Z)) : list event :=
  round_calls p n 0 0 a.1
  ++ replicate (S a.2.1) (syscall p (n - counts a.1) (counts a.1)).

(** A window that completes: the answers to its [io_submit]s and then
    those to its [io_getevents]s, each with retries of its own. *)
Definition window : Type :=
  (list (nat * Z) * (nat * Z)) * (list (nat * Z) * (nat * Z)).

Definition completed (n_retries size : Z) (iters : list Z)
    (ws : list window) : Prop :=
  Forall2
    (fun iter w =>
       completing n_retries (n_ops size iter) w.1
       /\ completing n_retries (n_ops size iter) w.2)
    iters ws.

Definition windows_script (ws : list window) : list Z :=
  ws ≫= (fun w => phase_script w.1 ++ phase_script w.2).

Definition windows_trace (size : Z) (iters : list Z) (ws : list window)
    : list event :=
  zip iters ws ≫= (fun iw =>
    prepare size iw.1
    ++ phase_calls io_submit (n_ops size iw.1) iw.2.1
    ++ phase_calls io_getevents (n_ops size iw.1) iw.2.2).

(** The requests of the descriptors prepared, in the order of the trace. *)
Definition prepared (t : list event) : list Z :=
  omap (fun e => match e with io_prep_pread _ req => Some req | _ => None end)
    t.

End ExecuteIO.

(** A call that addresses descriptors (or events) of an array of [n]:
    at least one, from [first] to the end of the array. *)
Definition in_window (n : Z) (e : event) : Prop :=
  match e with
  | syscall _ nr first => 0 <= first /\ 1 <= nr /\ first + nr = n
  | _ => True
  end.

(** A call for no more than [MAX_EVENTS] descriptors of the arrays. *)
Definition within_max_events (e : event) : Prop :=
  match e with
  | syscall _ nr first => 0 <= first /\ 1 <= nr /\ first + nr <= MAX_EVENTS
  | _ => True
  end.

End AlignedFileReader.

(** A batch of [MAX_EVENTS + 5] reads. The first window is submitted in
    three calls that take 1000, 20 and 4 descriptors, with interruptions,
    and its completions arrive 100 at a time ten times and then the last
    24: twelve partial counts. In the second window the kernel takes two
    descriptors after an interruption, then one, and then none eight
    times. *)
Module ReaderExample.

Definition strerror (errnum : Z) : string := "Input/output error".

Definition earlier : list AlignedFileReader.window :=
  [(([(0%nat, 1000%Z); (2%nat, 20%Z)], (1%nat, 4%Z)),
    (replicate 10 (0%nat, 100%Z), (0%nat, 24%Z)))].

Definition rounds : list (nat * Z) :=
  [(1%nat, 2%Z); (0%nat, 1%Z)] ++ replicate 8 (0%nat, 0%Z).

Definition kernel (tail : list Z) : list Z :=
  AlignedFileReader.windows_script earlier
  ++ AlignedFileReader.round_script rounds
  ++ replicate 1 (- AlignedFileReader.EINTR)%Z ++ tail.

End ReaderExample.

(** * The other functions of [pq.cpp] on a table *)
Section QuerySide.
Context {F Dbl : Type} {O : FloatOps F Dbl}.

(** Lines 173-186. The counters [d] and [d1] are [_u32] and [ndims] is
    64 bits wide: from [2 ^ 32] dimensions on the loops do not end. *)
Definition preprocess_query (t : FixedChunkPQTable) (query_vec : list F)
    : option (list F) :=
  let n := Z.to_nat (ndims t) in
  if decide (ndims t < 2 ^ 32)%Z then
    query_vec ← for_each
      (fun query_vec d =>
         q ← query_vec !! d;
         c ← centroid t !! d;
         Some (<[d := fsub q c]> query_vec))
      (seq 0 n) query_vec;
    let tmp := replicate n fzero in
    if use_rotation t then
      tmp ← for_each
        (fun tmp d =>
           for_each
             (fun tmp d1 =>
                acc ← tmp !! d;
                q ← query_vec !! d1;
                r ← rotmat_tr t !! (d1 * n + d);
                Some (<[d := fadd acc (fmul q r)]> tmp))
             (seq 0 n) tmp)
        (seq 0 n) tmp;
      if decide (n <= length query_vec)
      then Some (tmp ++ drop n query_vec)
      else None
    else Some query_vec
  else None.

(** Lines 235-242. *)
Definition inflate_vector (t : FixedChunkPQTable) (base_vec : list nat)
    (out_vec : list F) : option (list F) :=
  for_each
    (fun out_vec chunk =>
       axes ← chunk_axes t chunk;
       for_each
         (fun out_vec j =>
            code ← base_vec !! chunk;
            c ← tables_tr t !! (256 * j + code);
            m ← centroid t !! j;
            if decide (j < length out_vec)
            then Some (<[j := fadd c m]> out_vec)
            else None)
         axes out_vec)
    (seq 0 (Z.to_nat (n_chunks t))) out_vec.

(** The chunk offsets do not decrease, from [0] on. *)
Definition offsets_sorted (t : FixedChunkPQTable (F := F)) : Prop :=
  forall c c' lo hi, c <= c' ->
    chunk_offsets t !! c = Some lo -> chunk_offsets t !! c' = Some hi ->
    (0 <= lo <= hi)%Z.

(** What [inflate_vector] expects: [n_chunks + 1] sorted offsets within
    [ndims], [256 * ndims] transposed centroids, a mean and an output of
    [ndims] coordinates at least, and a byte for every chunk. *)
Definition inflate_ready (t : FixedChunkPQTable (F := F))
    (base_vec : list nat) (out_vec : list F) : Prop :=
  Z.to_nat (n_chunks t) + 1 <= length (chunk_offsets t) /\
  (forall chunk hi, chunk < Z.to_nat (n_chunks t) ->
     chunk_offsets t !! (chunk + 1) = Some hi -> (hi <= ndims t)%Z) /\
  offsets_sorted t /\
  length (tables_tr t) = 256 * Z.to_nat (ndims t) /\
  Z.to_nat (ndims t) <= length (centroid t) /\
  Z.to_nat (ndims t) <= length out_vec /\
  Z.to_nat (n_chunks t) <= length base_vec /\
  Forall (fun c => c < 256) base_vec.

(** The entry of centre [base_vec[chunk]] on axis [j], and the mean. *)
Definition inflated (t : FixedChunkPQTable (F := F)) (base_vec : list nat)
    (chunk j : nat) : F :=
  fadd (tables_tr t !!! (256 * j + base_vec !!! chunk)) (centroid t !!! j).

End QuerySide.

(** Lines 267-272: the codes of the points [ids], [ndims] bytes each.
    [ids[i] * ndims] is a product of 64 bits. *)
Definition aggregate_coords (ids : list Z) (n_ids : nat)
    (all_coords : list nat) (ndims : nat) (out : list nat)
    : option (list nat) :=
  for_each
    (fun out i =>
       id ← ids !! i;
       let src := Z.to_nat (wrap64 (id * Z.of_nat ndims)) in
       if decide (src + ndims <= length all_coords
                  /\ i * ndims + ndims <= length out)
       then Some (take (i * ndims) out
                    ++ take ndims (drop src all_coords)
                    ++ drop (i * ndims + ndims) out)
       else None)
    (seq 0 n_ids) out.

(** A table of two axes in one chunk whose rotation swaps the axes, in
    integer arithmetic; centre [c] is [(c, 2 c)] and the mean is
    [(1, 1)]. *)
Module QueryExample.

Definition swapping_table : FixedChunkPQTable (F := Z) := {|
  tables := c ← seq 0 256; [Z.of_nat c; Z.of_nat (2 * c)];
  tables_tr := (Z.of_nat <$> seq 0 256)
               ++ ((fun c => Z.of_nat (2 * c)) <$> seq 0 256);
  centroid := [1; 1]%Z;
  chunk_offsets := [0; 2]%Z;
  ndims := 2;
  n_chunks := 1;
  use_rotation := true;
  rotmat_tr := [0; 1; 1; 0]%Z
|}.

(** The same table, without the rotation, and with two chunks of one
    axis. *)
Definition plain_table : FixedChunkPQTable (F := Z) := {|
  tables := tables swapping_table;
  tables_tr := tables_tr swapping_table;
  centroid := [1; 1]%Z;
  chunk_offsets := [0; 1; 2]%Z;
  ndims := 2;
  n_chunks := 2;
  use_rotation := false;
  rotmat_tr := []
|}.

End QueryExample.

(** Training two centres beside a file of one base vector of two
    coordinates, and the encoder that follows; nothing is streamed. *)
Module EncoderExample.

Definition base_files : gmap string (list byte) :=
  {["base.bin" := le_bytes 4 1 ++ le_bytes 4 2]}.

Definition trained : result Z * Trainer.state (F := F32.t) :=
  Example.train 2 1 base_files.

Definition write_codes (num_points dim : Z) (chunk_offsets : list Z)
    : Trainer.M (F := F32.t) Z :=
  mret 0%Z.

End EncoderExample.

(** The same batch, where the submission of the second window is
    completed by a last count of two and ten calls of [io_getevents]
    return no event. *)
Module DrainExample.

Definition drained : list (nat * Z) := replicate 10 (0%nat, 0%Z).

Definition kernel (tail : list Z) : list Z :=
  AlignedFileReader.windows_script ReaderExample.earlier
  ++ AlignedFileReader.round_script ReaderExample.rounds ++ [2%Z]
  ++ AlignedFileReader.round_script drained
  ++ replicate 1 (- AlignedFileReader.EINTR)%Z ++ tail.

End DrainExample.

(** * The contexts of the threads
    ([linux_aligned_file_reader.cpp], lines 153-229)

    One call at a time: the mutex [ctx_mut] is free when a call starts.
    The thread that calls is [my_id]; what [io_setup] returns and leaves in
    [ctx] is the kernel's to choose. *)
Module LinuxAlignedFileReader.
Local Open Scope Z_scope.

(** [errno.h] of Linux. *)
Definition EAGAIN : Z := 11.

Inductive event : Type :=
  | io_setup (maxevents : Z)
  | io_destroy (ctx : Z)
  | cerr (line : string)
  | cout (line : string).

(** A call returns, throws, or stops at an [assert]. *)
Inductive outcome : Type :=
  | Returned
  | Thrown (what : string)
  | Aborted.

(** The data members: the descriptor of the file, the context of each
    registered thread, and the context given to the others. *)
Record reader : Type := Reader {
  file_desc : Z;
  ctx_map : gmap nat Z;
  bad_ctx : Z
}.

(** [std::unique_lock::unlock]: the lock is released; [unlock] of a lock
    that is not owned throws [std::system_error]. *)
Definition unlock (owns : bool) : option bool :=
  if owns then Some false else None.

Section Threads.
Variable strerror : Z -> string.
(** How [operator<<] prints a context and a thread. *)
Variable show_ctx : Z -> string.
Variable show_id : nat -> string.
(** Whether [assert] is compiled out. *)
Variable NDEBUG : bool.

(** Lines 153-166. *)
Definition get_ctx (my_id : nat) (r : reader) : Z * list event :=
  match ctx_map r !! my_id with
  | None =>
      (bad_ctx r, [cerr "bad thread access; returning -1 as io_context_t"])
  | Some ctx => (ctx, [])
  end.

(** Lines 168-197: [ret] and [ctx] are what [io_setup(MAX_EVENTS, &ctx)]
    returns and leaves in [ctx]. *)
Definition register_thread (my_id : nat) (ret ctx : Z) (r : reader)
    : outcome * reader * list event :=
  let owns := true in
  if decide (is_Some (ctx_map r !! my_id)) then
    (Returned, r,
     [cerr "multiple calls to register_thread from the same thread"])
  else
    let '(owns, r', t) :=
      if negb (ret =? 0) then
        (unlock owns, r,
         [io_setup AlignedFileReader.MAX_EVENTS;
          if ret =? - EAGAIN then
            cerr ("io_setup() failed with EAGAIN: "
                  +:+ "Consider increasing /proc/sys/fs/aio-max-nr")
          else
            cerr ("io_setup() failed; returned " +:+ pretty ret +:+ ": "
                  +:+ strerror (- ret))])
      else
        (Some owns,
         Reader (file_desc r) (<[my_id := ctx]> (ctx_map r)) (bad_ctx r),
         [io_setup AlignedFileReader.MAX_EVENTS;
          cout ("allocating ctx: " +:+ show_ctx ctx +:+ " to thread-id:"
                +:+ show_id my_id)]) in
    match owns ≫= unlock with
    | Some _ => (Returned, r', t)
    | None => (Thrown "std::system_error", r', t)
    end.

(** Lines 199-213. *)
Definition deregister_thread (my_id : nat) (r : reader)
    : outcome * reader * list event :=
  if negb NDEBUG && negb (bool_decide (is_Some (ctx_map r !! my_id))) then
    (Aborted, r, [])
  else
    let '(ctx, t) := get_ctx my_id r in
    (Returned,
     Reader (file_desc r) (delete my_id (ctx_map r)) (bad_ctx r),
     t ++ [io_destroy ctx;
           cerr ("returned ctx from thread-id:" +:+ show_id my_id)]).

(** Lines 215-229; the contexts are destroyed in the order of the map,
    which is not specified. *)
Definition deregister_all_threads (r : reader) : reader * list event :=
  (Reader (file_desc r) ∅ (bad_ctx r),
   (fun x => io_destroy x.2) <$> map_to_list (ctx_map r)).

End Threads.
End LinuxAlignedFileReader.

(** A computation that leaves the file [name] as it is, however it
    ends. *)
Definition keeps_file {F A : Type} (name : string) (m : Trainer.M (F := F) A)
    : Prop :=
  forall s, Trainer.files (m s).2 !! name = Trainer.files s !! name.

(** Array [b] holds [v]. *)
Definition buffer_is {F : Type} (b : Trainer.buffer) (v : list F)
    (h : Trainer.buffer -> list F) : Prop :=
  h b = v.

(** Training two centres without [make_zero_mean]. *)
Module UncentredExample.

Definition run : result Z * Trainer.state (F := F32.t) :=
  Trainer.generate_pq_pivots Example.METADATA_SIZE (fun _ => fzero)
    Example.kmeanspp Example.lloyds 2 2 2 1 1 "pq_pivots.bin" false
    (Example.start ∅).

End UncentredExample.

(** A run of [generate_opq_pivots] for 256 centres of two axes in one
    chunk, one round, with a decomposition that converges. *)
Module OpqExample.

Definition sgesdd (m n : nat) (a : list F32.t) (lda : nat)
    : Z * list F32.t * list F32.t * list F32.t * list F32.t :=
  (0%Z, a, replicate n fzero, a, a).

Definition run : result Z * Trainer.state :=
  Trainer.generate_opq_pivots Example.METADATA_SIZE 1 (fun _ => fzero)
    Example.kmeanspp Example.lloyds Example.sgemm sgesdd
    2 2 256 1 "opq_pivots.bin" true (Example.start ∅).

End OpqExample.

(** The OPQ training of two centres beside the file of one base vector,
    for the encoder that follows. *)
Module OpqEncoderExample.

Definition trained : result Z * Trainer.state (F := F32.t) :=
  Trainer.generate_opq_pivots Example.METADATA_SIZE 1 (fun _ => fzero)
    Example.kmeanspp Example.lloyds Example.sgemm OpqExample.sgesdd
    2 2 2 1 "opq_pivots.bin" true (Example.start EncoderExample.base_files).

End OpqEncoderExample.

(** * Proofs *)

(** ** The chunk partition *)

Example partition_10_3 : Partition.chunk_partition 10 3 = Some [0; 4; 7; 10]%Z.
Proof. vm_compute. reflexivity. Qed.

Example partition_8_4 : Partition.chunk_partition 8 4 = Some [0; 2; 4; 6; 8]%Z.
Proof. vm_compute. reflexivity. Qed.

Section PartitionProofs.
Import Partition.

Lemma fold_left_unchanged {A B} (f : A -> B -> A) (l : list B) (a : A) :
  (forall b, b ∈ l -> f a b = a) -> fold_left f l a = a.
Proof.
  induction l as [|b l IH]; simpl; intros H; [done|].
  rewrite (H b); [|left]. apply IH. intros b' Hb'. apply H. by right.
Qed.

Lemma insert_middle {A} (pre post : list A) (x y : A) :
  <[length pre := y]> (pre ++ x :: post) = pre ++ y :: post.
Proof. induction pre as [|p pre IH]; simpl; [done|]. by rewrite IH. Qed.

Lemma lookup_total_sizes (bs : list (list nat)) (b : nat) :
  length (bs !!! b) = (length <$> bs) !!! b.
Proof.
  rewrite (list_lookup_total_alt bs), (list_lookup_total_alt (length <$> bs)).
  rewrite list_lookup_fmap. by destruct (bs !! b).
Qed.

Lemma choose_bin_found (M : nat) (st : bins) (pre post : list nat) (s : nat) :
  length <$> bin_to_dims st = pre ++ s :: post ->
  length (bin_to_dims st) = M ->
  Forall (fun x => cur_bin_threshold st <= x) pre ->
  s < cur_bin_threshold st ->
  (choose_bin M (replicate M 0%Z) st).1 = length pre.
Proof.
  intros Hsz HM Hpre Hs. unfold choose_bin.
  assert (HlenM : M = length pre + S (length post)).
  { rewrite <- HM, <- (length_fmap length), Hsz, length_app. simpl. lia. }
  set (f := fun (cur : nat * Z) (b : nat) => _).
  set (init := (M + 1, FLT_MAX)).
  rewrite HlenM. rewrite seq_app, fold_left_app. simpl.
  assert (H1 : fold_left f (seq 0 (length pre)) init = init).
  { apply fold_left_unchanged. intros b Hb.
    apply list_elem_of_In, in_seq in Hb. unfold f, init. simpl.
    rewrite lookup_total_sizes, Hsz.
    rewrite lookup_total_app_l by lia.
    assert (cur_bin_threshold st <= pre !!! b) as Hge.
    { eapply (Forall_lookup_total_1 _ pre b) in Hpre; [done|lia]. }
    replace (pre !!! b <? cur_bin_threshold st) with false
      by (symmetry; apply Nat.ltb_ge; lia).
    by rewrite andb_false_r. }
  rewrite H1.
  assert (H2 : f init (length pre) = (length pre, 0%Z)).
  { unfold f, init. simpl. rewrite lookup_total_replicate_2 by lia.
    rewrite lookup_total_sizes, Hsz.
    rewrite list_lookup_total_middle by done.
    replace (0 <? FLT_MAX)%Z with true by (vm_compute; reflexivity).
    replace (s <? cur_bin_threshold st) with true
      by (symmetry; apply Nat.ltb_lt; lia).
    done. }
  rewrite H2. rewrite fold_left_unchanged; [done|].
  intros b Hb. apply list_elem_of_In, in_seq in Hb. unfold f. simpl.
  rewrite lookup_total_replicate_2 by lia. done.
Qed.

Lemma partition_arith (D M : nat) :
  1 <= M <= D ->
  1 <= low_val D M /\ D = low_val D M * M + max_num_high D M /\
  max_num_high D M < M /\
  (max_num_high D M = 0 -> high_val D M = low_val D M) /\
  (max_num_high D M <> 0 -> high_val D M = S (low_val D M)).
Proof.
  intros HM. unfold low_val, max_num_high, high_val, low_val.
  pose proof (Nat.div_mod_eq D M) as Hdm.
  pose proof (Nat.mod_upper_bound D M ltac:(lia)) as Hlt.
  assert (1 <= D / M) by (apply Nat.div_le_lower_bound; lia).
  assert (D - D / M * M = D mod M) as -> by nia.
  repeat split; try lia.
  - intros ->. done.
  - intros Hr. destruct (Nat.eqb_spec (D mod M) 0); [done|done].
Qed.

Lemma assign_dim_at (D M : nat) (st : bins) (d : nat)
    (pre post : list nat) (s : nat) :
  sizes st = pre ++ s :: post ->
  length (bin_to_dims st) = M ->
  Forall (fun x => cur_bin_threshold st <= x) pre ->
  s < cur_bin_threshold st ->
  exists bs,
    length <$> bs = pre ++ S s :: post /\
    assign_dim D M [] (replicate M 0%Z) st d =
      Some (if S s =? high_val D M
            then Bins bs (S (cur_num_high st))
                   (if S (cur_num_high st) =? max_num_high D M
                    then low_val D M else cur_bin_threshold st)
            else Bins bs (cur_num_high st) (cur_bin_threshold st)).
Proof.
  intros Hsz HM Hpre Hs. unfold assign_dim. cbn [existsb].
  rewrite (choose_bin_found M st pre post s) by done.
  assert (Hlk : (length <$> bin_to_dims st) !! length pre = Some s).
  { unfold sizes in Hsz. rewrite Hsz. by apply list_lookup_middle. }
  rewrite list_lookup_fmap in Hlk.
  destruct (bin_to_dims st !! length pre) as [dims|] eqn:Hd; [|done].
  simpl in Hlk. injection Hlk as Hlen.
  exists (<[length pre := dims ++ [d]]> (bin_to_dims st)). split.
  - rewrite list_fmap_insert. unfold sizes in Hsz. rewrite Hsz.
    rewrite insert_middle, length_app. simpl.
    by replace (length dims + 1) with (S s) by lia.
  - rewrite length_app. change (length [d]) with 1.
    replace (length dims + 1) with (S s) by lia.
    by destruct (S s =? high_val D M).
Qed.

Lemma sum_list_middle (pre post : list nat) (s : nat) :
  sum_list (pre ++ s :: post) = sum_list pre + s + sum_list post.
Proof. rewrite sum_list_with_app. simpl. lia. Qed.

Lemma fill_shape_length (h l r M : nat) (szs : list nat) (cnt thr : nat) :
  fill_shape h l r M szs cnt thr -> length szs = M.
Proof.
  intros [a s c ? ? ?| ? |b s c ? ? ? ?| ? ? ?];
    rewrite ?length_app; simpl; rewrite ?length_app; simpl;
    rewrite ?length_replicate; lia.
Qed.

Lemma sum_list_app_nat (l1 l2 : list nat) :
  sum_list (l1 ++ l2) = sum_list l1 + sum_list l2.
Proof. apply sum_list_with_app. Qed.

(** One axis is dealt out: the shape is kept and one bin grows by one. *)
Lemma assign_dim_shape (D M : nat) (st : bins) (d : nat) :
  1 <= M <= D ->
  fill_shape (high_val D M) (low_val D M) (max_num_high D M) M
    (sizes st) (cur_num_high st) (cur_bin_threshold st) ->
  sum_list (sizes st) < D ->
  exists st',
    assign_dim D M [] (replicate M 0%Z) st d = Some st' /\
    fill_shape (high_val D M) (low_val D M) (max_num_high D M) M
      (sizes st') (cur_num_high st') (cur_bin_threshold st') /\
    sum_list (sizes st') = S (sum_list (sizes st)).
Proof.
  intros HM Hsh Hsum.
  destruct (partition_arith D M HM) as (Hl & HD & Hr & Hh0 & Hh1).
  assert (HlenM : length (bin_to_dims st) = M).
  { rewrite <- (fill_shape_length _ _ _ _ _ _ _ Hsh). unfold sizes.
    by rewrite length_fmap. }
  set (h := high_val D M) in *. set (l := low_val D M) in *.
  set (r := max_num_high D M) in *.
  destruct st as [bs cnt thr]. simpl in *.
  inversion Hsh as [a s c Hs Hlen Hphase Hsz Hc Ht
                   | Hr0 Hsz Hc Ht
                   | b s c Hr0 Hhl Hs Hlen Hsz Hc Ht
                   | Hr0 Hhl Hrm Hsz Hc Ht]; subst cnt thr.
  - (* filling a bin to [h] *)
    destruct (assign_dim_at D M (Bins bs a h) d
                (replicate a h) (replicate c 0) s) as (bs' & Hsz' & Hres);
      [done|done|by apply Forall_replicate|done|].
    fold h l r in Hres.
    cbn [cur_num_high cur_bin_threshold bin_to_dims] in Hres. rewrite Hres.
    assert (Hsum' : sum_list (length <$> bs')
                    = S (sum_list (replicate a h ++ s :: replicate c 0))).
    { rewrite Hsz', !sum_list_middle. lia. }
    destruct (Nat.eqb_spec (S s) h) as [Hfull|Hnot].
    + destruct (Nat.eqb_spec (S a) r) as [Hlast|Hmore].
      * eexists; split; [done|]. split; [|exact Hsum']. unfold sizes. simpl.
        rewrite Hsz', Hfull.
        destruct c as [|c]; [lia|].
        replace (replicate a h ++ h :: replicate (S c) 0)
          with (replicate r h ++ replicate 0 l ++ 0 :: replicate c 0).
        { rewrite Hlast. apply shape_low; lia. }
        rewrite <- Hlast, replicate_S_end, <- app_assoc. done.
      * eexists; split; [done|]. split; [|exact Hsum']. unfold sizes. simpl.
        rewrite Hsz', Hfull.
        destruct c as [|c].
        -- replace (replicate a h ++ h :: replicate 0 0)
             with (replicate M h).
           { replace (S a) with M by lia. apply shape_high_full. lia. }
           replace M with (S a) by lia. by rewrite replicate_S_end.
        -- replace (replicate a h ++ h :: replicate (S c) 0)
             with (replicate (S a) h ++ 0 :: replicate c 0).
           { apply shape_high; lia. }
           rewrite replicate_S_end, <- app_assoc. done.
    + eexists; split; [done|]. split; [|exact Hsum']. unfold sizes. simpl.
      rewrite Hsz'. apply shape_high; lia.
  - (* every bin is full: all axes are out *)
    exfalso. rewrite <- Hsz, sum_list_replicate in Hsum. rewrite Hh0 in Hsum by done.
    nia.
  - (* filling a bin to [l] *)
    destruct (assign_dim_at D M (Bins bs r l) d
                (replicate r h ++ replicate b l) (replicate c 0) s)
      as (bs' & Hsz' & Hres).
    { rewrite <- Hsz. by rewrite <- app_assoc. }
    { done. }
    { apply Forall_app. split; apply Forall_replicate; simpl; lia. }
    { done. }
    fold h l r in Hres.
    cbn [cur_num_high cur_bin_threshold bin_to_dims] in Hres. rewrite Hres.
    assert (Hsum' : sum_list (length <$> bs')
                    = S (sum_list (replicate r h ++ replicate b l
                                     ++ s :: replicate c 0))).
    { rewrite Hsz', app_assoc, !sum_list_middle. lia. }
    destruct (Nat.eqb_spec (S s) h) as [Hfull|Hnot]; [lia|].
    eexists; split; [done|]. split; [|exact Hsum']. unfold sizes. simpl.
    rewrite Hsz', <- app_assoc.
    destruct (decide (S s = l)) as [Hl'|Hl'].
    + rewrite Hl'. destruct c as [|c].
      * replace (replicate b l ++ l :: replicate 0 0)
          with (replicate (M - r) l).
        { apply shape_low_full; lia. }
        replace (M - r) with (S b) by lia. by rewrite replicate_S_end.
      * replace (replicate b l ++ l :: replicate (S c) 0)
          with (replicate (S b) l ++ 0 :: replicate c 0).
        { apply shape_low; lia. }
        rewrite replicate_S_end, <- app_assoc. done.
    + apply shape_low; lia.
  - (* every bin is full *)
    exfalso. rewrite <- Hsz, sum_list_app_nat, !sum_list_replicate in Hsum.
    rewrite Hh1 in Hsum by done. nia.
Qed.

Lemma assign_dims_shape (D M : nat) (ds : list nat) (st : bins) :
  1 <= M <= D ->
  fill_shape (high_val D M) (low_val D M) (max_num_high D M) M
    (sizes st) (cur_num_high st) (cur_bin_threshold st) ->
  sum_list (sizes st) + length ds <= D ->
  exists st',
    assign_dims D M [] (replicate M 0%Z) ds st = Some st' /\
    fill_shape (high_val D M) (low_val D M) (max_num_high D M) M
      (sizes st') (cur_num_high st') (cur_bin_threshold st') /\
    sum_list (sizes st') = sum_list (sizes st) + length ds.
Proof.
  intros HM. revert st.
  induction ds as [|d ds IH]; intros st Hsh Hsum; simpl in *.
  - exists st. repeat split; [done|lia].
  - destruct (assign_dim_shape D M st d HM Hsh) as (st1 & -> & Hsh1 & Hsum1);
      [lia|].
    destruct (IH st1 Hsh1) as (st2 & -> & Hsh2 & Hsum2); [lia|].
    exists st2. repeat split; [done|lia].
Qed.

(** Once all [D] axes are out, [r] bins hold [h] axes and the others [l]. *)
Lemma fill_shape_final (D M : nat) (szs : list nat) (cnt thr : nat) :
  1 <= M <= D ->
  fill_shape (high_val D M) (low_val D M) (max_num_high D M) M szs cnt thr ->
  sum_list szs = D ->
  szs = replicate (max_num_high D M) (S (low_val D M))
          ++ replicate (M - max_num_high D M) (low_val D M).
Proof.
  intros HM Hsh Hsum.
  destruct (partition_arith D M HM) as (Hl & HD & Hr & Hh0 & Hh1).
  set (h := high_val D M) in *. set (l := low_val D M) in *.
  set (r := max_num_high D M) in *.
  inversion Hsh as [a s c Hs Hlen Hphase Hsz Hc Ht
                   | Hr0 Hsz Hc Ht
                   | b s c Hr0 Hhl Hs Hlen Hsz Hc Ht
                   | Hr0 Hhl Hrm Hsz Hc Ht]; subst szs.
  - exfalso. rewrite sum_list_middle, !sum_list_replicate in Hsum.
    destruct Hphase as [Hr0|Har].
    + rewrite (Hh0 Hr0) in *. nia.
    + rewrite Hh1 in * by lia. nia.
  - rewrite Hr0, (Hh0 Hr0). simpl. by rewrite Nat.sub_0_r.
  - exfalso.
    rewrite app_assoc, sum_list_middle, sum_list_app_nat,
      !sum_list_replicate in Hsum. nia.
  - by rewrite Hhl.
Qed.

Lemma take_sum_step (szs : list nat) (i : nat) :
  i < length szs ->
  sum_list (take (S i) szs) = sum_list (take i szs) + szs !!! i.
Proof.
  intros Hi. destruct (lookup_lt_is_Some_2 szs i Hi) as [x Hx].
  rewrite (take_S_r _ _ _ Hx), sum_list_app_nat.
  rewrite (list_lookup_total_correct _ _ _ Hx). simpl. lia.
Qed.

Lemma take_sum_le (szs : list nat) (i : nat) :
  sum_list (take i szs) <= sum_list szs.
Proof.
  rewrite <- (take_drop i szs) at 2. rewrite sum_list_app_nat. lia.
Qed.

(** The offsets pushed before the last one are the running sums of the
    bin sizes. *)
Lemma push_offsets_prefix (M : nat) (bs : list (list nat)) :
  1 <= M -> length bs = M ->
  (Z.of_nat (sum_list (length <$> bs)) < 2 ^ 32)%Z ->
  push_offsets M bs =
    (fun i => Z.of_nat (sum_list (take i (length <$> bs)))) <$> seq 0 M.
Proof.
  intros HM Hlen Hbound. unfold push_offsets.
  set (psum := fun i => Z.of_nat (sum_list (take i (length <$> bs)))).
  set (f := fun (chunk_offsets : list Z) (b : nat) => _).
  assert (Hgen : forall n k, 1 <= k -> k + n <= M ->
            fold_left f (seq k n) (psum <$> seq 0 k) = psum <$> seq 0 (k + n)).
  { induction n as [|n IH]; intros k Hk Hkn; simpl.
    - by rewrite Nat.add_0_r.
    - replace (k + S n) with (S k + n) by lia.
      rewrite <- IH by lia. f_equal. unfold f at 1.
      replace (0 <? k) with true by (symmetry; apply Nat.ltb_lt; lia).
      rewrite seq_S, fmap_app. simpl. f_equal. f_equal.
      rewrite (list_lookup_total_fmap psum (seq 0 k) (k - 1))
        by (rewrite length_seq; lia).
      rewrite lookup_total_seq_lt by lia. simpl.
      rewrite lookup_total_sizes. unfold psum.
      replace k with (S (k - 1)) at 3 by lia.
      rewrite take_sum_step by (rewrite length_fmap; lia).
      unfold wrap32. rewrite <- Nat2Z.inj_add.
      apply Z.mod_small. split; [lia|].
      pose proof (take_sum_le (length <$> bs) (S (k - 1))) as Hle.
      rewrite take_sum_step in Hle by (rewrite length_fmap; lia). lia. }
  destruct M as [|M]; [lia|]. simpl.
  unfold f at 2. simpl.
  apply (Hgen M 1); lia.
Qed.

(** The closed form of the offsets: running sums of [r] widths [l + 1]
    followed by [M - r] widths [l]. *)
Lemma chunk_partition_sums (D M : nat) :
  1 <= M <= D -> (Z.of_nat D < 2 ^ 32)%Z ->
  let szs := replicate (max_num_high D M) (S (low_val D M))
               ++ replicate (M - max_num_high D M) (low_val D M) in
  sum_list szs = D /\ length szs = M /\
  chunk_partition D M =
    Some ((fun i => Z.of_nat (sum_list (take i szs))) <$> seq 0 (S M)).
Proof.
  intros HM HD32 szs.
  destruct (partition_arith D M HM) as (Hl & HD & Hr & Hh0 & Hh1).
  assert (Hszsum : sum_list szs = D).
  { unfold szs. rewrite sum_list_app_nat, !sum_list_replicate. nia. }
  assert (Hszlen : length szs = M).
  { unfold szs. rewrite length_app, !length_replicate. lia. }
  split; [done|]. split; [done|].
  unfold chunk_partition.
  destruct (Nat.eqb_spec M 0) as [?|_]; [lia|].
  set (st0 := Bins _ _ _).
  assert (Hsz0 : sizes st0 = replicate 0 (high_val D M) ++ 0 :: replicate (M - 1) 0).
  { unfold sizes, st0. simpl. rewrite fmap_replicate. simpl.
    replace M with (S (M - 1)) at 1 by lia. done. }
  assert (Hsh0 : fill_shape (high_val D M) (low_val D M) (max_num_high D M) M
                   (sizes st0) (cur_num_high st0) (cur_bin_threshold st0)).
  { rewrite Hsz0.
    apply (shape_high _ _ _ M 0 0 (M - 1)); [|lia|lia].
    destruct (decide (max_num_high D M = 0)) as [H0|H0];
      [rewrite Hh0|rewrite Hh1]; (done || lia). }
  assert (Hsum0 : sum_list (sizes st0) = 0).
  { rewrite Hsz0. simpl. rewrite sum_list_replicate. lia. }
  destruct (assign_dims_shape D M (seq 0 D) st0 HM Hsh0)
    as (st & -> & Hsh & Hsum).
  { rewrite Hsum0, length_seq. lia. }
  rewrite Hsum0, length_seq in Hsum. simpl in Hsum.
  pose proof (fill_shape_final D M _ _ _ HM Hsh Hsum) as Hfinal.
  fold szs in Hfinal. unfold sizes in Hfinal.
  rewrite push_offsets_prefix; [| lia | | ].
  - rewrite Hfinal. rewrite seq_S, fmap_app. simpl.
    rewrite <- Hszlen at 3. rewrite firstn_all, Hszsum. done.
  - rewrite <- (length_fmap length), Hfinal. done.
  - rewrite Hfinal, Hszsum. done.
Qed.

Lemma filter_all {A} (P : A -> Prop) `{!forall x, Decision (P x)} (l : list A) :
  Forall P l -> filter P l = l.
Proof.
  induction 1 as [|x l Hx Hl IH]; [done|].
  rewrite filter_cons_True by done. by rewrite IH.
Qed.

Lemma filter_none {A} (P : A -> Prop) `{!forall x, Decision (P x)} (l : list A) :
  Forall (fun x => ~ P x) l -> filter P l = [].
Proof.
  induction 1 as [|x l Hx Hl IH]; [done|].
  by rewrite filter_cons_False.
Qed.

Lemma balanced_sizes_lookup (r M l i : nat) :
  r <= M -> i < M ->
  (replicate r (S l) ++ replicate (M - r) l) !!! i
    = if decide (i < r) then S l else l.
Proof.
  intros Hr Hi. case_decide as Hlt.
  - rewrite lookup_total_app_l by (rewrite length_replicate; lia).
    by rewrite lookup_total_replicate_2.
  - rewrite lookup_total_app_r by (rewrite length_replicate; lia).
    rewrite length_replicate. rewrite lookup_total_replicate_2; [done|lia].
Qed.

Lemma count_split (P : nat -> Prop) `{!forall x, Decision (P x)} (r M : nat) :
  r <= M ->
  length (filter P (seq 0 M))
    = length (filter P (seq 0 r)) + length (filter P (seq r (M - r))).
Proof.
  intros Hr. replace M with (r + (M - r)) at 1 by lia.
  by rewrite seq_app, filter_app, length_app.
Qed.

End PartitionProofs.

(** C1 as the specification words it fails where [M] divides [D]: all
    [M] groups then have width [ceil(D/M) = floor(D/M)], not
    [D - floor(D/M) * M = 0] of them. *)
Lemma chunk_partition_ceil_count_8_4 :
  Partition.chunk_partition 8 4 = Some [0; 2; 4; 6; 8]%Z /\
  Partition.count_width [0; 2; 4; 6; 8]%Z 4
    (Z.of_nat (Partition.high_val 8 4))
  <> 8 - Partition.low_val 8 4 * 4.
Proof. split; [by vm_compute|]. vm_compute. lia. Qed.

(** C1 (amended). For [1 <= M <= D] the partition is defined; its offsets
    start at [0], end at [D] and increase strictly; every width is
    [floor(D/M)] or [ceil(D/M)]; exactly [D - floor(D/M) * M] groups have
    width [floor(D/M) + 1] and the other groups have width [floor(D/M)];
    [D = 10], [M = 3] gives [[0; 4; 7; 10]]. *)
Theorem chunk_partition_balanced (D M : nat) :
  1 <= M <= D -> (Z.of_nat D < 2 ^ 32)%Z ->
  exists O : list Z,
    Partition.chunk_partition D M = Some O /\
    length O = M + 1 /\
    O !! 0 = Some 0%Z /\
    O !! M = Some (Z.of_nat D) /\
    (forall i, i < M -> (O !!! i < O !!! S i)%Z) /\
    (forall i, i < M ->
       Partition.width O i = Z.of_nat (Partition.low_val D M) \/
       Partition.width O i = Z.of_nat (Partition.high_val D M)) /\
    Partition.count_width O M (Z.of_nat (Partition.low_val D M) + 1)
      = D - Partition.low_val D M * M /\
    Partition.count_width O M (Z.of_nat (Partition.low_val D M))
      = M - (D - Partition.low_val D M * M) /\
    Partition.chunk_partition 10 3 = Some [0; 4; 7; 10]%Z.
Proof.
  intros HM HD32.
  destruct (chunk_partition_sums D M HM HD32) as (Hsum & Hlen & Hpart).
  destruct (partition_arith D M HM) as (Hl & HD & Hr & Hh0 & Hh1).
  set (l := Partition.low_val D M) in *.
  set (r := Partition.max_num_high D M) in *.
  set (szs := replicate r (S l) ++ replicate (M - r) l) in *.
  set (psum := fun i => Z.of_nat (sum_list (take i szs))) in *.
  assert (Hlk : forall i, i <= M -> (psum <$> seq 0 (S M)) !!! i = psum i).
  { intros i Hi.
    rewrite (list_lookup_total_fmap psum (seq 0 (S M)) i)
      by (rewrite length_seq; lia).
    by rewrite lookup_total_seq_lt by lia. }
  assert (Hw : forall i, i < M ->
            Partition.width (psum <$> seq 0 (S M)) i
              = Z.of_nat (if decide (i < r) then S l else l)).
  { intros i Hi. unfold Partition.width.
    rewrite !Hlk by lia. unfold psum.
    replace (i + 1) with (S i) by lia.
    rewrite take_sum_step by lia.
    unfold szs at 2. rewrite balanced_sizes_lookup by lia. lia. }
  exists (psum <$> seq 0 (S M)).
  split; [done|].
  split; [rewrite length_fmap, length_seq; lia|].
  split; [done|].
  split.
  { rewrite list_lookup_fmap, lookup_seq_lt by lia. simpl. unfold psum.
    rewrite <- Hlen at 1. by rewrite firstn_all, Hsum. }
  split.
  { intros i Hi. pose proof (Hw i Hi) as Hwi. unfold Partition.width in Hwi.
    replace (i + 1) with (S i) in Hwi by lia. case_decide; lia. }
  split.
  { intros i Hi. rewrite (Hw i Hi). case_decide as Hir.
    - right. rewrite Hh1 by lia. done.
    - left. done. }
  assert (Hrdef : D - l * M = r) by done.
  rewrite Hrdef.
  split; [|split; [|by vm_compute]].
  - unfold Partition.count_width. rewrite (count_split _ r M) by lia.
    rewrite filter_all, filter_none, length_seq; [simpl; lia| |].
    + apply Forall_forall. intros i Hi%list_elem_of_In%in_seq.
      rewrite Hw by lia. case_decide; lia.
    + apply Forall_forall. intros i Hi%list_elem_of_In%in_seq.
      rewrite Hw by lia. case_decide; lia.
  - unfold Partition.count_width. rewrite (count_split _ r M) by lia.
    rewrite filter_none, filter_all, length_seq; [simpl; lia| |].
    + apply Forall_forall. intros i Hi%list_elem_of_In%in_seq.
      rewrite Hw by lia. case_decide; lia.
    + apply Forall_forall. intros i Hi%list_elem_of_In%in_seq.
      rewrite Hw by lia. case_decide; lia.
Qed.

Lemma chunk_partition_balanced_witness :
  exists O : list Z,
    Partition.chunk_partition 10 3 = Some O /\
    length O = 3 + 1 /\
    O !! 0 = Some 0%Z /\
    O !! 3 = Some (Z.of_nat 10) /\
    (forall i, i < 3 -> (O !!! i < O !!! S i)%Z) /\
    (forall i, i < 3 ->
       Partition.width O i = Z.of_nat (Partition.low_val 10 3) \/
       Partition.width O i = Z.of_nat (Partition.high_val 10 3)) /\
    Partition.count_width O 3 (Z.of_nat (Partition.low_val 10 3) + 1)
      = 10 - Partition.low_val 10 3 * 3 /\
    Partition.count_width O 3 (Z.of_nat (Partition.low_val 10 3))
      = 3 - (10 - Partition.low_val 10 3 * 3) /\
    Partition.chunk_partition 10 3 = Some [0; 4; 7; 10]%Z.
Proof. apply (chunk_partition_balanced 10 3); [lia | reflexivity]. Defined.

(** ** Loops *)

Lemma row_index (chunk k : nat) :
  256 * chunk <= k < 256 * chunk + 256 ->
  k / 256 = chunk /\ k mod 256 = k - 256 * chunk.
Proof.
  intros Hk.
  assert (k = 256 * chunk + (k - 256 * chunk)) as Heq by lia.
  split.
  - symmetry. apply (Nat.div_unique k 256 chunk (k - 256 * chunk)); lia.
  - symmetry. apply (Nat.mod_unique k 256 chunk (k - 256 * chunk)); lia.
Qed.


(** Reduce the binds of the option monad, and nothing else. *)
Ltac step_bind :=
  cbn [mbind option_bind mret option_ret fmap option_fmap option_map].

Lemma obind_assoc {A B C : Type} (m : option A) (f : A -> option B)
    (g : B -> option C) :
  m ≫= (fun x => f x ≫= g) = (m ≫= f) ≫= g.
Proof. by destruct m. Qed.

Section Loops.
Context {A B : Type}.

Lemma for_each_app (f : A -> B -> option A) (l1 l2 : list B) (a : A) :
  for_each f (l1 ++ l2) a =
    match for_each f l1 a with
    | Some a' => for_each f l2 a'
    | None => None
    end.
Proof.
  revert a. induction l1 as [|b l1 IH]; intros a; simpl; [done|].
  destruct (f a b); [apply IH|done].
Qed.

Lemma for_each_ext (f g : A -> B -> option A) (l : list B) (a : A) :
  (forall a b, b ∈ l -> f a b = g a b) -> for_each f l a = for_each g l a.
Proof.
  revert a. induction l as [|b l IH]; intros a Hfg; simpl; [done|].
  rewrite Hfg by left. destruct (g a b); [|done].
  apply IH. intros a' b' Hb'. apply Hfg. by right.
Qed.

Lemma for_each_total (f : A -> B -> option A) (f' : A -> B -> A)
    (l : list B) (a : A) :
  (forall a b, b ∈ l -> f a b = Some (f' a b)) ->
  for_each f l a = Some (fold_left f' l a).
Proof.
  revert a. induction l as [|b l IH]; intros a Hf; simpl; [done|].
  rewrite Hf by left. apply IH. intros a' b' Hb'. apply Hf. by right.
Qed.

End Loops.

(** The loop [for (idx = 0; idx < n; idx++) d[base + idx] = op(d[base + idx], g(idx))]. *)
Lemma for_each_row {A : Type} (op : A -> A -> A) (g : nat -> option A)
    (g' : nat -> A) (base n : nat) (d : list A) :
  (forall idx, idx < n -> g idx = Some (g' idx)) ->
  base + n <= length d ->
  exists d',
    for_each
      (fun d idx =>
         v ← g idx; old ← d !! (base + idx);
         Some (<[base + idx := op old v]> d))
      (seq 0 n) d = Some d' /\
    length d' = length d /\
    forall k, d' !! k =
      if decide (base <= k < base + n)
      then (fun old => op old (g' (k - base))) <$> d !! k
      else d !! k.
Proof.
  induction n as [|n IH]; intros Hg Hlen.
  - exists d. split; [done|]. split; [done|].
    intros k. case_decide; [lia|done].
  - destruct IH as (d1 & Hrun & Hlen1 & Hlk1); [intros; apply Hg; lia|lia|].
    rewrite seq_S, for_each_app, Hrun. simpl.
    rewrite (Hg n) by lia. simpl.
    destruct (lookup_lt_is_Some_2 d (base + n)) as [old Hold]; [lia|].
    assert (Hold1 : d1 !! (base + n) = Some old).
    { rewrite Hlk1. case_decide; [lia|done]. }
    rewrite Hold1. simpl.
    eexists. split; [done|]. split; [by rewrite length_insert|].
    intros k. destruct (decide (k = base + n)) as [->|Hk].
    + rewrite list_lookup_insert_eq by lia.
      case_decide; [|lia]. rewrite Hold. simpl.
      by replace (base + n - base) with n by lia.
    + rewrite list_lookup_insert_ne by lia. rewrite Hlk1.
      repeat case_decide; (done || lia).
Qed.

(** ** [pq_dist_lookup] *)
Section LookupProofs.
Context {F Dbl : Type} {O : FloatOps F Dbl}.

Lemma memset_zero_length (n : nat) (buf buf' : list F) :
  memset_zero n buf = Some buf' -> length buf' = length buf.
Proof.
  unfold memset_zero. case_decide; [|done]. intros [= <-].
  rewrite length_app, length_replicate, length_drop. lia.
Qed.

Lemma memset_zero_lookup (n : nat) (buf buf' : list F) (k : nat) :
  memset_zero n buf = Some buf' -> k < n -> buf' !! k = Some fzero.
Proof.
  unfold memset_zero. case_decide; [|done]. intros [= <-] Hk.
  rewrite lookup_app_l by (rewrite length_replicate; lia).
  by apply lookup_replicate_2.
Qed.

Lemma lookup_ready_read (pq_ids : list nat) (n M : nat)
    (pq_dists out : list F) (i c : nat) :
  lookup_ready pq_ids n M pq_dists out -> i < n -> c < M ->
  exists code d,
    pq_ids !! (M * i + c) = Some code /\
    pq_dists !! (256 * c + code) = Some d.
Proof.
  intros (Hids & Hcodes & Hd & _) Hi Hc.
  destruct (lookup_lt_is_Some_2 pq_ids (M * i + c)) as [code Hcode]; [nia|].
  assert (code < 256) as Hlt.
  { eapply (Forall_lookup_1 (fun c => c < 256) pq_ids); eauto. }
  destruct (lookup_lt_is_Some_2 pq_dists (256 * c + code)) as [d Hdd]; [lia|].
  eauto.
Qed.

Lemma lookup_chunks (pq_ids : list nat) (n M : nat)
    (pq_dists out d0 : list F) (m : nat) :
  lookup_ready pq_ids n M pq_dists out -> m <= M -> n <= length d0 ->
  exists d',
    for_each
      (fun dists_out chunk =>
         for_each
           (fun dists_out idx =>
              pq_centerid ← pq_ids !! (M * idx + chunk);
              d ← pq_dists !! (256 * chunk + pq_centerid);
              old ← dists_out !! idx;
              Some (<[idx := fadd old d]> dists_out))
           (seq 0 n) dists_out)
      (seq 0 m) d0 = Some d' /\
    length d' = length d0 /\
    forall k, d' !! k =
      if decide (k < n)
      then (fun old =>
              fold_left (fun acc c => fadd acc (lookup_term pq_ids M pq_dists c k))
                (seq 0 m) old) <$> d0 !! k
      else d0 !! k.
Proof.
  intros Hready Hm Hn. induction m as [|m IH].
  - exists d0. split; [done|]. split; [done|]. intros k.
    case_decide; [|done]. by destruct (d0 !! k).
  - destruct IH as (d1 & Hrun & Hlen1 & Hlk1); [lia|].
    rewrite seq_S, for_each_app, Hrun. cbn [for_each]. change (0 + m) with m.
    destruct (for_each_row fadd
                (fun idx => pq_centerid ← pq_ids !! (M * idx + m);
                            pq_dists !! (256 * m + pq_centerid))
                (fun idx => lookup_term pq_ids M pq_dists m idx)
                0 n d1) as (d2 & Hrow & Hlen2 & Hlk2).
    { intros idx Hidx.
      destruct (lookup_ready_read _ _ _ _ _ idx m Hready) as (code & d & Hc & Hd);
        [lia|lia|].
      unfold lookup_term. rewrite Hc. step_bind. rewrite Hd.
      rewrite (list_lookup_total_correct _ _ _ Hc).
      by rewrite (list_lookup_total_correct _ _ _ Hd). }
    { lia. }
    erewrite for_each_ext; [rewrite Hrow|].
    + eexists. split; [done|]. split; [lia|].
      intros k. rewrite Hlk2, Hlk1.
      repeat case_decide; try lia; [|done].
      destruct (d0 !! k); [|done]. simpl.
      rewrite fold_left_app. simpl. by rewrite Nat.sub_0_r.
    + intros d idx _.
      exact (obind_assoc (pq_ids !! (M * idx + m))
               (fun pq_centerid => pq_dists !! (256 * m + pq_centerid)) _).
Qed.

Lemma pq_dist_lookup_cells (pq_ids : list nat) (n M : nat)
    (pq_dists out : list F) :
  lookup_ready pq_ids n M pq_dists out ->
  exists out',
    pq_dist_lookup pq_ids n M pq_dists out = Some out' /\
    length out' = length out /\
    (forall i, i < n ->
       out' !! i =
         Some (fold_left
                 (fun acc c => fadd acc (lookup_term pq_ids M pq_dists c i))
                 (seq 0 M) fzero)) /\
    (forall i, n <= i -> out' !! i = out !! i).
Proof.
  intros Hready. unfold pq_dist_lookup.
  destruct (memset_zero n out) as [d0|] eqn:Hms; simpl.
  2:{ unfold memset_zero in Hms. destruct Hready as (_ & _ & _ & ?).
      case_decide; [done|lia]. }
  pose proof (memset_zero_length _ _ _ Hms) as Hlen0.
  destruct (lookup_chunks pq_ids n M pq_dists out d0 M Hready)
    as (d' & Hrun & Hlen' & Hlk); [lia| |].
  { destruct Hready as (_ & _ & _ & ?). lia. }
  exists d'. split; [done|]. split; [lia|]. split.
  - intros i Hi. rewrite Hlk. case_decide; [|lia].
    by rewrite (memset_zero_lookup _ _ _ _ Hms Hi).
  - intros i Hi. rewrite Hlk. case_decide; [lia|].
    unfold memset_zero in Hms. case_decide; [|done].
    injection Hms as <-.
    rewrite lookup_app_r by (rewrite length_replicate; lia).
    rewrite length_replicate, lookup_drop. f_equal. lia.
Qed.

Lemma lookup_sum_256 (pq_ids : list nat) (n M : nat)
    (pq_dists out : list F) (i : nat) :
  lookup_ready pq_ids n M pq_dists out -> i < n ->
  lookup_sum 256 M pq_dists pq_ids i =
    Some (fold_left
            (fun acc c => fadd acc (lookup_term pq_ids M pq_dists c i))
            (seq 0 M) fzero).
Proof.
  intros Hready Hi. unfold lookup_sum. apply for_each_total.
  intros acc c Hc%list_elem_of_In%in_seq.
  destruct (lookup_ready_read _ _ _ _ _ i c Hready) as (code & d & Hcode & Hd);
    [lia|lia|].
  unfold lookup_term.
  replace (i * M + c) with (M * i + c) by lia. rewrite Hcode. step_bind.
  replace (c * 256 + code) with (256 * c + code) by lia. rewrite Hd. step_bind.
  rewrite (list_lookup_total_correct _ _ _ Hcode).
  by rewrite (list_lookup_total_correct _ _ _ Hd).
Qed.

End LookupProofs.

(** C4 as the specification words it, with [K = 4]: the function has no
    parameter [K] and steps through the table 256 entries per chunk. On
    the 12-entry table of the scenario it reads [pq_dists[258]], outside
    the table; on a table that is large enough it adds up other entries
    than [chunk_dists[c * 4 + code]]. *)
Lemma pq_dist_lookup_stride_4 :
  lookup_sum 4 3 (scenario_dists 4) scenario_codes 0 = Some (B32.of_Z 36) /\
  pq_dist_lookup scenario_codes 2 3 (scenario_dists 4) [fzero; fzero] = None /\
  lookup_sum 4 3 index_dists scenario_codes 0 = Some (B32.of_Z 18) /\
  pq_dist_lookup scenario_codes 2 3 index_dists [fzero; fzero]
    = Some [B32.of_Z 774; B32.of_Z 768].
Proof. vm_compute. done. Qed.

(** C4 (amended). With byte codes, a table of 256 entries per chunk and
    room for [n] results, [pq_dist_lookup] is defined and writes
    [out[i] = Σ_{c < M} chunk_dists[c * 256 + gathered_codes[i * M + c]]]
    for every [i < n], leaving the rest of the buffer as it was; with the
    scenario's table laid out 256 entries per chunk the outputs are
    [[36; 30]]. *)
Theorem pq_dist_lookup_sums {F Dbl : Type} {O : FloatOps F Dbl}
    (pq_ids : list nat) (n M : nat) (pq_dists out : list F) :
  lookup_ready pq_ids n M pq_dists out ->
  (exists out',
     pq_dist_lookup pq_ids n M pq_dists out = Some out' /\
     length out' = length out /\
     (forall i, i < n ->
        is_Some (out' !! i) /\
        out' !! i = lookup_sum 256 M pq_dists pq_ids i) /\
     (forall i, n <= i -> out' !! i = out !! i)) /\
  (forall x y : spec_float,
     pq_dist_lookup scenario_codes 2 3 (scenario_dists 256) [x; y]
       = Some [B32.of_Z 36; B32.of_Z 30]).
Proof.
  intros Hready. split.
  - destruct (pq_dist_lookup_cells pq_ids n M pq_dists out Hready)
      as (out' & Hrun & Hlen & Hin & Hout).
    exists out'. split; [done|]. split; [done|]. split; [|done].
    intros i Hi. rewrite (Hin i Hi). split; [by eexists|].
    symmetry. by eapply lookup_sum_256.
  - intros x y. vm_compute. done.
Qed.

Lemma pq_dist_lookup_sums_witness :
  lookup_ready scenario_codes 2 3 (scenario_dists 256)
    [B32.of_Z 7; B32.of_Z 9] /\
  pq_dist_lookup scenario_codes 2 3 (scenario_dists 256)
    [B32.of_Z 7; B32.of_Z 9] = Some [B32.of_Z 36; B32.of_Z 30].
Proof.
  assert (Hready : lookup_ready scenario_codes 2 3 (scenario_dists 256)
                     [B32.of_Z 7; B32.of_Z 9]).
  { split; [reflexivity|]. split; [|split; [reflexivity|simpl; lia]].
    unfold scenario_codes. repeat constructor; lia. }
  split; [exact Hready|].
  apply (pq_dist_lookup_sums scenario_codes 2 3 (scenario_dists 256)
           [B32.of_Z 7; B32.of_Z 9] Hready).
Defined.

(** ** The output buffers *)
Section OutputBuffer.
Context {F Dbl : Type} {O : FloatOps F Dbl}.

Lemma memset_zero_all (n : nat) (buf : list F) :
  length buf = n -> memset_zero n buf = Some (replicate n fzero).
Proof.
  intros Hlen. unfold memset_zero. case_decide; [|lia].
  rewrite drop_ge by lia. by rewrite app_nil_r.
Qed.

End OutputBuffer.

(** C10. The three functions clear the whole output array before they
    add to it: two calls that differ only in what the output array held
    before give the same result (the same array, or both undefined). *)
Theorem output_independent_of_prior_contents {F Dbl : Type}
    {O : FloatOps F Dbl} (t : FixedChunkPQTable (F := F))
    (query_vec dist1 dist2 : list F)
    (pq_ids : list nat) (n_pts pq_nchunks : nat)
    (pq_dists out1 out2 : list F) :
  length dist1 = 256 * Z.to_nat (n_chunks t) ->
  length dist2 = 256 * Z.to_nat (n_chunks t) ->
  length out1 = n_pts -> length out2 = n_pts ->
  populate_chunk_distances t query_vec dist1
    = populate_chunk_distances t query_vec dist2 /\
  populate_chunk_inner_products t query_vec dist1
    = populate_chunk_inner_products t query_vec dist2 /\
  pq_dist_lookup pq_ids n_pts pq_nchunks pq_dists out1
    = pq_dist_lookup pq_ids n_pts pq_nchunks pq_dists out2.
Proof.
  intros Hd1 Hd2 Ho1 Ho2.
  unfold populate_chunk_distances, populate_chunk_inner_products,
    pq_dist_lookup.
  rewrite (memset_zero_all _ dist1 Hd1), (memset_zero_all _ dist2 Hd2).
  rewrite (memset_zero_all _ out1 Ho1), (memset_zero_all _ out2 Ho2).
  done.
Qed.

Lemma output_independent_of_prior_contents_witness :
  populate_chunk_distances small_table small_query
      (replicate 512 (B32.of_Z 7))
    = populate_chunk_distances small_table small_query
        (replicate 512 (B32.of_Z 9)) /\
  populate_chunk_inner_products small_table small_query
      (replicate 512 (B32.of_Z 7))
    = populate_chunk_inner_products small_table small_query
        (replicate 512 (B32.of_Z 9)) /\
  pq_dist_lookup scenario_codes 2 3 (scenario_dists 256)
      [B32.of_Z 7; B32.of_Z 9]
    = pq_dist_lookup scenario_codes 2 3 (scenario_dists 256)
        [B32.of_Z 1; B32.of_Z 2].
Proof.
  apply (output_independent_of_prior_contents small_table small_query
           (replicate 512 (B32.of_Z 7)) (replicate 512 (B32.of_Z 9))
           scenario_codes 2 3 (scenario_dists 256)
           [B32.of_Z 7; B32.of_Z 9] [B32.of_Z 1; B32.of_Z 2]);
    reflexivity.
Defined.

(** ** The distance tables *)
Section TableProofs.
Context {F Dbl : Type} {O : FloatOps F Dbl}.
Implicit Types (t : FixedChunkPQTable (F := F)) (q d : list F).

Lemma obind_assoc2 {A B C D' : Type} (a : option A) (b : option B)
    (e : A -> B -> C) (k : C -> option D') :
  a ≫= (fun x => b ≫= (fun y => k (e x y)))
  = (a ≫= fun x => b ≫= fun y => Some (e x y)) ≫= k.
Proof. by destruct a, b. Qed.

Lemma chunk_axes_ready t q (chunk : nat) :
  table_ready t q -> chunk < Z.to_nat (n_chunks t) ->
  chunk_axes t chunk = Some (axes_of t chunk) /\
  Forall (fun j => j < Z.to_nat (ndims t)) (axes_of t chunk).
Proof.
  intros (Hlen & Hhi & _ & _) Hc. unfold axes_of, chunk_axes.
  destruct (lookup_lt_is_Some_2 (chunk_offsets t) chunk) as [lo Hlo]; [lia|].
  destruct (lookup_lt_is_Some_2 (chunk_offsets t) (chunk + 1)) as [hi Hhi'];
    [lia|].
  rewrite Hlo, Hhi'. step_bind. simpl. split; [done|].
  apply Forall_forall. intros j Hj%list_elem_of_In%in_seq.
  specialize (Hhi chunk hi Hc Hhi'). lia.
Qed.

(** The reads of one table entry are defined. *)
Lemma table_reads t q (e : F -> F -> F) (j idx : nat) :
  table_ready t q -> j < Z.to_nat (ndims t) -> idx < 256 ->
  (tables_tr t !! (256 * j + idx) ≫= fun c =>
     q !! j ≫= fun x => Some (e c x))
  = Some (e (tables_tr t !!! (256 * j + idx)) (q !!! j)).
Proof.
  intros (_ & _ & Htr & Hq) Hj Hidx.
  destruct (lookup_lt_is_Some_2 (tables_tr t) (256 * j + idx)) as [c Hc];
    [lia|].
  destruct (lookup_lt_is_Some_2 q j) as [x Hx]; [lia|].
  rewrite Hc. step_bind. rewrite Hx. step_bind.
  rewrite (list_lookup_total_correct _ _ _ Hc).
  by rewrite (list_lookup_total_correct _ _ _ Hx).
Qed.

(** The loops over the axes of one chunk and over [idx]: row [chunk] of
    the table gains, entry by entry, the terms of the axes in their
    order. *)
Lemma chunk_rows t q (op : F -> F -> F) (e : F -> F -> F)
    (chunk : nat) (axes : list nat) d0 :
  table_ready t q ->
  Forall (fun j => j < Z.to_nat (ndims t)) axes ->
  256 * chunk + 256 <= length d0 ->
  exists d',
    for_each
      (fun dist_vec j =>
         for_each
           (fun dist_vec idx =>
              c ← tables_tr t !! (256 * j + idx);
              x ← q !! j;
              old ← dist_vec !! (256 * chunk + idx);
              Some (<[256 * chunk + idx := op old (e c x)]> dist_vec))
           (seq 0 256) dist_vec)
      axes d0 = Some d' /\
    length d' = length d0 /\
    forall k, d' !! k =
      if decide (256 * chunk <= k < 256 * chunk + 256)
      then (fun old =>
              fold_left
                (fun acc j =>
                   op acc (e (tables_tr t !!! (256 * j + (k - 256 * chunk)))
                             (q !!! j)))
                axes old) <$> d0 !! k
      else d0 !! k.
Proof.
  intros Hready. revert d0.
  induction axes as [|j axes IH]; intros d0 Haxes Hlen.
  - exists d0. split; [done|]. split; [done|]. intros k.
    case_decide; [|done]. by destruct (d0 !! k).
  - apply Forall_cons in Haxes as [Hj Haxes]. cbn [for_each].
    destruct (for_each_row op
                (fun idx => c ← tables_tr t !! (256 * j + idx);
                            x ← q !! j; Some (e c x))
                (fun idx => e (tables_tr t !!! (256 * j + idx)) (q !!! j))
                (256 * chunk) 256 d0) as (d1 & Hrow & Hlen1 & Hlk1).
    { intros idx Hidx. by apply table_reads. }
    { lia. }
    erewrite for_each_ext; [rewrite Hrow|].
    2:{ intros d idx _.
        exact (obind_assoc2 (tables_tr t !! (256 * j + idx)) (q !! j) e _). }
    destruct (IH d1 Haxes) as (d2 & Hrun & Hlen2 & Hlk2); [lia|].
    exists d2. split; [done|]. split; [lia|].
    intros k. rewrite Hlk2, Hlk1.
    case_decide; [|done]. by destruct (d0 !! k).
Qed.

(** The loop over the chunks: every entry of the first [m] rows gains the
    terms of the axes of its chunk. *)
Lemma all_rows t q (op : F -> F -> F) (e : F -> F -> F) (m : nat) d0 :
  table_ready t q ->
  m <= Z.to_nat (n_chunks t) ->
  256 * m <= length d0 ->
  exists d',
    for_each
      (fun dist_vec chunk =>
         axes ← chunk_axes t chunk;
         for_each
           (fun dist_vec j =>
              for_each
                (fun dist_vec idx =>
                   c ← tables_tr t !! (256 * j + idx);
                   x ← q !! j;
                   old ← dist_vec !! (256 * chunk + idx);
                   Some (<[256 * chunk + idx := op old (e c x)]> dist_vec))
                (seq 0 256) dist_vec)
           axes dist_vec)
      (seq 0 m) d0 = Some d' /\
    length d' = length d0 /\
    forall k, d' !! k =
      if decide (k < 256 * m)
      then (fun old =>
              fold_left
                (fun acc j =>
                   op acc (e (tables_tr t !!! (256 * j + k mod 256)) (q !!! j)))
                (axes_of t (k / 256)) old) <$> d0 !! k
      else d0 !! k.
Proof.
  intros Hready. induction m as [|m IH]; intros Hm Hlen.
  - exists d0. split; [done|]. split; [done|]. intros k.
    case_decide; [lia|done].
  - destruct IH as (d1 & Hrun & Hlen1 & Hlk1); [lia|lia|].
    rewrite (seq_S m 0), for_each_app, Hrun. cbn [for_each].
    change (0 + m) with m.
    destruct (chunk_axes_ready t q m Hready) as [Haxes Hbound]; [lia|].
    rewrite Haxes. step_bind.
    destruct (chunk_rows t q op e m (axes_of t m) d1 Hready Hbound)
      as (d2 & Hrow & Hlen2 & Hlk2); [lia|].
    rewrite Hrow. exists d2. split; [done|]. split; [lia|].
    intros k. rewrite Hlk2, Hlk1.
    destruct (decide (256 * m <= k < 256 * m + 256)) as [Hk|Hk].
    + destruct (row_index m k Hk) as [-> ->].
      repeat case_decide; try lia. done.
    + repeat case_decide; try lia; done.
Qed.

(** [memset] and the loops: the first [256 * n_chunks] entries of the
    result are sums over the axes that start from zero. *)
Lemma cleared_rows t q (op : F -> F -> F) (e : F -> F -> F) d0 :
  table_ready t q ->
  256 * Z.to_nat (n_chunks t) <= length d0 ->
  exists d',
    (dist_vec ← memset_zero (256 * Z.to_nat (n_chunks t)) d0;
     for_each
       (fun dist_vec chunk =>
          axes ← chunk_axes t chunk;
          for_each
            (fun dist_vec j =>
               for_each
                 (fun dist_vec idx =>
                    c ← tables_tr t !! (256 * j + idx);
                    x ← q !! j;
                    old ← dist_vec !! (256 * chunk + idx);
                    Some (<[256 * chunk + idx := op old (e c x)]> dist_vec))
                 (seq 0 256) dist_vec)
            axes dist_vec)
       (seq 0 (Z.to_nat (n_chunks t))) dist_vec) = Some d' /\
    length d' = length d0 /\
    forall chunk idx, chunk < Z.to_nat (n_chunks t) -> idx < 256 ->
      d' !! (256 * chunk + idx) =
        Some (fold_left
                (fun acc j =>
                   op acc (e (tables_tr t !!! (256 * j + idx)) (q !!! j)))
                (axes_of t chunk) fzero).
Proof.
  intros Hready Hlen.
  destruct (memset_zero (256 * Z.to_nat (n_chunks t)) d0) as [d1|] eqn:Hms.
  2:{ unfold memset_zero in Hms. case_decide; [done|lia]. }
  step_bind.
  pose proof (memset_zero_length _ _ _ Hms) as Hlen1.
  destruct (all_rows t q op e (Z.to_nat (n_chunks t)) d1 Hready)
    as (d2 & Hrun & Hlen2 & Hlk2); [lia|lia|].
  exists d2. split; [done|]. split; [lia|].
  intros chunk idx Hc Hidx. rewrite Hlk2. case_decide; [|lia].
  rewrite (memset_zero_lookup _ _ _ _ Hms) by lia.
  destruct (row_index chunk (256 * chunk + idx)) as [-> ->]; [lia|].
  cbn [fmap option_fmap option_map].
  by replace (256 * chunk + idx - 256 * chunk) with idx by lia.
Qed.

Lemma populate_chunk_distances_cells t q d0 :
  table_ready t q ->
  256 * Z.to_nat (n_chunks t) <= length d0 ->
  exists d',
    populate_chunk_distances t q d0 = Some d' /\
    length d' = length d0 /\
    forall chunk idx, chunk < Z.to_nat (n_chunks t) -> idx < 256 ->
      d' !! (256 * chunk + idx) =
        Some (fold_left (fun acc j => fadd acc (table_sq t q j idx))
                (axes_of t chunk) fzero).
Proof.
  intros Hready Hlen.
  exact (cleared_rows t q fadd
           (fun c x => let diff := to_double (fsub c x) in
                       to_float (dmul diff diff)) d0 Hready Hlen).
Qed.

Lemma populate_chunk_inner_products_cells t q d0 :
  table_ready t q ->
  256 * Z.to_nat (n_chunks t) <= length d0 ->
  exists d',
    populate_chunk_inner_products t q d0 = Some d' /\
    length d' = length d0 /\
    forall chunk idx, chunk < Z.to_nat (n_chunks t) -> idx < 256 ->
      d' !! (256 * chunk + idx) =
        Some (fold_left (fun acc j => fsub acc (table_prod t q j idx))
                (axes_of t chunk) fzero).
Proof.
  intros Hready Hlen.
  exact (cleared_rows t q fsub
           (fun c x => to_float (to_double (fmul c x))) d0 Hready Hlen).
Qed.

(** The running sum of [l2_distance] and of [inner_product]. *)
Lemma direct_sum t q (e : F -> F -> F) (base_vec : list nat) :
  table_ready t q ->
  Z.to_nat (n_chunks t) <= length base_vec ->
  Forall (fun c => c < 256) base_vec ->
  for_each
    (fun res chunk =>
       axes ← chunk_axes t chunk;
       for_each
         (fun res j =>
            code ← base_vec !! chunk;
            c ← tables_tr t !! (256 * j + code);
            x ← q !! j;
            Some (fadd res (e c x)))
         axes res)
    (seq 0 (Z.to_nat (n_chunks t))) fzero
  = Some (fold_left
            (fun res chunk =>
               fold_left
                 (fun res j =>
                    fadd res (e (tables_tr t !!! (256 * j + base_vec !!! chunk))
                                (q !!! j)))
                 (axes_of t chunk) res)
            (seq 0 (Z.to_nat (n_chunks t))) fzero).
Proof.
  intros Hready Hlen Hcodes. apply for_each_total.
  intros res chunk Hchunk%list_elem_of_In%in_seq.
  destruct (chunk_axes_ready t q chunk Hready) as [Haxes Hbound]; [lia|].
  rewrite Haxes. step_bind. apply for_each_total.
  intros res' j Hj.
  destruct (lookup_lt_is_Some_2 base_vec chunk) as [code Hcode]; [lia|].
  rewrite Hcode. step_bind. rewrite (list_lookup_total_correct _ _ _ Hcode).
  assert (code < 256) as Hlt.
  { eapply (Forall_lookup_1 (fun c => c < 256) base_vec); eauto. }
  assert (j < Z.to_nat (ndims t)) as Hjlt.
  { eapply (proj1 (Forall_forall _ _) Hbound); eauto. }
  pose proof (table_reads t q (fun c x => fadd res' (e c x)) j code
                Hready Hjlt Hlt) as Hreads.
  exact Hreads.
Qed.

End TableProofs.

(** ** Sums without rounding *)
Section ExactSums.
Context {F Dbl : Type} {O : FloatOps F Dbl} (E : ExactArith O).

Lemma fold_left_ext_in {A B : Type} (f g : A -> B -> A) (l : list B) (a : A) :
  (forall a b, b ∈ l -> f a b = g a b) -> fold_left f l a = fold_left g l a.
Proof.
  revert a. induction l as [|b l IH]; intros a Hfg; simpl; [done|].
  rewrite Hfg by left. apply IH. intros a' b' Hb'. apply Hfg. by right.
Qed.

Lemma sum_from {B : Type} (g : B -> F) (l : list B) (a : F) :
  fold_left (fun acc b => fadd acc (g b)) l a
  = fadd a (fold_left (fun acc b => fadd acc (g b)) l fzero).
Proof.
  revert a. induction l as [|b l IH]; intros a; simpl.
  - by rewrite fadd_0_r.
  - rewrite (IH (fadd a (g b))), (IH (fadd fzero (g b))).
    by rewrite fadd_0_l, fadd_assoc.
Qed.

Lemma sum_nested {B C : Type} (g : B -> C -> F) (inner : B -> list C)
    (l : list B) (a : F) :
  fold_left
    (fun res b => fold_left (fun res c => fadd res (g b c)) (inner b) res) l a
  = fold_left
      (fun res b =>
         fadd res (fold_left (fun res c => fadd res (g b c)) (inner b) fzero))
      l a.
Proof.
  apply fold_left_ext_in. intros res b _. apply sum_from.
Qed.

Lemma sum_negated {B : Type} (g : B -> F) (l : list B) (a : F) :
  fold_left (fun acc b => fsub acc (g b)) l (fneg a)
  = fneg (fold_left (fun acc b => fadd acc (g b)) l a).
Proof.
  revert a. induction l as [|b l IH]; intros a; simpl; [done|].
  rewrite fsub_fadd, <- fneg_fadd. apply IH.
Qed.

End ExactSums.

Section TableSums.
Context {F Dbl : Type} {O : FloatOps F Dbl}.
Implicit Types (t : FixedChunkPQTable (F := F)) (q d : list F).

(** Adding up the entries of a table along a code. *)
Lemma lookup_sum_cells t (cell : nat -> nat -> F) (dv : list F)
    (code : list nat) :
  length code = Z.to_nat (n_chunks t) ->
  Forall (fun c => c < 256) code ->
  (forall chunk idx, chunk < Z.to_nat (n_chunks t) -> idx < 256 ->
     dv !! (256 * chunk + idx) = Some (cell chunk idx)) ->
  lookup_sum 256 (Z.to_nat (n_chunks t)) dv code 0
  = Some (fold_left (fun acc c => fadd acc (cell c (code !!! c)))
            (seq 0 (Z.to_nat (n_chunks t))) fzero).
Proof.
  intros Hlen Hcodes Hcells. unfold lookup_sum. apply for_each_total.
  intros acc c Hc%list_elem_of_In%in_seq.
  change (0 * Z.to_nat (n_chunks t) + c) with c.
  destruct (lookup_lt_is_Some_2 code c) as [cc Hcc]; [lia|].
  assert (cc < 256) as Hlt.
  { eapply (Forall_lookup_1 (fun c => c < 256) code); eauto. }
  rewrite Hcc. step_bind. rewrite (list_lookup_total_correct _ _ _ Hcc).
  replace (c * 256 + cc) with (256 * c + cc) by lia.
  rewrite Hcells by lia. done.
Qed.

(** The table of distances, added up along a code, whatever the
    arithmetic rounds. *)
Lemma table_sum_sq t q (code : list nat) d0 :
  table_ready t q ->
  length code = Z.to_nat (n_chunks t) ->
  Forall (fun c => c < 256) code ->
  256 * Z.to_nat (n_chunks t) <= length d0 ->
  exists dist_vec,
    populate_chunk_distances t q d0 = Some dist_vec /\
    lookup_sum 256 (Z.to_nat (n_chunks t)) dist_vec code 0
      = Some (chunkwise t fadd (table_sq t q) code).
Proof.
  intros Hready Hlen Hcodes Hd0.
  destruct (populate_chunk_distances_cells t q d0 Hready Hd0)
    as (dv & Hrun & _ & Hcells).
  exists dv. split; [done|].
  by rewrite (lookup_sum_cells t _ dv code Hlen Hcodes Hcells).
Qed.

Lemma table_sum_prod t q (code : list nat) d0 :
  table_ready t q ->
  length code = Z.to_nat (n_chunks t) ->
  Forall (fun c => c < 256) code ->
  256 * Z.to_nat (n_chunks t) <= length d0 ->
  exists dist_vec,
    populate_chunk_inner_products t q d0 = Some dist_vec /\
    lookup_sum 256 (Z.to_nat (n_chunks t)) dist_vec code 0
      = Some (chunkwise t fsub (table_prod t q) code).
Proof.
  intros Hready Hlen Hcodes Hd0.
  destruct (populate_chunk_inner_products_cells t q d0 Hready Hd0)
    as (dv & Hrun & _ & Hcells).
  exists dv. split; [done|].
  by rewrite (lookup_sum_cells t _ dv code Hlen Hcodes Hcells).
Qed.

(** The direct functions, whatever the arithmetic rounds. *)
Lemma l2_distance_running t q (code : list nat) :
  table_ready t q ->
  length code = Z.to_nat (n_chunks t) ->
  Forall (fun c => c < 256) code ->
  l2_distance t q code = Some (running t (direct_sq t q) code).
Proof.
  intros Hready Hlen Hcodes. unfold l2_distance.
  apply (direct_sum t q (fun c x => let diff := fsub c x in fmul diff diff)
           code Hready); [lia|done].
Qed.

Lemma inner_product_running t q (code : list nat) :
  table_ready t q ->
  length code = Z.to_nat (n_chunks t) ->
  Forall (fun c => c < 256) code ->
  inner_product t q code = Some (fneg (running t (direct_prod t q) code)).
Proof.
  intros Hready Hlen Hcodes. unfold inner_product.
  rewrite (direct_sum t q (fun c x => fmul c x) code Hready); [|lia|done].
  step_bind. done.
Qed.

(** With one axis in every chunk the two orders are one, where a square
    added to zero is the square. *)
Lemma chunkwise_running_one_axis t q (code : list nat) :
  SquareFromZero O ->
  one_axis_per_chunk t ->
  chunkwise t fadd (table_sq t q) code = running t (direct_sq t q) code.
Proof.
  intros Hlaw Hone. unfold chunkwise, running.
  apply fold_left_ext_in. intros acc c Hc%list_elem_of_In%in_seq.
  specialize (Hone c ltac:(lia)).
  destruct (axes_of t c) as [|j [|j' axes]]; [done| |done].
  cbn [fold_left]. f_equal. unfold table_sq, direct_sq. cbv zeta.
  apply square_from_zero.
Qed.

(** With one axis in every chunk the inner product through the table
    and the direct one are alike, where rounding does not look at the
    sign. *)
Lemma chunkwise_running_prod_one_axis t q (code : list nat) :
  RoundsSymmetrically O ->
  one_axis_per_chunk t ->
  alike (chunkwise t fsub (table_prod t q) code)
    (fneg (running t (direct_prod t q) code)).
Proof.
  intros Hlaw Hone. unfold chunkwise, running.
  assert (Hgen : forall (l : list nat) (T D : F),
            (forall c, c ∈ l -> length (axes_of t c) = 1) ->
            alike T (fneg D) ->
            alike
              (fold_left
                 (fun acc chunk =>
                    fadd acc
                      (fold_left
                         (fun acc' j =>
                            fsub acc' (table_prod t q j (code !!! chunk)))
                         (axes_of t chunk) fzero))
                 l T)
              (fneg
                 (fold_left
                    (fun res chunk =>
                       fold_left
                         (fun res' j =>
                            fadd res' (direct_prod t q j (code !!! chunk)))
                         (axes_of t chunk) res)
                    l D))).
  { induction l as [|c l IH]; intros T D Hchunks Halike; [done|].
    cbn [fold_left]. apply IH.
    - intros c' Hc'. apply Hchunks. by right.
    - specialize (Hchunks c ltac:(left)).
      destruct (axes_of t c) as [|j [|j' axes]]; [done| |done].
      cbn [fold_left]. unfold table_prod, direct_prod.
      rewrite product_through_double.
      apply opposite_sums; [done|]. apply from_zero_opposite. }
  apply Hgen; [|apply zero_alike_its_opposite].
  intros c Hc%list_elem_of_In%in_seq. apply Hone. lia.
Qed.

(** Where nothing is rounded the two orders are one. *)
Section Exact.
Context (E : ExactArith O).

Lemma table_sq_exact t q (j c : nat) : table_sq t q j c = direct_sq t q j c.
Proof. unfold table_sq, direct_sq. cbv zeta. apply double_square. Qed.

Lemma table_prod_exact t q (j c : nat) :
  table_prod t q j c = direct_prod t q j c.
Proof. unfold table_prod, direct_prod. apply double_round_trip. Qed.

Lemma chunkwise_running_sq t q (code : list nat) :
  chunkwise t fadd (table_sq t q) code = running t (direct_sq t q) code.
Proof.
  unfold chunkwise, running.
  rewrite (sum_nested E (fun chunk j => direct_sq t q j (code !!! chunk))
             (axes_of t)).
  apply fold_left_ext_in. intros acc c _. f_equal.
  apply fold_left_ext_in. intros acc' j _. f_equal.
  apply table_sq_exact.
Qed.

Lemma chunkwise_running_prod t q (code : list nat) :
  chunkwise t fsub (table_prod t q) code
  = fneg (running t (direct_prod t q) code).
Proof.
  unfold chunkwise, running.
  rewrite (sum_nested E (fun chunk j => direct_prod t q j (code !!! chunk))
             (axes_of t)).
  rewrite <- (sum_negated E), fneg_0.
  apply fold_left_ext_in. intros acc c _.
  rewrite <- (fneg_0 (F := F)) at 1. rewrite (sum_negated E).
  rewrite fsub_fadd. f_equal. f_equal.
  apply fold_left_ext_in. intros acc' j _. f_equal.
  exact (table_prod_exact t q j (code !!! c)).
Qed.

Lemma exact_square_from_zero : SquareFromZero O.
Proof. intros d. by rewrite double_square, fadd_0_l. Qed.

End Exact.

End TableSums.

Lemma exactZ_arith : ExactArith ExactZ.ops.
Proof. constructor; simpl; intros; lia. Qed.

Lemma small_table_ready {F Dbl : Type} {O : FloatOps F Dbl} :
  table_ready (small_table (F := F)) small_query.
Proof.
  split; [simpl; lia|]. split; [|split; reflexivity].
  intros chunk hi Hc. simpl in Hc.
  destruct chunk as [|[|chunk]]; [| |lia]; intros [= <-]; done.
Qed.

Lemma fine_table_ready {F Dbl : Type} {O : FloatOps F Dbl} :
  table_ready (fine_table (F := F)) small_query.
Proof.
  split; [simpl; lia|]. split; [|split; reflexivity].
  intros chunk hi Hc. simpl in Hc.
  destruct chunk as [|[|[|[|chunk]]]]; try lia; intros [= <-]; done.
Qed.

Lemma fine_table_one_axis {F Dbl : Type} {O : FloatOps F Dbl} :
  one_axis_per_chunk (fine_table (F := F)).
Proof.
  intros chunk Hc. simpl in Hc.
  by destruct chunk as [|[|[|[|chunk]]]]; try lia.
Qed.

(** ** The transposed centroids *)
Section TransposeProofs.
Context {F : Type}.

Lemma cell_index (i j : nat) :
  i < 256 -> (j * 256 + i) / 256 = j /\ (j * 256 + i) mod 256 = i.
Proof.
  intros Hi. destruct (row_index j (j * 256 + i)) as [-> ->]; [lia|].
  split; lia.
Qed.

Lemma cell_of_index (k : nat) : k = k / 256 * 256 + k mod 256.
Proof. pose proof (Nat.div_mod_eq k 256). lia. Qed.

(** The loop over [j] for centre [i]. *)
Lemma transpose_row (tables : list F) (ndims i m : nat) (tr : list F) :
  i < 256 -> m <= ndims ->
  length tables = 256 * ndims -> length tr = 256 * ndims ->
  exists tr',
    for_each
      (fun tables_tr j =>
         v ← tables !! (i * ndims + j);
         if decide (j * 256 + i < length tables_tr)
         then Some (<[j * 256 + i := v]> tables_tr)
         else None)
      (seq 0 m) tr = Some tr' /\
    length tr' = length tr /\
    forall k, tr' !! k =
      if decide (k mod 256 = i /\ k / 256 < m)
      then tables !! (i * ndims + k / 256)
      else tr !! k.
Proof.
  intros Hi Hm Htab Htr. induction m as [|m IH].
  - exists tr. split; [done|]. split; [done|]. intros k.
    case_decide; [lia|done].
  - destruct IH as (tr1 & Hrun & Hlen1 & Hlk1); [lia|].
    rewrite (seq_S m 0), for_each_app, Hrun. cbn [for_each].
    change (0 + m) with m.
    destruct (lookup_lt_is_Some_2 tables (i * ndims + m)) as [v Hv]; [nia|].
    rewrite Hv. step_bind. case_decide; [|lia].
    eexists. split; [done|]. split; [by rewrite length_insert|].
    intros k. destruct (cell_index i m Hi) as [Hdiv Hmod].
    destruct (decide (k = m * 256 + i)) as [->|Hk].
    + rewrite list_lookup_insert_eq by lia. rewrite Hdiv, Hmod.
      case_decide; [done|lia].
    + rewrite list_lookup_insert_ne by lia. rewrite Hlk1.
      pose proof (cell_of_index k).
      repeat case_decide; (done || lia).
Qed.

Lemma transpose_tables_cells (tables : list F) (ndims : nat) (tr : list F) :
  length tables = 256 * ndims -> length tr = 256 * ndims ->
  exists tr',
    transpose_tables tables ndims tr = Some tr' /\
    length tr' = 256 * ndims /\
    forall c j, c < 256 -> j < ndims ->
      tr' !! (j * 256 + c) = tables !! (c * ndims + j) /\
      is_Some (tables !! (c * ndims + j)).
Proof.
  intros Htab Htr. unfold transpose_tables.
  assert (Hgen : forall n, n <= 256 ->
    exists tr',
      for_each
        (fun tables_tr i =>
           for_each
             (fun tables_tr j =>
                v ← tables !! (i * ndims + j);
                if decide (j * 256 + i < length tables_tr)
                then Some (<[j * 256 + i := v]> tables_tr)
                else None)
             (seq 0 ndims) tables_tr)
        (seq 0 n) tr = Some tr' /\
      length tr' = length tr /\
      forall k, tr' !! k =
        if decide (k mod 256 < n /\ k / 256 < ndims)
        then tables !! (k mod 256 * ndims + k / 256)
        else tr !! k).
  { induction n as [|n IH]; intros Hn.
    - exists tr. split; [done|]. split; [done|]. intros k.
      case_decide; [lia|done].
    - destruct IH as (tr1 & Hrun & Hlen1 & Hlk1); [lia|].
      rewrite (seq_S n 0), for_each_app, Hrun. cbn [for_each].
      change (0 + n) with n.
      destruct (transpose_row tables ndims n ndims tr1)
        as (tr2 & Hrow & Hlen2 & Hlk2); [lia|lia|done|lia|].
      rewrite Hrow. exists tr2. split; [done|]. split; [lia|].
      intros k. rewrite Hlk2, Hlk1.
      repeat case_decide; try (done || lia).
      destruct H as [-> _]. done. }
  destruct (Hgen 256) as (tr' & Hrun & Hlen & Hlk); [lia|].
  exists tr'. split; [done|]. split; [lia|].
  intros c j Hc Hj. rewrite Hlk.
  destruct (cell_index c j Hc) as [Hdiv Hmod]. rewrite Hdiv, Hmod.
  case_decide; [|lia]. split; [done|].
  apply lookup_lt_is_Some_2. nia.
Qed.

End TransposeProofs.

(** ** Bytes and files *)
Section FileProofs.
Local Open Scope Z_scope.

Lemma Z_of_byte_range (b : byte) : 0 <= Z_of_byte b < 256.
Proof.
  unfold Z_of_byte. pose proof (Byte.to_N_bounded b). lia.
Qed.

Lemma Z_of_byte_of_Z (z : Z) : Z_of_byte (byte_of_Z z) = z mod 256.
Proof.
  unfold Z_of_byte, byte_of_Z.
  pose proof (Z.mod_pos_bound z 256 ltac:(lia)) as Hz.
  destruct (Byte.of_N (Z.to_N (z mod 256))) as [b|] eqn:Hb.
  - simpl. rewrite (Byte.to_of_N _ Hb). lia.
  - apply Byte.of_N_None_iff in Hb. lia.
Qed.

Lemma le_bytes_length (n : nat) (z : Z) : length (le_bytes n z) = n.
Proof. revert z. induction n as [|n IH]; intros z; simpl; [done|]. by rewrite IH. Qed.

Lemma le_value_le_bytes (n : nat) (z : Z) :
  le_value (le_bytes n z) = z mod 256 ^ Z.of_nat n.
Proof.
  revert z. induction n as [|n IH]; intros z.
  - simpl. by rewrite Z.mod_1_r.
  - cbn [le_bytes le_value]. rewrite IH, Z_of_byte_of_Z.
    rewrite Nat2Z.inj_succ, Z.pow_succ_r by lia.
    rewrite Z.rem_mul_r by lia. done.
Qed.

Lemma le_value_range (bs : list byte) :
  0 <= le_value bs < 256 ^ Z.of_nat (length bs).
Proof.
  induction bs as [|b bs IH]; [simpl; lia|].
  cbn [le_value length]. rewrite Nat2Z.inj_succ, Z.pow_succ_r by lia.
  pose proof (Z_of_byte_range b). lia.
Qed.

Lemma u32_round_trip (z : Z) : 0 <= z < 2 ^ 32 -> le_value (le_bytes 4 z) = z.
Proof. intros Hz. rewrite le_value_le_bytes. apply Z.mod_small. simpl. lia. Qed.

Lemma u64_round_trip (z : Z) : 0 <= z < 2 ^ 64 -> le_value (le_bytes 8 z) = z.
Proof. intros Hz. rewrite le_value_le_bytes. apply Z.mod_small. simpl. lia. Qed.

End FileProofs.

(** ** Binary32: what the rounding of the Standard Library's
    specification returns *)
Section Binary32.
Local Open Scope Z_scope.

Lemma digits2_pos_upper (p : positive) : Zpos p < 2 ^ Zpos (digits2_pos p).
Proof.
  induction p as [p IH|p IH|]; cbn [digits2_pos]; [| |done].
  - rewrite Pos2Z.inj_succ, Z.pow_succ_r by lia. lia.
  - rewrite Pos2Z.inj_succ, Z.pow_succ_r by lia. lia.
Qed.

Lemma digits2_pos_lower (p : positive) :
  2 ^ (Zpos (digits2_pos p) - 1) <= Zpos p.
Proof.
  induction p as [p IH|p IH|]; cbn [digits2_pos]; [| |done].
  - rewrite Pos2Z.inj_succ.
    replace (Z.succ (Zpos (digits2_pos p)) - 1)
      with (Z.succ (Zpos (digits2_pos p) - 1)) by lia.
    rewrite Z.pow_succ_r by lia. lia.
  - rewrite Pos2Z.inj_succ.
    replace (Z.succ (Zpos (digits2_pos p)) - 1)
      with (Z.succ (Zpos (digits2_pos p) - 1)) by lia.
    rewrite Z.pow_succ_r by lia. lia.
Qed.

Lemma Zdigits2_upper (m : Z) : 0 <= m -> m < 2 ^ Zdigits2 m /\ 0 <= Zdigits2 m.
Proof.
  destruct m as [|p|p]; cbn; [lia| |lia].
  intros _. split; [apply digits2_pos_upper|lia].
Qed.

Lemma shr_1_m (mrs : shr_record) :
  0 <= shr_m mrs -> shr_m (shr_1 mrs) = shr_m mrs / 2.
Proof.
  destruct mrs as [m r s]. cbn [shr_m]. intros Hm.
  rewrite <- Z.div2_div.
  destruct m as [|[p|p|]|p]; cbn; done || lia.
Qed.

Lemma iter_shr_1_m (p : positive) (mrs : shr_record) :
  0 <= shr_m mrs ->
  shr_m (SpecFloat.iter_pos shr_1 p mrs) = shr_m mrs / 2 ^ Zpos p.
Proof.
  revert mrs. induction p as [p IH|p IH|]; intros mrs Hm; cbn [SpecFloat.iter_pos].
  - assert (H1 : 0 <= shr_m (shr_1 mrs))
      by (rewrite shr_1_m by done; apply Z.div_pos; lia).
    assert (H2 : 0 <= shr_m (SpecFloat.iter_pos shr_1 p (shr_1 mrs)))
      by (rewrite IH by done; apply Z.div_pos; lia).
    rewrite IH, IH, shr_1_m by done.
    rewrite !Z.div_div by lia. f_equal.
    rewrite (Pos2Z.inj_xI p).
    replace (2 * Z.pos p + 1) with (Z.pos p + Z.pos p + 1) by lia.
    rewrite !Z.pow_add_r by lia. change (2 ^ 1) with 2. lia.
  - assert (H2 : 0 <= shr_m (SpecFloat.iter_pos shr_1 p mrs))
      by (rewrite IH by done; apply Z.div_pos; lia).
    rewrite IH, IH by done.
    rewrite !Z.div_div by lia. f_equal.
    rewrite (Pos2Z.inj_xO p).
    replace (2 * Z.pos p) with (Z.pos p + Z.pos p) by lia.
    rewrite !Z.pow_add_r by lia. lia.
  - by rewrite shr_1_m.
Qed.

Lemma shr_record_of_loc_m (m : Z) (l : location) :
  shr_m (shr_record_of_loc m l) = m.
Proof. by destruct l as [|[]]. Qed.

(** After the shift the mantissa has at most 24 bits and the exponent is
    that of a subnormal number at least. *)
Lemma shr_fexp_bound (m e : Z) (l : location) :
  0 <= m ->
  0 <= shr_m (shr_fexp 24 128 m e l).1 < 2 ^ 24 /\
  -149 <= (shr_fexp 24 128 m e l).2.
Proof.
  intros Hm. destruct (Zdigits2_upper m Hm) as [Hd Hd0].
  unfold shr_fexp, shr, fexp, emin.
  set (d := Zdigits2 m) in *.
  destruct (Z.max (d + e - 24) (3 - 128 - 24) - e) as [|p|p] eqn:Ek;
    cbn [fst snd].
  - rewrite shr_record_of_loc_m. split; [|lia]. split; [done|].
    apply (Z.lt_le_trans _ (2 ^ d)); [done|].
    apply Z.pow_le_mono_r; lia.
  - rewrite iter_shr_1_m by (by rewrite shr_record_of_loc_m).
    rewrite shr_record_of_loc_m. split; [|lia]. split.
    + apply Z.div_pos; lia.
    + apply Z.div_lt_upper_bound; [lia|].
      rewrite <- Z.pow_add_r by lia.
      apply (Z.lt_le_trans _ (2 ^ d)); [done|].
      apply Z.pow_le_mono_r; lia.
  - rewrite shr_record_of_loc_m. split; [|lia]. split; [done|].
    apply (Z.lt_le_trans _ (2 ^ d)); [done|].
    apply Z.pow_le_mono_r; lia.
Qed.

Lemma round_nearest_even_bound (m : Z) (l : location) :
  0 <= m -> 0 <= round_nearest_even m l.
Proof.
  intros Hm. destruct l as [|[]]; cbn; try done; [|lia].
  destruct (Z.even m); lia.
Qed.

Lemma binary_round_aux_rounded (s : bool) (m e : Z) (l : location) :
  0 <= m -> rounded s (binary_round_aux 24 128 s m e l).
Proof.
  intros Hm. unfold binary_round_aux.
  pose proof (shr_fexp_bound m e l Hm) as [[H1 _] _].
  destruct (shr_fexp 24 128 m e l) as [mrs' e']. cbn [fst snd] in H1.
  pose proof (shr_fexp_bound
                (round_nearest_even (shr_m mrs') (loc_of_shr_record mrs'))
                e' loc_Exact (round_nearest_even_bound _ _ H1)) as [H2 H3].
  destruct (shr_fexp 24 128 _ e' loc_Exact) as [mrs'' e''].
  cbn [fst snd] in H2, H3.
  destruct (shr_m mrs'') as [|p|p]; cbn; [done| |done].
  destruct (Z.leb_spec e'' (128 - 24)); cbn; [|done].
  split; [done|]. split; lia.
Qed.


Lemma SFmul_square_rounded (x : spec_float) :
  rounded false (SFmul 24 128 x x).
Proof.
  destruct x as [s|s| |s m e]; cbn; try done; try (by destruct s).
  replace (xorb s s) with false by (by destruct s).
  by apply binary_round_aux_rounded.
Qed.

(** What is read from memory is a binary32 number. *)
Lemma to_spec_valid (x : F32.t) : valid32 (F32.to_spec x).
Proof.
  unfold F32.to_spec. set (n := le_value (F32.to_bytes x)).
  pose proof (Z.mod_pos_bound (n / 2 ^ 23) 256 ltac:(lia)) as He.
  pose proof (Z.mod_pos_bound n (2 ^ 23) ltac:(lia)) as Hm.
  cbv zeta. destruct (Z.eqb_spec ((n / 2 ^ 23) mod 256) 0) as [E0|E0].
  - destruct (n mod 2 ^ 23) as [|p|p]; cbn [valid32]; [done| |done].
    split; [lia|]. split; [lia|]. by right.
  - destruct (Z.eqb_spec ((n / 2 ^ 23) mod 256) 255) as [E1|E1].
    + by destruct (n mod 2 ^ 23 =? 0).
    + destruct (n mod 2 ^ 23 + 2 ^ 23) as [|p|p] eqn:E; cbn [valid32];
        [done| |done].
      split; [lia|]. split; [lia|]. left. lia.
Qed.

(** A mantissa that needs no shift is not rounded. *)
Lemma binary_round_aux_exact (prec emax : Z) (s : bool) (m : positive)
    (e : Z) :
  fexp prec emax (Zpos (digits2_pos m) + e) - e <= 0 ->
  e <= emax - prec ->
  binary_round_aux prec emax s (Zpos m) e loc_Exact = S754_finite s m e.
Proof.
  intros Hk He. unfold binary_round_aux, shr_fexp, shr. cbn [Zdigits2].
  destruct (fexp prec emax (Zpos (digits2_pos m) + e) - e) as [|p|p] eqn:Ek;
    [|lia|]; cbn; rewrite Ek; cbn;
    by destruct (Z.leb_spec e (emax - prec)); [|lia].
Qed.

(** The square of a binary32 number, computed in binary64 and narrowed,
    is its square in binary32: the product of two mantissas of 24 bits
    has 48 bits, and binary64 has 53. *)
Lemma double_square_spec (x : spec_float) :
  valid32 x -> B32.narrow (SFmul 53 1024 x x) = SFmul 24 128 x x.
Proof.
  destruct x as [s|s| |s m e]; try reflexivity.
  intros (Hm & He & Hn). unfold SFmul.
  pose proof (digits2_pos_lower (m * m)) as Hlo.
  pose proof (digits2_pos_upper (m * m)) as Hup.
  rewrite Pos2Z.inj_mul in Hlo, Hup.
  set (d := Zpos (digits2_pos (m * m))) in *.
  assert (Hd : d <= 48).
  { assert (H : 2 ^ (d - 1) < 2 ^ 48).
    { apply (Z.le_lt_trans _ (Zpos m * Zpos m)); [done|].
      change (2 ^ 48) with (2 ^ 24 * 2 ^ 24). nia. }
    apply Z.pow_lt_mono_r_iff in H; lia. }
  rewrite binary_round_aux_exact; [| |lia].
  2:{ fold d. unfold fexp, emin. lia. }
  unfold B32.narrow, B32.prec, B32.emax, binary_round, shl_align. fold d.
  assert (Hk : 0 <= fexp 24 128 (d + (e + e)) - (e + e)).
  { unfold fexp, emin. destruct Hn as [Hn| ->]; [|lia].
    assert (H : 2 ^ 46 < 2 ^ d).
    { apply (Z.le_lt_trans _ (Zpos m * Zpos m)); [|done].
      change (2 ^ 46) with (2 ^ 23 * 2 ^ 23). nia. }
    apply Z.pow_lt_mono_r_iff in H; lia. }
  by destruct (fexp 24 128 (d + (e + e)) - (e + e)) as [|p|p]; [| |lia].
Qed.

Lemma to_spec_of_bits (n : Z) :
  0 <= n < 2 ^ 32 ->
  le_value (F32.to_bytes (F32.of_bytes (le_bytes 4 n))) = n.
Proof. intros Hn. cbn [le_bytes F32.of_bytes F32.to_bytes fst snd]. by apply u32_round_trip. Qed.

(** What is written to memory and read again, of a result that is not
    negative. *)
Lemma to_spec_of_rounded (y : spec_float) :
  rounded false y ->
  F32.to_spec (F32.of_spec y)
  = match y with
    | S754_finite s m e =>
        S754_finite s m (if Zpos m <? 2 ^ 23 then -149 else e)
    | _ => y
    end.
Proof.
  destruct y as [s|s| |s m e]; cbn [rounded].
  - intros ->. vm_compute. reflexivity.
  - intros ->. vm_compute. reflexivity.
  - intros _. vm_compute. reflexivity.
  - intros (-> & Hm & He). unfold F32.of_spec, F32.to_spec.
    destruct (Z.ltb_spec (Zpos m) (2 ^ 23)) as [Hsub|Hnorm].
    + rewrite to_spec_of_bits by lia. rewrite Z.add_0_l.
      rewrite (Z.div_small (Zpos m)) by lia. cbn [Z.modulo Z.eqb].
      rewrite (Z.mod_small (Zpos m)) by lia.
      rewrite Z.bits_above_log2; [done|lia|].
      apply Z.log2_lt_pow2; lia.
    + change (2 ^ 23) with 8388608 in *. change (2 ^ 24) with 16777216 in *.
      set (n := 0 + (e + 150) * 8388608 + (Zpos m - 8388608)).
      assert (Hn : 0 <= n < 2 ^ 31)
        by (change (2 ^ 31) with 2147483648; lia).
      rewrite to_spec_of_bits by lia.
      assert (Hq : n / 8388608 = e + 150)
        by (unfold n; Z.div_mod_to_equations; lia).
      assert (Hr : n mod 8388608 = Zpos m - 8388608)
        by (unfold n; Z.div_mod_to_equations; lia).
      rewrite Hq, Hr, (Z.mod_small (e + 150)) by lia.
      destruct (Z.eqb_spec (e + 150) 0); [lia|].
      destruct (Z.eqb_spec (e + 150) 255); [lia|].
      replace (Zpos m - 8388608 + 8388608) with (Zpos m) by lia.
      rewrite Z.bits_above_log2; [|lia|apply Z.log2_lt_pow2; lia].
      f_equal. lia.
Qed.

Lemma of_spec_subnormal (s : bool) (m : positive) (e : Z) :
  F32.of_spec (S754_finite s m (if Zpos m <? 2 ^ 23 then -149 else e))
  = F32.of_spec (S754_finite s m e).
Proof. unfold F32.of_spec. by destruct (Zpos m <? 2 ^ 23). Qed.

(** Adding a result that is not negative to zero changes nothing. *)
Lemma F32_fadd_zero_rounded (y : spec_float) :
  rounded false y ->
  F32.of_spec (SFadd 24 128 (F32.to_spec fzero) (F32.to_spec (F32.of_spec y)))
  = F32.of_spec y.
Proof.
  intros Hy. rewrite (to_spec_of_rounded y Hy).
  change (F32.to_spec fzero) with (S754_zero false).
  destruct y as [s|s| |s m e]; cbn [rounded] in Hy.
  - by subst s.
  - by subst s.
  - done.
  - cbn [SFadd]. apply of_spec_subnormal.
Qed.

(** In binary32 a square taken in binary64 and added to zero is the
    square. *)
Lemma F32_square_from_zero : SquareFromZero F32.ops.
Proof.
  intros d. cbn [fadd fzero to_float dmul to_double fmul F32.ops].
  unfold F32.lift2.
  rewrite (double_square_spec _ (to_spec_valid d)).
  apply F32_fadd_zero_rounded, SFmul_square_rounded.
Qed.

End Binary32.

(** ** Binary32: rounding does not look at the sign *)
Section Binary32Symmetry.
Local Open Scope Z_scope.

Lemma rounded_encodable (s : bool) (y : spec_float) :
  rounded s y -> encodable y.
Proof. destruct y; cbn; tauto. Qed.

Lemma valid32_encodable (y : spec_float) : valid32 y -> encodable y.
Proof. destruct y; cbn; tauto. Qed.

Lemma valid32_normal_form (y : spec_float) : valid32 y -> normal_form y = y.
Proof.
  destruct y as [| | |s m e]; try done. cbn. intros (Hm & He & Hn).
  destruct (Z.ltb_spec (Zpos m) (2 ^ 23)); [|done].
  destruct Hn as [Hn| ->]; [lia|done].
Qed.

Lemma normal_form_valid32 (y : spec_float) :
  encodable y -> valid32 (normal_form y).
Proof.
  destruct y as [| | |s m e]; try done. cbn. intros (Hm & He).
  destruct (Z.ltb_spec (Zpos m) (2 ^ 23)).
  - split; [done|]. split; [lia|]. by right.
  - split; [done|]. split; [lia|]. by left.
Qed.

Lemma normal_form_opp (y : spec_float) :
  normal_form (SFopp y) = SFopp (normal_form y).
Proof. by destruct y. Qed.

Lemma encodable_opp (y : spec_float) : encodable y -> encodable (SFopp y).
Proof. by destruct y. Qed.

Lemma of_spec_normal_form (y : spec_float) :
  F32.of_spec (normal_form y) = F32.of_spec y.
Proof.
  destruct y as [| | |s m e]; try done. unfold F32.of_spec, normal_form.
  by destruct (Zpos m <? 2 ^ 23).
Qed.

(** The fields of the 32 bits of a sign and a magnitude. *)
Lemma sign_and_magnitude (s : bool) (mag : Z) :
  0 <= mag < 2 ^ 31 ->
  let n := (if s then 2 ^ 31 else 0) + mag in
  0 <= n < 2 ^ 32 /\
  Z.testbit n 31 = s /\
  (n / 2 ^ 23) mod 256 = mag / 2 ^ 23 /\
  n mod 2 ^ 23 = mag mod 2 ^ 23.
Proof.
  intros Hmag n. unfold n.
  change (2 ^ 31) with 2147483648 in *. change (2 ^ 32) with 4294967296.
  change (2 ^ 23) with 8388608.
  split; [destruct s; lia|]. split; [|split].
  - destruct s.
    + apply Z.testbit_true; [lia|].
      change (2 ^ 31) with 2147483648. Z.div_mod_to_equations. lia.
    + apply Z.testbit_false; [lia|].
      change (2 ^ 31) with 2147483648. Z.div_mod_to_equations. lia.
  - destruct s; Z.div_mod_to_equations; lia.
  - destruct s; Z.div_mod_to_equations; lia.
Qed.

(** What is written to memory and read again. *)
Lemma to_spec_of_encodable (y : spec_float) :
  encodable y -> F32.to_spec (F32.of_spec y) = normal_form y.
Proof.
  destruct y as [[]|[]| |s m e]; cbn [encodable normal_form];
    [intros _; vm_compute; reflexivity..|].
  intros (Hm & He). unfold F32.of_spec, F32.to_spec.
  destruct (Z.ltb_spec (Zpos m) (2 ^ 23)) as [Hsub|Hnorm].
  - destruct (sign_and_magnitude s (Zpos m)) as (Hn & Hs & Hq & Hr);
      [change (2 ^ 31) with 2147483648;
       change (2 ^ 23) with 8388608 in Hsub; lia|].
    rewrite to_spec_of_bits by done. rewrite Hs, Hq, Hr.
    rewrite (Z.div_small (Zpos m)) by lia.
    rewrite (Z.mod_small (Zpos m)) by lia. reflexivity.
  - change (2 ^ 23) with 8388608 in *. change (2 ^ 24) with 16777216 in *.
    rewrite <- Z.add_assoc.
    set (mag := (e + 150) * 8388608 + (Zpos m - 8388608)).
    destruct (sign_and_magnitude s mag) as (Hn & Hs & Hq & Hr);
      [unfold mag; change (2 ^ 31) with 2147483648; lia|].
    change (2 ^ 23) with 8388608 in *.
    rewrite to_spec_of_bits by done. rewrite Hs, Hq, Hr.
    assert (Hq' : mag / 8388608 = e + 150)
      by (unfold mag; Z.div_mod_to_equations; lia).
    assert (Hr' : mag mod 8388608 = Zpos m - 8388608)
      by (unfold mag; Z.div_mod_to_equations; lia).
    rewrite Hq', Hr'.
    destruct (Z.eqb_spec (e + 150) 0); [lia|].
    destruct (Z.eqb_spec (e + 150) 255); [lia|].
    replace (Zpos m - 8388608 + 8388608) with (Zpos m) by lia.
    f_equal. lia.
Qed.

(** Narrowing a binary32 number changes nothing. *)
Lemma narrow_valid32 (y : spec_float) : valid32 y -> B32.narrow y = y.
Proof.
  destruct y as [| | |s m e]; try done. intros (Hm & He & Hn).
  unfold B32.narrow, B32.prec, B32.emax, binary_round, shl_align.
  pose proof (digits2_pos_lower m) as Hlo.
  pose proof (digits2_pos_upper m) as Hup.
  set (d := Zpos (digits2_pos m)) in *.
  assert (Hd : d <= 24).
  { assert (H : 2 ^ (d - 1) < 2 ^ 24) by lia.
    apply Z.pow_lt_mono_r_iff in H; lia. }
  assert (Hk : fexp 24 128 (d + e) - e = 0).
  { unfold fexp, emin. destruct Hn as [Hn| ->]; [|lia].
    assert (H : 2 ^ 23 < 2 ^ d) by lia.
    apply Z.pow_lt_mono_r_iff in H; lia. }
  rewrite Hk. apply binary_round_aux_exact; [fold d; lia|lia].
Qed.

Lemma binary_round_aux_opp (s : bool) (m e : Z) (l : location) :
  binary_round_aux 24 128 (negb s) m e l
  = SFopp (binary_round_aux 24 128 s m e l).
Proof.
  unfold binary_round_aux.
  destruct (shr_fexp 24 128 m e l) as [mrs' e'].
  destruct (shr_fexp 24 128 _ e' loc_Exact) as [mrs'' e''].
  destruct (shr_m mrs''); [done| |done].
  by destruct (e'' <=? 128 - 24).
Qed.

Lemma binary_round_opp (s : bool) (m : positive) (e : Z) :
  binary_round 24 128 (negb s) m e = SFopp (binary_round 24 128 s m e).
Proof.
  unfold binary_round.
  destruct (shl_align m e _) as [mz ez]. apply binary_round_aux_opp.
Qed.

Lemma binary_round_encodable (s : bool) (m : positive) (e : Z) :
  encodable (binary_round 24 128 s m e).
Proof.
  unfold binary_round. destruct (shl_align m e _) as [mz ez].
  eapply rounded_encodable, binary_round_aux_rounded. lia.
Qed.

Lemma binary_normalize_opp (z e : Z) :
  SF_close (binary_normalize 24 128 (- z) e false)
    (SFopp (binary_normalize 24 128 z e false)).
Proof.
  destruct z as [|p|p]; cbn [Z.opp binary_normalize].
  - right. by split.
  - left. exact (binary_round_opp false p e).
  - left. rewrite <- (binary_round_opp true p e). reflexivity.
Qed.

Lemma binary_normalize_encodable (z e : Z) :
  encodable (binary_normalize 24 128 z e false).
Proof.
  destruct z; cbn [binary_normalize]; [done| |]; apply binary_round_encodable.
Qed.

Lemma cond_Zopp_negb (s : bool) (z : Z) :
  cond_Zopp (negb s) z = - cond_Zopp s z.
Proof. destruct s; cbn; lia. Qed.

(** Opposite terms have the opposite sum, up to the sign of zero. *)
Lemma SFadd_opp (a b : spec_float) :
  SF_close (SFadd 24 128 (SFopp a) (SFopp b)) (SFopp (SFadd 24 128 a b)).
Proof.
  destruct a as [sa|sa| |sa ma ea], b as [sb|sb| |sb mb eb];
    try (left; reflexivity);
    try (destruct sa, sb; (left; reflexivity) || (right; by split)).
  cbn [SFadd SFopp]. rewrite !cond_Zopp_negb, <- Z.opp_add_distr.
  apply binary_normalize_opp.
Qed.

Lemma SF_close_zero_l (x y : spec_float) :
  SF_close x y -> SF_is_zero y -> SF_is_zero x.
Proof. by intros [->|[? ?]]. Qed.

Lemma SFadd_close (a' b' a b : spec_float) :
  SF_close a' (SFopp a) -> SF_close b' (SFopp b) ->
  SF_close (SFadd 24 128 a' b') (SFopp (SFadd 24 128 a b)).
Proof.
  intros [->|[Ha' Ha]] [->|[Hb' Hb]].
  - apply SFadd_opp.
  - destruct b as [sb| | |]; try done. destruct b' as [sb'| | |]; try done.
    destruct a as [sa|sa| |sa ma ea]; cbn;
      try (left; reflexivity);
      destruct sa, sb, sb'; (left; reflexivity) || (right; by split).
  - destruct a as [sa| | |]; try done. destruct a' as [sa'| | |]; try done.
    destruct b as [sb|sb| |sb mb eb]; cbn;
      try (left; reflexivity);
      destruct sa, sb, sa'; (left; reflexivity) || (right; by split).
  - destruct a as [sa| | |]; try done. destruct a' as [sa'| | |]; try done.
    destruct b as [sb| | |]; try done. destruct b' as [sb'| | |]; try done.
    right. destruct sa, sb, sa', sb'; by split.
Qed.

Lemma SFadd_encodable (a b : spec_float) :
  encodable a -> encodable b -> encodable (SFadd 24 128 a b).
Proof.
  intros Ha Hb.
  destruct a as [sa|sa| |sa ma ea], b as [sb|sb| |sb mb eb]; try done;
    try (by destruct sa, sb).
  cbn [SFadd]. apply binary_normalize_encodable.
Qed.

Lemma SFsub_zero_close (b : spec_float) :
  SF_close (SFsub 24 128 (S754_zero false) b) (SFopp b).
Proof.
  destruct b as [[]|[]| |sb mb eb]; cbn;
    (left; reflexivity) || (right; by split).
Qed.

Lemma SFsub_zero_encodable (b : spec_float) :
  encodable b -> encodable (SFsub 24 128 (S754_zero false) b).
Proof. by destruct b as [[]|[]| |sb mb eb]. Qed.

Lemma SFmul_encodable (a b : spec_float) : encodable (SFmul 24 128 a b).
Proof.
  destruct a as [sa|sa| |sa ma ea], b as [sb|sb| |sb mb eb]; try done.
  cbn [SFmul]. eapply rounded_encodable, binary_round_aux_rounded. lia.
Qed.

(** Floats that compare equal are the same number. *)
Lemma SFeqb_close (x y : spec_float) :
  SFeqb x y = true -> SF_close x y.
Proof.
  unfold SFeqb.
  destruct x as [sx|sx| |sx mx ex], y as [sy|sy| |sy my ey]; cbn;
    try done; try (by destruct sx); try (by destruct sy).
  - intros _. right. by split.
  - destruct sx, sy; try done; by left.
  - destruct sx, sy; try done.
    + destruct (Z.compare_spec ex ey) as [->| |]; try done.
      destruct (Pos.compare_cont Eq mx my) eqn:E; try done.
      apply Pos.compare_eq in E as ->. by left.
    + destruct (Z.compare_spec ex ey) as [->| |]; try done.
      destruct (Pos.compare_cont Eq mx my) eqn:E; try done.
      apply Pos.compare_eq in E as ->. by left.
Qed.

(** From the floats in memory to the numbers, and back. *)
Lemma alike_close (x y : F32.t) :
  alike x y -> SF_close (F32.to_spec x) (F32.to_spec y).
Proof.
  intros [->|Hneq]; [by left|].
  apply SFeqb_close. cbn in Hneq. unfold B32.neq in Hneq.
  by destruct (SFeqb (F32.to_spec x) (F32.to_spec y)).
Qed.

Lemma close_alike (y1 y2 : spec_float) :
  SF_close y1 y2 -> alike (F32.of_spec y1) (F32.of_spec y2).
Proof.
  intros [->|[H1 H2]]; [by left|].
  destruct y1 as [s1| | |]; try done. destruct y2 as [s2| | |]; try done.
  right. by destruct s1, s2; vm_compute.
Qed.

Lemma to_spec_fneg (x : F32.t) :
  F32.to_spec (fneg x) = SFopp (F32.to_spec x).
Proof.
  cbn [fneg F32.ops].
  pose proof (to_spec_valid x) as Hv.
  rewrite to_spec_of_encodable
    by (apply encodable_opp, valid32_encodable, Hv).
  by rewrite normal_form_opp, valid32_normal_form.
Qed.

(** In binary32 rounding does not look at the sign. *)
Lemma F32_rounds_symmetrically : RoundsSymmetrically F32.ops.
Proof.
  split.
  - intros c q. cbn [to_float to_double fmul F32.ops]. unfold F32.lift2.
    set (y := SFmul B32.prec B32.emax (F32.to_spec c) (F32.to_spec q)).
    assert (Hy : encodable y) by apply SFmul_encodable.
    rewrite (to_spec_of_encodable y Hy).
    rewrite (narrow_valid32 _ (normal_form_valid32 y Hy)).
    apply of_spec_normal_form.
  - right. vm_compute. reflexivity.
  - intros p. cbn [fsub fneg fzero F32.ops]. unfold F32.lift2.
    apply close_alike.
    change (F32.to_spec (F32.of_bytes (le_bytes 4 0))) with (S754_zero false).
    apply SFsub_zero_close.
  - intros T D u p HT Hu.
    apply alike_close in HT, Hu. rewrite to_spec_fneg in HT, Hu.
    cbn [fadd fneg F32.ops]. unfold F32.lift2.
    set (y2 := SFadd B32.prec B32.emax (F32.to_spec D) (F32.to_spec p)).
    assert (Hy2 : encodable y2).
    { apply SFadd_encodable; apply valid32_encodable, to_spec_valid. }
    rewrite (to_spec_of_encodable y2 Hy2).
    rewrite <- normal_form_opp, of_spec_normal_form.
    apply close_alike. by apply SFadd_close.
Qed.

End Binary32Symmetry.





Section ArrayProofs.
Context {T : Type} (c : codec T) (valid : T -> Prop).
Hypothesis encode_length : forall x, valid x -> length (encode c x) = csize c.
Hypothesis decode_encode : forall x, valid x -> decode c (encode c x) = x.

Lemma encode_array_cons (x : T) (data : list T) :
  encode_array c (x :: data) = encode c x ++ encode_array c data.
Proof. reflexivity. Qed.

Lemma encode_array_length (data : list T) :
  Forall valid data ->
  length (encode_array c data) = length data * csize c.
Proof.
  induction 1 as [|x data Hx Hdata IH]; [done|].
  rewrite encode_array_cons, length_app, IH, encode_length by done.
  simpl. lia.
Qed.

Lemma decode_encode_array (data : list T) (rest : list byte) :
  Forall valid data ->
  decode_array c (length data) (encode_array c data ++ rest) = data.
Proof.
  induction 1 as [|x data Hx Hdata IH]; [done|].
  rewrite encode_array_cons, <- app_assoc. cbn [length decode_array].
  rewrite take_app_length' by (by rewrite encode_length).
  rewrite drop_app_length' by (by rewrite encode_length).
  by rewrite decode_encode, IH.
Qed.

Lemma decode_array_length (n : nat) (bs : list byte) :
  length (decode_array c n bs) = n.
Proof.
  revert bs. induction n as [|n IH]; intros bs; simpl; [done|]. by rewrite IH.
Qed.

End ArrayProofs.

Section ReadWrite.

Lemma write_at_length (offset : nat) (bytes file : list byte) :
  length (write_at offset bytes file)
  = Nat.max (offset + length bytes) (length file).
Proof.
  unfold write_at. rewrite !length_app, length_resize, length_drop. lia.
Qed.

Lemma write_at_lookup (offset : nat) (bytes file : list byte) (k : nat) :
  write_at offset bytes file !! k =
    if decide (k < offset) then Some (default Byte.x00 (file !! k))
    else if decide (k < offset + length bytes) then bytes !! (k - offset)
    else file !! k.
Proof.
  unfold write_at. case_decide as Hk.
  - rewrite lookup_app_l by (rewrite length_resize; lia).
    destruct (decide (k < length file)) as [Hf|Hf].
    + rewrite lookup_resize by lia.
      destruct (lookup_lt_is_Some_2 file k Hf) as [y ->]. done.
    + rewrite lookup_resize_new by lia.
      by rewrite (lookup_ge_None_2 file k) by lia.
  - rewrite lookup_app_r by (rewrite length_resize; lia).
    rewrite length_resize. case_decide as Hk2.
    + by rewrite lookup_app_l by lia.
    + rewrite lookup_app_r by lia. rewrite lookup_drop. f_equal. lia.
Qed.

Lemma read_at_Some (offset len : nat) (file bs : list byte) :
  offset + len <= length file ->
  length bs = len ->
  (forall i, i < len -> file !! (offset + i) = bs !! i) ->
  read_at offset len file = Some bs.
Proof.
  intros Hlen Hbs Hlk. unfold read_at. case_decide; [|lia]. f_equal.
  apply list_eq. intros i. rewrite lookup_take, lookup_drop.
  case_decide.
  - by apply Hlk.
  - symmetry. apply lookup_ge_None_2. lia.
Qed.

Lemma read_at_inv (offset len : nat) (file bs : list byte) :
  read_at offset len file = Some bs ->
  offset + len <= length file /\ length bs = len /\
  forall i, i < len -> file !! (offset + i) = bs !! i.
Proof.
  unfold read_at. case_decide; [|done]. intros [= <-].
  split; [done|]. split.
  - rewrite length_take, length_drop. lia.
  - intros i Hi. rewrite lookup_take, lookup_drop. by case_decide.
Qed.

(** Reading inside the bytes that were written. *)
Lemma read_within_write (offset : nat) (bytes file : list byte) (a len : nat) :
  a + len <= length bytes ->
  read_at (offset + a) len (write_at offset bytes file)
  = Some (take len (drop a bytes)).
Proof.
  intros Ha. apply read_at_Some.
  - rewrite write_at_length. lia.
  - rewrite length_take, length_drop. lia.
  - intros i Hi. rewrite write_at_lookup.
    repeat case_decide; try lia.
    rewrite lookup_take, lookup_drop. case_decide; [|lia]. f_equal. lia.
Qed.

(** Reading beside the bytes that were written. *)
Lemma read_beside_write (offset : nat) (bytes file bs : list byte)
    (offset2 len2 : nat) :
  read_at offset2 len2 file = Some bs ->
  offset2 + len2 <= offset \/ offset + length bytes <= offset2 ->
  read_at offset2 len2 (write_at offset bytes file) = Some bs.
Proof.
  intros (Hlen & Hbs & Hlk)%read_at_inv Hdisj. apply read_at_Some.
  - rewrite write_at_length. lia.
  - done.
  - intros i Hi. rewrite write_at_lookup, <- (Hlk i Hi).
    repeat case_decide; try lia; [|done].
    destruct (lookup_lt_is_Some_2 file (offset2 + i)) as [y ->]; [lia|done].
Qed.

End ReadWrite.

(** ** [save_bin] and [load_bin] *)
Section SaveLoad.
Context {T : Type} (c : codec T) (valid : T -> Prop).
Hypothesis encode_length : forall x, valid x -> length (encode c x) = csize c.
Hypothesis decode_encode : forall x, valid x -> decode c (encode c x) = x.

Lemma saved_bytes_length (data : list T) (npts ndims : Z) :
  Z.to_nat (npts * ndims) <= length data ->
  Forall valid data ->
  length (saved_bytes c data npts ndims)
  = 8 + Z.to_nat (npts * ndims) * csize c.
Proof.
  intros Hn Hvalid. unfold saved_bytes.
  rewrite !length_app, !le_bytes_length.
  rewrite (encode_array_length c valid encode_length)
    by (by apply Forall_take).
  rewrite length_take, Nat.min_l by lia. lia.
Qed.

Lemma save_bin_inv (fs fs' : gmap string (list byte)) (filename : string)
    (data : list T) (npts ndims offset w : Z) :
  (0 <= npts < 2 ^ 32)%Z -> (0 <= ndims < 2 ^ 32)%Z ->
  save_bin c fs filename data npts ndims offset = Ok (fs', w) ->
  Z.to_nat (npts * ndims) <= length data /\
  fs' = <[filename := write_at (Z.to_nat offset)
                        (saved_bytes c data npts ndims)
                        (default [] (fs !! filename))]> fs /\
  w = wrap64 (npts * ndims * Z.of_nat (csize c) + 8).
Proof.
  intros Hnpts Hndims. unfold save_bin, saved_bytes.
  assert (wrap64 (npts * ndims) = (npts * ndims)%Z) as ->.
  { unfold wrap64. apply Z.mod_small.
    split; [apply Z.mul_nonneg_nonneg; lia|].
    change (2 ^ 64)%Z with (2 ^ 32 * 2 ^ 32)%Z.
    apply Z.mul_lt_mono_nonneg; lia. }
  case_decide; [|done]. intros [= <- <-]. done.
Qed.

(** What was saved is loaded again. *)
Lemma load_after_save (fs fs' : gmap string (list byte)) (filename : string)
    (data : list T) (npts ndims offset w : Z) :
  (0 <= npts < 2 ^ 32)%Z -> (0 <= ndims < 2 ^ 32)%Z ->
  Forall valid data ->
  save_bin c fs filename data npts ndims offset = Ok (fs', w) ->
  load_bin c fs' filename offset
  = Ok (take (Z.to_nat (npts * ndims)) data, npts, ndims).
Proof.
  intros Hnpts Hndims Hvalid Hsave.
  destruct (save_bin_inv _ _ _ _ _ _ _ _ Hnpts Hndims Hsave)
    as (Hn & -> & _).
  pose proof (saved_bytes_length data npts ndims Hn Hvalid) as Hlen.
  unfold load_bin. rewrite lookup_insert_eq.
  pose proof (read_within_write (Z.to_nat offset)
                (saved_bytes c data npts ndims)
                (default [] (fs !! filename)) 0 8) as Hhdr.
  rewrite Nat.add_0_r in Hhdr. rewrite Hhdr by lia. clear Hhdr.
  assert (Hh : take 8 (drop 0 (saved_bytes c data npts ndims))
               = le_bytes 4 npts ++ le_bytes 4 ndims).
  { unfold saved_bytes. rewrite drop_0, app_assoc.
    apply take_app_length'. by rewrite length_app, !le_bytes_length. }
  rewrite Hh.
  rewrite take_app_length' by (by rewrite le_bytes_length).
  rewrite drop_app_length' by (by rewrite le_bytes_length).
  rewrite !u32_round_trip by done.
  rewrite (read_within_write (Z.to_nat offset)
             (saved_bytes c data npts ndims)
             (default [] (fs !! filename)) 8) by lia.
  assert (Hp : take (Z.to_nat (npts * ndims) * csize c)
                 (drop 8 (saved_bytes c data npts ndims))
               = encode_array c (take (Z.to_nat (npts * ndims)) data)).
  { unfold saved_bytes. rewrite app_assoc.
    rewrite drop_app_length' by (by rewrite length_app, !le_bytes_length).
    apply take_ge.
    rewrite (encode_array_length c valid encode_length)
      by (by apply Forall_take).
    rewrite length_take, Nat.min_l by lia. lia. }
  rewrite Hp.
  pose proof (decode_encode_array c valid encode_length decode_encode
                (take (Z.to_nat (npts * ndims)) data) []) as Hdec.
  rewrite app_nil_r, length_take in Hdec.
  replace (Z.to_nat (npts * ndims) `min` length data)
    with (Z.to_nat (npts * ndims)) in Hdec by lia.
  rewrite Hdec by (by apply Forall_take). done.
Qed.

(** A matrix beside the one that is saved stays. *)
Lemma load_beside_save {T2 : Type} (c2 : codec T2)
    (fs fs' : gmap string (list byte)) (filename : string)
    (data : list T) (npts ndims offset w : Z)
    (data2 : list T2) (nr nc offset2 : Z) :
  (0 <= npts < 2 ^ 32)%Z -> (0 <= ndims < 2 ^ 32)%Z ->
  Forall valid data ->
  save_bin c fs filename data npts ndims offset = Ok (fs', w) ->
  load_bin c2 fs filename offset2 = Ok (data2, nr, nc) ->
  Z.to_nat offset2 + 8 + Z.to_nat (nr * nc) * csize c2 <= Z.to_nat offset \/
  Z.to_nat offset + 8 + Z.to_nat (npts * ndims) * csize c
    <= Z.to_nat offset2 ->
  load_bin c2 fs' filename offset2 = Ok (data2, nr, nc).
Proof.
  intros Hnpts Hndims Hvalid Hsave Hload Hdisj.
  destruct (save_bin_inv _ _ _ _ _ _ _ _ Hnpts Hndims Hsave)
    as (Hn & -> & _).
  pose proof (saved_bytes_length data npts ndims Hn Hvalid) as Hlen.
  unfold load_bin in *. rewrite lookup_insert_eq.
  destruct (fs !! filename) as [file|] eqn:Hfile; [|done].
  cbn [default].
  destruct (read_at (Z.to_nat offset2) 8 file) as [header|] eqn:Hhdr; [|done].
  cbv zeta in Hload.
  destruct (read_at (Z.to_nat offset2 + 8)
              (Z.to_nat (le_value (take 4 header) * le_value (drop 4 header))
               * csize c2) file) as [payload|] eqn:Hpay; [|done].
  injection Hload as <- <- <-.
  rewrite (read_beside_write _ _ _ _ _ _ Hhdr) by lia.
  cbv zeta.
  rewrite (read_beside_write _ _ _ _ _ _ Hpay) by lia.
  done.
Qed.

End SaveLoad.

(** ** Loading a pivot file *)

(** Reduce the binds of [result]. *)
Tactic Notation "step_result" :=
  cbn [mbind result_bind mret result_ret of_option].
Tactic Notation "step_result" "in" hyp(H) :=
  cbn [mbind result_bind mret result_ret of_option] in H.

Section LoadProofs.
Context {F Dbl : Type} {O : FloatOps F Dbl} {B : FloatBytes F}.
Variable indeterminate : nat -> F.

Lemma load_bin_shape {T : Type} (c : codec T) (fs : gmap string (list byte))
    (name : string) (offset : Z) (data : list T) (nr nc : Z) :
  load_bin c fs name offset = Ok (data, nr, nc) ->
  length data = Z.to_nat (nr * nc) /\
  (0 <= nr < 2 ^ 32)%Z /\ (0 <= nc < 2 ^ 32)%Z.
Proof.
  unfold load_bin. destruct (fs !! name) as [file|]; [|done].
  destruct (read_at (Z.to_nat offset) 8 file) as [header|] eqn:Hhdr; [|done].
  cbv zeta.
  destruct (read_at (Z.to_nat offset + 8) _ file) as [payload|]; [|done].
  intros [= <- <- <-]. apply read_at_inv in Hhdr as (_ & Hlen & _).
  split; [by rewrite decode_array_length|].
  pose proof (le_value_range (take 4 header)) as H1.
  pose proof (le_value_range (drop 4 header)) as H2.
  rewrite length_take in H1. rewrite length_drop in H2. rewrite Hlen in *.
  split; [exact H1|exact H2].
Qed.

(** What a successful load has read. *)
Lemma load_pq_centroid_bin_Ok (fs : gmap string (list byte))
    (pq_table_file : string) (num_chunks : Z) (t : FixedChunkPQTable) :
  load_pq_centroid_bin indeterminate fs pq_table_file num_chunks = Ok t ->
  exists offset0,
    load_bin f32 fs pq_table_file offset0
      = Ok (tables t, NUM_PQ_CENTROIDS, ndims t) /\
    transpose_tables (tables t) (Z.to_nat (ndims t))
      (new_floats indeterminate (256 * Z.to_nat (ndims t)))
      = Some (tables_tr t).
Proof.
  unfold load_pq_centroid_bin. intros H.
  destruct (load_bin u64 fs pq_table_file 0) as [[[fod nr0] nc0]|?|?|];
    step_result in H; try done.
  destruct (negb (nr0 =? 4)%Z && negb (nr0 =? 5)%Z); [done|].
  destruct (mapM _ _); step_result in H; [|done].
  destruct (fod !! 0) as [offset0|]; step_result in H; [|done].
  destruct (load_bin f32 fs pq_table_file offset0)
    as [[[tab nr1] nc1]|?|?|] eqn:Htab; step_result in H; try done.
  destruct (nr1 =? NUM_PQ_CENTROIDS)%Z eqn:Hnr1; cbn [negb] in H; [|done].
  apply Z.eqb_eq in Hnr1. subst nr1.
  destruct (fod !! 1) as [offset1|]; step_result in H; [|done].
  destruct (load_bin f32 fs pq_table_file offset1)
    as [[[cen nr2] nc2]|?|?|]; step_result in H; try done.
  destruct (negb (nr2 =? nc1)%Z || negb (nc2 =? 1)%Z); [done|].
  destruct (fod !! _) as [offset2|]; step_result in H; [|done].
  destruct (load_bin u32 fs pq_table_file offset2)
    as [[[co nr3] nc3]|?|?|]; step_result in H; try done.
  destruct (negb (nc3 =? 1)%Z || _); [done|].
  destruct (if file_exists fs _ then _ else _) as [[rot use]|?|?|];
    step_result in H; try done.
  destruct (transpose_tables tab _ _) as [tr|] eqn:Htr;
    step_result in H; [|done].
  injection H as <-. exists offset0. cbn [tables ndims tables_tr]. done.
Qed.

End LoadProofs.

(** C7. For every successfully loaded PQ table,
    [tables_tr[j * 256 + c] = tables[c * ndims + j]] for all centres
    [c < 256] and all axes [j < ndims], both entries being there. *)
Theorem loaded_tables_tr_is_transpose {F Dbl : Type} {O : FloatOps F Dbl}
    {B : FloatBytes F} (indeterminate : nat -> F)
    (fs : gmap string (list byte)) (pq_table_file : string) (num_chunks : Z)
    (t : FixedChunkPQTable) :
  load_pq_centroid_bin indeterminate fs pq_table_file num_chunks = Ok t ->
  forall c j, c < 256 -> j < Z.to_nat (ndims t) ->
    tables_tr t !! (j * 256 + c) = tables t !! (c * Z.to_nat (ndims t) + j) /\
    is_Some (tables t !! (c * Z.to_nat (ndims t) + j)).
Proof.
  intros (offset0 & Htab & Htr)%load_pq_centroid_bin_Ok c j Hc Hj.
  destruct (load_bin_shape _ _ _ _ _ _ _ Htab) as (Hlen & _ & Hnd).
  assert (Hlen' : length (tables t) = 256 * Z.to_nat (ndims t)).
  { rewrite Hlen. unfold NUM_PQ_CENTROIDS. lia. }
  destruct (transpose_tables_cells (tables t) (Z.to_nat (ndims t))
              (new_floats indeterminate (256 * Z.to_nat (ndims t))) Hlen')
    as (tr & Htr' & _ & Hcells).
  { unfold new_floats. by rewrite length_fmap, length_seq. }
  rewrite Htr in Htr'. injection Htr' as <-. by apply Hcells.
Qed.

Section LoadIntro.
Context {F Dbl : Type} {O : FloatOps F Dbl} {B : FloatBytes F}.
Variable indeterminate : nat -> F.

(** A pivot file with the four (or, [legacy], five) matrices in place is
    loaded. *)
Lemma load_pq_centroid_bin_intro (fs : gmap string (list byte))
    (pq_table_file : string) (num_chunks : Z) (legacy : bool)
    (o0 o1 o2 x y nc0 : Z) (tab cen : list F) (co : list Z) (dim nr : Z) :
  load_bin u64 fs pq_table_file 0
    = Ok (if legacy then [o0; o1; x; o2; y] else [o0; o1; o2; y],
          if legacy then 5 else 4, nc0)%Z ->
  load_bin f32 fs pq_table_file o0 = Ok (tab, NUM_PQ_CENTROIDS, dim) ->
  load_bin f32 fs pq_table_file o1 = Ok (cen, dim, 1%Z) ->
  load_bin u32 fs pq_table_file o2 = Ok (co, nr, 1%Z) ->
  num_chunks = 0%Z \/ nr = wrap64 (num_chunks + 1) ->
  rotation_file_ok fs pq_table_file dim ->
  exists t,
    load_pq_centroid_bin indeterminate fs pq_table_file num_chunks = Ok t /\
    tables t = tab /\ centroid t = cen /\ chunk_offsets t = co /\
    ndims t = dim /\ n_chunks t = wrap64 (nr - 1).
Proof.
  intros Hoff Htab Hcen Hco Hnum Hrot.
  destruct (load_bin_shape _ _ _ _ _ _ _ Htab) as (Hlen & _ & Hdim).
  destruct (transpose_tables_cells tab (Z.to_nat dim)
              (new_floats indeterminate (256 * Z.to_nat dim)))
    as (tr & Htr & _ & _).
  { rewrite Hlen. unfold NUM_PQ_CENTROIDS. lia. }
  { unfold new_floats. by rewrite length_fmap, length_seq. }
  unfold load_pq_centroid_bin. rewrite Hoff. step_result.
  assert (Hchunks : (negb (1 =? 1)%Z
            || negb (nr =? wrap64 (num_chunks + 1))%Z
               && negb (num_chunks =? 0)%Z) = false).
  { destruct Hnum as [->| ->].
    - change (negb (0 =? 0)%Z) with false. by rewrite andb_false_r.
    - rewrite !Z.eqb_refl. done. }
  assert (Hrot' : exists rot use,
            (if file_exists fs (pq_table_file +:+ "_rotation_matrix.bin")
             then
               load_bin f32 fs (pq_table_file +:+ "_rotation_matrix.bin") 0
               ≫= (fun '(rotmat_tr, nr, nc) =>
                     if (negb (nr =? dim) || negb (nc =? dim))%Z
                     then Throw "Error loading rotation matrix file"
                     else Ok (rotmat_tr, true))
             else Ok ([], false)) = Ok (rot, use)).
  { destruct Hrot as [Hnone|[r Hr]].
    - exists [], false. unfold file_exists. rewrite Hnone.
      rewrite bool_decide_eq_false_2; [done|]. by intros [? ?].
    - exists r, true. rewrite Hr. step_result. rewrite Z.eqb_refl.
      assert (file_exists fs (pq_table_file +:+ "_rotation_matrix.bin")
              = true) as ->; [|done].
      unfold file_exists. apply bool_decide_eq_true_2.
      unfold load_bin in Hr. by destruct (fs !! _). }
  destruct Hrot' as (rot & use & Hrot').
  destruct legacy.
  all: cbn [Z.eqb Pos.eqb negb andb mapM lookup list_lookup
            mbind option_bind mret option_ret]; step_result.
  all: rewrite Htab; step_result; rewrite ?Z.eqb_refl; cbn [negb orb].
  all: cbn [lookup list_lookup]; step_result; rewrite Hcen; step_result.
  all: rewrite !Z.eqb_refl; cbn [negb orb].
  all: cbn [lookup list_lookup]; step_result.
  all: rewrite Hco; step_result.
  all: rewrite Hchunks, Hrot'; step_result; rewrite Htr; step_result.
  all: eexists; (split; [reflexivity|]); done.
Qed.

End LoadIntro.

(** ** Saving the pivots and loading them *)
Section SavePivots.
Context {F Dbl : Type} {O : FloatOps F Dbl} {B : FloatBytes F}
  {BOk : FloatBytesOk F}.
Variable METADATA_SIZE : Z.
Local Open Scope Z_scope.

Lemma f32_length (x : F) : True -> length (encode f32 x) = csize f32.
Proof. intros _. apply f_bytes_length. Qed.

Lemma f32_round_trip (x : F) : True -> decode f32 (encode f32 x) = x.
Proof. intros _. apply f_of_bytes_of. Qed.

Lemma u32_length (x : Z) : is_u32 x -> length (encode u32 x) = csize u32.
Proof. intros _. apply le_bytes_length. Qed.

Lemma u32_decode (x : Z) : is_u32 x -> decode u32 (encode u32 x) = x.
Proof. apply u32_round_trip. Qed.

Lemma u64_length (x : Z) : is_u64 x -> length (encode u64 x) = csize u64.
Proof. intros _. apply le_bytes_length. Qed.

Lemma u64_decode (x : Z) : is_u64 x -> decode u64 (encode u64 x) = x.
Proof. apply u64_round_trip. Qed.

Lemma all_floats_valid (l : list F) : Forall (fun _ => True) l.
Proof. by apply Forall_forall. Qed.

Lemma save_bin_written {T : Type} (c : codec T)
    (fs fs' : gmap string (list byte)) (name : string) (data : list T)
    (npts ndims offset w : Z) :
  0 <= npts < 2 ^ 32 -> 0 <= ndims < 2 ^ 32 ->
  npts * ndims * Z.of_nat (csize c) + 8 < 2 ^ 64 ->
  save_bin c fs name data npts ndims offset = Ok (fs', w) ->
  w = npts * ndims * Z.of_nat (csize c) + 8.
Proof.
  intros Hnpts Hndims Hsmall Hsave.
  destruct (save_bin_inv c _ _ _ _ _ _ _ _ Hnpts Hndims Hsave) as (_ & _ & ->).
  unfold wrap64. apply Z.mod_small. split; [|done].
  assert (0 <= npts * ndims) by (apply Z.mul_nonneg_nonneg; lia). lia.
Qed.

(** The file [save_pivots] leaves holds the offsets, the pivots, the mean
    and the chunk offsets. *)
Lemma save_pivots_loads (path : string) (chunk_offsets : list Z)
    (num_centers dim : nat) (s s' : Trainer.state (F := F))
    (cumul_bytes : list Z) :
  40 <= METADATA_SIZE < 2 ^ 32 ->
  Z.of_nat num_centers < 2 ^ 20 -> Z.of_nat dim < 2 ^ 32 ->
  Z.of_nat (length chunk_offsets) < 2 ^ 32 ->
  Forall is_u32 chunk_offsets ->
  Trainer.save_pivots METADATA_SIZE path chunk_offsets num_centers dim s
    = (Ok cumul_bytes, s') ->
  exists c1 c2 c3,
    cumul_bytes = [METADATA_SIZE; c1; c2; c3] /\
    Trainer.heap s' = Trainer.heap s /\
    (num_centers * dim <= length (Trainer.heap s Trainer.full_pivot_data))%nat /\
    (dim <= length (Trainer.heap s Trainer.centroid))%nat /\
    load_bin u64 (Trainer.files s') path 0 = Ok (cumul_bytes, 4, 1) /\
    load_bin f32 (Trainer.files s') path METADATA_SIZE
      = Ok (take (num_centers * dim)
              (Trainer.heap s Trainer.full_pivot_data),
            Z.of_nat num_centers, Z.of_nat dim) /\
    load_bin f32 (Trainer.files s') path c1
      = Ok (take dim (Trainer.heap s Trainer.centroid), Z.of_nat dim, 1) /\
    load_bin u32 (Trainer.files s') path c2
      = Ok (chunk_offsets, Z.of_nat (length chunk_offsets), 1).
Proof.
  intros HM HK HD HlenO HO. unfold Trainer.save_pivots. cbv zeta.
  set (n1 := Z.of_nat num_centers * Z.of_nat dim).
  assert (Hn1 : 0 <= n1 < 2 ^ 52).
  { unfold n1. split; [apply Z.mul_nonneg_nonneg; lia|].
    change (2 ^ 52) with (2 ^ 20 * 2 ^ 32).
    apply Z.mul_lt_mono_nonneg; lia. }
  assert (HKb : 0 <= Z.of_nat num_centers < 2 ^ 32) by lia.
  assert (HDb : 0 <= Z.of_nat dim < 2 ^ 32) by lia.
  assert (H1b : 0 <= 1 < 2 ^ 32) by lia.
  assert (H4b : 0 <= 4 < 2 ^ 32) by lia.
  assert (HOb : 0 <= Z.of_nat (length chunk_offsets) < 2 ^ 32) by lia.
  assert (Hs1 : Z.of_nat num_centers * Z.of_nat dim * Z.of_nat (csize f32) + 8
                < 2 ^ 64) by (fold n1; simpl; lia).
  assert (Hs2 : Z.of_nat dim * 1 * Z.of_nat (csize f32) + 8 < 2 ^ 64)
    by (simpl; lia).
  assert (Hs3 : Z.of_nat (length chunk_offsets) * 1 * Z.of_nat (csize u32) + 8
                < 2 ^ 64) by (simpl; lia).
  destruct (save_bin f32 (Trainer.files s) path _ _ _ METADATA_SIZE)
    as [[fs1 w1]|?|?|] eqn:W1; try done.
  pose proof (save_bin_written f32 _ _ _ _ _ _ _ _ HKb HDb Hs1 W1) as Hw1.
  fold n1 in Hw1. simpl in Hw1.
  assert (wrap64 (METADATA_SIZE + w1) = METADATA_SIZE + n1 * 4 + 8) as Hc1.
  { unfold wrap64. rewrite Z.mod_small; lia. }
  rewrite Hc1. set (c1 := METADATA_SIZE + n1 * 4 + 8).
  destruct (save_bin f32 fs1 path _ _ _ c1) as [[fs2 w2]|?|?|] eqn:W2;
    try done.
  pose proof (save_bin_written f32 _ _ _ _ _ _ _ _ HDb H1b Hs2 W2) as Hw2.
  simpl in Hw2.
  assert (wrap64 (c1 + w2) = c1 + Z.of_nat dim * 4 + 8) as Hc2.
  { unfold wrap64. rewrite Z.mod_small; lia. }
  rewrite Hc2. set (c2 := c1 + Z.of_nat dim * 4 + 8).
  destruct (save_bin u32 fs2 path _ _ _ c2) as [[fs3 w3]|?|?|] eqn:W3;
    try done.
  pose proof (save_bin_written u32 _ _ _ _ _ _ _ _ HOb H1b Hs3 W3) as Hw3.
  simpl in Hw3.
  assert (wrap64 (c2 + w3)
          = c2 + Z.of_nat (length chunk_offsets) * 4 + 8) as Hc3.
  { unfold wrap64. rewrite Z.mod_small; lia. }
  rewrite Hc3. set (c3 := c2 + Z.of_nat (length chunk_offsets) * 4 + 8).
  destruct (save_bin u64 fs3 path _ _ _ 0) as [[fs4 w4]|?|?|] eqn:W4;
    try done.
  intros [= <- <-]. exists c1, c2, c3. cbn [Trainer.heap Trainer.files].
  split; [done|]. split; [done|].
  destruct (save_bin_inv f32 _ _ _ _ _ _ _ _ HKb HDb W1) as (Hlen1 & _ & _).
  destruct (save_bin_inv f32 _ _ _ _ _ _ _ _ HDb H1b W2) as (Hlen2 & _ & _).
  fold n1 in Hlen1.
  split; [unfold n1 in Hlen1; lia|]. split; [lia|].
  assert (Hcb : Forall is_u64 [METADATA_SIZE; c1; c2; c3]).
  { unfold is_u64. repeat constructor; lia. }
  assert (Hsz1 : (Z.to_nat METADATA_SIZE + 8 + Z.to_nat n1 * csize f32
                  = Z.to_nat c1)%nat) by (simpl; lia).
  assert (Hsz2 : (Z.to_nat c1 + 8 + Z.to_nat (Z.of_nat dim * 1) * csize f32
                  = Z.to_nat c2)%nat) by (simpl; lia).
  assert (Hsz3 : (Z.to_nat c2 + 8
                  + Z.to_nat (Z.of_nat (length chunk_offsets) * 1) * csize u32
                  = Z.to_nat c3)%nat) by (simpl; lia).
  assert (Hsz0 : (Z.to_nat 0 + 8 + Z.to_nat (4 * 1) * csize u64
                  <= Z.to_nat METADATA_SIZE)%nat) by (simpl; lia).
  (* the offsets *)
  pose proof (load_after_save u64 is_u64 u64_length u64_decode
                _ _ _ _ _ _ _ _ H4b H1b Hcb W4) as L0.
  (* the pivots *)
  pose proof (load_after_save f32 _ f32_length f32_round_trip
                _ _ _ _ _ _ _ _ HKb HDb (all_floats_valid _) W1) as L1.
  fold n1 in L1.
  pose proof (load_beside_save f32 _ f32_length f32
                _ _ _ _ _ _ _ _ _ _ _ _ HDb H1b
                (all_floats_valid _) W2 L1
                ltac:(left; fold n1; lia)) as L1'.
  pose proof (load_beside_save u32 is_u32 u32_length f32
                _ _ _ _ _ _ _ _ _ _ _ _ HOb H1b
                HO W3 L1' ltac:(left; fold n1; lia)) as L1''.
  pose proof (load_beside_save u64 is_u64 u64_length f32
                _ _ _ _ _ _ _ _ _ _ _ _ H4b H1b
                Hcb W4 L1'' ltac:(right; lia)) as L1'''.
  (* the mean *)
  pose proof (load_after_save f32 _ f32_length f32_round_trip
                _ _ _ _ _ _ _ _ HDb H1b (all_floats_valid _) W2) as L2.
  pose proof (load_beside_save u32 is_u32 u32_length f32
                _ _ _ _ _ _ _ _ _ _ _ _ HOb H1b
                HO W3 L2 ltac:(left; lia)) as L2'.
  pose proof (load_beside_save u64 is_u64 u64_length f32
                _ _ _ _ _ _ _ _ _ _ _ _ H4b H1b
                Hcb W4 L2' ltac:(right; lia)) as L2''.
  (* the chunk offsets *)
  pose proof (load_after_save u32 is_u32 u32_length u32_decode
                _ _ _ _ _ _ _ _ HOb H1b HO W3) as L3.
  pose proof (load_beside_save u64 is_u64 u64_length u32
                _ _ _ _ _ _ _ _ _ _ _ _ H4b H1b
                Hcb W4 L3 ltac:(right; lia)) as L3'.
  split; [exact L0|].
  split.
  { rewrite L1'''. do 3 f_equal. unfold n1.
    by rewrite <- Nat2Z.inj_mul, Nat2Z.id. }
  split.
  { rewrite L2''. do 3 f_equal. by rewrite Z.mul_1_r, Nat2Z.id. }
  rewrite L3'. rewrite Z.mul_1_r, Nat2Z.id, firstn_all. done.
Qed.

End SavePivots.

(** ** What the trainers keep *)
Section Preserves.
Import Trainer.
Context {F Dbl : Type} {O : FloatOps F Dbl} {B : FloatBytes F}.
Variable I : (buffer -> list F) -> Prop.
#[local] Abbreviation M := (Trainer.M (F := F)).

Lemma ignores_weaken (b : buffer) : ignores I b -> ignores_contents I b.
Proof. intros H h l Hh _. by apply H. Qed.

Lemma preserves_ret {A : Type} (a : A) : preserves I (mret a : M A).
Proof. by intros s Hs. Qed.

Lemma preserves_bind {A C : Type} (m : M A) (f : A -> M C) :
  preserves I m -> (forall a, preserves I (f a)) -> preserves I (m ≫= f).
Proof.
  intros Hm Hf s Hs. specialize (Hm s Hs).
  unfold mbind, M_bind. destruct (m s) as [[a|?|?|] s1]; simpl in *; try done.
  by apply Hf.
Qed.

Lemma preserves_lift {A : Type} (r : result A) : preserves I (lift r : M A).
Proof. by intros s Hs. Qed.

Lemma preserves_throw {A : Type} (what : string) :
  preserves I (throw what : M A).
Proof. by intros s Hs. Qed.

Lemma preserves_print (line : string) : preserves I (print line).
Proof. by intros s Hs. Qed.

Lemma preserves_get_buf (b : buffer) : preserves I (get_buf b).
Proof. by intros s Hs. Qed.

Lemma preserves_rd (b : buffer) (i : nat) : preserves I (rd b i).
Proof. by intros s Hs. Qed.

Lemma preserves_m_file_exists (name : string) :
  preserves I (m_file_exists name).
Proof. by intros s Hs. Qed.

Lemma preserves_m_load_bin {T : Type} (c : codec T) (name : string)
    (offset : Z) : preserves I (m_load_bin c name offset).
Proof. by intros s Hs. Qed.

Lemma preserves_m_save_bin {T : Type} (c : codec T) (name : string)
    (data : list T) (npts ndims offset : Z) :
  preserves I (m_save_bin c name data npts ndims offset).
Proof.
  intros s Hs. unfold m_save_bin.
  by destruct (save_bin c (files s) name data npts ndims offset)
    as [[fs w]|?|?|].
Qed.

Lemma preserves_if {A : Type} (c : bool) (m1 m2 : M A) :
  preserves I m1 -> preserves I m2 -> preserves I (if c then m1 else m2).
Proof. by destruct c. Qed.

Lemma preserves_for_M {A : Type} (l : list A) (body : A -> M unit) :
  (forall a, preserves I (body a)) -> preserves I (for_M l body).
Proof.
  intros Hbody. induction l as [|a l IH]; simpl.
  - apply preserves_ret.
  - apply preserves_bind; [apply Hbody|]. by intros _.
Qed.

Lemma preserves_set_buf (b : buffer) (l : list F) :
  ignores I b -> preserves I (set_buf b l).
Proof. intros Hb s Hs. by apply Hb. Qed.

Lemma preserves_wr (b : buffer) (i : nat) (v : F) :
  ignores_contents I b -> preserves I (wr b i v).
Proof.
  intros Hb s Hs. unfold wr. case_decide; [|done]. simpl.
  apply Hb; [done|]. by rewrite length_insert.
Qed.

Lemma preserves_memcpy (dst : buffer) (doff : nat) (src : buffer)
    (soff n : nat) :
  ignores_contents I dst -> preserves I (memcpy dst doff src soff n).
Proof.
  intros Hb s Hs. unfold memcpy. case_decide as Hn; [|done]. simpl.
  apply Hb; [done|].
  rewrite !length_app, !length_take, !length_drop. lia.
Qed.

Lemma preserves_filled (b : buffer) (l : list F) :
  ignores_contents I b -> preserves I (filled b l).
Proof.
  intros Hb s Hs. unfold filled. case_decide; [|done]. simpl. by apply Hb.
Qed.

Lemma preserves_clear (b : buffer) (n : nat) :
  ignores I b -> preserves I (clear b n).
Proof.
  intros Hb. unfold clear.
  apply preserves_bind; [apply preserves_get_buf|]. intros l.
  apply preserves_bind; [apply preserves_lift|]. intros l'.
  by apply preserves_set_buf.
Qed.

Lemma preserves_save_pivots (METADATA_SIZE : Z) (path : string)
    (chunk_offsets : list Z) (num_centers dim : nat) :
  preserves I (save_pivots METADATA_SIZE path chunk_offsets num_centers dim).
Proof.
  intros s Hs. unfold save_pivots. cbv zeta.
  repeat (match goal with
          | |- context [match ?r with Ok _ => _ | Throw _ => _
                                  | Exit _ => _ | Undef => _ end] =>
              destruct r as [[? ?]|?|?|]
          end; try done).
Qed.

End Preserves.

(** Walk through a computation, leaving what must hold of the property for
    the arrays that are written. *)
Ltac keeps_step :=
  lazymatch goal with
  | |- Trainer.preserves _ (mbind _ _) =>
      apply preserves_bind; [|intros ?; cbv beta]
  | |- Trainer.preserves _ (mret _) => apply preserves_ret
  | |- Trainer.preserves _ (Trainer.for_M _ _) =>
      apply preserves_for_M; intros ?
  | |- Trainer.preserves _ (if _ then _ else _) => apply preserves_if
  | |- Trainer.preserves _ (match ?x with _ => _ end) => destruct x
  | |- Trainer.preserves _ (let _ := _ in _) => cbv zeta
  | |- Trainer.preserves _ (Trainer.set_buf _ _) => apply preserves_set_buf
  | |- Trainer.preserves _ (Trainer.wr _ _ _) => apply preserves_wr
  | |- Trainer.preserves _ (Trainer.memcpy _ _ _ _ _) =>
      apply preserves_memcpy
  | |- Trainer.preserves _ (Trainer.filled _ _) => apply preserves_filled
  | |- Trainer.preserves _ (Trainer.clear _ _) => apply preserves_clear
  | |- Trainer.preserves _ (Trainer.print _) => apply preserves_print
  | |- Trainer.preserves _ (Trainer.lift _) => apply preserves_lift
  | |- Trainer.preserves _ (Trainer.throw _) => apply preserves_throw
  | |- Trainer.preserves _ (Trainer.get_buf _) => apply preserves_get_buf
  | |- Trainer.preserves _ (Trainer.rd _ _) => apply preserves_rd
  | |- Trainer.preserves _ (Trainer.m_file_exists _) =>
      apply preserves_m_file_exists
  | |- Trainer.preserves _ (Trainer.m_load_bin _ _ _) =>
      apply preserves_m_load_bin
  | |- Trainer.preserves _ (Trainer.m_save_bin _ _ _ _ _ _) =>
      apply preserves_m_save_bin
  | |- Trainer.preserves _ (Trainer.save_pivots _ _ _ _ _) =>
      apply preserves_save_pivots
  | |- Trainer.preserves _ (Trainer.copy_train_data _ _) =>
      unfold Trainer.copy_train_data
  | |- Trainer.preserves _ (Trainer.check_copy _ _) =>
      unfold Trainer.check_copy
  | |- Trainer.preserves _ (Trainer.center_train_data _ _ _) =>
      unfold Trainer.center_train_data
  | |- Trainer.preserves _ (Trainer.chunk_size _ _) =>
      unfold Trainer.chunk_size
  end.

Section Frame.
Import Trainer.
Context {F Dbl : Type} {O : FloatOps F Dbl} {B : FloatBytes F}.

Lemma passed_is_ignores (v : list F) (b : buffer) :
  b <> passed_train_data -> ignores (passed_is v) b.
Proof.
  intros Hb h l Hh. unfold passed_is, upd. by case_decide.
Qed.

Lemma passed_is_ignores_contents (v : list F) (b : buffer) :
  b <> passed_train_data -> ignores_contents (passed_is v) b.
Proof. intros Hb. by apply ignores_weaken, passed_is_ignores. Qed.

End Frame.

Ltac keeps_passed :=
  repeat keeps_step;
  try (apply passed_is_ignores; discriminate);
  try (apply passed_is_ignores_contents; discriminate).

(** C9. Neither trainer writes to the caller's training array: however
    the call ends, [passed_train_data] holds what it held before. The
    routines of other files are given the private arrays only. *)
Theorem trainers_keep_passed_train_data {F Dbl : Type} {O : FloatOps F Dbl}
    {B : FloatBytes F}
    (METADATA_SIZE : Z) (MAX_OPQ_ITERS : nat) (indeterminate : nat -> F)
    (kmeanspp_selecting_pivots : list F -> nat -> nat -> list F -> nat -> list F)
    (run_lloyds : list F -> nat -> nat -> list F -> nat -> nat
                  -> list F * list Z)
    (cblas_sgemm : bool -> nat -> nat -> nat -> list F -> nat -> list F -> nat
                   -> list F -> nat -> list F)
    (LAPACKE_sgesdd : nat -> nat -> list F -> nat
                      -> Z * list F * list F * list F * list F)
    (num_train dim num_centers num_pq_chunks max_k_means_reps : nat)
    (pivots_path : string) (make_zero_mean : bool) (s : Trainer.state) :
  Trainer.heap
    (Trainer.generate_pq_pivots METADATA_SIZE indeterminate
       kmeanspp_selecting_pivots run_lloyds
       num_train dim num_centers num_pq_chunks max_k_means_reps
       pivots_path make_zero_mean s).2 Trainer.passed_train_data
  = Trainer.heap s Trainer.passed_train_data /\
  Trainer.heap
    (Trainer.generate_opq_pivots METADATA_SIZE MAX_OPQ_ITERS indeterminate
       kmeanspp_selecting_pivots run_lloyds cblas_sgemm LAPACKE_sgesdd
       num_train dim num_centers num_pq_chunks
       pivots_path make_zero_mean s).2 Trainer.passed_train_data
  = Trainer.heap s Trainer.passed_train_data.
Proof.
  set (v := Trainer.heap s Trainer.passed_train_data).
  split.
  - assert (H : Trainer.preserves (Trainer.passed_is v)
                  (Trainer.generate_pq_pivots METADATA_SIZE indeterminate
                     kmeanspp_selecting_pivots run_lloyds
                     num_train dim num_centers num_pq_chunks
                     max_k_means_reps pivots_path make_zero_mean)).
    { unfold Trainer.generate_pq_pivots. keeps_passed. }
    exact (H s eq_refl).
  - assert (H : Trainer.preserves (Trainer.passed_is v)
                  (Trainer.generate_opq_pivots METADATA_SIZE MAX_OPQ_ITERS
                     indeterminate kmeanspp_selecting_pivots run_lloyds
                     cblas_sgemm LAPACKE_sgesdd
                     num_train dim num_centers num_pq_chunks
                     pivots_path make_zero_mean)).
    { unfold Trainer.generate_opq_pivots. keeps_passed. }
    exact (H s eq_refl).
Qed.

(** ** A successful run of [generate_pq_pivots] *)
Section TrainerRun.
Import Trainer.
Context {F Dbl : Type} {O : FloatOps F Dbl} {B : FloatBytes F}.
#[local] Abbreviation M := (Trainer.M (F := F)).

Lemma bind_Ok_inv {A C : Type} (m : M A) (f : A -> M C) (s s' : state)
    (c : C) :
  (m ≫= f) s = (Ok c, s') ->
  exists a s1, m s = (Ok a, s1) /\ f a s1 = (Ok c, s').
Proof.
  unfold mbind, M_bind. destruct (m s) as [[a|?|?|] s1]; try done. eauto.
Qed.

Lemma has_length_ignores (b b' : buffer) (n : nat) :
  b' <> b -> ignores (has_length (F := F) b n) b'.
Proof.
  intros Hb h l Hh. unfold has_length, upd. by case_decide.
Qed.

Lemma has_length_ignores_contents (b b' : buffer) (n : nat) :
  ignores_contents (has_length (F := F) b n) b'.
Proof.
  intros h l Hh Hl. unfold has_length, upd in *. case_decide; [|done].
  subst b'. lia.
Qed.

Variable METADATA_SIZE : Z.
Variable indeterminate : nat -> F.
Variable kmeanspp_selecting_pivots :
  list F -> nat -> nat -> list F -> nat -> list F.
Variable run_lloyds :
  list F -> nat -> nat -> list F -> nat -> nat -> list F * list Z.

(** A run that returns 0 has computed the partition and has saved, last,
    the arrays [full_pivot_data] and [centroid] as they are after it. *)
Lemma generate_pq_pivots_Ok
    (num_train dim num_centers num_pq_chunks max_k_means_reps : nat)
    (path : string) (make_zero_mean : bool) (s s' : state) :
  generate_pq_pivots METADATA_SIZE indeterminate kmeanspp_selecting_pivots
    run_lloyds num_train dim num_centers num_pq_chunks max_k_means_reps
    path make_zero_mean s = (Ok 0%Z, s') ->
  exists chunk_offsets s8 s9 cumul_bytes,
    Partition.chunk_partition dim num_pq_chunks = Some chunk_offsets /\
    save_pivots METADATA_SIZE path chunk_offsets num_centers dim s8
      = (Ok cumul_bytes, s9) /\
    heap s' = heap s9 /\ files s' = files s9 /\
    length (heap s8 centroid) = dim /\
    length (heap s8 full_pivot_data)
      = Z.to_nat (wrap32 (Z.of_nat num_centers * Z.of_nat dim)) /\
    num_pq_chunks <= dim.
Proof.
  unfold generate_pq_pivots. intros H.
  destruct (Nat.ltb_spec dim num_pq_chunks) as [|Hle]; [done|].
  apply bind_Ok_inv in H as (_ & s1 & _ & H).
  apply bind_Ok_inv in H as (_ & s2 & _ & H).
  apply bind_Ok_inv in H as (present & s3 & _ & H).
  apply bind_Ok_inv in H as (again & s4 & _ & H).
  destruct again; [done|].
  apply bind_Ok_inv in H as ([] & s5 & Hcenter & H).
  apply bind_Ok_inv in H as (chunk_offsets & s6 & Hpart & H).
  apply bind_Ok_inv in H as ([] & s7 & Halloc & H).
  apply bind_Ok_inv in H as ([] & s8 & Hloop & H).
  apply bind_Ok_inv in H as (cumul_bytes & s9 & Hsave & H).
  injection H as <-.
  (* the partition *)
  unfold lift in Hpart.
  destruct (Partition.chunk_partition dim num_pq_chunks) as [co|] eqn:Hco;
    [|done].
  injection Hpart as Hco' Hs6. subst co s6.
  exists chunk_offsets, s8, s9, cumul_bytes.
  split; [done|]. split; [done|]. split; [done|]. split; [done|].
  (* the mean has [dim] cells *)
  unfold center_train_data in Hcenter.
  apply bind_Ok_inv in Hcenter as ([] & s4' & Hset & Hcenter).
  injection Hset as <-.
  assert (Hc5 : has_length centroid dim (heap s5)).
  { replace s5 with
      ((for_M (seq 0 dim) (fun d => wr centroid d fzero);;
        if make_zero_mean then
          for_M (seq 0 dim) (fun d =>
            for_M (seq 0 num_train) (fun p =>
              c ← rd centroid d;
              x ← rd train_data (p * dim + d);
              wr centroid d (fadd c x));;
            c ← rd centroid d;
            wr centroid d (fdiv c (f_of_int (Z.of_nat num_train))));;
          for_M (seq 0 dim) (fun d =>
            for_M (seq 0 num_train) (fun p =>
              x ← rd train_data (p * dim + d);
              c ← rd centroid d;
              wr train_data (p * dim + d) (fsub x c)))
        else mret ())
         (set_heap centroid (replicate dim fzero) s4)).2
      by (by rewrite Hcenter).
    match goal with
    | |- has_length _ _ (heap (?m ?s0).2) =>
        assert (Hp : preserves (has_length centroid dim) m)
    end.
    { repeat keeps_step; apply has_length_ignores_contents. }
    apply Hp. unfold has_length. simpl. unfold upd.
    case_decide; [|done]. by rewrite length_replicate. }
  injection Halloc as <-.
  set (n := Z.to_nat (wrap32 (Z.of_nat num_centers * Z.of_nat dim))) in *.
  match type of Hloop with
  | ?m ?s0 = _ =>
      assert (Hp1 : preserves (has_length centroid dim) m);
      [|assert (Hp2 : preserves (has_length full_pivot_data n) m)]
  end.
  { repeat keeps_step;
      try apply has_length_ignores_contents;
      apply has_length_ignores; discriminate. }
  { repeat keeps_step;
      try apply has_length_ignores_contents;
      apply has_length_ignores; discriminate. }
  split; [|split; [|done]].
  - specialize (Hp1 (set_heap full_pivot_data (indeterminate <$> seq 0 n) s5)).
    rewrite Hloop in Hp1. apply Hp1.
    apply has_length_ignores; [discriminate|done].
  - specialize (Hp2 (set_heap full_pivot_data (indeterminate <$> seq 0 n) s5)).
    rewrite Hloop in Hp2. apply Hp2.
    unfold has_length. simpl. unfold upd. case_decide; [|done].
    by rewrite length_fmap, length_seq.
Qed.

End TrainerRun.

Lemma F32_bytes_ok : FloatBytesOk F32.t.
Proof.
  split.
  - by intros [[[a b] c] d].
  - by intros [[[a b] c] d].
Qed.

Lemma chunk_partition_u32 (dim num_pq_chunks : nat) (chunk_offsets : list Z) :
  Partition.chunk_partition dim num_pq_chunks = Some chunk_offsets ->
  num_pq_chunks <= dim -> (Z.of_nat dim < 2 ^ 32)%Z ->
  length chunk_offsets = num_pq_chunks + 1 /\ Forall is_u32 chunk_offsets.
Proof.
  intros Hpart Hle Hdim.
  assert (1 <= num_pq_chunks).
  { destruct num_pq_chunks; [|lia]. done. }
  destruct (chunk_partition_sums dim num_pq_chunks) as (Hsum & Hlen & Hclosed);
    [lia|done|].
  rewrite Hclosed in Hpart. apply (inj Some) in Hpart. subst chunk_offsets.
  split; [rewrite length_fmap, length_seq; lia|].
  apply Forall_fmap, Forall_forall. intros i _. unfold is_u32. simpl.
  match goal with
  | |- (_ <= Z.of_nat (sum_list (take i ?l)) < _)%Z =>
      pose proof (take_sum_le l i)
  end.
  lia.
Qed.

(** C2 as the specification words it fails for a number of centres other
    than 256: the training succeeds and [load_pq_centroid_bin] throws. *)
Lemma pivots_of_two_centres_not_loaded :
  (Example.train 2 1 ∅).1 = Ok 0%Z /\
  load_pq_centroid_bin (fun _ => fzero)
    (Trainer.files (Example.train 2 1 ∅).2) "pq_pivots.bin" 1
  = Throw "Error reading pq_pivots file at pivots data.".
Proof. split; vm_compute; reflexivity. Qed.

(** The transposed table of a successful load. *)
Lemma loaded_transpose {F Dbl : Type} {O : FloatOps F Dbl} {B : FloatBytes F}
    (indeterminate : nat -> F) (fs : gmap string (list byte))
    (pq_table_file : string) (num_chunks : Z) (t : FixedChunkPQTable) :
  load_pq_centroid_bin indeterminate fs pq_table_file num_chunks = Ok t ->
  forall c j, c < 256 -> j < Z.to_nat (ndims t) ->
    tables_tr t !! (j * 256 + c) = tables t !! (c * Z.to_nat (ndims t) + j) /\
    is_Some (tables t !! (c * Z.to_nat (ndims t) + j)).
Proof.
  intros (offset0 & Htab & Htr)%load_pq_centroid_bin_Ok c j Hc Hj.
  destruct (load_bin_shape _ _ _ _ _ _ _ Htab) as (Hlen & _ & Hnd).
  assert (Hlen' : length (tables t) = 256 * Z.to_nat (ndims t)).
  { rewrite Hlen. unfold NUM_PQ_CENTROIDS. lia. }
  destruct (transpose_tables_cells (tables t) (Z.to_nat (ndims t))
              (new_floats indeterminate (256 * Z.to_nat (ndims t))) Hlen')
    as (tr & Htr' & _ & Hcells).
  { unfold new_floats. by rewrite length_fmap, length_seq. }
  rewrite Htr in Htr'. injection Htr' as <-. by apply Hcells.
Qed.

(** The pivots that are saved are all in the array. *)
Lemma save_pivots_fits {F Dbl : Type} {O : FloatOps F Dbl} {B : FloatBytes F}
    (METADATA_SIZE : Z) (path : string) (chunk_offsets : list Z)
    (num_centers dim : nat) (s s' : Trainer.state (F := F))
    (cumul_bytes : list Z) :
  Trainer.save_pivots METADATA_SIZE path chunk_offsets num_centers dim s
    = (Ok cumul_bytes, s') ->
  Z.to_nat (wrap64 (Z.of_nat num_centers * Z.of_nat dim))
  <= length (Trainer.heap s Trainer.full_pivot_data).
Proof.
  unfold Trainer.save_pivots, save_bin. cbv zeta.
  case_decide; [done|]. done.
Qed.

(** C2 (amended). After a run of [generate_pq_pivots] that returns 0 for
    256 centres, with no rotation file of another shape beside the pivot
    file, [load_pq_centroid_bin] with the chunk count of the run, or 0,
    succeeds: [tables] is the array [full_pivot_data] of the run,
    [centroid] its array [centroid], [chunk_offsets] its chunk offsets,
    and [tables_tr] is [tables] transposed. *)
Theorem pivots_round_trip {F Dbl : Type} {O : FloatOps F Dbl}
    {B : FloatBytes F}
    (METADATA_SIZE : Z) (indeterminate indeterminate' : nat -> F)
    (kmeanspp_selecting_pivots : list F -> nat -> nat -> list F -> nat -> list F)
    (run_lloyds : list F -> nat -> nat -> list F -> nat -> nat
                  -> list F * list Z)
    (num_train dim num_centers num_pq_chunks max_k_means_reps : nat)
    (path : string) (make_zero_mean : bool) (s : Trainer.state)
    (num_chunks : Z) :
  let run :=
    Trainer.generate_pq_pivots METADATA_SIZE indeterminate
      kmeanspp_selecting_pivots run_lloyds
      num_train dim num_centers num_pq_chunks max_k_means_reps
      path make_zero_mean s in
  FloatBytesOk F ->
  (40 <= METADATA_SIZE < 2 ^ 32)%Z ->
  (Z.of_nat dim < 2 ^ 32)%Z ->
  num_centers = 256 ->
  run.1 = Ok 0%Z ->
  num_chunks = 0%Z \/ num_chunks = Z.of_nat num_pq_chunks ->
  rotation_file_ok (F := F) (Trainer.files run.2) path (Z.of_nat dim) ->
  exists t chunk_offsets_trained,
    load_pq_centroid_bin indeterminate' (Trainer.files run.2) path num_chunks
      = Ok t /\
    Partition.chunk_partition dim num_pq_chunks = Some chunk_offsets_trained /\
    tables t = Trainer.heap run.2 Trainer.full_pivot_data /\
    centroid t = Trainer.heap run.2 Trainer.centroid /\
    chunk_offsets t = chunk_offsets_trained /\
    ndims t = Z.of_nat dim /\
    n_chunks t = Z.of_nat num_pq_chunks /\
    forall c j, c < 256 -> j < dim ->
      tables_tr t !! (j * 256 + c) = tables t !! (c * dim + j) /\
      is_Some (tables t !! (c * dim + j)).
Proof.
  intros run BOk HM HD HK Hrun Hnum Hrot.
  destruct run as [r s'] eqn:Erun. simpl in Hrun, Hrot |- *. subst r.
  destruct (generate_pq_pivots_Ok _ _ _ _ _ _ _ _ _ _ _ _ _ Erun)
    as (co & s8 & s9 & cb & Hpart & Hsave & Hheap & Hfiles & Hlenc & Hlenf
        & Hle).
  destruct (chunk_partition_u32 _ _ _ Hpart Hle HD) as (Hlenco & Hu32).
  assert (Hsmall : (Z.of_nat dim < 2 ^ 24)%Z).
  { pose proof (save_pivots_fits _ _ _ _ _ _ _ _ Hsave) as Hfit.
    rewrite Hlenf in Hfit. subst num_centers.
    unfold wrap64, wrap32 in Hfit.
    rewrite (Z.mod_small (Z.of_nat 256 * Z.of_nat dim) (2 ^ 64)) in Hfit
      by lia.
    pose proof (Z.mod_pos_bound (Z.of_nat 256 * Z.of_nat dim) (2 ^ 32)
                  ltac:(lia)).
    lia. }
  destruct (save_pivots_loads METADATA_SIZE path co num_centers dim s8 s9 cb)
    as (c1 & c2 & c3 & -> & Hheap9 & Hn1 & Hn2 & L0 & L1 & L2 & L3);
    [done|lia|done|lia|done|done|].
  rewrite Hfiles in *. rewrite Hheap, Hheap9.
  rewrite firstn_all2 in L1.
  2:{ rewrite Hlenf. unfold wrap32.
      pose proof (Z.mod_le (Z.of_nat num_centers * Z.of_nat dim) (2 ^ 32)
                    ltac:(lia) ltac:(lia)).
      lia. }
  rewrite firstn_all2 in L2 by lia.
  subst num_centers.
  destruct (load_pq_centroid_bin_intro indeterminate' (Trainer.files s9)
              path num_chunks false METADATA_SIZE c1 c2 0%Z c3 1%Z
              (Trainer.heap s8 Trainer.full_pivot_data)
              (Trainer.heap s8 Trainer.centroid) co
              (Z.of_nat dim) (Z.of_nat (length co)))
    as (t & Hload & Htab & Hcen & Hco & Hdim & Hn);
    [exact L0|exact L1|exact L2|exact L3| |exact Hrot|].
  { destruct Hnum as [->| ->]; [by left|right].
    rewrite Hlenco. unfold wrap64. rewrite Z.mod_small; lia. }
  exists t, co. split; [done|]. split; [done|]. split; [done|].
  split; [done|]. split; [done|]. split; [done|]. split.
  { rewrite Hn, Hlenco. unfold wrap64. rewrite Z.mod_small; lia. }
  intros c j Hc Hj.
  pose proof (loaded_transpose _ _ _ _ _ Hload c j Hc) as Htr.
  rewrite Hdim, Nat2Z.id in Htr. by apply Htr.
Qed.

Lemma pivots_round_trip_witness :
  (Example.train 256 1 ∅).1 = Ok 0%Z /\
  exists t chunk_offsets_trained,
    load_pq_centroid_bin (fun _ => fzero)
      (Trainer.files (Example.train 256 1 ∅).2) "pq_pivots.bin" 1 = Ok t /\
    Partition.chunk_partition 2 1 = Some chunk_offsets_trained /\
    tables t = Trainer.heap (Example.train 256 1 ∅).2 Trainer.full_pivot_data /\
    centroid t = Trainer.heap (Example.train 256 1 ∅).2 Trainer.centroid /\
    chunk_offsets t = chunk_offsets_trained /\
    ndims t = Z.of_nat 2 /\
    n_chunks t = Z.of_nat 1 /\
    forall c j, c < 256 -> j < 2 ->
      tables_tr t !! (j * 256 + c) = tables t !! (c * 2 + j) /\
      is_Some (tables t !! (c * 2 + j)).
Proof.
  split; [vm_compute; reflexivity|].
  apply (pivots_round_trip Example.METADATA_SIZE (fun _ => fzero)
           (fun _ => fzero) Example.kmeanspp Example.lloyds
           2 2 256 1 1 "pq_pivots.bin" true (Example.start ∅) 1).
  - exact F32_bytes_ok.
  - unfold Example.METADATA_SIZE. lia.
  - lia.
  - reflexivity.
  - vm_compute. reflexivity.
  - right. reflexivity.
  - left. vm_compute. reflexivity.
Defined.

Lemma loaded_tables_tr_is_transpose_witness :
  exists t : FixedChunkPQTable (F := F32.t),
    load_pq_centroid_bin (fun _ => fzero) Example.trained_files
      "pq_pivots.bin" 1 = Ok t /\
    ndims t = 2%Z /\
    tables_tr t !! (1 * 256 + 3) = tables t !! (3 * Z.to_nat (ndims t) + 1) /\
    is_Some (tables t !! (3 * Z.to_nat (ndims t) + 1)).
Proof.
  destruct (load_pq_centroid_bin (fun _ => fzero : F32.t)
              Example.trained_files "pq_pivots.bin" 1) as [t| | |] eqn:H.
  - assert (Hd : ndims t = 2%Z).
    { pose proof H as H'. vm_compute in H'. injection H' as H'.
      rewrite <- H'. reflexivity. }
    exists t. split; [reflexivity|]. split; [exact Hd|].
    apply (loaded_tables_tr_is_transpose (fun _ => fzero)
             Example.trained_files "pq_pivots.bin" 1 t H 3 1).
    + lia.
    + rewrite Hd. simpl. lia.
  - vm_compute in H. discriminate H.
  - vm_compute in H. discriminate H.
  - vm_compute in H. discriminate H.
Defined.

(** ** The early returns of [generate_pq_pivots] *)
Section EarlyReturns.
Import Trainer.
Context {F Dbl : Type} {O : FloatOps F Dbl} {B : FloatBytes F}.
#[local] Abbreviation M := (Trainer.M (F := F)).

Lemma bind_run {A C : Type} (m : M A) (f : A -> M C) (s s1 : state) (a : A) :
  m s = (Ok a, s1) -> (m ≫= f) s = f a s1.
Proof. intros H. unfold mbind, M_bind. by rewrite H. Qed.

Lemma for_M_run {A : Type} (P : state -> Prop) (l : list A)
    (body : A -> M unit) :
  (forall a s, a ∈ l -> P s -> exists s', body a s = (Ok (), s') /\ P s') ->
  forall s, P s -> exists s', for_M l body s = (Ok (), s') /\ P s'.
Proof.
  induction l as [|a l IH]; intros Hbody s Hs.
  - exists s. done.
  - destruct (Hbody a s) as (s1 & Hrun & Hs1); [left|done|].
    destruct (IH (fun a' s' Ha' => Hbody a' s' (list_elem_of_further _ _ _ Ha'))
                s1 Hs1) as (s2 & Hrun2 & Hs2).
    exists s2. split; [|done]. simpl. by rewrite (bind_run _ _ _ _ _ Hrun).
Qed.

(** The copy and its check succeed when the caller's array holds the
    training set; they change neither the files nor the caller's array. *)
Lemma copy_and_check (num_train dim : nat) (s : state) :
  num_train * dim <= length (heap s passed_train_data) ->
  exists s1 s2,
    copy_train_data num_train dim s = (Ok (), s1) /\
    check_copy num_train dim s1 = (Ok (), s2) /\
    files s2 = files s.
Proof.
  intros Hlen. unfold copy_train_data.
  assert (Hcopy : exists s1,
            (set_buf train_data (replicate (num_train * dim) fzero);;
             memcpy train_data 0 passed_train_data 0 (num_train * dim)) s
            = (Ok (), s1) /\
            files s1 = files s /\
            num_train * dim <= length (heap s1 passed_train_data) /\
            num_train * dim <= length (heap s1 train_data)).
  { eexists. split.
    - erewrite bind_run by reflexivity. unfold memcpy.
      rewrite decide_True; [reflexivity|].
      simpl. unfold upd. simpl. rewrite length_replicate. lia.
    - split; [done|]. simpl. unfold upd. simpl.
      split; [done|].
      rewrite !length_app, !length_take, !length_drop, length_replicate.
      lia. }
  destruct Hcopy as (s1 & Hcopy & Hfiles1 & Hp1 & Ht1).
  set (P := fun s' : state => heap s' = heap s1 /\ files s' = files s1).
  destruct (for_M_run P (seq 0 num_train)
              (fun i =>
                 for_M (seq 0 dim) (fun j =>
                   a ← rd passed_train_data (i * dim + j);
                   b ← rd train_data (i * dim + j);
                   if fneq a b then print "error in copy" else mret ()))
              ) with (s := s1) as (s2 & Hcheck & Hheap2 & Hfiles2).
  { intros i s' Hi%list_elem_of_In%in_seq Hs'.
    apply (for_M_run P); [|done].
    intros j s'' Hj%list_elem_of_In%in_seq [Hh Hf].
    destruct (lookup_lt_is_Some_2 (heap s1 passed_train_data) (i * dim + j))
      as [a Ha]; [nia|].
    destruct (lookup_lt_is_Some_2 (heap s1 train_data) (i * dim + j))
      as [b Hb]; [nia|].
    assert (Hrda : rd passed_train_data (i * dim + j) s'' = (Ok a, s'')).
    { unfold rd. by rewrite Hh, Ha. }
    assert (Hrdb : rd train_data (i * dim + j) s'' = (Ok b, s'')).
    { unfold rd. by rewrite Hh, Hb. }
    rewrite (bind_run _ _ _ _ _ Hrda), (bind_run _ _ _ _ _ Hrdb).
    destruct (fneq a b); eexists; (split; [reflexivity|]); done. }
  { done. }
  exists s1, s2. split; [done|]. split; [exact Hcheck|congruence].
Qed.

End EarlyReturns.

(** C5 as the specification words it: the value returned when the pivots
    exist already is the value returned for [M > D], -1. *)
Lemma skip_returns_the_error_value :
  (Example.train 256 3 ∅).1 = Ok (-1)%Z /\
  (Example.train 256 1 Example.trained_files).1 = Ok (-1)%Z /\
  (Example.train 256 1 Example.trained_files).1 = (Example.train 256 3 ∅).1.
Proof. repeat split; vm_compute; reflexivity. Qed.

(** C5 (amended). [generate_pq_pivots] returns -1 for [M > D], and it
    returns the same -1, leaving the files as they are, when a pivot file
    with matching [(K, D)] exists: the two outcomes differ in the line
    written to [diskann::cout], not in the value returned. *)
Theorem generate_pq_pivots_rejects_and_skips {F Dbl : Type}
    {O : FloatOps F Dbl} {B : FloatBytes F}
    (METADATA_SIZE : Z) (indeterminate : nat -> F)
    (kmeanspp_selecting_pivots : list F -> nat -> nat -> list F -> nat -> list F)
    (run_lloyds : list F -> nat -> nat -> list F -> nat -> nat
                  -> list F * list Z)
    (num_train dim num_centers num_pq_chunks max_k_means_reps : nat)
    (path : string) (make_zero_mean : bool) (s : Trainer.state) :
  let run :=
    Trainer.generate_pq_pivots METADATA_SIZE indeterminate
      kmeanspp_selecting_pivots run_lloyds
      num_train dim num_centers num_pq_chunks max_k_means_reps
      path make_zero_mean s in
  (dim < num_pq_chunks ->
   run = (Ok (-1)%Z,
          Trainer.State (Trainer.heap s) (Trainer.files s)
            (Trainer.cout s
               ++ [" Error: number of chunks more than dimension"]))) /\
  (num_pq_chunks <= dim ->
   num_train * dim <= length (Trainer.heap s Trainer.passed_train_data) ->
   (exists data : list F,
      load_bin f32 (Trainer.files s) path METADATA_SIZE
        = Ok (data, Z.of_nat num_centers, Z.of_nat dim)) ->
   run.1 = Ok (-1)%Z /\
   Trainer.files run.2 = Trainer.files s /\
   last (Trainer.cout run.2)
     = Some "PQ pivot file exists. Not generating again").
Proof.
  intros run. subst run. unfold Trainer.generate_pq_pivots. split.
  - intros Hlt. apply Nat.ltb_lt in Hlt. rewrite Hlt. reflexivity.
  - intros Hle Hlen [data Hload].
    apply Nat.ltb_ge in Hle. rewrite Hle.
    destruct (copy_and_check num_train dim s Hlen)
      as (s1 & s2 & Hcopy & Hcheck & Hfiles).
    rewrite (bind_run _ _ _ _ _ Hcopy), (bind_run _ _ _ _ _ Hcheck).
    assert (Hexists : Trainer.m_file_exists path s2 = (Ok true, s2)).
    { unfold Trainer.m_file_exists, file_exists. rewrite Hfiles.
      rewrite bool_decide_eq_true_2; [done|].
      unfold load_bin in Hload. by destruct (Trainer.files s !! path). }
    rewrite (bind_run _ _ _ _ _ Hexists).
    assert (Hload2 : Trainer.m_load_bin f32 path METADATA_SIZE s2
                     = (Ok (data, Z.of_nat num_centers, Z.of_nat dim), s2)).
    { unfold Trainer.m_load_bin. by rewrite Hfiles, Hload. }
    match goal with
    | |- context [(?m ≫= ?f) s2] =>
        assert (Hagain : m s2
          = (Ok true,
             Trainer.State
               (Trainer.upd Trainer.full_pivot_data data (Trainer.heap s2))
               (Trainer.files s2)
               (Trainer.cout s2
                  ++ ["PQ pivot file exists. Not generating again"])));
        [|rewrite (bind_run m f _ _ _ Hagain)]
    end.
    { rewrite (bind_run _ _ _ _ _ Hload2). rewrite !Z.eqb_refl. reflexivity. }
    cbn [fst snd Trainer.files Trainer.cout mret Trainer.M_ret].
    split; [reflexivity|]. split; [exact Hfiles|]. by rewrite last_snoc.
Qed.

Lemma generate_pq_pivots_rejects_and_skips_witness :
  (Example.train 256 3 ∅
   = (Ok (-1)%Z,
      Trainer.State (Trainer.heap (Example.start ∅))
        (Trainer.files (Example.start ∅))
        (Trainer.cout (Example.start ∅)
           ++ [" Error: number of chunks more than dimension"]))) /\
  (Example.train 256 1 Example.trained_files).1 = Ok (-1)%Z /\
  Trainer.files (Example.train 256 1 Example.trained_files).2
    = Trainer.files (Example.start Example.trained_files) /\
  last (Trainer.cout (Example.train 256 1 Example.trained_files).2)
    = Some "PQ pivot file exists. Not generating again".
Proof.
  split.
  - apply (generate_pq_pivots_rejects_and_skips Example.METADATA_SIZE
             (fun _ => fzero) Example.kmeanspp Example.lloyds
             2 2 256 3 1 "pq_pivots.bin" true (Example.start ∅)).
    lia.
  - apply (generate_pq_pivots_rejects_and_skips Example.METADATA_SIZE
             (fun _ => fzero) Example.kmeanspp Example.lloyds
             2 2 256 1 1 "pq_pivots.bin" true
             (Example.start Example.trained_files)).
    + lia.
    + simpl. lia.
    + eexists. vm_compute. reflexivity.
Defined.

(** ** Pivot files of the legacy layout *)

(** C6 as the specification words it: the loader takes the legacy file,
    the encoder throws on it. *)
Lemma legacy_file_rejected_by_encoder :
  (exists t : FixedChunkPQTable (F := F32.t),
     load_pq_centroid_bin (fun _ => fzero) Example.legacy_files
       "pq_pivots.bin" 1 = Ok t /\
     tables t = Example.legacy_pivots /\ chunk_offsets t = [0; 2]%Z) /\
  Example.encode_legacy.1
    = Throw "Error reading pq_pivots file at offsets data.".
Proof.
  split; [|vm_compute; reflexivity].
  destruct (load_pq_centroid_bin (fun _ => fzero : F32.t)
              Example.legacy_files "pq_pivots.bin" 1) as [t| | |] eqn:H.
  - exists t. split; [reflexivity|].
    vm_compute in H. injection H as H. rewrite <- H.
    split; vm_compute; reflexivity.
  - vm_compute in H. discriminate H.
  - vm_compute in H. discriminate H.
  - vm_compute in H. discriminate H.
Qed.

(** C6 (amended). On every pivot file of the legacy layout, with five
    offsets [o0; o1; x; o2; y] and the pivots, the mean and the chunk
    offsets at [o0], [o1] and [o2], [load_pq_centroid_bin] succeeds and
    reads the chunk offsets at entry 3, whatever lies at entry 2; the
    encoder [generate_pq_data_from_pivots] takes four offsets only and
    throws on the same file. *)
Theorem legacy_pivots_loaded_not_encoded {F Dbl : Type} {O : FloatOps F Dbl}
    {B : FloatBytes F} (indeterminate : nat -> F)
    (write_codes : Z -> Z -> list Z -> Trainer.M Z)
    (s : Trainer.state (F := F)) (data_file pq_pivots_path : string)
    (num_centers num_pq_chunks : nat) (use_opq : bool)
    (num_chunks o0 o1 o2 x y nc0 dim nr : Z)
    (tab cen : list F) (co : list Z) :
  let fs := Trainer.files s in
  load_bin u64 fs pq_pivots_path 0 = Ok ([o0; o1; x; o2; y], 5, nc0)%Z ->
  load_bin f32 fs pq_pivots_path o0 = Ok (tab, NUM_PQ_CENTROIDS, dim) ->
  load_bin f32 fs pq_pivots_path o1 = Ok (cen, dim, 1%Z) ->
  load_bin u32 fs pq_pivots_path o2 = Ok (co, nr, 1%Z) ->
  num_chunks = 0%Z \/ nr = wrap64 (num_chunks + 1) ->
  rotation_file_ok fs pq_pivots_path dim ->
  (exists file, fs !! data_file = Some file /\ 8 <= length file) ->
  (exists t,
     load_pq_centroid_bin indeterminate fs pq_pivots_path num_chunks = Ok t /\
     tables t = tab /\ centroid t = cen /\ chunk_offsets t = co /\
     ndims t = dim /\ n_chunks t = wrap64 (nr - 1)) /\
  (Trainer.generate_pq_data_from_pivots write_codes data_file
     num_centers num_pq_chunks pq_pivots_path use_opq s).1
    = Throw "Error reading pq_pivots file at offsets data.".
Proof.
  intros fs Hoff Htab Hcen Hco Hnum Hrot (file & Hfile & Hlen). split.
  - exact (load_pq_centroid_bin_intro indeterminate fs pq_pivots_path
             num_chunks true o0 o1 o2 x y nc0 tab cen co dim nr
             Hoff Htab Hcen Hco Hnum Hrot).
  - unfold Trainer.generate_pq_data_from_pivots.
    assert (Hheader : Trainer.read_base_header data_file s
              = (Ok (le_value (take 4 (take 8 file)),
                     le_value (drop 4 (take 8 file))), s)).
    { unfold Trainer.read_base_header. fold fs. rewrite Hfile.
      unfold read_at. rewrite decide_True by (simpl; lia). done. }
    rewrite (bind_run _ _ _ _ _ Hheader).
    assert (Hexists : Trainer.m_file_exists pq_pivots_path s = (Ok true, s)).
    { unfold Trainer.m_file_exists, file_exists. fold fs.
      rewrite bool_decide_eq_true_2; [done|].
      unfold load_bin in Hoff. by destruct (fs !! pq_pivots_path). }
    rewrite (bind_run _ _ _ _ _ Hexists). cbn [negb].
    assert (Hload : Trainer.m_load_bin u64 pq_pivots_path 0 s
                    = (Ok ([o0; o1; x; o2; y], 5, nc0)%Z, s)).
    { unfold Trainer.m_load_bin. fold fs. by rewrite Hoff. }
    rewrite (bind_run _ _ _ _ _ Hload). reflexivity.
Qed.

Lemma legacy_pivots_loaded_not_encoded_witness :
  (exists t : FixedChunkPQTable (F := F32.t),
     load_pq_centroid_bin (fun _ => fzero) Example.legacy_files
       "pq_pivots.bin" 1 = Ok t /\
     tables t = Example.legacy_pivots /\ centroid t = [fzero; fzero] /\
     chunk_offsets t = [0; 2]%Z /\
     ndims t = 2%Z /\ n_chunks t = wrap64 (2 - 1)) /\
  Example.encode_legacy.1
    = Throw "Error reading pq_pivots file at offsets data.".
Proof.
  apply (legacy_pivots_loaded_not_encoded (fun _ => fzero)
           (fun _ _ _ => mret 0%Z) (Example.start Example.legacy_files)
           "base.bin" "pq_pivots.bin" 256 1 false
           1 4096 6152 6188 6168 6204 1 2 2
           Example.legacy_pivots [fzero; fzero] [0; 2]%Z).
  - vm_compute. reflexivity.
  - vm_compute. reflexivity.
  - vm_compute. reflexivity.
  - vm_compute. reflexivity.
  - right. reflexivity.
  - left. vm_compute. reflexivity.
  - eexists. split; [vm_compute; reflexivity|]. simpl. lia.
Defined.

(** ** The loops of [execute_io] *)
Section RetryLoop.
Import AlignedFileReader.
Local Open Scope Z_scope.
Variable strerror : Z -> string.
Variables (p : primitive) (n_retries n : Z).

#[local] Abbreviation loop := (retry_loop strerror p n_retries n).

Lemma retry_loop_done (s retry : Z) (kernel : list Z) :
  n <= s -> loop s retry kernel = (Returned, [], kernel).
Proof.
  intros H. apply Z.ltb_ge in H.
  destruct kernel; cbn [retry_loop]; by rewrite H.
Qed.

Lemma retry_loop_nil (s retry : Z) :
  s < n -> loop s retry [] = (Pending, [syscall p (n - s) s], []).
Proof. intros H. apply Z.ltb_lt in H. cbn [retry_loop]. by rewrite H. Qed.

Lemma retry_loop_interrupt (s retry : Z) (kernel : list Z) :
  s < n ->
  loop s retry (- EINTR :: kernel)
  = let '(o, t, k) := loop s retry kernel in
    (o, syscall p (n - s) s :: t, k).
Proof.
  intros H. apply Z.ltb_lt in H. cbn [retry_loop]. rewrite H. reflexivity.
Qed.

Lemma retry_loop_error (s retry ret : Z) (kernel : list Z) :
  s < n -> ret < 0 -> - ret <> EINTR ->
  loop s retry (ret :: kernel)
  = (Thrown ("Unknown error occur in " +:+ name p +:+ ", errno: "
             +:+ pretty (- ret) +:+ ", " +:+ strerror (- ret)),
     [syscall p (n - s) s], kernel).
Proof.
  intros H Hret Herr. apply Z.ltb_lt in H, Hret. apply Z.eqb_neq in Herr.
  cbn [retry_loop]. by rewrite H, Hret, Herr.
Qed.

Lemma retry_loop_partial (s retry r : Z) (kernel : list Z) :
  s < n -> 0 <= r -> s + r < n -> retry + 1 <= n_retries ->
  loop s retry (r :: kernel)
  = let '(o, t, k) := loop (s + r) (retry + 1) kernel in
    (o,
     syscall p (n - s) s
     :: cerr (name p +:+ "() failed; " +:+ counted p +:+ ": "
              +:+ pretty (s + r) +:+ ", expected: " +:+ pretty n
              +:+ ", retry: " +:+ pretty (retry + 1))
     :: t, k).
Proof.
  intros H Hr Hpart Hretry.
  apply Z.ltb_lt in H, Hpart. apply Z.ltb_ge in Hr. apply Z.leb_le in Hretry.
  cbn [retry_loop]. by rewrite H, Hr, Hpart, Hretry.
Qed.

Lemma retry_loop_exhausted (s retry r : Z) (kernel : list Z) :
  s < n -> 0 <= r -> s + r < n -> n_retries < retry + 1 ->
  loop s retry (r :: kernel)
  = (Thrown (name p +:+ " failed after retried " +:+ pretty n_retries
             +:+ " times"),
     [syscall p (n - s) s], kernel).
Proof.
  intros H Hr Hpart Hretry.
  apply Z.ltb_lt in H, Hpart. apply Z.ltb_ge in Hr. apply Z.leb_gt in Hretry.
  cbn [retry_loop]. by rewrite H, Hr, Hpart, Hretry.
Qed.

Lemma retry_loop_full (s retry r : Z) (kernel : list Z) :
  s < n -> 0 <= r -> n <= s + r ->
  loop s retry (r :: kernel) = (Returned, [syscall p (n - s) s], kernel).
Proof.
  intros H Hr Hfull. pose proof (retry_loop_done (s + r) retry kernel Hfull).
  apply Z.ltb_lt in H. apply Z.ltb_ge in Hr, Hfull.
  cbn [retry_loop]. rewrite H, Hr, Hfull. cbn [negb].
  by rewrite H0.
Qed.

(** Interrupted calls are made again, as often as the kernel interrupts
    them. *)
Lemma retry_loop_interrupts (k : nat) (s retry : Z) (kernel : list Z) :
  s < n ->
  loop s retry (replicate k (- EINTR) ++ kernel)
  = let '(o, t, rest) := loop s retry kernel in
    (o, replicate k (syscall p (n - s) s) ++ t, rest).
Proof.
  intros H. induction k as [|k IH]; cbn [replicate app].
  - by destruct (loop s retry kernel) as [[? ?] ?].
  - rewrite retry_loop_interrupt by done. rewrite IH.
    by destruct (loop s retry kernel) as [[? ?] ?].
Qed.

Lemma replicate_S_middle {A : Type} (k : nat) (x : A) (l : list A) :
  replicate (S k) x ++ l = replicate k x ++ x :: l.
Proof. induction k as [|k IH]; [done|]. cbn in *. by rewrite IH. Qed.

Lemma counts_nonneg (rounds : list (nat * Z)) :
  Forall (fun kr => 0 <= kr.2) rounds -> 0 <= counts rounds.
Proof.
  unfold counts. induction 1 as [|[k r] rounds Hr _ IH]; cbn; [done|].
  cbn in Hr. lia.
Qed.

(** Partial counts: each is followed by a call for what remains. *)
Lemma retry_loop_rounds (rounds : list (nat * Z)) (s retry : Z)
    (kernel : list Z) :
  Forall (fun kr => 0 <= kr.2) rounds ->
  s + counts rounds < n ->
  retry + Z.of_nat (length rounds) <= n_retries ->
  loop s retry (round_script rounds ++ kernel)
  = let '(o, t, rest) :=
      loop (s + counts rounds) (retry + Z.of_nat (length rounds)) kernel in
    (o, round_calls p n s retry rounds ++ t, rest).
Proof.
  intros Hrounds. revert s retry.
  induction Hrounds as [|[k r] rounds Hr Hrounds IH]; intros s retry Hs Hretry.
  - unfold counts. cbn. rewrite !Z.add_0_r.
    by destruct (loop s retry kernel) as [[? ?] ?].
  - pose proof (counts_nonneg rounds Hrounds) as Hnonneg.
    assert (Hcounts : counts ((k, r) :: rounds) = r + counts rounds)
      by reflexivity.
    rewrite Hcounts in *. cbn [snd] in Hr. cbn [length] in *.
    unfold round_script. rewrite bind_cons. fold (round_script rounds).
    cbn [fst snd]. rewrite <- !app_assoc.
    rewrite retry_loop_interrupts by lia. cbn [app].
    rewrite retry_loop_partial by lia.
    rewrite IH by lia.
    replace (s + r + counts rounds) with (s + (r + counts rounds)) by lia.
    replace (retry + 1 + Z.of_nat (length rounds))
      with (retry + Z.of_nat (S (length rounds))) by lia.
    destruct (loop _ _ kernel) as [[? ?] ?].
    cbn [round_calls]. rewrite replicate_S_middle.
    rewrite <- !app_assoc. reflexivity.
Qed.

(** The answers that complete the loop: it returns, having made the calls
    of the rounds and the last one. *)
Lemma retry_loop_completing (a : list (nat * Z) * (nat * Z))
    (kernel : list Z) :
  completing n_retries n a ->
  loop 0 0 (phase_script a ++ kernel) = (Returned, phase_calls p n a, kernel).
Proof.
  destruct a as [rounds [k r]]. intros (Hrounds & Hs & Hlen & Hfull).
  cbn [fst snd] in *.
  pose proof (counts_nonneg rounds Hrounds) as Hnonneg.
  unfold phase_script, phase_calls, round_script. cbn [fst snd].
  rewrite bind_app, bind_singleton. fold (round_script rounds).
  cbn [fst snd]. rewrite <- !app_assoc.
  rewrite (retry_loop_rounds rounds 0 0 _ Hrounds) by lia.
  rewrite !Z.add_0_l.
  rewrite retry_loop_interrupts by lia. cbn [app].
  rewrite retry_loop_full by lia.
  by rewrite <- (replicate_S_middle k _ []), app_nil_r.
Qed.

End RetryLoop.

(** ** The windows of [execute_io] *)
Section Windows.
Import AlignedFileReader.
Local Open Scope Z_scope.

Lemma n_iters_eq (size : Z) :
  0 <= size < 2 ^ 59 -> n_iters size = (size + 1023) / 1024.
Proof.
  intros H. unfold n_iters, ROUND_UP, MAX_EVENTS, wrap64.
  change (2 ^ 59) with 576460752303423488 in H.
  change (2 ^ 64) with 18446744073709551616.
  destruct (size mod 1024 =? 0) eqn:E;
    [apply Z.eqb_eq in E|apply Z.eqb_neq in E];
    Z.div_mod_to_equations; lia.
Qed.

Lemma n_ops_eq (size iter : Z) :
  0 <= size < 2 ^ 59 -> 0 <= iter < n_iters size ->
  n_ops size iter = Z.min (size - iter * 1024) 1024 /\
  0 < size - iter * 1024.
Proof.
  intros H Hiter. rewrite n_iters_eq in Hiter by done.
  unfold n_ops, MAX_EVENTS, wrap64.
  change (2 ^ 59) with 576460752303423488 in H.
  change (2 ^ 64) with 18446744073709551616.
  assert (0 < size - iter * 1024) by (Z.div_mod_to_equations; lia).
  split; [|done]. rewrite Z.mod_small; [done|lia].
Qed.

Lemma n_ops_bounds (size iter : Z) :
  0 <= size < 2 ^ 59 -> 0 <= iter < n_iters size ->
  1 <= n_ops size iter <= MAX_EVENTS.
Proof.
  intros H Hiter. destruct (n_ops_eq size iter H Hiter) as [-> ?].
  unfold MAX_EVENTS. lia.
Qed.

Lemma prepared_prepare (size iter : Z) :
  prepared (prepare size iter) = seqZ (iter * MAX_EVENTS) (n_ops size iter).
Proof.
  unfold prepared, prepare.
  replace (iter * MAX_EVENTS) with (iter * MAX_EVENTS + 0) by lia.
  rewrite <- fmap_add_seqZ.
  induction (seqZ 0 (n_ops size iter)) as [|j l IH]; [done|].
  cbn. rewrite <- IH. f_equal. lia.
Qed.

Lemma windows_cover (size : Z) :
  0 <= size < 2 ^ 59 ->
  seqZ 0 (n_iters size)
    ≫= (fun iter => seqZ (iter * MAX_EVENTS) (n_ops size iter))
  = seqZ 0 size.
Proof.
  intros H.
  assert (Hm : forall m : nat, Z.of_nat m <= n_iters size ->
            seqZ 0 (Z.of_nat m)
              ≫= (fun iter => seqZ (iter * MAX_EVENTS) (n_ops size iter))
            = seqZ 0 (Z.min size (Z.of_nat m * 1024))).
  { induction m as [|m IH]; intros Hle.
    { replace (Z.min size (Z.of_nat 0 * 1024)) with 0 by lia. done. }
    rewrite seqZ_S, bind_app, bind_singleton, IH by lia.
    destruct (n_ops_eq size (Z.of_nat m) H) as [Hops Hpos]; [lia|].
    rewrite Z.add_0_l, Hops. unfold MAX_EVENTS.
    replace (Z.min size (Z.of_nat m * 1024)) with (Z.of_nat m * 1024) by lia.
    replace (Z.min size (Z.of_nat (S m) * 1024))
      with (Z.of_nat m * 1024 + Z.min (size - Z.of_nat m * 1024) 1024) by lia.
    rewrite seqZ_app by lia. by rewrite Z.add_0_l. }
  pose proof (n_iters_eq size H) as Hn.
  assert (0 <= n_iters size) by (rewrite Hn; Z.div_mod_to_equations; lia).
  specialize (Hm (Z.to_nat (n_iters size))).
  rewrite Z2Nat.id in Hm by done. rewrite Hm by lia. f_equal.
  rewrite Hn. change (2 ^ 59) with 576460752303423488 in H.
  Z.div_mod_to_equations. lia.
Qed.

Variable strerror : Z -> string.
Variables n_retries size : Z.

Lemma prepared_retry_loop (p : primitive) (n : Z) (kernel : list Z)
    (s retry : Z) :
  prepared (retry_loop strerror p n_retries n s retry kernel).1.2 = [].
Proof.
  revert s retry. induction kernel as [|ret kernel IH]; intros s retry;
    cbn [retry_loop].
  - by destruct (s <? n).
  - destruct (s <? n); [|done]. cbn [negb].
    destruct (ret <? 0).
    + destruct (- ret =? EINTR); [|done]. cbn [negb].
      specialize (IH s retry).
      by destruct (retry_loop _ _ _ _ s retry kernel) as [[? ?] ?].
    + destruct (s + ret <? n).
      * destruct (retry + 1 <=? n_retries); [|done].
        specialize (IH (s + ret) (retry + 1)).
        by destruct (retry_loop _ _ _ _ (s + ret) (retry + 1) kernel)
          as [[? ?] ?].
      * specialize (IH (s + ret) retry).
        by destruct (retry_loop _ _ _ _ (s + ret) retry kernel) as [[? ?] ?].
Qed.

(** The requests are prepared window by window, in the order of the
    windows, and all of them when the run returns. *)
Lemma for_iter_prepared (iters : list Z) (kernel : list Z) :
  let run := for_iter strerror n_retries size iters kernel in
  let all := iters ≫= (fun iter => seqZ (iter * MAX_EVENTS) (n_ops size iter)) in
  prepared run.2 `prefix_of` all /\
  (run.1 = Returned -> prepared run.2 = all).
Proof.
  cbv zeta. revert kernel.
  induction iters as [|iter iters IH]; intros kernel; cbn [for_iter].
  - done.
  - rewrite bind_cons.
    pose proof (prepared_retry_loop io_submit (n_ops size iter) kernel 0 0)
      as Hs.
    destruct (retry_loop _ io_submit _ _ 0 0 kernel) as [[o1 t1] k1].
    cbn [fst snd] in Hs.
    assert (Hstop : forall t, prepared t = [] ->
              prepared (prepare size iter ++ t)
                `prefix_of` seqZ (iter * MAX_EVENTS) (n_ops size iter)
                  ++ (iters ≫= (fun iter =>
                         seqZ (iter * MAX_EVENTS) (n_ops size iter)))).
    { intros t Ht. unfold prepared in *.
      rewrite omap_app, Ht, app_nil_r. fold (prepared (prepare size iter)).
      rewrite prepared_prepare. by apply prefix_app_r. }
    destruct o1; cbn [fst snd]; try (split; [by apply Hstop|done]).
    pose proof (prepared_retry_loop io_getevents (n_ops size iter) k1 0 0)
      as Hr.
    destruct (retry_loop _ io_getevents _ _ 0 0 k1) as [[o2 t2] k2].
    cbn [fst snd] in Hr.
    assert (Hboth : prepared (t1 ++ t2) = []).
    { unfold prepared in *. by rewrite omap_app, Hs, Hr. }
    destruct o2; cbn [fst snd];
      try (split; [rewrite app_assoc, <- (app_assoc _ t1 t2); by apply Hstop
                  |done]).
    destruct (IH k2) as [Hpre Hall].
    destruct (for_iter _ _ _ iters k2) as [o t]. cbn [fst snd] in *.
    assert (Heq : prepared (prepare size iter ++ t1 ++ t2 ++ t)
                  = seqZ (iter * MAX_EVENTS) (n_ops size iter) ++ prepared t).
    { unfold prepared in *.
      rewrite !omap_app, Hs, Hr. fold (prepared (prepare size iter)).
      by rewrite prepared_prepare. }
    rewrite Heq. split; [by apply prefix_app|].
    intros Ho. by rewrite (Hall Ho).
Qed.

(** A kernel that takes every window at once. *)
Lemma for_iter_quiet (iters rest : list Z) (kernel : list Z) :
  Forall (fun iter => 1 <= n_ops size iter) iters ->
  for_iter strerror n_retries size (iters ++ rest)
    (quiet_kernel size iters ++ kernel)
  = let '(o, t) := for_iter strerror n_retries size rest kernel in
    (o, quiet_trace size iters ++ t).
Proof.
  induction 1 as [|iter iters Hiter _ IH].
  - cbn. by destruct (for_iter _ _ _ rest kernel).
  - unfold quiet_kernel, quiet_trace. rewrite !bind_cons.
    fold (quiet_kernel size iters). fold (quiet_trace size iters).
    cbn [app for_iter].
    rewrite (retry_loop_full strerror io_submit n_retries) by lia.
    rewrite (retry_loop_full strerror io_getevents n_retries) by lia.
    rewrite IH. destruct (for_iter _ _ _ rest kernel) as [o t].
    rewrite !Z.sub_0_r, <- !app_assoc. reflexivity.
Qed.

(** Windows that complete, each with retries of its own: the loop goes
    on to the windows that follow as if it had just begun. *)
Lemma for_iter_completed (iters rest : list Z) (ws : list window)
    (kernel : list Z) :
  completed n_retries size iters ws ->
  for_iter strerror n_retries size (iters ++ rest)
    (windows_script ws ++ kernel)
  = let '(o, t) := for_iter strerror n_retries size rest kernel in
    (o, windows_trace size iters ws ++ t).
Proof.
  induction 1 as [|iter w iters ws [Hs Hd] _ IH].
  - cbn. by destruct (for_iter _ _ _ rest kernel).
  - unfold windows_script, windows_trace. cbn [zip_with].
    rewrite !bind_cons.
    fold (windows_script ws). fold (windows_trace size iters ws).
    cbn [app for_iter fst snd]. rewrite <- !app_assoc.
    rewrite (retry_loop_completing strerror io_submit n_retries _ _ _ Hs).
    rewrite (retry_loop_completing strerror io_getevents n_retries _ _ _ Hd).
    rewrite IH. destruct (for_iter _ _ _ rest kernel) as [o t].
    by rewrite <- !app_assoc.
Qed.

End Windows.

(** C8. [execute_io] prepares the requests of a batch window by window,
    each window of at most [MAX_EVENTS] = 1024 requests that follow those
    of the window before, in the order of the batch. In every window of
    [n] descriptors, however the windows before it were completed, with
    whatever partial counts and interruptions in their submissions and
    completions: after partial counts that sum to [s < n] the next
    [io_submit] is for exactly the [n - s] descriptors that remain, from
    descriptor [s] on; a call answered [-EINTR] is made again, whatever
    the number of interruptions, and the retries counted stay as they
    were; the partial count after [n_retries] re-submissions in this
    window throws, and so does at once any other negative answer. When
    every window completes the call returns. [read] leaves [n_retries] at
    10. *)
Theorem execute_io_windows_and_retries (strerror : Z -> string)
    (size n_retries iter : Z) (earlier : list AlignedFileReader.window)
    (rounds : list (nat * Z)) (interrupts : nat) :
  let n := AlignedFileReader.n_ops size iter in
  let s := AlignedFileReader.counts rounds in
  let kernel tail :=
    AlignedFileReader.windows_script earlier
    ++ AlignedFileReader.round_script rounds
    ++ replicate interrupts (- AlignedFileReader.EINTR)%Z ++ tail in
  let execute_io := AlignedFileReader.execute_io strerror size n_retries in
  (0 <= size < 2 ^ 59)%Z ->
  (0 <= iter < AlignedFileReader.n_iters size)%Z ->
  AlignedFileReader.completed n_retries size (seqZ 0 iter) earlier ->
  Forall (fun kr => 0 <= kr.2)%Z rounds ->
  (s < n)%Z ->
  (Z.of_nat (length rounds) <= n_retries)%Z ->
  (forall i, 0 <= i < AlignedFileReader.n_iters size ->
     1 <= AlignedFileReader.n_ops size i <= AlignedFileReader.MAX_EVENTS)%Z /\
  AlignedFileReader.prepared (AlignedFileReader.prepare size iter)
    = seqZ (iter * AlignedFileReader.MAX_EVENTS) n /\
  (forall answers,
     AlignedFileReader.prepared (execute_io answers).2
       `prefix_of` seqZ 0 size /\
     ((execute_io answers).1 = AlignedFileReader.Returned ->
      AlignedFileReader.prepared (execute_io answers).2 = seqZ 0 size)) /\
  execute_io
    (AlignedFileReader.quiet_kernel size
       (seqZ 0 (AlignedFileReader.n_iters size)))
    = (AlignedFileReader.Returned,
       AlignedFileReader.quiet_trace size
         (seqZ 0 (AlignedFileReader.n_iters size))) /\
  (forall all,
     AlignedFileReader.completed n_retries size
       (seqZ 0 (AlignedFileReader.n_iters size)) all ->
     execute_io (AlignedFileReader.windows_script all)
     = (AlignedFileReader.Returned,
        AlignedFileReader.windows_trace size
          (seqZ 0 (AlignedFileReader.n_iters size)) all)) /\
  execute_io (kernel [])
    = (AlignedFileReader.Pending,
       AlignedFileReader.windows_trace size (seqZ 0 iter) earlier
       ++ AlignedFileReader.prepare size iter
       ++ AlignedFileReader.round_calls AlignedFileReader.io_submit n 0 0
            rounds
       ++ replicate (S interrupts)
            (AlignedFileReader.syscall AlignedFileReader.io_submit
               (n - s) s)) /\
  (forall r, (0 <= r)%Z -> (s + r < n)%Z ->
     Z.of_nat (length rounds) = n_retries ->
     (execute_io (kernel [r])).1
       = AlignedFileReader.Thrown
           ("io_submit failed after retried " +:+ pretty n_retries
            +:+ " times")) /\
  (forall ret, (ret < 0)%Z -> (- ret)%Z <> AlignedFileReader.EINTR ->
     (execute_io (kernel [ret])).1
       = AlignedFileReader.Thrown
           ("Unknown error occur in io_submit, errno: "
            +:+ pretty (- ret)%Z +:+ ", " +:+ strerror (- ret)%Z)) /\
  (forall answers,
     AlignedFileReader.read strerror size false answers
       = AlignedFileReader.execute_io strerror size 10 answers).
Proof.
  intros n s kernel execute_io Hsize Hiter Hearlier Hrounds Hs Hlen.
  pose proof (counts_nonneg rounds Hrounds) as Hnonneg. fold s in Hnonneg.
  assert (Hquiet : forall m, (0 <= m <= AlignedFileReader.n_iters size)%Z ->
            Forall (fun i => 1 <= AlignedFileReader.n_ops size i)%Z
              (seqZ 0 m)).
  { intros m Hm. apply Forall_forall. intros i [? ?]%elem_of_seqZ.
    apply n_ops_bounds; [done|lia]. }
  assert (Hwindows : seqZ 0 (AlignedFileReader.n_iters size)
            = seqZ 0 iter
              ++ iter :: seqZ (iter + 1)
                   (AlignedFileReader.n_iters size - iter - 1)).
  { replace (AlignedFileReader.n_iters size)
      with (iter + (AlignedFileReader.n_iters size - iter))%Z at 1 by lia.
    rewrite seqZ_app by lia. f_equal. rewrite seqZ_cons by lia.
    rewrite Z.add_0_l. reflexivity. }
  assert (Hrun : forall tail o t k,
            AlignedFileReader.retry_loop strerror AlignedFileReader.io_submit
              n_retries n s (Z.of_nat (length rounds)) tail = (o, t, k) ->
            o <> AlignedFileReader.Returned ->
            execute_io (kernel tail)
            = (o,
               AlignedFileReader.windows_trace size (seqZ 0 iter) earlier
               ++ AlignedFileReader.prepare size iter
               ++ AlignedFileReader.round_calls AlignedFileReader.io_submit
                    n 0 0 rounds
               ++ replicate interrupts
                    (AlignedFileReader.syscall AlignedFileReader.io_submit
                       (n - s) s)
               ++ t)).
  { intros tail o t k Htail Ho.
    unfold execute_io, AlignedFileReader.execute_io, kernel.
    rewrite Hwindows, for_iter_completed by done.
    cbn [AlignedFileReader.for_iter]. fold n.
    rewrite (retry_loop_rounds strerror AlignedFileReader.io_submit
               n_retries n rounds 0 0 _ Hrounds) by (fold s; lia).
    fold s. rewrite !Z.add_0_l.
    rewrite retry_loop_interrupts by lia. rewrite Htail.
    by destruct o. }
  split; [intros i Hi; by apply n_ops_bounds|].
  split; [apply prepared_prepare|].
  split.
  { intros answers.
    pose proof (for_iter_prepared strerror n_retries size
                  (seqZ 0 (AlignedFileReader.n_iters size)) answers) as H.
    cbv zeta in H. rewrite windows_cover in H by done. exact H. }
  split.
  { unfold execute_io, AlignedFileReader.execute_io.
    pose proof (for_iter_quiet strerror n_retries size
                  (seqZ 0 (AlignedFileReader.n_iters size)) [] []) as H.
    rewrite !app_nil_r in H. rewrite H by (apply Hquiet; lia).
    cbn [AlignedFileReader.for_iter]. by rewrite app_nil_r. }
  split.
  { intros all Hall.
    unfold execute_io, AlignedFileReader.execute_io.
    pose proof (for_iter_completed strerror n_retries size
                  (seqZ 0 (AlignedFileReader.n_iters size)) [] all [] Hall)
      as H.
    rewrite !app_nil_r in H. rewrite H.
    cbn [AlignedFileReader.for_iter]. by rewrite app_nil_r. }
  split.
  { rewrite (Hrun [] _ _ _
               (retry_loop_nil strerror AlignedFileReader.io_submit
                  n_retries n s _ Hs)) by done.
    by rewrite <- (replicate_S_middle interrupts _ []), app_nil_r. }
  split.
  { intros r Hr Hpart Hbudget.
    assert (Hover : (n_retries < Z.of_nat (length rounds) + 1)%Z) by lia.
    rewrite (Hrun [r] _ _ _
               (retry_loop_exhausted strerror AlignedFileReader.io_submit
                  n_retries n s (Z.of_nat (length rounds)) r []
                  Hs Hr Hpart Hover)) by done.
    reflexivity. }
  split.
  { intros ret Hret Herr.
    rewrite (Hrun [ret] _ _ _
               (retry_loop_error strerror AlignedFileReader.io_submit
                  n_retries n s _ ret [] Hs Hret Herr)) by done.
    reflexivity. }
  intros answers. unfold AlignedFileReader.read.
  by destruct (AlignedFileReader.execute_io strerror size 10 answers).
Qed.

Lemma execute_io_windows_and_retries_witness :
  AlignedFileReader.prepared (AlignedFileReader.prepare 1029 1)
    = seqZ (1 * AlignedFileReader.MAX_EVENTS)
        (AlignedFileReader.n_ops 1029 1) /\
  (AlignedFileReader.execute_io ReaderExample.strerror 1029 10
     (ReaderExample.kernel [1%Z])).1
    = AlignedFileReader.Thrown
        ("io_submit failed after retried " +:+ pretty 10%Z +:+ " times") /\
  (AlignedFileReader.execute_io ReaderExample.strerror 1029 10
     (ReaderExample.kernel [(-5)%Z])).1
    = AlignedFileReader.Thrown
        ("Unknown error occur in io_submit, errno: "
         +:+ pretty (- -5)%Z +:+ ", " +:+ ReaderExample.strerror (- -5)%Z).
Proof.
  assert (Hsize : (0 <= 1029 < 2 ^ 59)%Z) by (split; [lia|reflexivity]).
  assert (Hiter : (0 <= 1 < AlignedFileReader.n_iters 1029)%Z)
    by (split; [lia|reflexivity]).
  assert (Hearlier : AlignedFileReader.completed 10 1029 (seqZ 0 1)
                       ReaderExample.earlier).
  { unfold AlignedFileReader.completed, ReaderExample.earlier.
    change (seqZ 0 1) with [0%Z].
    constructor; [|constructor].
    split; (split; [|split; [|split]]); cbn [fst snd].
    all: try (vm_compute; congruence).
    all: try (repeat constructor; cbn; lia). }
  assert (Hrounds : Forall (fun kr => 0 <= kr.2)%Z ReaderExample.rounds)
    by (repeat constructor; simpl; lia).
  assert (Hs : (AlignedFileReader.counts ReaderExample.rounds
                < AlignedFileReader.n_ops 1029 1)%Z) by reflexivity.
  assert (Hlen : (Z.of_nat (length ReaderExample.rounds) <= 10)%Z)
    by (simpl; lia).
  destruct (execute_io_windows_and_retries ReaderExample.strerror
              1029 10 1 ReaderExample.earlier ReaderExample.rounds 1
              Hsize Hiter Hearlier Hrounds Hs Hlen)
    as (_ & Hprep & _ & _ & _ & _ & Hbudget & Herr & _).
  split; [exact Hprep|]. split.
  - apply (Hbudget 1%Z); [lia|reflexivity|reflexivity].
  - apply (Herr (-5)%Z); [lia|]. unfold AlignedFileReader.EINTR. lia.
Defined.

(** * The other functions of [pq.cpp] on a table *)
Section QuerySideProofs.
Context {F Dbl : Type} {O : FloatOps F Dbl}.

(** The loop [for (d = 0; d < n; d++) q[d] -= c[d]]. *)
Lemma centring_loop (c : list F) (n : nat) (q : list F) :
  n <= length q -> n <= length c ->
  exists q',
    for_each
      (fun q d => x ← q !! d; m ← c !! d; Some (<[d := fsub x m]> q))
      (seq 0 n) q = Some q' /\
    length q' = length q /\
    (forall d, d < n -> q' !! d = Some (fsub (q !!! d) (c !!! d))) /\
    (forall d, n <= d -> q' !! d = q !! d).
Proof.
  intros Hq Hc.
  destruct (for_each_row fsub (fun d => c !! d) (fun d => c !!! d) 0 n q)
    as (q' & Hrun & Hlen & Hcells).
  { intros d Hd. apply list_lookup_lookup_total_lt. lia. }
  { lia. }
  exists q'. split; [|split; [done|split]].
  - rewrite <- Hrun. apply for_each_ext. intros a d _. cbn [Nat.add].
    destruct (a !! d), (c !! d); reflexivity.
  - intros d Hd. rewrite Hcells. case_decide; [|lia].
    rewrite (list_lookup_lookup_total_lt q d) by lia. cbn.
    by rewrite Nat.sub_0_r.
  - intros d Hd. rewrite Hcells. case_decide; [lia|done].
Qed.

(** The loop stops at the first coordinate that is missing. *)
Lemma centring_loop_bounds (c : list F) (n : nat) (q : list F) :
  is_Some
    (for_each
       (fun q d => x ← q !! d; m ← c !! d; Some (<[d := fsub x m]> q))
       (seq 0 n) q) ->
  n <= length q /\ n <= length c.
Proof.
  intros Hsome.
  destruct (decide (n <= length q /\ n <= length c)) as [|Hshort]; [done|].
  exfalso.
  set (k := Nat.min (length q) (length c)).
  assert (Hk : k < n) by lia.
  replace n with (k + S (n - S k)) in Hsome by lia.
  rewrite seq_app, for_each_app in Hsome.
  destruct (centring_loop c k q) as (q1 & Hrun & Hlen1 & _ & Hrest);
    [lia|lia|].
  rewrite Hrun in Hsome. cbn [seq for_each Nat.add] in Hsome.
  destruct (decide (length q <= length c)) as [Hle|Hgt].
  - rewrite (lookup_ge_None_2 q1 k) in Hsome by lia.
    cbn in Hsome. by destruct Hsome.
  - rewrite (lookup_ge_None_2 c k) in Hsome by lia.
    destruct (q1 !! k); cbn in Hsome; by destruct Hsome.
Qed.

(** The loop [for (d1 ...) tmp[d] += g(d1)]. *)
Lemma accumulate_loop {B : Type} (g : B -> option F) (g' : B -> F)
    (d : nat) (l : list B) (tmp : list F) :
  d < length tmp ->
  (forall b, b ∈ l -> g b = Some (g' b)) ->
  for_each
    (fun tmp b => acc ← tmp !! d; v ← g b; Some (<[d := fadd acc v]> tmp))
    l tmp
  = Some (<[d := fold_left (fun acc b => fadd acc (g' b)) l (tmp !!! d)]> tmp).
Proof.
  revert tmp. induction l as [|b l IH]; intros tmp Hd Hg; cbn [for_each fold_left].
  - f_equal. symmetry. apply list_insert_id.
    by apply list_lookup_lookup_total_lt.
  - rewrite (list_lookup_lookup_total_lt tmp d Hd).
    rewrite (Hg b) by left. cbn.
    rewrite IH; [|by rewrite length_insert|intros; apply Hg; by right].
    rewrite list_lookup_total_insert_eq by done.
    by rewrite list_insert_insert_eq.
Qed.

(** The loop [for (d ...) tmp[d] = row(d)], on zeros. *)
Lemma rows_loop (body : list F -> nat -> option (list F)) (row : nat -> F)
    (n : nat) :
  (forall tmp d, d < n -> length tmp = n -> tmp !! d = Some fzero ->
     body tmp d = Some (<[d := row d]> tmp)) ->
  for_each body (seq 0 n) (replicate n fzero) = Some (row <$> seq 0 n).
Proof.
  intros Hbody.
  assert (Hk : forall k, k <= n ->
            for_each body (seq 0 k) (replicate n fzero)
            = Some ((row <$> seq 0 k) ++ replicate (n - k) fzero)).
  { induction k as [|k IH]; intros Hle.
    - by rewrite Nat.sub_0_r.
    - rewrite seq_S, for_each_app, IH by lia. cbn [for_each Nat.add].
      rewrite Hbody.
      + f_equal. replace (n - k) with (S (n - S k)) by lia.
        cbn [replicate]. rewrite fmap_app, <- app_assoc. cbn.
        rewrite insert_app_r_alt by (rewrite length_fmap, length_seq; lia).
        rewrite length_fmap, length_seq, Nat.sub_diag. reflexivity.
      + lia.
      + rewrite length_app, length_fmap, length_seq, length_replicate. lia.
      + rewrite lookup_app_r by (rewrite length_fmap, length_seq; lia).
        rewrite length_fmap, length_seq, Nat.sub_diag.
        apply lookup_replicate_2. lia. }
  rewrite (Hk n) by lia. by rewrite Nat.sub_diag, app_nil_r.
Qed.

End QuerySideProofs.

(** X1. Without a rotation, [preprocess_query] is defined exactly when the
    query and the mean have [ndims] coordinates at least; it subtracts the
    mean from the first [ndims] coordinates of the query and leaves the
    others as they are. *)
Theorem preprocess_query_centres {F Dbl : Type} {O : FloatOps F Dbl}
    (t : FixedChunkPQTable (F := F)) (query_vec : list F) :
  use_rotation t = false -> (ndims t < 2 ^ 32)%Z ->
  (is_Some (preprocess_query t query_vec)
   <-> Z.to_nat (ndims t) <= length query_vec
       /\ Z.to_nat (ndims t) <= length (centroid t)) /\
  forall q', preprocess_query t query_vec = Some q' ->
    length q' = length query_vec /\
    (forall d, d < Z.to_nat (ndims t) ->
       q' !! d = Some (fsub (query_vec !!! d) (centroid t !!! d))) /\
    (forall d, Z.to_nat (ndims t) <= d -> q' !! d = query_vec !! d).
Proof.
  intros Hrot Hdims. unfold preprocess_query.
  rewrite Hrot, decide_True by done. split.
  - split.
    + intros [q' Hq'].
      apply centring_loop_bounds.
      destruct (for_each _ (seq 0 (Z.to_nat (ndims t))) query_vec);
        [done|discriminate Hq'].
    + intros [Hq Hc].
      destruct (centring_loop (centroid t) _ query_vec Hq Hc)
        as (q' & -> & _). by eexists.
  - intros q' Hq'.
    assert (Hsome : is_Some
              (for_each
                 (fun q d => x ← q !! d; m ← centroid t !! d;
                             Some (<[d := fsub x m]> q))
                 (seq 0 (Z.to_nat (ndims t))) query_vec)).
    { destruct (for_each _ (seq 0 (Z.to_nat (ndims t))) query_vec);
        [done|discriminate Hq']. }
    destruct (centring_loop_bounds _ _ _ Hsome) as [Hq Hc].
    destruct (centring_loop (centroid t) _ query_vec Hq Hc)
      as (q1 & Hrun & Hlen & Hin & Hout).
    rewrite Hrun in Hq'. cbn in Hq'. injection Hq' as <-. done.
Qed.

Lemma preprocess_query_centres_witness :
  preprocess_query QueryExample.plain_table [5; 7; 9]%Z = Some [4; 6; 9]%Z.
Proof.
  destruct (preprocess_query_centres QueryExample.plain_table [5; 7; 9]%Z)
    as [Hdefined Hcells]; [reflexivity|reflexivity|].
  destruct (proj2 Hdefined) as [q' Hq']; [simpl; lia|].
  rewrite Hq'. f_equal.
  destruct (Hcells q' Hq') as (Hlen & Hin & Hout).
  destruct q' as [|a [|b [|c [|? ?]]]]; try discriminate Hlen.
  pose proof (Hin 0 ltac:(simpl; lia)) as H0.
  pose proof (Hin 1 ltac:(simpl; lia)) as H1.
  pose proof (Hout 2 ltac:(simpl; lia)) as H2.
  vm_compute in H0, H1, H2. congruence.
Defined.

(** X2. With a rotation, [preprocess_query] replaces the first [ndims]
    coordinates of the query by the product of the centred query and
    [rotmat_tr]: coordinate [d] is the sum over [d1], from [0] upwards, of
    [(query_vec[d1] - centroid[d1]) * rotmat_tr[d1 * ndims + d]]. *)
Theorem preprocess_query_rotates {F Dbl : Type} {O : FloatOps F Dbl}
    (t : FixedChunkPQTable (F := F)) (query_vec : list F) :
  let n := Z.to_nat (ndims t) in
  use_rotation t = true -> (ndims t < 2 ^ 32)%Z ->
  n <= length query_vec -> n <= length (centroid t) ->
  n * n <= length (rotmat_tr t) ->
  preprocess_query t query_vec
  = Some (((fun d =>
              fold_left
                (fun acc d1 =>
                   fadd acc
                     (fmul (fsub (query_vec !!! d1) (centroid t !!! d1))
                        (rotmat_tr t !!! (d1 * n + d))))
                (seq 0 n) fzero) <$> seq 0 n)
          ++ drop n query_vec).
Proof.
  intros n Hrot Hdims Hq Hc Hr. unfold preprocess_query. fold n.
  rewrite Hrot, decide_True by done.
  destruct (centring_loop (centroid t) n query_vec Hq Hc)
    as (q1 & -> & Hlen & Hin & Hout).
  cbn [mbind option_bind].
  rewrite (rows_loop _
             (fun d =>
                fold_left
                  (fun acc d1 =>
                     fadd acc
                       (fmul (fsub (query_vec !!! d1) (centroid t !!! d1))
                          (rotmat_tr t !!! (d1 * n + d))))
                  (seq 0 n) fzero)).
  - cbn [mbind option_bind]. rewrite decide_True by lia.
    f_equal. f_equal. apply list_eq. intros i.
    rewrite !lookup_drop. apply Hout. lia.
  - intros tmp d Hd Htmp Hzero.
    trans (for_each
             (fun tmp d1 =>
                acc ← tmp !! d;
                v ← (q ← q1 !! d1; r ← rotmat_tr t !! (d1 * n + d);
                     Some (fmul q r));
                Some (<[d := fadd acc v]> tmp))
             (seq 0 n) tmp).
    { apply for_each_ext. intros a d1 _.
      by destruct (a !! d), (q1 !! d1), (rotmat_tr t !! (d1 * n + d)). }
    rewrite (accumulate_loop _
               (fun d1 => fmul (fsub (query_vec !!! d1) (centroid t !!! d1))
                            (rotmat_tr t !!! (d1 * n + d)))
               d (seq 0 n) tmp).
    + by rewrite (list_lookup_total_correct _ _ _ Hzero).
    + lia.
    + intros d1 Hd1%list_elem_of_In%in_seq.
      rewrite Hin by lia. cbn.
      rewrite (list_lookup_lookup_total_lt (rotmat_tr t) (d1 * n + d)) by nia.
      reflexivity.
Qed.

Lemma preprocess_query_rotates_witness :
  preprocess_query QueryExample.swapping_table [5; 7; 9]%Z
  = Some [6; 4; 9]%Z.
Proof.
  rewrite (preprocess_query_rotates QueryExample.swapping_table [5; 7; 9]%Z);
    [reflexivity|reflexivity|reflexivity|simpl; lia|simpl; lia|simpl; lia].
Defined.

(** ** [inflate_vector] *)
Section InflateProofs.
Context {F Dbl : Type} {O : FloatOps F Dbl}.
Implicit Types t : FixedChunkPQTable (F := F).

Lemma inflate_axes t (base_vec : list nat) (chunk : nat) (axes : list nat)
    (out : list F) :
  chunk < length base_vec -> base_vec !!! chunk < 256 ->
  length (tables_tr t) = 256 * Z.to_nat (ndims t) ->
  Z.to_nat (ndims t) <= length (centroid t) ->
  Z.to_nat (ndims t) <= length out ->
  Forall (fun j => j < Z.to_nat (ndims t)) axes ->
  exists out',
    for_each
      (fun out_vec j =>
         code ← base_vec !! chunk;
         c ← tables_tr t !! (256 * j + code);
         m ← centroid t !! j;
         if decide (j < length out_vec)
         then Some (<[j := fadd c m]> out_vec)
         else None)
      axes out = Some out' /\
    length out' = length out /\
    (forall j, j ∈ axes -> out' !! j = Some (inflated t base_vec chunk j)) /\
    (forall j, j ∉ axes -> out' !! j = out !! j).
Proof.
  intros Hchunk Hcode Htr Hcen Hout Haxes. revert out Hout.
  induction Haxes as [|j axes Hj Haxes IH]; intros out Hout.
  - exists out. split; [done|]. split; [done|]. split; [|done].
    intros j Hj. by apply elem_of_nil in Hj.
  - cbn [for_each].
    match goal with |- context [for_each ?f axes] => set (body := f) in * end.
    rewrite (list_lookup_lookup_total_lt base_vec chunk) by done.
    cbn [mbind option_bind].
    rewrite (list_lookup_lookup_total_lt (tables_tr t)) by lia.
    cbn [mbind option_bind].
    rewrite (list_lookup_lookup_total_lt (centroid t) j) by lia.
    cbn [mbind option_bind]. rewrite decide_True by lia.
    fold (inflated t base_vec chunk j).
    destruct (IH (<[j := inflated t base_vec chunk j]> out))
      as (out' & Hrun & Hlen & Hin & Hrest).
    { by rewrite length_insert. }
    exists out'. split; [exact Hrun|]. rewrite length_insert in Hlen.
    split; [done|]. split.
    + intros j' Hj'. destruct (decide (j' ∈ axes)) as [|Hnot]; [by apply Hin|].
      apply elem_of_cons in Hj' as [->|]; [|done].
      rewrite Hrest by done. apply list_lookup_insert_eq. lia.
    + intros j' Hj'. apply not_elem_of_cons in Hj' as [Hne Hnot].
      rewrite Hrest by done. by apply list_lookup_insert_ne.
Qed.

Lemma axes_of_bounds t (chunk j : nat) :
  j ∈ axes_of t chunk ->
  exists lo hi,
    chunk_offsets t !! chunk = Some lo /\
    chunk_offsets t !! (chunk + 1) = Some hi /\
    Z.to_nat lo <= j < Z.to_nat hi.
Proof.
  unfold axes_of, chunk_axes.
  destruct (chunk_offsets t !! chunk) as [lo|]; cbn; [|by intros ?%elem_of_nil].
  destruct (chunk_offsets t !! (chunk + 1)) as [hi|]; cbn;
    [|by intros ?%elem_of_nil].
  intros Hj%list_elem_of_In%in_seq. exists lo, hi. split; [done|]. split; [done|].
  lia.
Qed.

(** The axes of two chunks are apart when the offsets are sorted. *)
Lemma axes_of_disjoint t (c c' j : nat) :
  offsets_sorted t -> c < c' -> j ∈ axes_of t c -> j ∉ axes_of t c'.
Proof.
  intros Hsorted Hlt (lo & hi & _ & Hhi & Hj)%axes_of_bounds
    (lo' & hi' & Hlo' & _ & Hj')%axes_of_bounds.
  pose proof (Hsorted (c + 1) c' hi lo' ltac:(lia) Hhi Hlo'). lia.
Qed.

(** [inflate_vector] after the chunks before [m]. *)
Lemma inflate_chunks t (base_vec : list nat) (out : list F) (m : nat) :
  inflate_ready t base_vec out -> m <= Z.to_nat (n_chunks t) ->
  exists out',
    for_each
      (fun out_vec chunk =>
         axes ← chunk_axes t chunk;
         for_each
           (fun out_vec j =>
              code ← base_vec !! chunk;
              c ← tables_tr t !! (256 * j + code);
              m ← centroid t !! j;
              if decide (j < length out_vec)
              then Some (<[j := fadd c m]> out_vec)
              else None)
           axes out_vec)
      (seq 0 m) out = Some out' /\
    length out' = length out /\
    (forall chunk j, chunk < m -> j ∈ axes_of t chunk ->
       out' !! j = Some (inflated t base_vec chunk j)) /\
    (forall j, (forall chunk, chunk < m -> j ∉ axes_of t chunk) ->
       out' !! j = out !! j).
Proof.
  intros (Hoffsets & Hhi & Hsorted & Htr & Hcen & Hout & Hbase & Hcodes) Hm.
  assert (Hready : table_ready t (replicate (Z.to_nat (ndims t)) fzero)).
  { split; [done|]. split; [done|]. split; [done|]. apply length_replicate. }
  induction m as [|m IH].
  - exists out. split; [done|]. split; [done|]. split; [|done].
    intros chunk j Hchunk. lia.
  - destruct IH as (out1 & Hrun & Hlen & Hin & Hrest); [lia|].
    rewrite seq_S, for_each_app, Hrun. cbn [for_each Nat.add].
    destruct (chunk_axes_ready t _ m Hready) as [Haxes Hbound]; [lia|].
    rewrite Haxes. cbn [mbind option_bind].
    destruct (inflate_axes t base_vec m (axes_of t m) out1)
      as (out2 & Hrun2 & Hlen2 & Hin2 & Hrest2); try done; try lia.
    { eapply Forall_lookup_1 in Hcodes;
        [exact Hcodes|apply list_lookup_lookup_total_lt; lia]. }
    rewrite Hrun2. exists out2. split; [done|]. split; [congruence|]. split.
    + intros chunk j Hchunk Hj.
      destruct (decide (chunk = m)) as [->|Hne]; [by apply Hin2|].
      rewrite Hrest2.
      * apply Hin; [lia|done].
      * apply (axes_of_disjoint t chunk m j Hsorted); [lia|done].
    + intros j Hj. rewrite Hrest2 by (apply Hj; lia).
      apply Hrest. intros chunk Hchunk. apply Hj. lia.
Qed.

End InflateProofs.

(** X3. [inflate_vector] writes, on every axis [j] of every chunk, the
    entry of the centre [base_vec[chunk]] plus [centroid[j]]; it leaves the
    coordinates that belong to no chunk as they are, and the length of the
    output. *)
Theorem inflate_vector_cells {F Dbl : Type} {O : FloatOps F Dbl}
    (t : FixedChunkPQTable (F := F)) (base_vec : list nat)
    (out_vec : list F) :
  inflate_ready t base_vec out_vec ->
  exists out',
    inflate_vector t base_vec out_vec = Some out' /\
    length out' = length out_vec /\
    (forall chunk j, chunk < Z.to_nat (n_chunks t) -> j ∈ axes_of t chunk ->
       out' !! j
       = Some (fadd (tables_tr t !!! (256 * j + base_vec !!! chunk))
                 (centroid t !!! j))) /\
    (forall j,
       (forall chunk, chunk < Z.to_nat (n_chunks t) -> j ∉ axes_of t chunk) ->
       out' !! j = out_vec !! j).
Proof.
  intros Hready.
  destruct (inflate_chunks t base_vec out_vec (Z.to_nat (n_chunks t)) Hready)
    as (out' & Hrun & Hlen & Hin & Hrest); [lia|].
  exists out'. unfold inflate_vector. split; [exact Hrun|].
  split; [exact Hlen|]. split; [|exact Hrest].
  intros chunk j Hchunk Hj. rewrite (Hin chunk j Hchunk Hj). reflexivity.
Qed.

Lemma plain_table_inflate_ready (out_vec : list Z) :
  2 <= length out_vec ->
  inflate_ready QueryExample.plain_table [3; 200] out_vec.
Proof.
  intros Hout. split; [simpl; lia|]. split.
  { intros chunk hi Hchunk Hhi. simpl in Hchunk.
    destruct chunk as [|[|chunk]]; [| |lia];
      cbn in Hhi; injection Hhi as <-; simpl; lia. }
  split.
  { intros c c' lo hi Hle Hc Hc'.
    destruct c as [|[|[|c]]]; cbn in Hc; try discriminate Hc;
      injection Hc as <-;
      destruct c' as [|[|[|c']]]; cbn in Hc'; try discriminate Hc';
      injection Hc' as <-; lia. }
  split; [reflexivity|]. split; [simpl; lia|]. split; [exact Hout|].
  split; [simpl; lia|]. repeat constructor; lia.
Qed.

Lemma inflate_vector_cells_witness :
  exists out',
    inflate_vector QueryExample.plain_table [3; 200] [0; 0; 7]%Z = Some out' /\
    length out' = 3 /\
    out' !! 1 = Some 401%Z /\
    out' !! 2 = Some 7%Z.
Proof.
  destruct (inflate_vector_cells QueryExample.plain_table [3; 200]
              [0; 0; 7]%Z) as (out' & Hrun & Hlen & Hin & Hrest).
  { apply plain_table_inflate_ready. simpl. lia. }
  exists out'. split; [exact Hrun|]. split; [exact Hlen|]. split.
  - rewrite (Hin 1 1); [reflexivity|simpl; lia|].
    change (1 ∈ [1]). left.
  - rewrite (Hrest 2); [reflexivity|].
    intros [|[|chunk]] Hchunk; [| |simpl in Hchunk; lia].
    + change (2 ∉ [0]). intros ?%list_elem_of_singleton. discriminate.
    + change (2 ∉ [1]). intros ?%list_elem_of_singleton. discriminate.
Defined.

(** ** [aggregate_coords] *)

(** A loop whose body is undefined at some element is undefined. *)
Lemma for_each_undefined {A B : Type} (f : A -> B -> option A) (l : list B)
    (b : B) (a : A) :
  b ∈ l -> (forall a, f a b = None) -> for_each f l a = None.
Proof.
  intros Hb Hf. revert a. induction l as [|b' l IH]; intros a.
  - by apply elem_of_nil in Hb.
  - cbn [for_each]. apply elem_of_cons in Hb as [<-|Hb].
    + by rewrite Hf.
    + destruct (f a b'); [by apply IH|done].
Qed.

(** The codes of the first [m] points. *)
Lemma aggregate_coords_prefix (ids : list Z) (all_coords : list nat)
    (ndims : nat) (out : list nat) (m : nat) :
  m <= length ids ->
  (Z.of_nat (length all_coords) < 2 ^ 64)%Z ->
  (forall i id, i < m -> ids !! i = Some id ->
     (0 <= id)%Z /\ Z.to_nat id * ndims + ndims <= length all_coords) ->
  m * ndims <= length out ->
  exists out',
    aggregate_coords ids m all_coords ndims out = Some out' /\
    length out' = length out /\
    (forall i k, i < m -> k < ndims ->
       out' !! (i * ndims + k)
       = all_coords !! (Z.to_nat (ids !!! i) * ndims + k)) /\
    (forall p, m * ndims <= p -> out' !! p = out !! p).
Proof.
  intros Hids Hall Hin Hout. unfold aggregate_coords.
  induction m as [|m IH].
  - exists out. split; [done|]. split; [done|]. split; [|done].
    intros i k Hi. lia.
  - destruct IH as (out1 & Hrun & Hlen & Hcells & Hrest);
      [lia|intros i id Hi Hid; apply (Hin i id); [lia|done]|lia|].
    rewrite seq_S, for_each_app, Hrun. cbn [for_each Nat.add].
    destruct (lookup_lt_is_Some_2 ids m) as [id Hid]; [lia|].
    rewrite Hid. cbn [mbind option_bind].
    destruct (Hin m id) as [Hpos Hfits]; [lia|done|].
    assert (Hsrc : Z.to_nat (wrap64 (id * Z.of_nat ndims))
                   = Z.to_nat id * ndims).
    { unfold wrap64. rewrite Z.mod_small; [lia|]. split; [lia|].
      assert (id * Z.of_nat ndims <= Z.of_nat (length all_coords))%Z; [|lia].
      replace id with (Z.of_nat (Z.to_nat id)) at 1 by lia.
      rewrite <- Nat2Z.inj_mul. lia. }
    rewrite Hsrc. rewrite decide_True by (cbn in Hout; lia).
    eexists. split; [reflexivity|].
    assert (Htake : length (take (m * ndims) out1) = m * ndims)
      by (rewrite length_take; cbn in Hout; lia).
    assert (Hmid : length (take ndims (drop (Z.to_nat id * ndims) all_coords))
                   = ndims)
      by (rewrite length_take, length_drop; lia).
    split.
    { rewrite !length_app, Htake, Hmid, length_drop. cbn in Hout. lia. }
    split.
    + intros i k Hi Hk. destruct (decide (i = m)) as [->|Hne].
      * rewrite lookup_app_r by lia. rewrite Htake.
        replace (m * ndims + k - m * ndims) with k by lia.
        rewrite lookup_app_l by lia.
        rewrite lookup_take_lt by done. rewrite lookup_drop.
        by rewrite (list_lookup_total_correct _ _ _ Hid).
      * rewrite lookup_app_l by (rewrite Htake; nia).
        rewrite lookup_take_lt by nia. apply Hcells; [lia|done].
    + intros p Hp. cbn in Hp.
      rewrite lookup_app_r by lia. rewrite Htake.
      rewrite lookup_app_r by lia. rewrite Hmid, lookup_drop.
      replace (m * ndims + ndims + (p - m * ndims - ndims)) with p by lia.
      apply Hrest. lia.
Qed.

(** X5. [aggregate_coords] copies, for each of the [n_ids] points, the
    [ndims] bytes of point [ids[i]] to [out + i * ndims], and leaves the
    bytes of [out] after these as they are. It is undefined when the bytes
    of some point lie beyond [all_coords]. *)
Theorem aggregate_coords_cells (ids : list Z) (n_ids : nat)
    (all_coords : list nat) (ndims : nat) (out : list nat) :
  n_ids <= length ids -> Forall is_u32 ids ->
  (Z.of_nat ndims < 2 ^ 32)%Z ->
  (Z.of_nat (length all_coords) < 2 ^ 64)%Z ->
  n_ids * ndims <= length out ->
  ((forall i, i < n_ids ->
      Z.to_nat (ids !!! i) * ndims + ndims <= length all_coords) ->
   exists out',
     aggregate_coords ids n_ids all_coords ndims out = Some out' /\
     length out' = length out /\
     (forall i k, i < n_ids -> k < ndims ->
        out' !! (i * ndims + k)
        = all_coords !! (Z.to_nat (ids !!! i) * ndims + k)) /\
     (forall p, n_ids * ndims <= p -> out' !! p = out !! p)) /\
  (forall i, i < n_ids ->
     length all_coords < Z.to_nat (ids !!! i) * ndims + ndims ->
     aggregate_coords ids n_ids all_coords ndims out = None).
Proof.
  intros Hids Hu32 Hnd Hall Hout. split.
  - intros Hfits.
    apply aggregate_coords_prefix; [done|done| |done].
    intros i id Hi Hid.
    pose proof (Forall_lookup_1 _ _ _ _ Hu32 Hid) as [Hpos _].
    specialize (Hfits i Hi).
    rewrite (list_lookup_total_correct _ _ _ Hid) in Hfits. done.
  - intros i Hi Hbeyond. unfold aggregate_coords.
    apply (for_each_undefined _ _ i).
    { apply list_elem_of_In, in_seq. lia. }
    intros a. destruct (lookup_lt_is_Some_2 ids i) as [id Hid]; [lia|].
    rewrite Hid. cbn [mbind option_bind].
    rewrite (list_lookup_total_correct _ _ _ Hid) in Hbeyond.
    pose proof (Forall_lookup_1 _ _ _ _ Hu32 Hid) as [Hpos Hlt].
    assert (Hsrc : Z.to_nat (wrap64 (id * Z.of_nat ndims))
                   = Z.to_nat id * ndims).
    { unfold wrap64. rewrite Z.mod_small; [lia|]. split; [lia|].
      change (2 ^ 64)%Z with (2 ^ 32 * 2 ^ 32)%Z.
      apply Z.mul_lt_mono_nonneg; lia. }
    rewrite Hsrc. apply decide_False. lia.
Qed.

Lemma aggregate_coords_cells_witness :
  (exists out',
     aggregate_coords [2; 0]%Z 2 [10; 11; 20; 21; 30; 31] 2 [0; 0; 0; 0; 9]
       = Some out' /\
     out' !! 1 = Some 31 /\ out' !! 2 = Some 10 /\ out' !! 4 = Some 9) /\
  aggregate_coords [2; 3]%Z 2 [10; 11; 20; 21; 30; 31] 2 [0; 0; 0; 0; 9]
    = None.
Proof.
  split.
  - destruct (aggregate_coords_cells [2; 0]%Z 2 [10; 11; 20; 21; 30; 31] 2
                [0; 0; 0; 0; 9])
      as [Hcells _]; [simpl; lia| |lia|simpl; lia|simpl; lia|].
    { repeat constructor; unfold is_u32; lia. }
    destruct Hcells as (out' & Hrun & _ & Hin & Hrest).
    { intros [|[|i]] Hi; simpl; lia. }
    exists out'. split; [exact Hrun|]. split.
    + exact (Hin 0 1 ltac:(lia) ltac:(lia)).
    + split.
      * exact (Hin 1 0 ltac:(lia) ltac:(lia)).
      * exact (Hrest 4 ltac:(lia)).
  - destruct (aggregate_coords_cells [2; 3]%Z 2 [10; 11; 20; 21; 30; 31] 2
                [0; 0; 0; 0; 9])
      as [_ Hundefined]; [simpl; lia| |lia|simpl; lia|simpl; lia|].
    { repeat constructor; unfold is_u32; lia. }
    apply (Hundefined 1); [lia|simpl; lia].
Defined.

(** The codes gathered are bytes, [n_chunks] for each point. *)
Lemma aggregate_coords_ready {F Dbl : Type} {O : FloatOps F Dbl}
    (ids : list Z) (n_ids : nat) (all_coords : list nat) (n_chunks : nat)
    (out : list nat) (pq_dists dists_out : list F) :
  n_ids <= length ids -> Forall is_u32 ids ->
  (Z.of_nat (length all_coords) < 2 ^ 64)%Z ->
  Forall (fun c => c < 256) all_coords ->
  (forall i, i < n_ids ->
     Z.to_nat (ids !!! i) * n_chunks + n_chunks <= length all_coords) ->
  length out = n_ids * n_chunks ->
  length pq_dists = 256 * n_chunks ->
  n_ids <= length dists_out ->
  exists codes,
    aggregate_coords ids n_ids all_coords n_chunks out = Some codes /\
    lookup_ready codes n_ids n_chunks pq_dists dists_out /\
    forall i c, i < n_ids -> c < n_chunks ->
      codes !! (n_chunks * i + c)
      = Some (all_coords !!! (Z.to_nat (ids !!! i) * n_chunks + c)).
Proof.
  intros Hids Hu32 Hall Hbytes Hfits Hout Hdists Hn.
  destruct (aggregate_coords_prefix ids all_coords n_chunks out n_ids)
    as (codes & Hrun & Hlen & Hcells & _); [done|done| |lia|].
  { intros i id Hi Hid.
    pose proof (Forall_lookup_1 _ _ _ _ Hu32 Hid) as [Hpos _].
    specialize (Hfits i Hi).
    rewrite (list_lookup_total_correct _ _ _ Hid) in Hfits. done. }
  assert (Hcell : forall i c, i < n_ids -> c < n_chunks ->
            codes !! (n_chunks * i + c)
            = Some (all_coords !!! (Z.to_nat (ids !!! i) * n_chunks + c))).
  { intros i c Hi Hc. replace (n_chunks * i + c) with (i * n_chunks + c) by lia.
    rewrite Hcells by done. apply list_lookup_lookup_total_lt.
    specialize (Hfits i Hi). lia. }
  exists codes. split; [done|]. split; [|done].
  split; [lia|]. split; [|done].
  apply Forall_lookup. intros p code Hp.
  assert (Hlt : p < n_ids * n_chunks).
  { apply lookup_lt_Some in Hp. lia. }
  assert (n_chunks <> 0) by (intros ->; lia).
  assert (Hp' : p = n_chunks * (p / n_chunks) + p mod n_chunks)
    by (apply Nat.div_mod; done).
  rewrite Hp', Hcell in Hp.
  - injection Hp as <-.
    apply (Forall_lookup_1 (fun c => c < 256) all_coords
             (Z.to_nat (ids !!! (p / n_chunks)) * n_chunks
              + p mod n_chunks) _ Hbytes).
    apply list_lookup_lookup_total_lt.
    assert (p / n_chunks < n_ids) by (apply Nat.Div0.div_lt_upper_bound; lia).
    pose proof (Nat.mod_upper_bound p n_chunks).
    specialize (Hfits (p / n_chunks)). lia.
  - apply Nat.Div0.div_lt_upper_bound; lia.
  - by apply Nat.mod_upper_bound.
Qed.

(** X6. The distances of the points [ids]: [pq_dist_lookup] on the codes
    that [aggregate_coords] has gathered gives, for every [i], the sum over
    the chunks [c], from [0] upwards, of the entries
    [pq_dists[256 * c + all_coords[ids[i] * n_chunks + c]]]. *)
Theorem aggregated_codes_lookup {F Dbl : Type} {O : FloatOps F Dbl}
    (ids : list Z) (n_ids : nat) (all_coords : list nat) (n_chunks : nat)
    (out : list nat) (pq_dists dists_out : list F) :
  n_ids <= length ids -> Forall is_u32 ids ->
  (Z.of_nat (length all_coords) < 2 ^ 64)%Z ->
  Forall (fun c => c < 256) all_coords ->
  (forall i, i < n_ids ->
     Z.to_nat (ids !!! i) * n_chunks + n_chunks <= length all_coords) ->
  length out = n_ids * n_chunks ->
  length pq_dists = 256 * n_chunks ->
  n_ids <= length dists_out ->
  exists codes dists,
    aggregate_coords ids n_ids all_coords n_chunks out = Some codes /\
    pq_dist_lookup codes n_ids n_chunks pq_dists dists_out = Some dists /\
    length dists = length dists_out /\
    forall i, i < n_ids ->
      dists !! i
      = Some (fold_left
                (fun acc c =>
                   fadd acc
                     (pq_dists
                        !!! (256 * c
                             + all_coords
                                 !!! (Z.to_nat (ids !!! i) * n_chunks + c))))
                (seq 0 n_chunks) fzero).
Proof.
  intros Hids Hu32 Hall Hbytes Hfits Hout Hdists Hn.
  destruct (aggregate_coords_ready ids n_ids all_coords n_chunks out
              pq_dists dists_out)
    as (codes & Hrun & Hready & Hcell); try done.
  destruct (pq_dist_lookup_cells codes n_ids n_chunks pq_dists dists_out Hready)
    as (dists & Hlookup & Hlend & Hsum & _).
  exists codes, dists. split; [done|]. split; [done|]. split; [done|].
  intros i Hi. rewrite (Hsum i Hi). f_equal.
  apply fold_left_ext_in. intros acc c Hc%list_elem_of_In%in_seq.
  assert (Hc' : c < n_chunks) by lia.
  unfold lookup_term.
  by rewrite (list_lookup_total_correct _ _ _ (Hcell i c Hi Hc')).
Qed.

Lemma aggregated_codes_lookup_witness :
  exists codes dists,
    aggregate_coords [1]%Z 1 [0; 1; 2; 3] 2 [0; 0] = Some codes /\
    pq_dist_lookup codes 1 2 ((Z.of_nat <$> seq 0 512) : list Z) [0%Z]
      = Some dists /\
    dists !! 0 = Some 261%Z.
Proof.
  destruct (aggregated_codes_lookup (F := Z) [1]%Z 1 [0; 1; 2; 3] 2 [0; 0]
              (Z.of_nat <$> seq 0 512) [0%Z])
    as (codes & dists & Hcodes & Hdists & _ & Hsum).
  - simpl. lia.
  - repeat constructor; unfold is_u32; lia.
  - simpl. lia.
  - repeat constructor; lia.
  - intros [|i] Hi; simpl; lia.
  - reflexivity.
  - reflexivity.
  - simpl. lia.
  - exists codes, dists. split; [exact Hcodes|]. split; [exact Hdists|].
    rewrite (Hsum 0) by lia. vm_compute. reflexivity.
Defined.

(** ** What a loaded table looks like *)
Lemma decode_array_u32_range (n : nat) (bs : list byte) :
  Forall is_u32 (decode_array u32 n bs).
Proof.
  revert bs. induction n as [|n IH]; intros bs; cbn [decode_array];
    constructor; [|apply IH].
  cbn [decode u32 csize]. unfold is_u32.
  pose proof (le_value_range (take 4 bs)) as [Hlo Hhi].
  split; [done|]. eapply Z.lt_le_trans; [exact Hhi|].
  change (2 ^ 32)%Z with (256 ^ 4)%Z.
  apply Z.pow_le_mono_r; [lia|]. rewrite length_take. lia.
Qed.

Lemma load_bin_u32_range (fs : gmap string (list byte)) (name : string)
    (offset : Z) (data : list Z) (nr nc : Z) :
  load_bin u32 fs name offset = Ok (data, nr, nc) -> Forall is_u32 data.
Proof.
  unfold load_bin. destruct (fs !! name) as [file|]; [|done].
  destruct (read_at (Z.to_nat offset) 8 file) as [header|]; [|done].
  cbv zeta.
  destruct (read_at (Z.to_nat offset + 8) _ file) as [payload|]; [|done].
  intros [= <- _ _]. apply decode_array_u32_range.
Qed.

(** X7. Every table [load_pq_centroid_bin] returns holds 256 centres of
    [ndims < 2 ^ 32] coordinates, in [tables] and in [tables_tr], a mean of
    [ndims] coordinates and chunk offsets of 32 bits, one more than
    [n_chunks] unless there is none: on an empty block of offsets
    [n_chunks = nr - 1] wraps to [2 ^ 64 - 1]. A chunk count asked for is
    the chunk count of the table, and the rotation is used exactly when
    the rotation file exists, with [ndims * ndims] entries. *)
Theorem loaded_table_shape {F Dbl : Type} {O : FloatOps F Dbl}
    {B : FloatBytes F} (indeterminate : nat -> F)
    (fs : gmap string (list byte)) (pq_table_file : string) (num_chunks : Z)
    (t : FixedChunkPQTable) :
  load_pq_centroid_bin indeterminate fs pq_table_file num_chunks = Ok t ->
  (0 <= ndims t < 2 ^ 32)%Z /\
  length (tables t) = 256 * Z.to_nat (ndims t) /\
  length (tables_tr t) = 256 * Z.to_nat (ndims t) /\
  length (centroid t) = Z.to_nat (ndims t) /\
  Forall is_u32 (chunk_offsets t) /\
  (chunk_offsets t <> [] ->
   length (chunk_offsets t) = Z.to_nat (n_chunks t) + 1) /\
  (chunk_offsets t = [] -> n_chunks t = (2 ^ 64 - 1)%Z) /\
  ((0 < num_chunks < 2 ^ 64 - 1)%Z -> n_chunks t = num_chunks) /\
  use_rotation t
    = file_exists fs (pq_table_file +:+ "_rotation_matrix.bin") /\
  (use_rotation t = true ->
   length (rotmat_tr t) = Z.to_nat (ndims t) * Z.to_nat (ndims t)).
Proof.
  unfold load_pq_centroid_bin. intros H.
  destruct (load_bin u64 fs pq_table_file 0) as [[[fod nr0] nc0]|?|?|];
    step_result in H; try done.
  destruct (negb (nr0 =? 4)%Z && negb (nr0 =? 5)%Z); [done|].
  destruct (mapM _ _); step_result in H; [|done].
  destruct (fod !! 0) as [offset0|]; step_result in H; [|done].
  destruct (load_bin f32 fs pq_table_file offset0)
    as [[[tab nr1] nc1]|?|?|] eqn:Htab; step_result in H; try done.
  destruct (nr1 =? NUM_PQ_CENTROIDS)%Z eqn:Hnr1; cbn [negb] in H; [|done].
  apply Z.eqb_eq in Hnr1. subst nr1.
  destruct (fod !! 1) as [offset1|]; step_result in H; [|done].
  destruct (load_bin f32 fs pq_table_file offset1)
    as [[[cen nr2] nc2]|?|?|] eqn:Hcen; step_result in H; try done.
  destruct (nr2 =? nc1)%Z eqn:Hnr2; cbn [negb orb] in H; [|done].
  destruct (nc2 =? 1)%Z eqn:Hnc2; cbn [negb] in H; [|done].
  apply Z.eqb_eq in Hnr2, Hnc2. subst nr2 nc2.
  destruct (fod !! _) as [offset2|]; step_result in H; [|done].
  destruct (load_bin u32 fs pq_table_file offset2)
    as [[[co nr3] nc3]|?|?|] eqn:Hco; step_result in H; try done.
  destruct (nc3 =? 1)%Z eqn:Hnc3; cbn [negb orb] in H; [|done].
  apply Z.eqb_eq in Hnc3. subst nc3.
  destruct (negb (nr3 =? wrap64 (num_chunks + 1))%Z
            && negb (num_chunks =? 0)%Z) eqn:Hchunks; [done|].
  destruct (load_bin_shape _ _ _ _ _ _ _ Htab) as (Hlen1 & _ & Hdim).
  destruct (load_bin_shape _ _ _ _ _ _ _ Hcen) as (Hlen2 & _ & _).
  destruct (load_bin_shape _ _ _ _ _ _ _ Hco) as (Hlen3 & Hnr3 & _).
  pose proof (load_bin_u32_range _ _ _ _ _ _ Hco) as Hu32.
  unfold NUM_PQ_CENTROIDS in Hlen1.
  assert (Hrot : exists rot use,
            (if file_exists fs (pq_table_file +:+ "_rotation_matrix.bin")
             then
               load_bin f32 fs (pq_table_file +:+ "_rotation_matrix.bin") 0
               ≫= (fun '(rotmat_tr, nr, nc) =>
                     if (negb (nr =? nc1) || negb (nc =? nc1))%Z
                     then Throw "Error loading rotation matrix file"
                     else Ok (rotmat_tr, true))
             else Ok ([], false)) = Ok (rot, use) /\
            use = file_exists fs (pq_table_file +:+ "_rotation_matrix.bin") /\
            (use = true -> length rot = Z.to_nat nc1 * Z.to_nat nc1)).
  { destruct (file_exists fs _).
    - destruct (load_bin f32 fs _ 0) as [[[rot nr4] nc4]|?|?|] eqn:Hrotf;
        step_result in H; step_result; try done.
      destruct (nr4 =? nc1)%Z eqn:Hnr4; cbn [negb orb] in *; [|done].
      destruct (nc4 =? nc1)%Z eqn:Hnc4; cbn [negb] in *; [|done].
      apply Z.eqb_eq in Hnr4, Hnc4. subst nr4 nc4.
      exists rot, true. split; [done|]. split; [done|]. intros _.
      destruct (load_bin_shape _ _ _ _ _ _ _ Hrotf) as (-> & _ & _). lia.
    - exists [], false. done. }
  destruct Hrot as (rot & use & Hrot & Huse & Hrotlen). rewrite Hrot in H.
  step_result in H.
  destruct (transpose_tables tab _ _) as [tr|] eqn:Htr;
    step_result in H; [|done].
  injection H as <-.
  cbn [ndims tables tables_tr centroid chunk_offsets n_chunks use_rotation
       rotmat_tr].
  destruct (transpose_tables_cells tab (Z.to_nat nc1)
              (new_floats indeterminate (256 * Z.to_nat nc1)))
    as (tr' & Htr' & Hlentr & _); [lia| |].
  { unfold new_floats. by rewrite length_fmap, length_seq. }
  rewrite Htr in Htr'. injection Htr' as <-.
  split; [done|]. split; [lia|]. split; [done|]. split; [lia|].
  split; [done|]. unfold wrap64.
  change (2 ^ 32)%Z with 4294967296%Z in *.
  change (2 ^ 64)%Z with 18446744073709551616%Z.
  split.
  { intros Hne. destruct co as [|o co]; [done|]. cbn [length] in *.
    rewrite Z.mod_small by lia. lia. }
  split.
  { intros ->. cbn [length] in Hlen3.
    assert (nr3 = 0%Z) as -> by lia. reflexivity. }
  split; [|done].
  intros Hnum. apply andb_false_iff in Hchunks as [Heq|Hzero].
  - apply negb_false_iff, Z.eqb_eq in Heq. unfold wrap64 in Heq.
    change (2 ^ 64)%Z with 18446744073709551616%Z in Heq.
    rewrite Z.mod_small in Heq by lia. subst nr3.
    rewrite Z.mod_small by lia. lia.
  - apply negb_false_iff, Z.eqb_eq in Hzero. lia.
Qed.

Lemma loaded_table_shape_witness :
  exists t : FixedChunkPQTable (F := F32.t),
    load_pq_centroid_bin (fun _ => fzero) Example.trained_files
      "pq_pivots.bin" 1 = Ok t /\
    length (tables_tr t) = 256 * Z.to_nat (ndims t) /\
    length (centroid t) = Z.to_nat (ndims t) /\
    n_chunks t = 1%Z /\
    use_rotation t = false.
Proof.
  destruct (load_pq_centroid_bin (fun _ => fzero : F32.t)
              Example.trained_files "pq_pivots.bin" 1) as [t| | |] eqn:H.
  - destruct (loaded_table_shape (fun _ => fzero) Example.trained_files
                "pq_pivots.bin" 1 t H)
      as (_ & _ & Htr & Hcen & _ & _ & _ & Hchunks & Hrot & _).
    exists t. split; [reflexivity|]. split; [exact Htr|].
    split; [exact Hcen|]. split; [apply Hchunks; split; [lia|reflexivity]|].
    rewrite Hrot. vm_compute. reflexivity.
  - vm_compute in H. discriminate H.
  - vm_compute in H. discriminate H.
  - vm_compute in H. discriminate H.
Defined.

(** ** The encoder's reading of the pivot file *)
Section EncoderProofs.
Import Trainer.
Context {F Dbl : Type} {O : FloatOps F Dbl} {B : FloatBytes F}.
Variable write_codes : Z -> Z -> list Z -> Trainer.M (F := F) Z.

Ltac run_step H := rewrite (bind_run _ _ _ _ _ H); cbv beta iota.

Lemma bind_lift {A C : Type} (a : A) (f : A -> Trainer.M (F := F) C)
    (s : state) :
  (lift (Ok a) ≫= f) s = f a s.
Proof. reflexivity. Qed.

Ltac read_offset := cbn [lookup list_lookup of_option]; rewrite bind_lift.

(** A pivot file of four matrices of the shapes asked for passes the
    checks of the encoder. *)
Lemma encoder_accepts (s : state) (data_file pq_pivots_path : string)
    (num_centers num_pq_chunks : nat) (num_points dim o0 o1 o2 o3 nc0 : Z)
    (pivots mean : list F) (chunk_offsets : list Z) :
  read_base_header data_file s = (Ok (num_points, dim), s) ->
  load_bin u64 (files s) pq_pivots_path 0 = Ok ([o0; o1; o2; o3], 4, nc0)%Z ->
  load_bin f32 (files s) pq_pivots_path o0
    = Ok (pivots, Z.of_nat num_centers, dim) ->
  load_bin f32 (files s) pq_pivots_path o1 = Ok (mean, dim, 1%Z) ->
  load_bin u32 (files s) pq_pivots_path o2
    = Ok (chunk_offsets, (Z.of_nat num_pq_chunks + 1)%Z, 1%Z) ->
  generate_pq_data_from_pivots write_codes data_file num_centers
    num_pq_chunks pq_pivots_path false s
  = write_codes num_points dim chunk_offsets
      (State (upd centroid mean (upd full_pivot_data pivots (heap s)))
         (files s) (cout s ++ ["Loaded PQ pivot information"])).
Proof.
  intros Hheader Hoff Hpivots Hmean Hco.
  unfold generate_pq_data_from_pivots. run_step Hheader.
  assert (Hexists : m_file_exists pq_pivots_path s = (Ok true, s)).
  { unfold m_file_exists, file_exists.
    rewrite bool_decide_eq_true_2; [done|].
    unfold load_bin in Hoff. by destruct (files s !! pq_pivots_path). }
  run_step Hexists. cbn [negb].
  assert (H0 : m_load_bin u64 pq_pivots_path 0 s
               = (Ok ([o0; o1; o2; o3], 4, nc0)%Z, s)).
  { unfold m_load_bin. by rewrite Hoff. }
  run_step H0. change (negb (4 =? 4)%Z) with false. cbv iota.
  read_offset.
  assert (H1 : m_load_bin f32 pq_pivots_path o0 s
               = (Ok (pivots, Z.of_nat num_centers, dim), s)).
  { unfold m_load_bin. by rewrite Hpivots. }
  run_step H1.
  rewrite (bind_run (set_buf full_pivot_data pivots) _ s _ () eq_refl).
  rewrite !Z.eqb_refl. cbn [negb orb].
  set (s1 := set_heap full_pivot_data pivots s).
  read_offset.
  assert (H2 : m_load_bin f32 pq_pivots_path o1 s1 = (Ok (mean, dim, 1%Z), s1)).
  { unfold m_load_bin. cbn [files s1 set_heap]. by rewrite Hmean. }
  run_step H2.
  rewrite (bind_run (set_buf centroid mean) _ s1 _ () eq_refl).
  rewrite !Z.eqb_refl. cbn [negb orb].
  set (s2 := set_heap centroid mean s1).
  read_offset.
  assert (H3 : m_load_bin u32 pq_pivots_path o2 s2
               = (Ok (chunk_offsets, (Z.of_nat num_pq_chunks + 1)%Z, 1%Z),
                  s2)).
  { unfold m_load_bin. cbn [files s2 s1 set_heap]. by rewrite Hco. }
  run_step H3. rewrite !Z.eqb_refl. cbn [negb orb].
  rewrite (bind_run (mret ()) _ s2 s2 () eq_refl).
  rewrite (bind_run (print _) _ s2 _ () eq_refl).
  reflexivity.
Qed.

End EncoderProofs.

(** X8. What [generate_pq_pivots] has written, [generate_pq_data_from_pivots]
    takes when it is called without OPQ ([use_opq = false]), for any
    number of centres below [2 ^ 20] and any dimension below [2 ^ 31]:
    after a training run that returns 0, the encoder called with the same
    numbers of centres and of chunks, on base vectors of the same
    dimension, passes its four checks of the pivot file and goes on to
    encode with the chunk offsets of the training, the files being as the
    training left them. *)
Theorem trained_pivots_pass_the_encoder {F Dbl : Type} {O : FloatOps F Dbl}
    {B : FloatBytes F}
    (METADATA_SIZE : Z) (indeterminate : nat -> F)
    (kmeanspp_selecting_pivots : list F -> nat -> nat -> list F -> nat -> list F)
    (run_lloyds : list F -> nat -> nat -> list F -> nat -> nat
                  -> list F * list Z)
    (write_codes : Z -> Z -> list Z -> Trainer.M (F := F) Z)
    (num_train dim num_centers num_pq_chunks max_k_means_reps : nat)
    (path data_file : string) (make_zero_mean : bool) (s : Trainer.state)
    (num_points : Z) :
  let run :=
    Trainer.generate_pq_pivots METADATA_SIZE indeterminate
      kmeanspp_selecting_pivots run_lloyds
      num_train dim num_centers num_pq_chunks max_k_means_reps
      path make_zero_mean s in
  FloatBytesOk F ->
  (40 <= METADATA_SIZE < 2 ^ 32)%Z ->
  (Z.of_nat dim < 2 ^ 31)%Z ->
  (Z.of_nat num_centers < 2 ^ 20)%Z ->
  run.1 = Ok 0%Z ->
  Trainer.read_base_header data_file run.2
    = (Ok (num_points, Z.of_nat dim), run.2) ->
  exists chunk_offsets s',
    Partition.chunk_partition dim num_pq_chunks = Some chunk_offsets /\
    Trainer.generate_pq_data_from_pivots write_codes data_file num_centers
      num_pq_chunks path false run.2
    = write_codes num_points (Z.of_nat dim) chunk_offsets s' /\
    Trainer.files s' = Trainer.files run.2 /\
    (forall b, Trainer.heap s' b = Trainer.heap run.2 b) /\
    Trainer.cout s' = Trainer.cout run.2 ++ ["Loaded PQ pivot information"].
Proof.
  intros run BOk HM HD HK Hrun Hheader.
  destruct run as [r s'] eqn:Erun. simpl in Hrun, Hheader |- *. subst r.
  destruct (generate_pq_pivots_Ok _ _ _ _ _ _ _ _ _ _ _ _ _ Erun)
    as (co & s8 & s9 & cb & Hpart & Hsave & Hheap & Hfiles & Hlenc & Hlenf
        & Hle).
  assert (HD' : (Z.of_nat dim < 2 ^ 32)%Z) by lia.
  destruct (chunk_partition_u32 _ _ _ Hpart Hle HD') as (Hlenco & Hu32).
  assert (Hn : (0 <= Z.of_nat num_centers * Z.of_nat dim < 2 ^ 52)%Z).
  { split; [lia|]. change (2 ^ 52)%Z with (2 ^ 20 * 2 ^ 32)%Z.
    apply Z.mul_lt_mono_nonneg; lia. }
  assert (Hsmall : (Z.of_nat num_centers * Z.of_nat dim < 2 ^ 32)%Z).
  { pose proof (save_pivots_fits _ _ _ _ _ _ _ _ Hsave) as Hfit.
    rewrite Hlenf in Hfit. unfold wrap64, wrap32 in Hfit.
    rewrite (Z.mod_small (Z.of_nat num_centers * Z.of_nat dim) (2 ^ 64))
      in Hfit by lia.
    destruct (decide (Z.of_nat num_centers * Z.of_nat dim < 2 ^ 32)%Z)
      as [|Hbig]; [done|].
    pose proof (Z.mod_pos_bound (Z.of_nat num_centers * Z.of_nat dim)
                  (2 ^ 32) ltac:(lia)).
    lia. }
  destruct (save_pivots_loads METADATA_SIZE path co num_centers dim s8 s9 cb)
    as (c1 & c2 & c3 & -> & Hheap9 & Hn1 & Hn2 & L0 & L1 & L2 & L3);
    [done|lia|done|lia|done|done|].
  rewrite <- Hfiles in L0, L1, L2, L3.
  rewrite firstn_all2 in L1.
  2:{ rewrite Hlenf. unfold wrap32. rewrite Z.mod_small by lia. lia. }
  rewrite firstn_all2 in L2 by lia.
  rewrite Hlenco in L3.
  replace (Z.of_nat (num_pq_chunks + 1)) with (Z.of_nat num_pq_chunks + 1)%Z
    in L3 by lia.
  exists co. eexists. split; [done|]. split.
  { apply (encoder_accepts write_codes s' data_file path num_centers
             num_pq_chunks num_points (Z.of_nat dim)
             METADATA_SIZE c1 c2 c3 1%Z _ _ co Hheader L0 L1 L2 L3). }
  cbn [Trainer.files Trainer.heap Trainer.cout].
  split; [done|]. split; [|done].
  intros b. unfold Trainer.upd. rewrite Hheap, Hheap9.
  repeat case_decide; by subst.
Qed.

Lemma trained_pivots_pass_the_encoder_witness :
  exists chunk_offsets s',
    Partition.chunk_partition 2 1 = Some chunk_offsets /\
    Trainer.generate_pq_data_from_pivots EncoderExample.write_codes
      "base.bin" 2 1 "pq_pivots.bin" false EncoderExample.trained.2
    = EncoderExample.write_codes 1 (Z.of_nat 2) chunk_offsets s' /\
    Trainer.files s' = Trainer.files EncoderExample.trained.2 /\
    (forall b, Trainer.heap s' b = Trainer.heap EncoderExample.trained.2 b) /\
    Trainer.cout s'
    = Trainer.cout EncoderExample.trained.2
      ++ ["Loaded PQ pivot information"].
Proof.
  apply (trained_pivots_pass_the_encoder Example.METADATA_SIZE
           (fun _ => fzero) Example.kmeanspp Example.lloyds
           EncoderExample.write_codes 2 2 2 1 1 "pq_pivots.bin" "base.bin"
           true (Example.start EncoderExample.base_files) 1%Z).
  - exact F32_bytes_ok.
  - unfold Example.METADATA_SIZE. lia.
  - lia.
  - lia.
  - vm_compute. reflexivity.
  - vm_compute. reflexivity.
Defined.

(** X9. [generate_pq_data_from_pivots] returns a value only through its
    checks: the base file gave [num_points] and [dim], the pivot file holds
    exactly four offsets, [num_centers] pivots of [dim] coordinates at the
    first, a mean of [dim] coordinates at the second, [num_pq_chunks + 1]
    chunk offsets at the third (and, with [use_opq], the rotation file a
    matrix of [dim * dim]), and the value is that of the encoding with
    these chunk offsets, started on the files as they were. *)
Theorem encoder_returns_through_its_checks {F Dbl : Type}
    {O : FloatOps F Dbl} {B : FloatBytes F}
    (write_codes : Z -> Z -> list Z -> Trainer.M (F := F) Z)
    (data_file pq_pivots_path : string) (num_centers num_pq_chunks : nat)
    (use_opq : bool) (s s_end : Trainer.state) (z : Z) :
  Trainer.generate_pq_data_from_pivots write_codes data_file num_centers
    num_pq_chunks pq_pivots_path use_opq s = (Ok z, s_end) ->
  exists num_points dim offsets nc0 o0 o1 o2 pivots mean chunk_offsets s',
    Trainer.read_base_header data_file s = (Ok (num_points, dim), s) /\
    load_bin u64 (Trainer.files s) pq_pivots_path 0 = Ok (offsets, 4%Z, nc0) /\
    offsets !! 0 = Some o0 /\ offsets !! 1 = Some o1 /\
    offsets !! 2 = Some o2 /\
    load_bin f32 (Trainer.files s) pq_pivots_path o0
      = Ok (pivots, Z.of_nat num_centers, dim) /\
    load_bin f32 (Trainer.files s) pq_pivots_path o1 = Ok (mean, dim, 1%Z) /\
    load_bin u32 (Trainer.files s) pq_pivots_path o2
      = Ok (chunk_offsets, (Z.of_nat num_pq_chunks + 1)%Z, 1%Z) /\
    (use_opq = true ->
     exists rotmat : list F,
       load_bin f32 (Trainer.files s)
         (pq_pivots_path +:+ "_rotation_matrix.bin") 0
       = Ok (rotmat, dim, dim)) /\
    Trainer.files s' = Trainer.files s /\
    write_codes num_points dim chunk_offsets s' = (Ok z, s_end).
Proof.
  unfold Trainer.generate_pq_data_from_pivots. intros H.
  apply bind_Ok_inv in H as ([num_points dim] & s0 & Hheader & H).
  assert (s0 = s) as ->.
  { unfold Trainer.read_base_header in Hheader.
    destruct (Trainer.files s !! data_file) as [file|]; [|done].
    destruct (read_at 0 8 file); [|done]. by injection Hheader. }
  apply bind_Ok_inv in H as (present & s0 & Hpresent & H).
  injection Hpresent as <- <-.
  destruct (file_exists (Trainer.files s) pq_pivots_path); cbn [negb] in H.
  2:{ apply bind_Ok_inv in H as (? & ? & _ & H). done. }
  apply bind_Ok_inv in H as ([[offsets nr0] nc0] & s0 & H0 & H).
  unfold Trainer.m_load_bin in H0. injection H0 as H0 <-.
  destruct (nr0 =? 4)%Z eqn:Hnr0; cbn [negb] in H.
  2:{ apply bind_Ok_inv in H as (? & ? & _ & H). done. }
  apply Z.eqb_eq in Hnr0. subst nr0.
  apply bind_Ok_inv in H as (o0 & s0 & Ho0 & H).
  unfold Trainer.lift in Ho0.
  destruct (offsets !! 0) as [o0'|] eqn:Hoff0; [|done].
  injection Ho0 as <- <-.
  apply bind_Ok_inv in H as ([[pivots nr1] nc1] & s0 & H1 & H).
  unfold Trainer.m_load_bin in H1. injection H1 as H1 <-.
  apply bind_Ok_inv in H as ([] & s1 & Hset1 & H). injection Hset1 as <-.
  destruct (nr1 =? Z.of_nat num_centers)%Z eqn:Hnr1; cbn [negb orb] in H.
  2:{ apply bind_Ok_inv in H as (? & ? & _ & H). done. }
  destruct (nc1 =? dim)%Z eqn:Hnc1; cbn [negb] in H.
  2:{ apply bind_Ok_inv in H as (? & ? & _ & H). done. }
  apply Z.eqb_eq in Hnr1, Hnc1. subst nr1 nc1.
  apply bind_Ok_inv in H as (o1 & s0 & Ho1 & H).
  unfold Trainer.lift in Ho1.
  destruct (offsets !! 1) as [o1'|] eqn:Hoff1; [|done].
  injection Ho1 as <- <-.
  apply bind_Ok_inv in H as ([[mean nr2] nc2] & s0 & H2 & H).
  unfold Trainer.m_load_bin in H2. cbn [Trainer.files Trainer.set_heap] in H2.
  injection H2 as H2 <-.
  apply bind_Ok_inv in H as ([] & s2 & Hset2 & H). injection Hset2 as <-.
  destruct (nr2 =? dim)%Z eqn:Hnr2; cbn [negb orb] in H.
  2:{ apply bind_Ok_inv in H as (? & ? & _ & H). done. }
  destruct (nc2 =? 1)%Z eqn:Hnc2; cbn [negb] in H.
  2:{ apply bind_Ok_inv in H as (? & ? & _ & H). done. }
  apply Z.eqb_eq in Hnr2, Hnc2. subst nr2 nc2.
  apply bind_Ok_inv in H as (o2 & s0 & Ho2 & H).
  unfold Trainer.lift in Ho2.
  destruct (offsets !! 2) as [o2'|] eqn:Hoff2; [|done].
  injection Ho2 as <- <-.
  apply bind_Ok_inv in H as ([[chunk_offsets nr3] nc3] & s0 & H3 & H).
  unfold Trainer.m_load_bin in H3. cbn [Trainer.files Trainer.set_heap] in H3.
  injection H3 as H3 <-.
  destruct (nr3 =? Z.of_nat num_pq_chunks + 1)%Z eqn:Hnr3; cbn [negb orb] in H.
  2:{ apply bind_Ok_inv in H as (? & ? & _ & H). done. }
  destruct (nc3 =? 1)%Z eqn:Hnc3; cbn [negb] in H.
  2:{ apply bind_Ok_inv in H as (? & ? & _ & H). done. }
  apply Z.eqb_eq in Hnr3, Hnc3. subst nr3 nc3.
  apply bind_Ok_inv in H as ([] & s3 & Hrot & H).
  apply bind_Ok_inv in H as ([] & s4 & Hprint & H). injection Hprint as <-.
  assert (Hrot' : Trainer.files s3 = Trainer.files s /\
            (use_opq = true ->
             exists rotmat : list F,
               load_bin f32 (Trainer.files s)
                 (pq_pivots_path +:+ "_rotation_matrix.bin") 0
               = Ok (rotmat, dim, dim))).
  { destruct use_opq.
    - apply bind_Ok_inv in Hrot as ([[rotmat nr4] nc4] & s0 & H4 & Hrot).
      unfold Trainer.m_load_bin in H4.
      cbn [Trainer.files Trainer.set_heap] in H4. injection H4 as H4 <-.
      apply bind_Ok_inv in Hrot as ([] & s5 & Hset & Hrot).
      injection Hset as <-.
      destruct (nr4 =? dim)%Z eqn:Hnr4; cbn [negb orb] in Hrot.
      2:{ apply bind_Ok_inv in Hrot as (? & ? & _ & Hrot). done. }
      destruct (nc4 =? dim)%Z eqn:Hnc4; cbn [negb] in Hrot.
      2:{ apply bind_Ok_inv in Hrot as (? & ? & _ & Hrot). done. }
      apply Z.eqb_eq in Hnr4, Hnc4. subst nr4 nc4.
      injection Hrot as <-. split; [done|]. intros _. by exists rotmat.
    - injection Hrot as <-. split; [done|]. done. }
  destruct Hrot' as [Hfiles Hrotf].
  eexists num_points, dim, offsets, nc0, _, _, _, pivots, mean,
    chunk_offsets, _.
  split; [done|]. split; [done|]. split; [exact Hoff0|].
  split; [exact Hoff1|]. split; [exact Hoff2|].
  split; [done|]. split; [done|]. split; [done|].
  split; [done|]. split; [|exact H]. exact Hfiles.
Qed.

Lemma encoder_returns_through_its_checks_witness :
  exists offsets nc0 chunk_offsets nr,
    load_bin u64 (Trainer.files EncoderExample.trained.2) "pq_pivots.bin" 0
      = Ok (offsets, 4%Z, nc0) /\
    offsets !! 2 = Some nr /\
    load_bin u32 (Trainer.files EncoderExample.trained.2) "pq_pivots.bin" nr
      = Ok (chunk_offsets, (Z.of_nat 1 + 1)%Z, 1%Z).
Proof.
  destruct (Trainer.generate_pq_data_from_pivots EncoderExample.write_codes
              "base.bin" 2 1 "pq_pivots.bin" false EncoderExample.trained.2)
    as [r s_end] eqn:Hrun.
  assert (Hr : r = Ok 0%Z).
  { apply (f_equal fst) in Hrun. cbn [fst] in Hrun. rewrite <- Hrun.
    vm_compute. reflexivity. }
  subst r.
  destruct (encoder_returns_through_its_checks _ _ _ _ _ _ _ _ _ Hrun)
    as (num_points & dim & offsets & nc0 & o0 & o1 & o2 & pivots & mean
        & chunk_offsets & s' & _ & Hoff & _ & _ & Ho2 & _ & _ & Hco & _).
  exists offsets, nc0, chunk_offsets, o2.
  split; [exact Hoff|]. split; [exact Ho2|exact Hco].
Defined.

(** ** From the query to the distances of the points *)

(** X10. The three steps of a search: [populate_chunk_distances] fills
    the table of the query, [aggregate_coords] gathers the codes of the
    points [ids] and [pq_dist_lookup] adds up the table entries. Whatever
    the arithmetic rounds, what is left in [dists_out[i]] is the sum over
    the chunks of the sums of the squares of each chunk, for the code of
    point [ids[i]]; it is [l2_distance] of the query and that code where
    the arithmetic does not round, and where a square taken through
    [double] and added to zero is the square, as in binary32, when every
    chunk holds one axis. *)
Theorem search_distances_are_l2_distances {F Dbl : Type}
    {O : FloatOps F Dbl}
    (t : FixedChunkPQTable (F := F)) (query_vec dist_vec : list F)
    (ids : list Z) (n_ids : nat) (all_coords out : list nat)
    (dists_out : list F) :
  let M := Z.to_nat (n_chunks t) in
  let code i := take M (drop (Z.to_nat (ids !!! i) * M) all_coords) in
  table_ready t query_vec ->
  length dist_vec = 256 * M ->
  n_ids <= length ids -> Forall is_u32 ids ->
  (Z.of_nat (length all_coords) < 2 ^ 64)%Z ->
  Forall (fun c => c < 256) all_coords ->
  (forall i, i < n_ids ->
     Z.to_nat (ids !!! i) * M + M <= length all_coords) ->
  length out = n_ids * M ->
  n_ids <= length dists_out ->
  exists table codes dists,
    populate_chunk_distances t query_vec dist_vec = Some table /\
    aggregate_coords ids n_ids all_coords M out = Some codes /\
    pq_dist_lookup codes n_ids M table dists_out = Some dists /\
    forall i, i < n_ids ->
      dists !! i = Some (chunkwise t fadd (table_sq t query_vec) (code i)) /\
      (ExactArith O \/ (SquareFromZero O /\ one_axis_per_chunk t) ->
       l2_distance t query_vec (code i) = dists !! i).
Proof.
  intros M code Hready Hdist Hids Hu32 Hall Hbytes Hfits Hout Hn.
  destruct (populate_chunk_distances_cells t query_vec dist_vec Hready)
    as (table & Htable & Hlen & Hcells); [lia|].
  destruct (aggregate_coords_ready ids n_ids all_coords M out table dists_out)
    as (codes & Hcodes & Hlookup & Hcell); try done; [lia|].
  destruct (pq_dist_lookup_cells codes n_ids M table dists_out Hlookup)
    as (dists & Hrun & _ & Hsum & _).
  exists table, codes, dists. split; [done|]. split; [done|]. split; [done|].
  intros i Hi. specialize (Hfits i Hi).
  assert (Hcode : forall c, c < M ->
            code i !!! c = all_coords !!! (Z.to_nat (ids !!! i) * M + c)).
  { intros c Hc. unfold code.
    rewrite lookup_total_take_lt by done. by rewrite lookup_total_drop. }
  assert (Hcodelen : length (code i) = M).
  { unfold code. rewrite length_take, length_drop. lia. }
  assert (Hbyte : Forall (fun c => c < 256) (code i)).
  { unfold code. by apply Forall_take, Forall_drop. }
  assert (Hdist_i : dists !! i
                    = Some (chunkwise t fadd (table_sq t query_vec) (code i))).
  { rewrite (Hsum i Hi). f_equal. unfold chunkwise.
    apply fold_left_ext_in. intros acc c Hc%list_elem_of_In%in_seq.
    assert (Hc' : c < M) by (fold M in Hc; lia).
    f_equal. unfold lookup_term.
    rewrite (list_lookup_total_correct _ _ _ (Hcell i c Hi Hc')).
    rewrite <- (Hcode c Hc').
    assert (Hbound : code i !!! c < 256).
    { apply (Forall_lookup_1 (fun c => c < 256) (code i) c _ Hbyte).
      apply list_lookup_lookup_total_lt. lia. }
    by rewrite (list_lookup_total_correct _ _ _
                  (Hcells c (code i !!! c) Hc' Hbound)). }
  split; [exact Hdist_i|].
  intros Harith. rewrite Hdist_i.
  rewrite (l2_distance_running t query_vec (code i) Hready Hcodelen Hbyte).
  f_equal. symmetry. destruct Harith as [E|[Hlaw Hone]].
  - apply (chunkwise_running_sq E).
  - by apply chunkwise_running_one_axis.
Qed.

Lemma search_distances_are_l2_distances_witness :
  exists (table : list F32.t) codes dists,
    populate_chunk_distances fine_table small_query (replicate 1024 fzero)
      = Some table /\
    aggregate_coords [1]%Z 1 [1; 1; 1; 1; 0; 0; 0; 0] 4 [9; 9; 9; 9]
      = Some codes /\
    pq_dist_lookup codes 1 4 table [fzero] = Some dists /\
    l2_distance fine_table small_query [0; 0; 0; 0] = dists !! 0.
Proof.
  assert (Hdist : length (replicate 1024 (fzero : F32.t))
                  = 256 * Z.to_nat (n_chunks (fine_table (F := F32.t))))
    by reflexivity.
  assert (Hids : 1 <= length [1%Z]) by (simpl; lia).
  assert (Hu32 : Forall is_u32 [1%Z])
    by (repeat constructor; unfold is_u32; lia).
  assert (Hall : (Z.of_nat (length [1; 1; 1; 1; 0; 0; 0; 0]) < 2 ^ 64)%Z)
    by (simpl; lia).
  assert (Hbytes : Forall (fun c => c < 256) [1; 1; 1; 1; 0; 0; 0; 0])
    by (repeat constructor; lia).
  assert (Hfits : forall i, i < 1 ->
            Z.to_nat ([1%Z] !!! i)
              * Z.to_nat (n_chunks (fine_table (F := F32.t)))
            + Z.to_nat (n_chunks (fine_table (F := F32.t)))
            <= length [1; 1; 1; 1; 0; 0; 0; 0])
    by (intros [|i] Hi; simpl; lia).
  assert (Hout : length [9; 9; 9; 9]
                 = 1 * Z.to_nat (n_chunks (fine_table (F := F32.t))))
    by reflexivity.
  assert (Hn : 1 <= length [fzero : F32.t]) by (simpl; lia).
  destruct (search_distances_are_l2_distances (fine_table (F := F32.t))
              small_query (replicate 1024 fzero) [1]%Z 1
              [1; 1; 1; 1; 0; 0; 0; 0] [9; 9; 9; 9] [fzero]
              fine_table_ready Hdist Hids Hu32 Hall Hbytes Hfits Hout Hn)
    as (table & codes & dists & Htable & Hcodes & Hdists & Hl2).
  exists table, codes, dists. split; [exact Htable|].
  split; [exact Hcodes|]. split; [exact Hdists|].
  destruct (Hl2 0 ltac:(lia)) as [_ Hsame].
  apply Hsame. right. split.
  - exact F32_square_from_zero.
  - exact fine_table_one_axis.
Defined.

(** ** Draining the completions *)

(** X11. The completions of a window have a budget of their own. In a
    window whose submission took partial counts and was then completed,
    however the windows before it were completed, [io_getevents] is first
    asked for all [n] events; after partial counts that sum to [r < n] it
    is asked for exactly the [n - r] events that remain, into [evts + r];
    an interrupted call is made again without being counted; the partial
    count after [n_retries] of them throws, however many the submission
    and the windows before have used, and any other negative answer
    throws at once. *)
Theorem execute_io_drains_with_its_own_budget (strerror : Z -> string)
    (size n_retries iter : Z) (earlier : list AlignedFileReader.window)
    (submitted drained : list (nat * Z))
    (last_count : Z) (interrupts : nat) :
  let n := AlignedFileReader.n_ops size iter in
  let s := AlignedFileReader.counts submitted in
  let r := AlignedFileReader.counts drained in
  let kernel tail :=
    AlignedFileReader.windows_script earlier
    ++ AlignedFileReader.round_script submitted ++ [last_count]
    ++ AlignedFileReader.round_script drained
    ++ replicate interrupts (- AlignedFileReader.EINTR)%Z ++ tail in
  let execute_io := AlignedFileReader.execute_io strerror size n_retries in
  (0 <= size < 2 ^ 59)%Z ->
  (0 <= iter < AlignedFileReader.n_iters size)%Z ->
  AlignedFileReader.completed n_retries size (seqZ 0 iter) earlier ->
  Forall (fun kr => 0 <= kr.2)%Z submitted ->
  (s < n)%Z -> (0 <= last_count)%Z -> (n <= s + last_count)%Z ->
  (Z.of_nat (length submitted) <= n_retries)%Z ->
  Forall (fun kr => 0 <= kr.2)%Z drained ->
  (r < n)%Z ->
  (Z.of_nat (length drained) <= n_retries)%Z ->
  execute_io (kernel [])
    = (AlignedFileReader.Pending,
       AlignedFileReader.windows_trace size (seqZ 0 iter) earlier
       ++ AlignedFileReader.prepare size iter
       ++ (AlignedFileReader.round_calls AlignedFileReader.io_submit n 0 0
             submitted
           ++ [AlignedFileReader.syscall AlignedFileReader.io_submit
                 (n - s) s])
       ++ AlignedFileReader.round_calls AlignedFileReader.io_getevents n 0 0
            drained
       ++ replicate (S interrupts)
            (AlignedFileReader.syscall AlignedFileReader.io_getevents
               (n - r) r)) /\
  (forall count, (0 <= count)%Z -> (r + count < n)%Z ->
     Z.of_nat (length drained) = n_retries ->
     (execute_io (kernel [count])).1
       = AlignedFileReader.Thrown
           ("io_getevents failed after retried " +:+ pretty n_retries
            +:+ " times")) /\
  (forall ret, (ret < 0)%Z -> (- ret)%Z <> AlignedFileReader.EINTR ->
     (execute_io (kernel [ret])).1
       = AlignedFileReader.Thrown
           ("Unknown error occur in io_getevents, errno: "
            +:+ pretty (- ret)%Z +:+ ", " +:+ strerror (- ret)%Z)).
Proof.
  intros n s r kernel execute_io Hsize Hiter Hearlier Hsub Hs Hlast Hfull
    Hlen Hdrained Hr Hlend.
  pose proof (counts_nonneg submitted Hsub) as Hs0. fold s in Hs0.
  pose proof (counts_nonneg drained Hdrained) as Hr0. fold r in Hr0.
  assert (Hwindows : seqZ 0 (AlignedFileReader.n_iters size)
            = seqZ 0 iter
              ++ iter :: seqZ (iter + 1)
                   (AlignedFileReader.n_iters size - iter - 1)).
  { replace (AlignedFileReader.n_iters size)
      with (iter + (AlignedFileReader.n_iters size - iter))%Z at 1 by lia.
    rewrite seqZ_app by lia. f_equal. rewrite seqZ_cons by lia.
    rewrite Z.add_0_l. reflexivity. }
  assert (Hrun : forall tail o t k,
            AlignedFileReader.retry_loop strerror
              AlignedFileReader.io_getevents
              n_retries n r (Z.of_nat (length drained)) tail = (o, t, k) ->
            o <> AlignedFileReader.Returned ->
            execute_io (kernel tail)
            = (o,
               AlignedFileReader.windows_trace size (seqZ 0 iter) earlier
               ++ AlignedFileReader.prepare size iter
               ++ (AlignedFileReader.round_calls AlignedFileReader.io_submit
                     n 0 0 submitted
                   ++ [AlignedFileReader.syscall AlignedFileReader.io_submit
                         (n - s) s])
               ++ AlignedFileReader.round_calls
                    AlignedFileReader.io_getevents n 0 0 drained
               ++ replicate interrupts
                    (AlignedFileReader.syscall AlignedFileReader.io_getevents
                       (n - r) r)
               ++ t)).
  { intros tail o t k Htail Ho.
    unfold execute_io, AlignedFileReader.execute_io, kernel.
    rewrite Hwindows, for_iter_completed by done.
    cbn [AlignedFileReader.for_iter]. fold n.
    rewrite (retry_loop_rounds strerror AlignedFileReader.io_submit
               n_retries n submitted 0 0 _ Hsub) by (fold s; lia).
    fold s. rewrite !Z.add_0_l. cbn [app].
    rewrite retry_loop_full by lia.
    rewrite (retry_loop_rounds strerror AlignedFileReader.io_getevents
               n_retries n drained 0 0 _ Hdrained) by (fold r; lia).
    fold r. rewrite !Z.add_0_l.
    rewrite retry_loop_interrupts by lia. rewrite Htail.
    destruct o; [done| |]; by rewrite <- !app_assoc. }
  split.
  { rewrite (Hrun [] _ _ _
               (retry_loop_nil strerror AlignedFileReader.io_getevents
                  n_retries n r _ Hr)) by done.
    by rewrite <- (replicate_S_middle interrupts _ []), app_nil_r. }
  split.
  { intros count Hcount Hpart Hbudget.
    assert (Hover : (n_retries < Z.of_nat (length drained) + 1)%Z) by lia.
    rewrite (Hrun [count] _ _ _
               (retry_loop_exhausted strerror AlignedFileReader.io_getevents
                  n_retries n r (Z.of_nat (length drained)) count []
                  Hr Hcount Hpart Hover)) by done.
    reflexivity. }
  intros ret Hret Herr.
  rewrite (Hrun [ret] _ _ _
             (retry_loop_error strerror AlignedFileReader.io_getevents
                n_retries n r _ ret [] Hr Hret Herr)) by done.
  reflexivity.
Qed.

Lemma execute_io_drains_with_its_own_budget_witness :
  (AlignedFileReader.execute_io ReaderExample.strerror 1029 10
     (DrainExample.kernel [1%Z])).1
    = AlignedFileReader.Thrown
        ("io_getevents failed after retried " +:+ pretty 10%Z +:+ " times") /\
  (AlignedFileReader.execute_io ReaderExample.strerror 1029 10
     (DrainExample.kernel [(-5)%Z])).1
    = AlignedFileReader.Thrown
        ("Unknown error occur in io_getevents, errno: "
         +:+ pretty (- -5)%Z +:+ ", " +:+ ReaderExample.strerror (- -5)%Z).
Proof.
  assert (Hsize : (0 <= 1029 < 2 ^ 59)%Z) by (split; [lia|reflexivity]).
  assert (Hiter : (0 <= 1 < AlignedFileReader.n_iters 1029)%Z)
    by (split; [lia|reflexivity]).
  assert (Hsub : Forall (fun kr => 0 <= kr.2)%Z ReaderExample.rounds)
    by (repeat constructor; simpl; lia).
  assert (Hs : (AlignedFileReader.counts ReaderExample.rounds
                < AlignedFileReader.n_ops 1029 1)%Z) by reflexivity.
  assert (Hfull : (AlignedFileReader.n_ops 1029 1
                   <= AlignedFileReader.counts ReaderExample.rounds + 2)%Z)
    by (vm_compute; discriminate).
  assert (Hlen : (Z.of_nat (length ReaderExample.rounds) <= 10)%Z)
    by (simpl; lia).
  assert (Hdrained : Forall (fun kr => 0 <= kr.2)%Z DrainExample.drained)
    by (repeat constructor; simpl; lia).
  assert (Hr : (AlignedFileReader.counts DrainExample.drained
                < AlignedFileReader.n_ops 1029 1)%Z) by reflexivity.
  assert (Hlend : (Z.of_nat (length DrainExample.drained) <= 10)%Z)
    by (simpl; lia).
  assert (Hearlier : AlignedFileReader.completed 10 1029 (seqZ 0 1)
                       ReaderExample.earlier).
  { unfold AlignedFileReader.completed, ReaderExample.earlier.
    change (seqZ 0 1) with [0%Z].
    constructor; [|constructor].
    split; (split; [|split; [|split]]); cbn [fst snd].
    all: try (vm_compute; congruence).
    all: try (repeat constructor; cbn; lia). }
  destruct (execute_io_drains_with_its_own_budget ReaderExample.strerror
              1029 10 1 ReaderExample.earlier ReaderExample.rounds
              DrainExample.drained 2 1
              Hsize Hiter Hearlier Hsub Hs ltac:(lia) Hfull Hlen Hdrained Hr
              Hlend)
    as (_ & Hbudget & Herr).
  split.
  - apply (Hbudget 1%Z); [lia|reflexivity|reflexivity].
  - apply (Herr (-5)%Z); [lia|]. unfold AlignedFileReader.EINTR. lia.
Defined.

(** ** Whatever the kernel answers *)
Section AnyKernel.
Import AlignedFileReader.
Local Open Scope Z_scope.
Variable strerror : Z -> string.
Variables n_retries size : Z.

Lemma retry_loop_in_window (p : primitive) (n : Z) (kernel : list Z)
    (s retry : Z) :
  0 <= s ->
  Forall (in_window n) (retry_loop strerror p n_retries n s retry kernel).1.2.
Proof.
  revert s retry. induction kernel as [|ret kernel IH]; intros s retry Hs;
    cbn [retry_loop].
  - destruct (Z.ltb_spec s n); cbn; [|done].
    repeat constructor; lia.
  - destruct (Z.ltb_spec s n) as [Hlt|]; cbn [negb]; [|done].
    assert (Hcall : in_window n (syscall p (n - s) s))
      by (cbn; lia).
    destruct (Z.ltb_spec ret 0) as [|Hret].
    + destruct (- ret =? EINTR); cbn [negb fst snd];
        [|by apply Forall_singleton].
      specialize (IH s retry Hs).
      destruct (retry_loop _ _ _ _ s retry kernel) as [[? ?] ?].
      cbn [fst snd] in *. by constructor.
    + assert (Hs' : 0 <= s + ret) by lia.
      destruct (s + ret <? n).
      * destruct (retry + 1 <=? n_retries); cbn [fst snd];
          [|by apply Forall_singleton].
        specialize (IH (s + ret) (retry + 1) Hs').
        destruct (retry_loop _ _ _ _ (s + ret) (retry + 1) kernel)
          as [[? ?] ?].
        cbn [fst snd] in *. constructor; [done|]. by constructor.
      * specialize (IH (s + ret) retry Hs').
        destruct (retry_loop _ _ _ _ (s + ret) retry kernel) as [[? ?] ?].
        cbn [fst snd] in *. by constructor.
Qed.

Lemma in_window_within (n : Z) (t : list event) :
  n <= MAX_EVENTS -> Forall (in_window n) t -> Forall within_max_events t.
Proof.
  intros Hn Ht. apply (Forall_impl _ _ _ Ht).
  intros [| | |]; cbn; try done. lia.
Qed.

Lemma prepare_within (iter : Z) : Forall within_max_events (prepare size iter).
Proof.
  unfold prepare. apply Forall_fmap, Forall_forall. intros j _. exact I.
Qed.

Lemma for_iter_within (iters : list Z) (kernel : list Z) :
  Forall within_max_events (for_iter strerror n_retries size iters kernel).2.
Proof.
  revert kernel. induction iters as [|iter iters IH]; intros kernel;
    cbn [for_iter]; [done|].
  assert (Hn : n_ops size iter <= MAX_EVENTS) by (unfold n_ops; lia).
  pose proof (retry_loop_in_window io_submit (n_ops size iter) kernel 0 0
                ltac:(lia)) as Hs.
  destruct (retry_loop _ io_submit _ _ 0 0 kernel) as [[o1 t1] k1].
  cbn [fst snd] in Hs. apply (in_window_within _ _ Hn) in Hs.
  pose proof (prepare_within iter) as Hp.
  destruct o1; cbn [snd]; try (by apply Forall_app).
  pose proof (retry_loop_in_window io_getevents (n_ops size iter) k1 0 0
                ltac:(lia)) as Hr.
  destruct (retry_loop _ io_getevents _ _ 0 0 k1) as [[o2 t2] k2].
  cbn [fst snd] in Hr. apply (in_window_within _ _ Hn) in Hr.
  destruct o2; cbn [snd]; try (by repeat (apply Forall_app; split)).
  specialize (IH k2).
  destruct (for_iter _ _ _ iters k2) as [o t]. cbn [snd] in *.
  by repeat (apply Forall_app; split).
Qed.

End AnyKernel.



(** * The contexts of the threads *)

(** X13. A thread that [register_thread] registers, [io_setup] having
    returned 0 and left [ctx], is given [ctx] by [get_ctx], without a
    report, and the other threads are given what they were given before;
    a second [register_thread] of the thread reports, calls [io_setup] no
    more and changes nothing; [deregister_thread] then destroys [ctx], and
    no other context, and leaves the map as it was before the
    registration. *)
Theorem registered_context_lifecycle (strerror : Z -> string)
    (show_ctx : Z -> string) (show_id : nat -> string) (NDEBUG : bool)
    (my_id : nat) (ctx ret' ctx' : Z) (r : LinuxAlignedFileReader.reader) :
  LinuxAlignedFileReader.ctx_map r !! my_id = None ->
  exists r1 t1 r2 t2,
    LinuxAlignedFileReader.register_thread strerror show_ctx show_id
      my_id 0 ctx r
      = (LinuxAlignedFileReader.Returned, r1, t1) /\
    LinuxAlignedFileReader.io_setup AlignedFileReader.MAX_EVENTS ∈ t1 /\
    LinuxAlignedFileReader.get_ctx my_id r1 = (ctx, []) /\
    (forall other, other <> my_id ->
       LinuxAlignedFileReader.get_ctx other r1
       = LinuxAlignedFileReader.get_ctx other r) /\
    LinuxAlignedFileReader.register_thread strerror show_ctx show_id
      my_id ret' ctx' r1
      = (LinuxAlignedFileReader.Returned, r1,
         [LinuxAlignedFileReader.cerr
            "multiple calls to register_thread from the same thread"]) /\
    LinuxAlignedFileReader.deregister_thread show_id NDEBUG my_id r1
      = (LinuxAlignedFileReader.Returned, r2, t2) /\
    (forall c, LinuxAlignedFileReader.io_destroy c ∈ t2 <-> c = ctx) /\
    LinuxAlignedFileReader.ctx_map r2 = LinuxAlignedFileReader.ctx_map r /\
    LinuxAlignedFileReader.get_ctx my_id r2
      = (LinuxAlignedFileReader.bad_ctx r,
         [LinuxAlignedFileReader.cerr
            "bad thread access; returning -1 as io_context_t"]).
Proof.
  intros Hnew.
  unfold LinuxAlignedFileReader.register_thread at 1.
  rewrite decide_False by (rewrite Hnew; by intros [? ?]).
  change (negb (0 =? 0)%Z) with false. cbv iota beta.
  cbn [mbind option_bind LinuxAlignedFileReader.unlock].
  set (r1 := LinuxAlignedFileReader.Reader _ _ _).
  assert (Hmine : LinuxAlignedFileReader.ctx_map r1 !! my_id = Some ctx).
  { apply lookup_insert_eq. }
  exists r1. eexists. eexists. eexists.
  split; [reflexivity|]. split; [left|]. split.
  { unfold LinuxAlignedFileReader.get_ctx. by rewrite Hmine. }
  split.
  { intros other Hother. unfold LinuxAlignedFileReader.get_ctx.
    cbn [LinuxAlignedFileReader.ctx_map LinuxAlignedFileReader.bad_ctx r1].
    by rewrite lookup_insert_ne. }
  split.
  { unfold LinuxAlignedFileReader.register_thread.
    rewrite decide_True by (rewrite Hmine; by eexists). reflexivity. }
  split.
  { unfold LinuxAlignedFileReader.deregister_thread,
      LinuxAlignedFileReader.get_ctx.
    rewrite Hmine.
    rewrite bool_decide_eq_true_2 by by eexists.
    rewrite andb_false_r. reflexivity. }
  split.
  { intros c. cbn [app]. rewrite elem_of_cons, list_elem_of_singleton.
    split.
    - intros [Hc|Hc]; [by injection Hc|discriminate Hc].
    - intros ->. by left. }
  split.
  { cbn [LinuxAlignedFileReader.ctx_map r1].
    rewrite delete_insert_eq. by apply delete_id. }
  unfold LinuxAlignedFileReader.get_ctx.
  cbn [LinuxAlignedFileReader.ctx_map LinuxAlignedFileReader.bad_ctx r1].
  by rewrite lookup_delete_eq.
Qed.

Lemma registered_context_lifecycle_witness :
  exists r1 t1,
    LinuxAlignedFileReader.register_thread (fun _ => "") (fun _ => "ctx")
      (fun _ => "id") 7 0 4096
      (LinuxAlignedFileReader.Reader 3 ∅ (-1))
      = (LinuxAlignedFileReader.Returned, r1, t1) /\
    LinuxAlignedFileReader.get_ctx 7 r1 = (4096%Z, []).
Proof.
  destruct (registered_context_lifecycle (fun _ => "") (fun _ => "ctx")
              (fun _ => "id") true 7 4096 0 0
              (LinuxAlignedFileReader.Reader 3 ∅ (-1)))
    as (r1 & t1 & r2 & t2 & Hreg & _ & Hget & _).
  - reflexivity.
  - exists r1, t1. split; [exact Hreg|exact Hget].
Defined.

(** X14. When [io_setup] fails, [register_thread] reports it on
    [std::cerr], registers nothing, and throws: the lock that the failure
    branch has released is released a second time at the end of the
    function. *)
Theorem register_thread_failed_setup (strerror : Z -> string)
    (show_ctx : Z -> string) (show_id : nat -> string)
    (my_id : nat) (ret ctx : Z) (r : LinuxAlignedFileReader.reader) :
  LinuxAlignedFileReader.ctx_map r !! my_id = None -> ret <> 0%Z ->
  exists line,
    LinuxAlignedFileReader.register_thread strerror show_ctx show_id
      my_id ret ctx r
    = (LinuxAlignedFileReader.Thrown "std::system_error", r,
       [LinuxAlignedFileReader.io_setup AlignedFileReader.MAX_EVENTS;
        LinuxAlignedFileReader.cerr line]) /\
    (ret = (- LinuxAlignedFileReader.EAGAIN)%Z ->
     line = "io_setup() failed with EAGAIN: "
            +:+ "Consider increasing /proc/sys/fs/aio-max-nr").
Proof.
  intros Hnew Hret. unfold LinuxAlignedFileReader.register_thread.
  rewrite decide_False by (rewrite Hnew; by intros [? ?]).
  apply Z.eqb_neq in Hret. rewrite Hret. cbn [negb].
  destruct (ret =? - LinuxAlignedFileReader.EAGAIN)%Z eqn:Heagain.
  - eexists. split; [reflexivity|done].
  - eexists. split; [reflexivity|]. intros ->. by rewrite Z.eqb_refl in Heagain.
Qed.

Lemma register_thread_failed_setup_witness :
  exists line,
    LinuxAlignedFileReader.register_thread (fun _ => "") (fun _ => "ctx")
      (fun _ => "id") 7 (-11) 0
      (LinuxAlignedFileReader.Reader 3 ∅ (-1))
    = (LinuxAlignedFileReader.Thrown "std::system_error",
       LinuxAlignedFileReader.Reader 3 ∅ (-1),
       [LinuxAlignedFileReader.io_setup AlignedFileReader.MAX_EVENTS;
        LinuxAlignedFileReader.cerr line]) /\
    ((-11)%Z = (- LinuxAlignedFileReader.EAGAIN)%Z ->
     line = "io_setup() failed with EAGAIN: "
            +:+ "Consider increasing /proc/sys/fs/aio-max-nr").
Proof.
  apply (register_thread_failed_setup (fun _ => "") (fun _ => "ctx")
           (fun _ => "id") 7 (-11) 0
           (LinuxAlignedFileReader.Reader 3 ∅ (-1)));
    [reflexivity|lia].
Defined.



(** X16. [deregister_all_threads] calls [io_destroy] once for each
    registered thread, on the context of that thread, and nothing else;
    afterwards no thread is registered: [get_ctx] gives every thread
    [bad_ctx]. *)
Theorem deregister_all_threads_destroys_each
    (r : LinuxAlignedFileReader.reader) :
  let r' := (LinuxAlignedFileReader.deregister_all_threads r).1 in
  let t := (LinuxAlignedFileReader.deregister_all_threads r).2 in
  length t = size (LinuxAlignedFileReader.ctx_map r) /\
  (forall e, e ∈ t <->
     exists my_id ctx,
       LinuxAlignedFileReader.ctx_map r !! my_id = Some ctx /\
       e = LinuxAlignedFileReader.io_destroy ctx) /\
  forall my_id,
    LinuxAlignedFileReader.get_ctx my_id r'
    = (LinuxAlignedFileReader.bad_ctx r,
       [LinuxAlignedFileReader.cerr
          "bad thread access; returning -1 as io_context_t"]).
Proof.
  cbv zeta. unfold LinuxAlignedFileReader.deregister_all_threads.
  cbn [fst snd]. split; [|split].
  - by rewrite length_fmap, length_map_to_list.
  - intros e. rewrite list_elem_of_fmap. split.
    + intros ([my_id ctx] & -> & Hin%elem_of_map_to_list).
      by exists my_id, ctx.
    + intros (my_id & ctx & Hctx & ->). exists (my_id, ctx).
      split; [done|]. by apply elem_of_map_to_list.
  - intros my_id. unfold LinuxAlignedFileReader.get_ctx.
    cbn [LinuxAlignedFileReader.ctx_map LinuxAlignedFileReader.bad_ctx].
    by rewrite lookup_empty.
Qed.

(** * The files of the trainers *)
Section KeepsFile.
Import Trainer.
Context {F Dbl : Type} {O : FloatOps F Dbl} {B : FloatBytes F}.
Variable name : string.

#[local] Abbreviation M := (Trainer.M (F := F)).

Lemma keeps_file_ret {A : Type} (a : A) : keeps_file name (mret a : M A).
Proof. by intros s. Qed.

Lemma keeps_file_bind {A C : Type} (m : M A) (f : A -> M C) :
  keeps_file name m -> (forall a, keeps_file name (f a)) ->
  keeps_file name (m ≫= f).
Proof.
  intros Hm Hf s. specialize (Hm s). unfold mbind, M_bind.
  destruct (m s) as [[a|?|?|] s1]; cbn [snd] in *; try done.
  by rewrite Hf.
Qed.

Lemma keeps_file_lift {A : Type} (r : result A) : keeps_file name (lift r : M A).
Proof. by intros s. Qed.

Lemma keeps_file_throw {A : Type} (what : string) :
  keeps_file name (throw what : M A).
Proof. by intros s. Qed.

Lemma keeps_file_print (line : string) : keeps_file name (print line : M unit).
Proof. by intros s. Qed.

Lemma keeps_file_get_buf (b : buffer) : keeps_file name (get_buf b : M _).
Proof. by intros s. Qed.

Lemma keeps_file_rd (b : buffer) (i : nat) : keeps_file name (rd b i : M _).
Proof. by intros s. Qed.

Lemma keeps_file_m_file_exists (n : string) : keeps_file name (m_file_exists n : M bool).
Proof. by intros s. Qed.

Lemma keeps_file_m_load_bin {T : Type} (c : codec T) (n : string)
    (offset : Z) : keeps_file name (m_load_bin c n offset : M _).
Proof. by intros s. Qed.

Lemma keeps_file_if {A : Type} (c : bool) (m1 m2 : M A) :
  keeps_file name m1 -> keeps_file name m2 ->
  keeps_file name (if c then m1 else m2).
Proof. by destruct c. Qed.

Lemma keeps_file_for_M {A : Type} (l : list A) (body : A -> M unit) :
  (forall a, keeps_file name (body a)) -> keeps_file name (for_M l body).
Proof.
  intros Hbody. induction l as [|a l IH]; cbn [for_M].
  - apply keeps_file_ret.
  - apply keeps_file_bind; [apply Hbody|]. by intros _.
Qed.

Lemma keeps_file_set_buf (b : buffer) (l : list F) :
  keeps_file name (set_buf b l).
Proof. by intros s. Qed.

Lemma keeps_file_wr (b : buffer) (i : nat) (v : F) : keeps_file name (wr b i v).
Proof. intros s. unfold wr. by case_decide. Qed.

Lemma keeps_file_memcpy (dst : buffer) (doff : nat) (src : buffer)
    (soff n : nat) :
  keeps_file name (memcpy dst doff src soff n : M unit).
Proof. intros s. unfold memcpy. by case_decide. Qed.

Lemma keeps_file_filled (b : buffer) (l : list F) :
  keeps_file name (filled b l).
Proof. intros s. unfold filled. by case_decide. Qed.

Lemma keeps_file_clear (b : buffer) (n : nat) :
  keeps_file name (clear b n : M unit).
Proof.
  unfold clear.
  apply keeps_file_bind; [apply keeps_file_get_buf|]. intros l.
  apply keeps_file_bind; [apply keeps_file_lift|]. intros l'.
  apply keeps_file_set_buf.
Qed.

(** [save_bin] writes to the file it is given, and to no other. *)
Lemma save_bin_other {T : Type} (c : codec T) (fs fs' : gmap string (list byte))
    (filename : string) (data : list T) (npts ndims offset w : Z) :
  filename <> name ->
  save_bin c fs filename data npts ndims offset = Ok (fs', w) ->
  fs' !! name = fs !! name.
Proof.
  intros Hne. unfold save_bin. cbv zeta. case_decide; [|done].
  intros [= <- _]. by apply lookup_insert_ne.
Qed.

Lemma keeps_file_m_save_bin {T : Type} (c : codec T) (n : string)
    (data : list T) (npts ndims offset : Z) :
  n <> name -> keeps_file name (m_save_bin c n data npts ndims offset : M Z).
Proof.
  intros Hne s. unfold m_save_bin.
  destruct (save_bin c (files s) n data npts ndims offset)
    as [[fs w]|?|?|] eqn:Hsave; cbn [snd files]; try done.
  by apply (save_bin_other c _ _ _ _ _ _ _ _ Hne Hsave).
Qed.

Lemma keeps_file_save_pivots (METADATA_SIZE : Z) (path : string)
    (chunk_offsets : list Z) (num_centers dim : nat) :
  path <> name ->
  keeps_file name
    (save_pivots METADATA_SIZE path chunk_offsets num_centers dim : M _).
Proof.
  intros Hne s. unfold save_pivots. cbv zeta.
  destruct (save_bin f32 (files s) path _ _ _ _) as [[fs1 w1]|?|?|] eqn:H1;
    cbn [snd files]; try done.
  pose proof (save_bin_other _ _ _ _ _ _ _ _ _ Hne H1) as E1.
  destruct (save_bin f32 fs1 path _ _ _ _) as [[fs2 w2]|?|?|] eqn:H2;
    cbn [snd files]; try done.
  pose proof (save_bin_other _ _ _ _ _ _ _ _ _ Hne H2) as E2.
  destruct (save_bin u32 fs2 path _ _ _ _) as [[fs3 w3]|?|?|] eqn:H3;
    cbn [snd files]; try congruence.
  pose proof (save_bin_other _ _ _ _ _ _ _ _ _ Hne H3) as E3.
  destruct (save_bin u64 fs3 path _ _ _ _) as [[fs4 w4]|?|?|] eqn:H4;
    cbn [snd files]; try congruence.
  pose proof (save_bin_other _ _ _ _ _ _ _ _ _ Hne H4) as E4.
  congruence.
Qed.

End KeepsFile.

(** Walk through a computation, leaving what must hold of the names of the
    files that are written. *)
Ltac files_step :=
  lazymatch goal with
  | |- keeps_file _ (mbind _ _) =>
      apply keeps_file_bind; [|intros ?; cbv beta]
  | |- keeps_file _ (mret _) => apply keeps_file_ret
  | |- keeps_file _ (Trainer.for_M _ _) => apply keeps_file_for_M; intros ?
  | |- keeps_file _ (if _ then _ else _) => apply keeps_file_if
  | |- keeps_file _ (match ?x with _ => _ end) => destruct x
  | |- keeps_file _ (let _ := _ in _) => cbv zeta
  | |- keeps_file _ (Trainer.set_buf _ _) => apply keeps_file_set_buf
  | |- keeps_file _ (Trainer.wr _ _ _) => apply keeps_file_wr
  | |- keeps_file _ (Trainer.memcpy _ _ _ _ _) => apply keeps_file_memcpy
  | |- keeps_file _ (Trainer.filled _ _) => apply keeps_file_filled
  | |- keeps_file _ (Trainer.clear _ _) => apply keeps_file_clear
  | |- keeps_file _ (Trainer.print _) => apply keeps_file_print
  | |- keeps_file _ (Trainer.lift _) => apply keeps_file_lift
  | |- keeps_file _ (Trainer.throw _) => apply keeps_file_throw
  | |- keeps_file _ (Trainer.get_buf _) => apply keeps_file_get_buf
  | |- keeps_file _ (Trainer.rd _ _) => apply keeps_file_rd
  | |- keeps_file _ (Trainer.m_file_exists _) =>
      apply keeps_file_m_file_exists
  | |- keeps_file _ (Trainer.m_load_bin _ _ _) =>
      apply keeps_file_m_load_bin
  | |- keeps_file _ (Trainer.m_save_bin _ _ _ _ _ _) =>
      apply keeps_file_m_save_bin
  | |- keeps_file _ (Trainer.save_pivots _ _ _ _ _) =>
      apply keeps_file_save_pivots
  | |- keeps_file _ (Trainer.copy_train_data _ _) =>
      unfold Trainer.copy_train_data
  | |- keeps_file _ (Trainer.check_copy _ _) => unfold Trainer.check_copy
  | |- keeps_file _ (Trainer.center_train_data _ _ _) =>
      unfold Trainer.center_train_data
  | |- keeps_file _ (Trainer.chunk_size _ _) => unfold Trainer.chunk_size
  end.

(** X17. The trainers write to the pivot file, [generate_opq_pivots] also
    to the rotation matrix file beside it, and to no other file: however
    the call ends, every other file is as it was. *)
Theorem trainers_write_their_files_only {F Dbl : Type} {O : FloatOps F Dbl}
    {B : FloatBytes F}
    (METADATA_SIZE : Z) (MAX_OPQ_ITERS : nat) (indeterminate : nat -> F)
    (kmeanspp_selecting_pivots : list F -> nat -> nat -> list F -> nat -> list F)
    (run_lloyds : list F -> nat -> nat -> list F -> nat -> nat
                  -> list F * list Z)
    (cblas_sgemm : bool -> nat -> nat -> nat -> list F -> nat -> list F -> nat
                   -> list F -> nat -> list F)
    (LAPACKE_sgesdd : nat -> nat -> list F -> nat
                      -> Z * list F * list F * list F * list F)
    (num_train dim num_centers num_pq_chunks max_k_means_reps : nat)
    (pivots_path name : string) (make_zero_mean : bool) (s : Trainer.state) :
  name <> pivots_path ->
  Trainer.files
    (Trainer.generate_pq_pivots METADATA_SIZE indeterminate
       kmeanspp_selecting_pivots run_lloyds
       num_train dim num_centers num_pq_chunks max_k_means_reps
       pivots_path make_zero_mean s).2 !! name
  = Trainer.files s !! name /\
  (name <> pivots_path +:+ "_rotation_matrix.bin" ->
   Trainer.files
     (Trainer.generate_opq_pivots METADATA_SIZE MAX_OPQ_ITERS indeterminate
        kmeanspp_selecting_pivots run_lloyds cblas_sgemm LAPACKE_sgesdd
        num_train dim num_centers num_pq_chunks
        pivots_path make_zero_mean s).2 !! name
   = Trainer.files s !! name).
Proof.
  intros Hne. split.
  - assert (H : keeps_file name
                  (Trainer.generate_pq_pivots METADATA_SIZE indeterminate
                     kmeanspp_selecting_pivots run_lloyds
                     num_train dim num_centers num_pq_chunks
                     max_k_means_reps pivots_path make_zero_mean)).
    { unfold Trainer.generate_pq_pivots. repeat files_step. congruence. }
    exact (H s).
  - intros Hrot.
    assert (H : keeps_file name
                  (Trainer.generate_opq_pivots METADATA_SIZE MAX_OPQ_ITERS
                     indeterminate kmeanspp_selecting_pivots run_lloyds
                     cblas_sgemm LAPACKE_sgesdd
                     num_train dim num_centers num_pq_chunks
                     pivots_path make_zero_mean)).
    { unfold Trainer.generate_opq_pivots. repeat files_step; congruence. }
    exact (H s).
Qed.

Lemma trainers_write_their_files_only_witness :
  Trainer.files EncoderExample.trained.2 !! "base.bin"
  = Trainer.files (Example.start EncoderExample.base_files) !! "base.bin".
Proof.
  assert (Hne : "base.bin" <> "pq_pivots.bin") by discriminate.
  exact (proj1 (trainers_write_their_files_only Example.METADATA_SIZE 1
                  (fun _ => fzero) Example.kmeanspp Example.lloyds
                  Example.sgemm (fun _ _ a _ => (0%Z, a, [], [], []))
                  2 2 2 1 1 "pq_pivots.bin" "base.bin" true
                  (Example.start EncoderExample.base_files) Hne)).
Defined.

(** * Training without centring *)
Section Uncentred.
Import Trainer.
Context {F Dbl : Type} {O : FloatOps F Dbl} {B : FloatBytes F}.

Lemma buffer_is_ignores (b b' : buffer) (v : list F) :
  b' <> b -> ignores (buffer_is b v) b'.
Proof. intros Hb h l Hh. unfold buffer_is, upd. by case_decide. Qed.

Lemma buffer_is_ignores_contents (b b' : buffer) (v : list F) :
  b' <> b -> ignores_contents (buffer_is b v) b'.
Proof. intros Hb. by apply ignores_weaken, buffer_is_ignores. Qed.

(** Writing a zero to an array of zeros. *)
Lemma preserves_wr_zero (b : buffer) (n i : nat) :
  preserves (buffer_is b (replicate n fzero)) (wr b i (fzero : F)).
Proof.
  intros s Hs. unfold wr. case_decide; [|done].
  cbn [snd heap set_heap]. unfold buffer_is, upd in *.
  rewrite decide_True by done. rewrite Hs. apply insert_replicate.
Qed.

End Uncentred.

(** X18. Without [make_zero_mean], [generate_pq_pivots] shifts nothing:
    after a run that returns 0 the training copy holds the vectors the
    caller passed, the mean is the zero vector, and the mean stored in the
    pivot file, at its second offset, is [dim] zeros. *)
Theorem untranslated_pivots_have_zero_mean {F Dbl : Type}
    {O : FloatOps F Dbl} {B : FloatBytes F}
    (METADATA_SIZE : Z) (indeterminate : nat -> F)
    (kmeanspp_selecting_pivots : list F -> nat -> nat -> list F -> nat -> list F)
    (run_lloyds : list F -> nat -> nat -> list F -> nat -> nat
                  -> list F * list Z)
    (num_train dim num_centers num_pq_chunks max_k_means_reps : nat)
    (path : string) (s : Trainer.state) :
  let run :=
    Trainer.generate_pq_pivots METADATA_SIZE indeterminate
      kmeanspp_selecting_pivots run_lloyds
      num_train dim num_centers num_pq_chunks max_k_means_reps
      path false s in
  FloatBytesOk F ->
  (40 <= METADATA_SIZE < 2 ^ 32)%Z ->
  (Z.of_nat dim < 2 ^ 31)%Z ->
  (Z.of_nat num_centers < 2 ^ 20)%Z ->
  run.1 = Ok 0%Z ->
  Trainer.heap run.2 Trainer.centroid = replicate dim fzero /\
  Trainer.heap run.2 Trainer.train_data
    = take (num_train * dim) (Trainer.heap s Trainer.passed_train_data) /\
  exists c1 c2 c3,
    load_bin u64 (Trainer.files run.2) path 0
      = Ok ([METADATA_SIZE; c1; c2; c3], 4, 1)%Z /\
    load_bin f32 (Trainer.files run.2) path c1
      = Ok (replicate dim fzero, Z.of_nat dim, 1%Z).
Proof.
  intros run BOk HM HD HK Hrun.
  destruct run as [r s'] eqn:Erun. cbn [fst snd] in *. subst r.
  unfold run, Trainer.generate_pq_pivots in Erun. clear run.
  destruct (Nat.ltb_spec dim num_pq_chunks) as [|Hle]; [done|].
  apply bind_Ok_inv in Erun as ([] & s1 & Hcopy & H).
  apply bind_Ok_inv in H as ([] & s2 & Hcheck & H).
  apply bind_Ok_inv in H as (present & s3 & Hpresent & H).
  apply bind_Ok_inv in H as (again & s4 & Hagain & H).
  destruct again; [done|].
  apply bind_Ok_inv in H as ([] & s5 & Hcenter & H).
  apply bind_Ok_inv in H as (chunk_offsets & s6 & Hpart & H).
  apply bind_Ok_inv in H as ([] & s7 & Halloc & H).
  apply bind_Ok_inv in H as ([] & s8 & Hloop & H).
  apply bind_Ok_inv in H as (cumul_bytes & s9 & Hsave & H).
  injection H as <-.
  unfold Trainer.lift in Hpart.
  destruct (Partition.chunk_partition dim num_pq_chunks) as [co|] eqn:Hco;
    [|done].
  injection Hpart as <- <-. injection Halloc as <-.
  (* the training copy *)
  set (v := take (num_train * dim) (Trainer.heap s Trainer.passed_train_data)).
  assert (Ht1 : buffer_is Trainer.train_data v (Trainer.heap s1)).
  { unfold Trainer.copy_train_data in Hcopy.
    apply bind_Ok_inv in Hcopy as ([] & s0 & Hset & Hcopy).
    injection Hset as <-. unfold Trainer.memcpy in Hcopy.
    case_decide as Hfits; [|done]. injection Hcopy as <-.
    unfold buffer_is. cbn [Trainer.heap Trainer.set_heap].
    unfold Trainer.upd.
    rewrite decide_True by done. rewrite decide_False by discriminate.
    rewrite decide_True by done.
    rewrite drop_replicate, Nat.sub_diag, drop_0. cbn [replicate].
    by rewrite app_nil_r. }
  (* the mean *)
  unfold Trainer.center_train_data in Hcenter.
  apply bind_Ok_inv in Hcenter as ([] & s4' & Hset & Hcenter).
  injection Hset as <-.
  apply bind_Ok_inv in Hcenter as ([] & s4'' & Hzero & Hcenter).
  injection Hcenter as ->.
  assert (Hkeep : forall {A : Type} (m : Trainer.M A) (sa sb : Trainer.state)
                    (a : A) (I : (Trainer.buffer -> list F) -> Prop),
            Trainer.preserves I m -> m sa = (Ok a, sb) ->
            I (Trainer.heap sa) -> I (Trainer.heap sb)).
  { intros A m sa sb a I Hp Hm Hsa. specialize (Hp sa Hsa).
    by rewrite Hm in Hp. }
  assert (Hc5 : buffer_is Trainer.centroid (replicate dim fzero)
                  (Trainer.heap s5)).
  { assert (Hp : Trainer.preserves
                   (buffer_is Trainer.centroid (replicate dim fzero))
                   (Trainer.for_M (seq 0 dim)
                      (fun d => Trainer.wr Trainer.centroid d (fzero : F)))).
    { apply preserves_for_M. intros d. apply preserves_wr_zero. }
    apply (Hkeep _ _ _ _ _ _ Hp Hzero).
    unfold buffer_is. cbn [Trainer.heap Trainer.set_heap]. unfold Trainer.upd.
    by rewrite decide_True. }
  assert (Ht5 : buffer_is Trainer.train_data v (Trainer.heap s5)).
  { eapply (Hkeep _ _ _ _ _ _ _ Hzero).
    apply buffer_is_ignores; [discriminate|].
    eapply (Hkeep _ _ _ _ _ _ _ Hagain).
    eapply (Hkeep _ _ _ _ _ _ _ Hpresent).
    eapply (Hkeep _ _ _ _ _ _ _ Hcheck). exact Ht1. }
  assert (Hc8 : buffer_is Trainer.centroid (replicate dim fzero)
                  (Trainer.heap s8)).
  { eapply (Hkeep _ _ _ _ _ _ _ Hloop).
    by apply buffer_is_ignores. }
  assert (Ht8 : buffer_is Trainer.train_data v (Trainer.heap s8)).
  { eapply (Hkeep _ _ _ _ _ _ _ Hloop).
    by apply buffer_is_ignores. }
  (* the file *)
  assert (HD' : (Z.of_nat dim < 2 ^ 32)%Z) by lia.
  destruct (chunk_partition_u32 _ _ _ Hco Hle HD') as (Hlenco & Hu32).
  destruct (save_pivots_loads METADATA_SIZE path co num_centers
              dim s8 s9 cumul_bytes)
    as (c1 & c2 & c3 & -> & Hheap9 & _ & _ & L0 & _ & L2 & _);
    [done|lia|done|lia|done|done|].
  cbn [Trainer.heap Trainer.files]. rewrite Hheap9.
  split; [exact Hc8|]. split; [exact Ht8|].
  exists c1, c2, c3. split; [exact L0|].
  rewrite L2. rewrite Hc8. rewrite take_replicate.
  by rewrite Nat.min_id.
  Unshelve.
  all: repeat keeps_step;
    try (apply buffer_is_ignores_contents; discriminate);
    apply buffer_is_ignores; discriminate.
Qed.

Lemma untranslated_pivots_have_zero_mean_witness :
  Trainer.heap UncentredExample.run.2 Trainer.centroid = replicate 2 fzero /\
  Trainer.heap UncentredExample.run.2 Trainer.train_data
    = take (2 * 2)
        (Trainer.heap (Example.start ∅) Trainer.passed_train_data) /\
  exists c1 c2 c3,
    load_bin u64 (Trainer.files UncentredExample.run.2) "pq_pivots.bin" 0
      = Ok ([Example.METADATA_SIZE; c1; c2; c3], 4, 1)%Z /\
    load_bin f32 (Trainer.files UncentredExample.run.2) "pq_pivots.bin" c1
      = Ok (replicate 2 fzero, Z.of_nat 2, 1%Z).
Proof.
  assert (HM : (40 <= Example.METADATA_SIZE < 2 ^ 32)%Z)
    by (unfold Example.METADATA_SIZE; lia).
  assert (HD : (Z.of_nat 2 < 2 ^ 31)%Z) by lia.
  assert (HK : (Z.of_nat 2 < 2 ^ 20)%Z) by lia.
  assert (Hrun : UncentredExample.run.1 = Ok 0%Z)
    by (vm_compute; reflexivity).
  exact (untranslated_pivots_have_zero_mean Example.METADATA_SIZE
           (fun _ => fzero) Example.kmeanspp Example.lloyds 2 2 2 1 1
           "pq_pivots.bin" (Example.start ∅) F32_bytes_ok HM HD HK Hrun).
Defined.

(** * Training with a rotation, and loading *)
Lemma append_suffix_ne (s t : string) : t <> "" -> s +:+ t <> s.
Proof.
  intros Ht. induction s as [|a s IH]; cbn; [done|].
  intros [= H]. by apply IH.
Qed.

(** Another file than the one [save_bin] writes to reads as before. *)
Lemma load_bin_other_file {T T2 : Type} (c : codec T) (c2 : codec T2)
    (fs fs' : gmap string (list byte)) (filename name : string)
    (data : list T) (npts ndims offset w offset2 : Z) :
  filename <> name ->
  save_bin c fs filename data npts ndims offset = Ok (fs', w) ->
  load_bin c2 fs' name offset2 = load_bin c2 fs name offset2.
Proof.
  intros Hne Hsave. unfold load_bin.
  by rewrite (save_bin_other name c _ _ _ _ _ _ _ _ Hne Hsave).
Qed.

Section Rotation.
Context {F Dbl : Type} {O : FloatOps F Dbl} {B : FloatBytes F}.

(** What a run that returns a value keeps. *)
Lemma preserves_run {A : Type} (m : Trainer.M A) (sa sb : Trainer.state)
    (a : A) (I : (Trainer.buffer -> list F) -> Prop) :
  Trainer.preserves I m -> m sa = (Ok a, sb) ->
  I (Trainer.heap sa) -> I (Trainer.heap sb).
Proof.
  intros Hp Hm Hsa. specialize (Hp sa Hsa). by rewrite Hm in Hp.
Qed.

(** The rotation of a loaded table is that of the rotation file. *)
Lemma load_pq_centroid_bin_rotation (indeterminate : nat -> F)
    (fs : gmap string (list byte)) (pq_table_file : string) (num_chunks : Z)
    (t : FixedChunkPQTable) (r : list F) (nr nc : Z) :
  load_pq_centroid_bin indeterminate fs pq_table_file num_chunks = Ok t ->
  load_bin f32 fs (pq_table_file +:+ "_rotation_matrix.bin") 0
    = Ok (r, nr, nc) ->
  use_rotation t = true /\ rotmat_tr t = r.
Proof.
  unfold load_pq_centroid_bin. intros H Hr.
  assert (Hexists : file_exists fs (pq_table_file +:+ "_rotation_matrix.bin")
                    = true).
  { unfold file_exists. apply bool_decide_eq_true_2.
    unfold load_bin in Hr. by destruct (fs !! _). }
  rewrite Hexists, Hr in H.
  destruct (load_bin u64 fs pq_table_file 0) as [[[fod nr0] nc0]|?|?|];
    step_result in H; try done.
  destruct (negb (nr0 =? 4)%Z && negb (nr0 =? 5)%Z); [done|].
  destruct (mapM _ _); step_result in H; [|done].
  destruct (fod !! 0) as [offset0|]; step_result in H; [|done].
  destruct (load_bin f32 fs pq_table_file offset0)
    as [[[tab nr1] nc1]|?|?|]; step_result in H; try done.
  destruct (negb (nr1 =? NUM_PQ_CENTROIDS)%Z); [done|].
  destruct (fod !! 1) as [offset1|]; step_result in H; [|done].
  destruct (load_bin f32 fs pq_table_file offset1)
    as [[[cen nr2] nc2]|?|?|]; step_result in H; try done.
  destruct (negb (nr2 =? nc1)%Z || negb (nc2 =? 1)%Z); [done|].
  destruct (fod !! _) as [offset2|]; step_result in H; [|done].
  destruct (load_bin u32 fs pq_table_file offset2)
    as [[[co nr3] nc3]|?|?|]; step_result in H; try done.
  destruct (negb (nc3 =? 1)%Z || _); [done|].
  destruct (negb (nr =? nc1)%Z || negb (nc =? nc1)%Z);
    step_result in H; [done|].
  destruct (transpose_tables tab _ _) as [tr|]; step_result in H; [|done].
  injection H as <-. done.
Qed.

End Rotation.

Section OpqRun.
Import Trainer.
Context {F Dbl : Type} {O : FloatOps F Dbl} {B : FloatBytes F}.
Variable METADATA_SIZE : Z.
Variable MAX_OPQ_ITERS : nat.
Variable indeterminate : nat -> F.
Variable kmeanspp_selecting_pivots :
  list F -> nat -> nat -> list F -> nat -> list F.
Variable run_lloyds :
  list F -> nat -> nat -> list F -> nat -> nat -> list F * list Z.
Variable cblas_sgemm :
  bool -> nat -> nat -> nat -> list F -> nat -> list F -> nat
  -> list F -> nat -> list F.
Variable LAPACKE_sgesdd :
  nat -> nat -> list F -> nat -> Z * list F * list F * list F * list F.

(** A run of [generate_opq_pivots] that returns 0 has computed the
    partition and has saved the pivots and then the rotation, from arrays
    of the sizes allocated. *)
Lemma generate_opq_pivots_Ok
    (num_train dim num_centers num_pq_chunks : nat)
    (path : string) (make_zero_mean : bool) (s s' : state) :
  generate_opq_pivots METADATA_SIZE MAX_OPQ_ITERS indeterminate
    kmeanspp_selecting_pivots run_lloyds cblas_sgemm LAPACKE_sgesdd
    num_train dim num_centers num_pq_chunks path make_zero_mean s
  = (Ok 0%Z, s') ->
  exists chunk_offsets s8 s9 cumul_bytes w,
    Partition.chunk_partition dim num_pq_chunks = Some chunk_offsets /\
    save_pivots METADATA_SIZE path chunk_offsets num_centers dim s8
      = (Ok cumul_bytes, s9) /\
    save_bin f32 (files s9) (path +:+ "_rotation_matrix.bin")
      (heap s9 rotmat_tr) (Z.of_nat dim) (Z.of_nat dim) 0
      = Ok (files s', w) /\
    heap s' = heap s9 /\
    length (heap s8 centroid) = dim /\
    length (heap s8 full_pivot_data)
      = Z.to_nat (wrap32 (Z.of_nat num_centers * Z.of_nat dim)) /\
    length (heap s8 rotmat_tr)
      = Z.to_nat (wrap32 (Z.of_nat dim * Z.of_nat dim)) /\
    num_pq_chunks <= dim.
Proof.
  unfold generate_opq_pivots. intros H.
  destruct (Nat.ltb_spec dim num_pq_chunks) as [|Hle]; [done|].
  cbv zeta in H.
  set (dd := Z.to_nat (wrap32 (Z.of_nat dim * Z.of_nat dim))) in *.
  set (n := Z.to_nat (wrap32 (Z.of_nat num_centers * Z.of_nat dim))) in *.
  apply bind_Ok_inv in H as ([] & s1 & _ & H).
  do 6 (apply bind_Ok_inv in H as ([] & ? & _ & H)).
  apply bind_Ok_inv in H as ([] & s5 & Hcenter & H).
  apply bind_Ok_inv in H as (chunk_offsets & s6 & Hpart & H).
  apply bind_Ok_inv in H as ([] & s7 & Halloc & H).
  apply bind_Ok_inv in H as ([] & s7a & Hrot & H).
  apply bind_Ok_inv in H as ([] & s7b & Hclear & H).
  apply bind_Ok_inv in H as ([] & s7c & Hident & H).
  apply bind_Ok_inv in H as ([] & s8 & Hloop & H).
  apply bind_Ok_inv in H as (cumul_bytes & s9 & Hsave & H).
  apply bind_Ok_inv in H as ([] & s9a & Hprint & H).
  apply bind_Ok_inv in H as (r & s9b & Hget & H).
  apply bind_Ok_inv in H as (w & s10 & Hsaverot & H).
  injection H as <-.
  injection Hprint as <-. injection Hget as <- <-.
  unfold lift in Hpart.
  destruct (Partition.chunk_partition dim num_pq_chunks) as [co|] eqn:Hco;
    [|done].
  injection Hpart as <- <-.
  unfold m_save_bin in Hsaverot. cbn [files heap cout] in Hsaverot.
  destruct (save_bin f32 (files s9) _ _ _ _ _) as [[fs w']|?|?|] eqn:Hsb;
    try done.
  injection Hsaverot as <- <-.
  exists co, s8, s9, cumul_bytes, w'. cbn [files heap].
  split; [done|]. split; [done|]. split; [done|]. split; [done|].
  (* the mean *)
  unfold center_train_data in Hcenter.
  apply bind_Ok_inv in Hcenter as ([] & s4' & Hset & Hcenter).
  injection Hset as <-.
  assert (Hc5 : has_length centroid dim (heap s5)).
  { eapply (preserves_run _ _ _ _ _ _ Hcenter).
    unfold has_length. cbn [heap set_heap]. unfold upd.
    rewrite decide_True by done. apply length_replicate. }
  injection Halloc as <-. injection Hrot as <-.
  assert (Hf7 : has_length full_pivot_data n (heap s7c)).
  { eapply (preserves_run _ _ _ _ _ _ Hident).
    eapply (preserves_run _ _ _ _ _ _ Hclear).
    unfold has_length. cbn [heap set_heap]. unfold upd.
    rewrite decide_False by discriminate. rewrite decide_True by done.
    by rewrite length_fmap, length_seq. }
  assert (Hc7 : has_length centroid dim (heap s7c)).
  { eapply (preserves_run _ _ _ _ _ _ Hident).
    eapply (preserves_run _ _ _ _ _ _ Hclear).
    apply has_length_ignores; [discriminate|].
    apply has_length_ignores; [discriminate|]. exact Hc5. }
  assert (Hr7 : has_length rotmat_tr dd (heap s7c)).
  { eapply (preserves_run _ _ _ _ _ _ Hident).
    unfold clear in Hclear.
    apply bind_Ok_inv in Hclear as (l & s0 & Hl & Hclear).
    injection Hl as <- <-.
    apply bind_Ok_inv in Hclear as (l' & s0 & Hl' & Hclear).
    unfold lift in Hl'.
    destruct (memset_zero dd _) as [l''|] eqn:Hms; [|done].
    injection Hl' as <- <-. injection Hclear as <-.
    unfold has_length. cbn [heap set_heap]. unfold upd.
    rewrite decide_True by done.
    apply memset_zero_length in Hms. rewrite Hms.
    cbn [heap set_heap]. unfold upd. rewrite decide_True by done.
    by rewrite length_fmap, length_seq. }
  split.
  { eapply (preserves_run _ _ _ _ (has_length centroid dim) _ Hloop).
    exact Hc7. }
  split.
  { eapply (preserves_run _ _ _ _ (has_length full_pivot_data n) _ Hloop).
    exact Hf7. }
  split; [|done].
  eapply (preserves_run _ _ _ _ (has_length rotmat_tr dd) _ Hloop).
  exact Hr7.
  Unshelve.
  all: repeat keeps_step;
    try apply has_length_ignores_contents;
    apply has_length_ignores; discriminate.
Qed.

End OpqRun.

(** X19. What [generate_opq_pivots] has written for 256 centres,
    [load_pq_centroid_bin] loads, with the rotation: after a run that
    returns 0 the load succeeds on the pivot file and the rotation matrix
    file beside it, and the table holds the pivots, the mean, the chunk
    offsets and the rotation matrix as the training left them, with
    [use_rotation] set. *)
Theorem opq_pivots_round_trip {F Dbl : Type} {O : FloatOps F Dbl}
    {B : FloatBytes F}
    (METADATA_SIZE : Z) (MAX_OPQ_ITERS : nat)
    (indeterminate indeterminate' : nat -> F)
    (kmeanspp_selecting_pivots : list F -> nat -> nat -> list F -> nat -> list F)
    (run_lloyds : list F -> nat -> nat -> list F -> nat -> nat
                  -> list F * list Z)
    (cblas_sgemm : bool -> nat -> nat -> nat -> list F -> nat -> list F -> nat
                   -> list F -> nat -> list F)
    (LAPACKE_sgesdd : nat -> nat -> list F -> nat
                      -> Z * list F * list F * list F * list F)
    (num_train dim num_centers num_pq_chunks : nat)
    (path : string) (make_zero_mean : bool) (s : Trainer.state)
    (num_chunks : Z) :
  let run :=
    Trainer.generate_opq_pivots METADATA_SIZE MAX_OPQ_ITERS indeterminate
      kmeanspp_selecting_pivots run_lloyds cblas_sgemm LAPACKE_sgesdd
      num_train dim num_centers num_pq_chunks path make_zero_mean s in
  FloatBytesOk F ->
  (40 <= METADATA_SIZE < 2 ^ 32)%Z ->
  (Z.of_nat dim < 2 ^ 32)%Z ->
  num_centers = 256 ->
  run.1 = Ok 0%Z ->
  num_chunks = 0%Z \/ num_chunks = Z.of_nat num_pq_chunks ->
  exists t chunk_offsets_trained,
    load_pq_centroid_bin indeterminate' (Trainer.files run.2) path num_chunks
      = Ok t /\
    Partition.chunk_partition dim num_pq_chunks = Some chunk_offsets_trained /\
    tables t = Trainer.heap run.2 Trainer.full_pivot_data /\
    centroid t = Trainer.heap run.2 Trainer.centroid /\
    chunk_offsets t = chunk_offsets_trained /\
    ndims t = Z.of_nat dim /\
    n_chunks t = Z.of_nat num_pq_chunks /\
    use_rotation t = true /\
    rotmat_tr t = Trainer.heap run.2 Trainer.rotmat_tr.
Proof.
  intros run BOk HM HD HK Hrun Hnum.
  destruct run as [r s'] eqn:Erun. unfold run in Erun. clear run.
  cbn [fst snd] in *. subst r.
  destruct (generate_opq_pivots_Ok _ _ _ _ _ _ _ _ _ _ _ _ _ _ _ Erun)
    as (co & s8 & s9 & cb & w & Hpart & Hsave & Hsaverot & Hheap & Hlenc
        & Hlenf & Hlenr & Hle).
  destruct (chunk_partition_u32 _ _ _ Hpart Hle HD) as (Hlenco & Hu32).
  assert (Hsmall : (Z.of_nat dim < 2 ^ 24)%Z).
  { pose proof (save_pivots_fits _ _ _ _ _ _ _ _ Hsave) as Hfit.
    rewrite Hlenf in Hfit. subst num_centers.
    unfold wrap64, wrap32 in Hfit.
    rewrite (Z.mod_small (Z.of_nat 256 * Z.of_nat dim) (2 ^ 64)) in Hfit
      by lia.
    pose proof (Z.mod_pos_bound (Z.of_nat 256 * Z.of_nat dim) (2 ^ 32)
                  ltac:(lia)).
    lia. }
  destruct (save_pivots_loads METADATA_SIZE path co num_centers dim s8 s9 cb)
    as (c1 & c2 & c3 & -> & Hheap9 & Hn1 & Hn2 & L0 & L1 & L2 & L3);
    [done|lia|done|lia|done|done|].
  rewrite firstn_all2 in L1.
  2:{ rewrite Hlenf. unfold wrap32.
      pose proof (Z.mod_le (Z.of_nat num_centers * Z.of_nat dim) (2 ^ 32)
                    ltac:(lia) ltac:(lia)).
      lia. }
  rewrite firstn_all2 in L2 by lia.
  (* the rotation file *)
  assert (HDb : (0 <= Z.of_nat dim < 2 ^ 32)%Z) by lia.
  destruct (save_bin_inv f32 _ _ _ _ _ _ _ _ HDb HDb Hsaverot)
    as (Hfits & _ & _).
  rewrite Hheap9, Hlenr in Hfits.
  assert (Hdd : (Z.of_nat dim * Z.of_nat dim < 2 ^ 32)%Z).
  { destruct (decide (Z.of_nat dim * Z.of_nat dim < 2 ^ 32)%Z)
      as [|Hbig]; [done|].
    unfold wrap32 in Hfits.
    pose proof (Z.mod_pos_bound (Z.of_nat dim * Z.of_nat dim) (2 ^ 32)
                  ltac:(lia)).
    lia. }
  pose proof (load_after_save f32 _ f32_length f32_round_trip
                _ _ _ _ _ _ _ _ HDb HDb (all_floats_valid _) Hsaverot) as LR.
  rewrite firstn_all2 in LR.
  2:{ rewrite Hheap9, Hlenr. unfold wrap32. rewrite Z.mod_small by lia. lia. }
  assert (Hne : path +:+ "_rotation_matrix.bin" <> path)
    by (by apply append_suffix_ne).
  rewrite <- (load_bin_other_file f32 u64 _ _ _ _ _ _ _ _ _ _ Hne Hsaverot)
    in L0.
  rewrite <- (load_bin_other_file f32 f32 _ _ _ _ _ _ _ _ _ _ Hne Hsaverot)
    in L1.
  rewrite <- (load_bin_other_file f32 f32 _ _ _ _ _ _ _ _ _ _ Hne Hsaverot)
    in L2.
  rewrite <- (load_bin_other_file f32 u32 _ _ _ _ _ _ _ _ _ _ Hne Hsaverot)
    in L3.
  subst num_centers.
  destruct (load_pq_centroid_bin_intro indeterminate' (Trainer.files s')
              path num_chunks false METADATA_SIZE c1 c2 0%Z c3 1%Z
              (Trainer.heap s8 Trainer.full_pivot_data)
              (Trainer.heap s8 Trainer.centroid) co
              (Z.of_nat dim) (Z.of_nat (length co)))
    as (t & Hload & Htab & Hcen & Hco & Hdim & Hn);
    [exact L0|exact L1|exact L2|exact L3| | |].
  { destruct Hnum as [->| ->]; [by left|right].
    rewrite Hlenco. unfold wrap64. rewrite Z.mod_small; lia. }
  { right. eexists. exact LR. }
  destruct (load_pq_centroid_bin_rotation _ _ _ _ _ _ _ _ Hload LR)
    as [Huse Hrot].
  exists t, co. rewrite Hheap, Hheap9.
  split; [done|]. split; [done|]. split; [done|].
  split; [done|]. split; [done|]. split; [done|]. split.
  { rewrite Hn, Hlenco. unfold wrap64. rewrite Z.mod_small; lia. }
  split; [done|]. by rewrite Hrot, Hheap9.
Qed.


Lemma opq_pivots_round_trip_witness :
  OpqExample.run.1 = Ok 0%Z /\
  exists t chunk_offsets_trained,
    load_pq_centroid_bin (fun _ => fzero)
      (Trainer.files OpqExample.run.2) "opq_pivots.bin" 1 = Ok t /\
    Partition.chunk_partition 2 1 = Some chunk_offsets_trained /\
    tables t = Trainer.heap OpqExample.run.2 Trainer.full_pivot_data /\
    centroid t = Trainer.heap OpqExample.run.2 Trainer.centroid /\
    chunk_offsets t = chunk_offsets_trained /\
    ndims t = Z.of_nat 2 /\
    n_chunks t = Z.of_nat 1 /\
    use_rotation t = true /\
    rotmat_tr t = Trainer.heap OpqExample.run.2 Trainer.rotmat_tr.
Proof.
  split; [vm_compute; reflexivity|].
  unfold OpqExample.run.
  apply (opq_pivots_round_trip Example.METADATA_SIZE 1 (fun _ => fzero)
           (fun _ => fzero) Example.kmeanspp Example.lloyds Example.sgemm
           OpqExample.sgesdd 2 2 256 1 "opq_pivots.bin" true
           (Example.start ∅) 1).
  - exact F32_bytes_ok.
  - unfold Example.METADATA_SIZE. lia.
  - lia.
  - reflexivity.
  - vm_compute. reflexivity.
  - right. reflexivity.
Defined.
(** ** The encoder after the OPQ trainer *)
Section EncoderOpq.
Import Trainer.
Context {F Dbl : Type} {O : FloatOps F Dbl} {B : FloatBytes F}.
Variable write_codes : Z -> Z -> list Z -> Trainer.M (F := F) Z.

Ltac run_step H := rewrite (bind_run _ _ _ _ _ H); cbv beta iota.
Ltac read_offset := cbn [lookup list_lookup of_option]; rewrite bind_lift.

(** A pivot file of four matrices of the shapes asked for, with a
    rotation matrix beside it, passes the checks of the encoder with
    [use_opq]. *)
Lemma encoder_accepts_opq (s : state) (data_file pq_pivots_path : string)
    (num_centers num_pq_chunks : nat) (num_points dim o0 o1 o2 o3 nc0 : Z)
    (pivots mean rotmat : list F) (chunk_offsets : list Z) :
  read_base_header data_file s = (Ok (num_points, dim), s) ->
  load_bin u64 (files s) pq_pivots_path 0 = Ok ([o0; o1; o2; o3], 4, nc0)%Z ->
  load_bin f32 (files s) pq_pivots_path o0
    = Ok (pivots, Z.of_nat num_centers, dim) ->
  load_bin f32 (files s) pq_pivots_path o1 = Ok (mean, dim, 1%Z) ->
  load_bin u32 (files s) pq_pivots_path o2
    = Ok (chunk_offsets, (Z.of_nat num_pq_chunks + 1)%Z, 1%Z) ->
  load_bin f32 (files s) (pq_pivots_path +:+ "_rotation_matrix.bin") 0
    = Ok (rotmat, dim, dim) ->
  generate_pq_data_from_pivots write_codes data_file num_centers
    num_pq_chunks pq_pivots_path true s
  = write_codes num_points dim chunk_offsets
      (State
         (upd rotmat_tr rotmat
            (upd centroid mean (upd full_pivot_data pivots (heap s))))
         (files s) (cout s ++ ["Loaded PQ pivot information"])).
Proof.
  intros Hheader Hoff Hpivots Hmean Hco Hrot.
  unfold generate_pq_data_from_pivots. run_step Hheader.
  assert (Hexists : m_file_exists pq_pivots_path s = (Ok true, s)).
  { unfold m_file_exists, file_exists.
    rewrite bool_decide_eq_true_2; [done|].
    unfold load_bin in Hoff. by destruct (files s !! pq_pivots_path). }
  run_step Hexists. cbn [negb].
  assert (H0 : m_load_bin u64 pq_pivots_path 0 s
               = (Ok ([o0; o1; o2; o3], 4, nc0)%Z, s)).
  { unfold m_load_bin. by rewrite Hoff. }
  run_step H0. change (negb (4 =? 4)%Z) with false. cbv iota.
  read_offset.
  assert (H1 : m_load_bin f32 pq_pivots_path o0 s
               = (Ok (pivots, Z.of_nat num_centers, dim), s)).
  { unfold m_load_bin. by rewrite Hpivots. }
  run_step H1.
  rewrite (bind_run (set_buf full_pivot_data pivots) _ s _ () eq_refl).
  rewrite !Z.eqb_refl. cbn [negb orb].
  set (s1 := set_heap full_pivot_data pivots s).
  read_offset.
  assert (H2 : m_load_bin f32 pq_pivots_path o1 s1 = (Ok (mean, dim, 1%Z), s1)).
  { unfold m_load_bin. cbn [files s1 set_heap]. by rewrite Hmean. }
  run_step H2.
  rewrite (bind_run (set_buf centroid mean) _ s1 _ () eq_refl).
  rewrite !Z.eqb_refl. cbn [negb orb].
  set (s2 := set_heap centroid mean s1).
  read_offset.
  assert (H3 : m_load_bin u32 pq_pivots_path o2 s2
               = (Ok (chunk_offsets, (Z.of_nat num_pq_chunks + 1)%Z, 1%Z),
                  s2)).
  { unfold m_load_bin. cbn [files s2 s1 set_heap]. by rewrite Hco. }
  run_step H3. rewrite !Z.eqb_refl. cbn [negb orb].
  assert (H4 : m_load_bin f32 (pq_pivots_path +:+ "_rotation_matrix.bin") 0 s2
               = (Ok (rotmat, dim, dim), s2)).
  { unfold m_load_bin. cbn [files s2 s1 set_heap]. by rewrite Hrot. }
  set (s3 := set_heap rotmat_tr rotmat s2).
  assert (H5 : ('(rotmat, nr, nc) ←
                  m_load_bin f32
                    (pq_pivots_path +:+ "_rotation_matrix.bin") 0;
                set_buf rotmat_tr rotmat;;
                if (negb (nr =? dim) || negb (nc =? dim))%Z
                then
                  print "Error reading rotation matrix file.";;
                  throw "Error reading rotation matrix file."
                else mret ()) s2 = (Ok (), s3)).
  { run_step H4.
    rewrite (bind_run (set_buf rotmat_tr rotmat) _ s2 _ () eq_refl).
    by rewrite !Z.eqb_refl. }
  run_step H5.
  rewrite (bind_run (print _) _ s3 _ () eq_refl).
  reflexivity.
Qed.

End EncoderOpq.

(** X20. What [generate_opq_pivots] has written, [generate_pq_data_from_pivots]
    takes when it is called with [use_opq = true], for any number of
    centres below [2 ^ 20] and any dimension below [2 ^ 31]: after a
    training run that returns 0, the encoder called with the same numbers
    of centres and of chunks, on base vectors of the same dimension,
    passes its checks of the pivot file and of the rotation matrix file
    and goes on to encode with the chunk offsets of the training; the
    pivots, the mean and the rotation matrix it has loaded are those the
    training left in memory, and the files are as the training left
    them. *)
Theorem opq_trained_pivots_pass_the_encoder {F Dbl : Type}
    {O : FloatOps F Dbl} {B : FloatBytes F}
    (METADATA_SIZE : Z) (MAX_OPQ_ITERS : nat) (indeterminate : nat -> F)
    (kmeanspp_selecting_pivots : list F -> nat -> nat -> list F -> nat -> list F)
    (run_lloyds : list F -> nat -> nat -> list F -> nat -> nat
                  -> list F * list Z)
    (cblas_sgemm : bool -> nat -> nat -> nat -> list F -> nat -> list F -> nat
                   -> list F -> nat -> list F)
    (LAPACKE_sgesdd : nat -> nat -> list F -> nat
                      -> Z * list F * list F * list F * list F)
    (write_codes : Z -> Z -> list Z -> Trainer.M (F := F) Z)
    (num_train dim num_centers num_pq_chunks : nat)
    (path data_file : string) (make_zero_mean : bool) (s : Trainer.state)
    (num_points : Z) :
  let run :=
    Trainer.generate_opq_pivots METADATA_SIZE MAX_OPQ_ITERS indeterminate
      kmeanspp_selecting_pivots run_lloyds cblas_sgemm LAPACKE_sgesdd
      num_train dim num_centers num_pq_chunks path make_zero_mean s in
  FloatBytesOk F ->
  (40 <= METADATA_SIZE < 2 ^ 32)%Z ->
  (Z.of_nat dim < 2 ^ 31)%Z ->
  (Z.of_nat num_centers < 2 ^ 20)%Z ->
  run.1 = Ok 0%Z ->
  Trainer.read_base_header data_file run.2
    = (Ok (num_points, Z.of_nat dim), run.2) ->
  exists chunk_offsets s',
    Partition.chunk_partition dim num_pq_chunks = Some chunk_offsets /\
    Trainer.generate_pq_data_from_pivots write_codes data_file num_centers
      num_pq_chunks path true run.2
    = write_codes num_points (Z.of_nat dim) chunk_offsets s' /\
    Trainer.files s' = Trainer.files run.2 /\
    (forall b, Trainer.heap s' b = Trainer.heap run.2 b) /\
    Trainer.cout s' = Trainer.cout run.2 ++ ["Loaded PQ pivot information"].
Proof.
  intros run BOk HM HD HK Hrun Hheader.
  destruct run as [r s'] eqn:Erun. unfold run in Erun. clear run.
  cbn [fst snd] in *. subst r.
  destruct (generate_opq_pivots_Ok _ _ _ _ _ _ _ _ _ _ _ _ _ _ _ Erun)
    as (co & s8 & s9 & cb & w & Hpart & Hsave & Hsaverot & Hheap & Hlenc
        & Hlenf & Hlenr & Hle).
  assert (HD' : (Z.of_nat dim < 2 ^ 32)%Z) by lia.
  destruct (chunk_partition_u32 _ _ _ Hpart Hle HD') as (Hlenco & Hu32).
  assert (Hn : (0 <= Z.of_nat num_centers * Z.of_nat dim < 2 ^ 52)%Z).
  { split; [lia|]. change (2 ^ 52)%Z with (2 ^ 20 * 2 ^ 32)%Z.
    apply Z.mul_lt_mono_nonneg; lia. }
  assert (Hsmall : (Z.of_nat num_centers * Z.of_nat dim < 2 ^ 32)%Z).
  { pose proof (save_pivots_fits _ _ _ _ _ _ _ _ Hsave) as Hfit.
    rewrite Hlenf in Hfit. unfold wrap64, wrap32 in Hfit.
    rewrite (Z.mod_small (Z.of_nat num_centers * Z.of_nat dim) (2 ^ 64))
      in Hfit by lia.
    destruct (decide (Z.of_nat num_centers * Z.of_nat dim < 2 ^ 32)%Z)
      as [|Hbig]; [done|].
    pose proof (Z.mod_pos_bound (Z.of_nat num_centers * Z.of_nat dim)
                  (2 ^ 32) ltac:(lia)).
    lia. }
  destruct (save_pivots_loads METADATA_SIZE path co num_centers dim s8 s9 cb)
    as (c1 & c2 & c3 & -> & Hheap9 & Hn1 & Hn2 & L0 & L1 & L2 & L3);
    [done|lia|done|lia|done|done|].
  rewrite firstn_all2 in L1.
  2:{ rewrite Hlenf. unfold wrap32. rewrite Z.mod_small by lia. lia. }
  rewrite firstn_all2 in L2 by lia.
  rewrite Hlenco in L3.
  replace (Z.of_nat (num_pq_chunks + 1)) with (Z.of_nat num_pq_chunks + 1)%Z
    in L3 by lia.
  (* the rotation file *)
  assert (HDb : (0 <= Z.of_nat dim < 2 ^ 32)%Z) by lia.
  destruct (save_bin_inv f32 _ _ _ _ _ _ _ _ HDb HDb Hsaverot)
    as (Hfits & _ & _).
  rewrite Hheap9, Hlenr in Hfits.
  assert (Hdd : (Z.of_nat dim * Z.of_nat dim < 2 ^ 32)%Z).
  { destruct (decide (Z.of_nat dim * Z.of_nat dim < 2 ^ 32)%Z)
      as [|Hbig]; [done|].
    unfold wrap32 in Hfits.
    pose proof (Z.mod_pos_bound (Z.of_nat dim * Z.of_nat dim) (2 ^ 32)
                  ltac:(lia)).
    lia. }
  pose proof (load_after_save f32 _ f32_length f32_round_trip
                _ _ _ _ _ _ _ _ HDb HDb (all_floats_valid _) Hsaverot) as LR.
  rewrite firstn_all2 in LR.
  2:{ rewrite Hheap9, Hlenr. unfold wrap32. rewrite Z.mod_small by lia. lia. }
  assert (Hne : path +:+ "_rotation_matrix.bin" <> path)
    by (by apply append_suffix_ne).
  rewrite <- (load_bin_other_file f32 u64 _ _ _ _ _ _ _ _ _ _ Hne Hsaverot)
    in L0.
  rewrite <- (load_bin_other_file f32 f32 _ _ _ _ _ _ _ _ _ _ Hne Hsaverot)
    in L1.
  rewrite <- (load_bin_other_file f32 f32 _ _ _ _ _ _ _ _ _ _ Hne Hsaverot)
    in L2.
  rewrite <- (load_bin_other_file f32 u32 _ _ _ _ _ _ _ _ _ _ Hne Hsaverot)
    in L3.
  exists co. eexists. split; [done|]. split.
  { apply (encoder_accepts_opq write_codes s' data_file path num_centers
             num_pq_chunks num_points (Z.of_nat dim)
             METADATA_SIZE c1 c2 c3 1%Z _ _ _ co Hheader L0 L1 L2 L3 LR). }
  cbn [Trainer.files Trainer.heap Trainer.cout].
  split; [done|]. split; [|done].
  intros b. unfold Trainer.upd. rewrite Hheap, Hheap9.
  repeat case_decide; by subst.
Qed.

Lemma opq_trained_pivots_pass_the_encoder_witness :
  exists chunk_offsets s',
    Partition.chunk_partition 2 1 = Some chunk_offsets /\
    Trainer.generate_pq_data_from_pivots EncoderExample.write_codes
      "base.bin" 2 1 "opq_pivots.bin" true OpqEncoderExample.trained.2
    = EncoderExample.write_codes 1 (Z.of_nat 2) chunk_offsets s' /\
    Trainer.files s' = Trainer.files OpqEncoderExample.trained.2 /\
    (forall b,
       Trainer.heap s' b = Trainer.heap OpqEncoderExample.trained.2 b) /\
    Trainer.cout s'
    = Trainer.cout OpqEncoderExample.trained.2
      ++ ["Loaded PQ pivot information"].
Proof.
  unfold OpqEncoderExample.trained.
  apply (opq_trained_pivots_pass_the_encoder Example.METADATA_SIZE 1
           (fun _ => fzero) Example.kmeanspp Example.lloyds Example.sgemm
           OpqExample.sgesdd EncoderExample.write_codes 2 2 2 1
           "opq_pivots.bin" "base.bin" true
           (Example.start EncoderExample.base_files) 1%Z).
  - exact F32_bytes_ok.
  - unfold Example.METADATA_SIZE. lia.
  - lia.
  - lia.
  - vm_compute. reflexivity.
  - vm_compute. reflexivity.
Defined.
